(* ===== verification/_CoqProject ===== *)
-Q . S2P
Prelude.v
PyTime.v
Timestamps.v
Json.v
Models.v
Database.v
Sorting.v
ForeignKeys.v
HoldLineage.v
Sha256.v
JsonText.v
Base64.v
JsonBytes.v
FlatRecords.v
Lifecycle.v
Disk.v
DeletionJournal.v
DeletionJournalSafety.v
DeletionJournalProgress.v
Storage.v
World.v
BackupAuthority.v
BackupAuthorityFacts.v
Frontmatter.v
Projections.v
TaxonomyFacts.v
AccountErasure.v
AccountErasureSteps.v
SearchIndex.v
SearchProjection.v
SearchProjectionSafety.v
SearchErasure.v
QueueServer.v
AccountErasureProgress.v
AccountErasureSafety.v
AccountErasureItems.v
SearchTruth.v
Retention.v
Fair.v
RetentionHolds.v
RetentionSafety.v
RetentionHoldSafety.v
RetentionProgress.v
PostModeration.v
PostModerationSafety.v
ModerationEvidence.v
ProtocolArguments.v
ProtocolArgumentsFacts.v
Cursors.v
CursorSafety.v
BackupArchive.v
BackupArchiveFacts.v
ArtifactStaging.v
ArtifactDurability.v
ArtifactFacts.v
ArtifactDescriptors.v
ArtifactSafety.v
ArtifactReconcile.v
IntentGates.v
