(* ===== verification/Prelude.v ===== *)
(** * connect.md: a verification library for the API's core logic

    connect.md is a network of Markdown documents, posts and jobs served by a
    FastAPI application (src/apps/api/app).  The application keeps its ledger in
    PostgreSQL tables (models.py) and its immutable Markdown in a directory tree
    (services/storage.py); services change both under transactions, and two
    directory trees outside every backup record deletions.  This library is a
    shallow embedding of the services that carry the program's own logic, with the
    theorems that make them correct.

    ** Files: foundations

    - [Prelude]: Python text ([str] is a list of code points) with its order,
      UTF-8 both ways, [strip], [split], [join]; exceptions ([exn]), fallible
      results ([Res], [let?]) and computations over a state ([act], [let!]) in which
      effects made before an exception stay made; attribute assignment on rows
      ([r <| f := v |>]); the shared tactics.
    - [PyTime], [Timestamps]: aware datetimes at microsecond resolution,
      [isoformat] and [fromisoformat], and the round trip of timestamps.
    - [Json], [JsonText], [JsonBytes], [FlatRecords]: Python's JSON values,
      [json.dumps] in the forms the services use, [json.loads] on text and on bytes,
      their round trips and the injectivity of the canonical form.
    - [Sha256], [Base64]: SHA-256, HMAC-SHA-256 and base64url, executable.
    - [Models], [Database], [Sorting], [ForeignKeys]: models.py as one record and
      one row check per table the services touch, the database of those tables with
      its queries, UNIQUE constraints, INSERT, UPDATE and DELETE, ordered queries,
      and the foreign keys that restrict or cascade a deletion.
    - [Storage]: services/storage.py on POSIX over a file tree with links: path
      containment, verified reads, immutable writes, stale pending files, exact
      deletion.
    - [World]: a database together with a file store, transactions, and the
      relational ([keeps]) and exceptional ([raises_in]) program logics.
    - [Lifecycle]: the keyed digests and envelopes of auth.py that account deletion
      uses.
    - [Disk]: a directory tree run one system call at a time, with a budget of calls
      after which the process has crashed.

    ** Files: components

    - [HoldLineage]: services/hold_lineage.py, the ancestors a hold protects and
      the descendants that inherit it.
    - [Retention], [Fair], [RetentionSafety], [RetentionProgress]:
      services/retention.py, the fair candidate selection, the safety of the executor
      and its progress.
    - [RetentionHolds], [RetentionHoldSafety]: the two hold commands of cli.py, whose
      releases rewrite queued tasks, and what they guarantee.
    - [AccountErasure], [AccountErasureSteps], [AccountErasureSafety],
      [AccountErasureProgress], [AccountErasureItems]: services/account_erasure.py;
      the steps a run is made of; what every run keeps; the
      window that can starve; what processing one item guarantees.
      services/reservations.py is modelled with it.
    - [BackupAuthority], [BackupAuthorityFacts]: services/backup_authority.py, the
      registration and retirement of backup generations that erasures wait for.
    - [Frontmatter]: the validated frontmatter of a profile or resume and its two
      readings, taxonomy entries (services/taxonomy.py) and search fields
      (services/search.py).
    - [Projections], [TaxonomyFacts]: the projection of a document into the public
      taxonomy (services/taxonomy.py) and its withdrawal from exact search
      (services/exact_search.py), both used by erasure.
    - [SearchIndex], [QueueServer]: the writers of the Meilisearch index in
      services/search.py; the server is the interface [SearchServer], its promises
      [SearchServerLaws], and [QueueServer] is a server with a queue that meets them.
    - [SearchProjection], [SearchProjectionSafety], [SearchErasure], [SearchTruth]:
      services/search_projection.py, the rebuild of cli.py and the queue writes of
      services/documents.py; what keeps the index truthful; what erasure leaves to
      the worker; the properties.
    - [DeletionJournal], [DeletionJournalSafety], [DeletionJournalProgress]:
      services/deletion_journal.py on [Disk].
    - [PostModeration], [PostModerationSafety], [ModerationEvidence]:
      services/post_moderation.py, its transitions, and what an evidence digest
      binds.
    - [ProtocolArguments], [ProtocolArgumentsFacts]: protocol_arguments.py.
    - [Cursors], [CursorSafety]: services/cursors.py.
    - [BackupArchive], [BackupArchiveFacts]: services/backup_archive.py.
    - [ArtifactStaging], [ArtifactDurability], [ArtifactFacts],
      [ArtifactDescriptors], [ArtifactSafety], [ArtifactReconcile], [IntentGates]: the
      staged artifacts of services/storage.py; services/artifact_durability.py, its
      signed descriptors, staging and reconciler; what the operations change; the
      text of a descriptor; what staging and a reconciler run guarantee; the gates of
      intents as a step relation on tasks.

    Erasure and the projection worker meet in the task table: erasure leaves a task
    when it deletes a document and waits until none is left.  Retention and erasure
    share [World], [HoldLineage] and [Storage]; erasure calls [Projections] before
    it deletes a document, [ForeignKeys] when it deletes a row, and the mirror check
    of [DeletionJournal] before it scrubs a finished account.

    ** What the theorems show

    Retention: every interleaving of executor transactions, hold commands and the
    rest of the application keeps leases, tombstones and references consistent; a
    resource is disposed of at most once, never while a hold on it or an ancestor is
    unreleased; a disposal is complete; a claim is exclusive; failures back off or
    die; a run terminates, settles each task it claims and leaves none due when its
    limit covers them.  A hold is accepted only while no erasure it would stop is
    leased or done and no disposal has begun, and its release wakes exactly the
    queued disposals below it.

    Erasure: a run, however it ends, is a sequence of item, lifecycle, obligation
    and completion steps, from which invariants of whole histories follow; an
    account reported fully erased has all its items completed, its provider identity
    gone, its backup obligations proven and its tombstone written, for good; a claim
    takes the first ready item; an item under a hold is not executed; a deleted name
    stays reserved through every later run, in every spelling that folds to it.
    Three theorems record what the code does not do: no account that owes a proof
    for the current generation is ever reported, a refusal of the provider is never
    recorded, and a full window of waiting items stops the worker.

    Search: after any interleaving of worker transactions, retries, document writes,
    successful rebuilds, erasure runs and the concealment of the documents of a
    deleted account (which leaves no task and takes no lock), with late writes and
    lost answers, a document without a task is absent from the index, or public and
    current there, or concealed with its planned removal under way; an account is
    reported erased only when its deleted documents are gone from the index for
    good; a successful rebuild leaves exactly the public documents; the worker's
    reports are so.

    Artifacts: a staging never removes or replaces a file and leaves payload, signed
    descriptor and canonical copy; a run of the reconciler removes only what the
    database settled an hour after it was staged, and reports the store ready only
    if no stale stage and no promoted file of an absent write is left; descriptors
    read back; one task at a time is in the critical section of an intent.  One
    theorem records a fault: the directories of intents are never removed and fill
    the scan's limit for good.

    Backups: registration is atomic and attaches every open deletion; the current
    generation stays active; an archive is accepted exactly when its members form a
    bounded tree of plain files.  Taxonomy: every term shows what its memberships
    determine and has at least one.  Deletion journal: the witnesses pin the journal
    up to a collision between its entry files, an append is atomic at every system
    call, and appends refine an append-only log.  Hold lineage: both traversals
    terminate with exactly the transitive closure and are dual.  Storage: what is
    written is read back, nothing is overwritten, exact deletion removes one file.
    Moderation: decisions and reviews are specified table by table, keep duties
    separated, are final, act on the evidence the moderator approved, and fail
    cleanly.  Protocol arguments and cursors: the validators accept exactly what a
    declarative check accepts, and only issued cursors decode.

    ** Modelling choices

    A transaction runs alone on the state it starts from: row locks and
    [SERIALIZABLE] retries are read as that atomicity, and interleavings are
    sequences of transactions.  Random identifiers, clock readings, answers of the
    provider and of the search index, and rows other transactions lock are
    arguments.  Attribute writes are flushed where the service issues them; a row
    that breaks a constraint raises [IntegrityError] and the caller's transaction
    rolls the database, but not the files, back.  Foreign keys are checked when rows
    are deleted, as databases document RESTRICT and CASCADE; the services insert
    children of rows they have just read.  Tables with composite keys are keyed by
    the parts with a separator no text contains. Matching with [LIKE] is
    case-sensitive, as on PostgreSQL.  Both search projections are installed.
    Datetime overflow beyond year 9999 is not modelled. The search server is known
    by its laws: it applies accepted writes in order, says that a task succeeded
    only after applying it, and answers that the index is missing only when no
    document and no accepted write is left.  The canonical Markdown validators
    ([CanonicalMarkdown], [DocumentMarkdown]), AES-GCM, [str.casefold] and the text
    of floats are parameters, with the exceptions and laws their callers rely on.

    Fuel: [resolve] follows at most 4096 path components and links, the bound after
    which POSIX itself reports a loop; hold traversals take at most four levels and
    one step per row, shown enough; the run loops' fuel is their limit argument; the
    JSON parser's is twice the text plus two, shown enough for every serialized
    value; the cascade of a deletion is three levels deep, the depth of the
    references, shown enough.  The claim window of erasure is the code's hundred
    rows.  Twelve system calls suffice for an append to the journal.

    ** Not modelled

    main.py's request handlers (but for the concealment of documents) and the
    pydantic schemas, whose behaviour is largely that of their frameworks; the HTTP
    client of Clerk, search queries, the creation and update of documents beyond
    their queue writes, document conversion, migrations, the other operator commands
    and the repository's own tools; of storage.py the readiness probe, private
    exports and the Windows branches; of artifact_durability.py the PostgreSQL
    advisory lock, the sleep between runs and the database queries behind the
    reconciler's callbacks, which are arguments; durability across power loss; the
    interpreter's recursion limit and its refusal of integers with more than 4300
    digits. *)
From Stdlib Require Export ZArith Lia Ascii String.
From stdpp Require Export base tactics option list sorting gmap sets fin_maps strings.
Export (notations) String.

(** ** Python text: a [str] is a sequence of code points *)
Definition str : Type := list Z.

(** ASCII literals denote the [str] of their code points. *)
Definition u (s : string) : str :=
  map (fun c => Z.of_N (N_of_ascii c)) (list_ascii_of_string s).
Coercion u : string >-> str.
Global Arguments u : simpl never.

Global Instance str_eq_dec : EqDecision str := _.
Global Instance str_countable : Countable str := _.
Global Instance str_inhabited : Inhabited str := populate [].

(** [x == "literal"] and [x in {"literal", ...}]. *)
Definition eqs (x : str) (s : string) : bool := bool_decide (x = u s).
Definition one_of (x : str) (l : list string) : bool := existsb (eqs x) l.

Lemma eqs_true x s : eqs x s = true <-> x = u s.
Proof. unfold eqs. apply bool_decide_eq_true. Qed.
Lemma eqs_false x s : eqs x s = false <-> x <> u s.
Proof. unfold eqs. apply bool_decide_eq_false. Qed.
Lemma eqs_refl s : eqs (u s) s = true.
Proof. by apply eqs_true. Qed.
Lemma one_of_true x l : one_of x l = true <-> Exists (fun s => x = u s) l.
Proof.
  unfold one_of. rewrite existsb_exists, Exists_exists.
  split; intros (s & Hs & E); exists s; rewrite ?eqs_true in *; split; auto;
    by apply list_elem_of_In.
Qed.

(** Python's order on [str]: lexicographic on code points. *)
Fixpoint str_compare (a b : str) : comparison :=
  match a, b with
  | [], [] => Eq
  | [], _ => Lt
  | _, [] => Gt
  | x :: a', y :: b' =>
      match (x ?= y)%Z with Eq => str_compare a' b' | c => c end
  end.
Definition str_leb (a b : str) : bool :=
  match str_compare a b with Gt => false | _ => true end.
Definition str_ltb (a b : str) : bool :=
  match str_compare a b with Lt => true | _ => false end.
Definition str_le (a b : str) : Prop := str_leb a b = true.
Global Instance str_le_dec : RelDecision str_le.
Proof. intros a b. unfold str_le. apply _. Defined.

Lemma str_compare_eq a b : str_compare a b = Eq <-> a = b.
Proof.
  revert b. induction a as [|x a IH]; intros [|y b]; simpl; try (split; congruence).
  destruct (Z.compare_spec x y) as [->|H|H].
  - rewrite IH. split; congruence.
  - split; [discriminate|intros [=]; lia].
  - split; [discriminate|intros [=]; lia].
Qed.
Lemma str_compare_antisym a b : str_compare b a = CompOpp (str_compare a b).
Proof.
  revert b. induction a as [|x a IH]; intros [|y b]; simpl; try done.
  rewrite (Z.compare_antisym x y). destruct (x ?= y)%Z; simpl; auto.
Qed.
Lemma str_compare_lt_trans a b c :
  str_compare a b = Lt -> str_compare b c = Lt -> str_compare a c = Lt.
Proof.
  revert b c. induction a as [|x a IH]; intros [|y b] [|z c]; simpl; try done.
  destruct (Z.compare_spec x y) as [->|H|H], (Z.compare_spec y z) as [->|H'|H'];
    try done; intros ??.
  - eauto.
  - by rewrite (proj2 (Z.compare_lt_iff _ _) H).
  - by rewrite (proj2 (Z.compare_lt_iff x z) ltac:(lia)).
Qed.

Lemma str_leb_refl a : str_leb a a = true.
Proof. unfold str_leb. by rewrite (proj2 (str_compare_eq a a) eq_refl). Qed.
Lemma str_leb_total a b : str_leb a b = true \/ str_leb b a = true.
Proof. unfold str_leb. rewrite (str_compare_antisym a b). destruct (str_compare a b); auto. Qed.
Lemma str_leb_trans a b c : str_leb a b = true -> str_leb b c = true -> str_leb a c = true.
Proof.
  unfold str_leb. destruct (str_compare a b) eqn:E1; [|intros _|done].
  - apply str_compare_eq in E1 as ->. done.
  - destruct (str_compare b c) eqn:E2; [|intros _|done].
    + apply str_compare_eq in E2 as ->. by rewrite E1.
    + by rewrite (str_compare_lt_trans _ _ _ E1 E2).
Qed.
Lemma str_leb_antisym a b : str_leb a b = true -> str_leb b a = true -> a = b.
Proof.
  unfold str_leb. rewrite (str_compare_antisym a b).
  destruct (str_compare a b) eqn:E; try done. intros _ _. by apply str_compare_eq.
Qed.
Global Instance str_le_trans : Transitive str_le.
Proof. intros a b c. apply str_leb_trans. Qed.
Global Instance str_le_total : Total str_le.
Proof. intros a b. apply str_leb_total. Qed.
Global Instance str_le_antisymm : AntiSymm (=) str_le.
Proof. intros a b. apply str_leb_antisym. Qed.
Global Instance str_le_refl : Reflexive str_le.
Proof. intros a. apply str_leb_refl. Qed.

(** [sorted(...)] on a collection of strings. *)
Definition sorted_strs (l : list str) : list str := merge_sort str_le l.

(** The code points [str.strip()] removes: Python's [str.isspace]. *)
Definition py_isspace (c : Z) : bool :=
  ((9 <=? c) && (c <=? 13) || (28 <=? c) && (c <=? 32) || (c =? 133) || (c =? 160)
   || (c =? 5760) || (8192 <=? c) && (c <=? 8202) || (c =? 8232) || (c =? 8233)
   || (c =? 8239) || (c =? 8287) || (c =? 12288))%Z.

Section strip.
Context (p : Z -> bool).
Fixpoint lstrip_by (s : str) : str :=
  match s with
  | c :: s' => if p c then lstrip_by s' else s
  | [] => []
  end.
Definition rstrip_by (s : str) : str := rev (lstrip_by (rev s)).
Definition strip_by (s : str) : str := rstrip_by (lstrip_by s).

Lemma lstrip_by_head s c s' : lstrip_by s = c :: s' -> p c = false.
Proof. induction s as [|x s IH]; simpl; [done|]. destruct (p x) eqn:E; naive_solver. Qed.
Lemma lstrip_by_id s : (forall c s', s = c :: s' -> p c = false) -> lstrip_by s = s.
Proof. destruct s as [|x s]; [done|]. intros H. simpl. by rewrite (H x s). Qed.
Lemma lstrip_by_idem s : lstrip_by (lstrip_by s) = lstrip_by s.
Proof. apply lstrip_by_id. intros c s'. apply lstrip_by_head. Qed.
Lemma lstrip_by_suffix s : exists k, s = k ++ lstrip_by s.
Proof.
  induction s as [|x s [k IH]]; simpl; [by exists []|].
  destruct (p x); [exists (x :: k)|exists []]; simpl; congruence.
Qed.
Lemma lstrip_by_length s : length (lstrip_by s) <= length s.
Proof. destruct (lstrip_by_suffix s) as [k E]. rewrite E at 2. rewrite length_app. lia. Qed.
Lemma strip_by_length s : length (strip_by s) <= length s.
Proof.
  unfold strip_by, rstrip_by. rewrite length_rev.
  pose proof (lstrip_by_length (rev (lstrip_by s))) as H.
  rewrite length_rev in H. pose proof (lstrip_by_length s). lia.
Qed.
(** Stripping on the right keeps the first character (if it survives). *)
Lemma rstrip_by_prefix s : exists k, s = rstrip_by s ++ k.
Proof.
  destruct (lstrip_by_suffix (rev s)) as [k E]. exists (rev k).
  unfold rstrip_by. rewrite <- rev_app_distr, <- E. by rewrite rev_involutive.
Qed.
Lemma rstrip_by_idem s : rstrip_by (rstrip_by s) = rstrip_by s.
Proof. unfold rstrip_by. by rewrite rev_involutive, lstrip_by_idem. Qed.
Lemma strip_by_idem s : strip_by (strip_by s) = strip_by s.
Proof.
  assert (lstrip_by (strip_by s) = strip_by s) as E.
  { apply lstrip_by_id. intros c s' E. unfold strip_by in E.
    destruct (rstrip_by_prefix (lstrip_by s)) as [k Hk]. rewrite E in Hk.
    by apply (lstrip_by_head s c (s' ++ k)). }
  unfold strip_by at 1. rewrite E. apply rstrip_by_idem.
Qed.
End strip.
Definition strip : str -> str := strip_by py_isspace.

Lemma strip_idem s : strip (strip s) = strip s.
Proof. apply strip_by_idem. Qed.
Lemma strip_length s : length (strip s) <= length s.
Proof. apply strip_by_length. Qed.
Lemma zlen_strip s : (Z.of_nat (length (strip s)) <= Z.of_nat (length s))%Z.
Proof. pose proof (strip_length s). lia. Qed.

(** [len(s)] *)
Definition len {A} (s : list A) : Z := Z.of_nat (length s).
Lemma len_nonneg {A} (s : list A) : (0 <= len s)%Z.
Proof. unfold len. lia. Qed.

(** [s.startswith(p)], [s.removeprefix(p)]. *)
Fixpoint starts_with (p s : str) : bool :=
  match p, s with
  | [], _ => true
  | x :: p', y :: s' => (x =? y)%Z && starts_with p' s'
  | _ :: _, [] => false
  end.
Lemma starts_with_spec p s : starts_with p s = true <-> exists k, s = p ++ k.
Proof.
  revert s. induction p as [|x p IH]; intros s; simpl; [naive_solver|].
  destruct s as [|y s].
  - split; [done|]. by intros [k ?].
  - rewrite andb_true_iff, Z.eqb_eq, IH. naive_solver.
Qed.
Definition removeprefix (p s : str) : str :=
  if starts_with p s then drop (length p) s else s.
(** [s.endswith(p)] *)
Definition ends_with (p s : str) : bool := starts_with (rev p) (rev s).

(** [s.replace(old, new)] for a one-character [old]. *)
Definition replace_char (old : Z) (new : str) (s : str) : str :=
  flat_map (fun c => if (c =? old)%Z then new else [c]) s.

(** UTF-8 length and encoding; a lone surrogate makes [str.encode] raise. *)
Definition is_surrogate (c : Z) : bool := ((55296 <=? c) && (c <=? 57343))%Z.
Definition utf8_char (c : Z) : list Z :=
  (if c <? 128 then [c]
   else if c <? 2048 then [192 + c / 64; 128 + c mod 64]
   else if c <? 65536 then [224 + c / 4096; 128 + (c / 64) mod 64; 128 + c mod 64]
   else [240 + c / 262144; 128 + (c / 4096) mod 64; 128 + (c / 64) mod 64; 128 + c mod 64])%Z.
Definition utf8_encode (s : str) : option (list Z) :=
  if existsb is_surrogate s then None else Some (flat_map utf8_char s).

(** Strict UTF-8 decoding: no overlong forms, no surrogates, nothing above U+10FFFF. *)
Definition is_cont (b : Z) : bool := ((128 <=? b) && (b <=? 191))%Z.
Fixpoint utf8_decode (b : list Z) : option str :=
  (match b with
   | [] => Some []
   | b0 :: t =>
       if b0 <? 128 then cons b0 <$> (if 0 <=? b0 then utf8_decode t else None)
       else if (194 <=? b0) && (b0 <=? 223) then
         match t with
         | b1 :: t1 =>
             if is_cont b1 then cons ((b0 - 192) * 64 + (b1 - 128)) <$> utf8_decode t1 else None
         | [] => None
         end
       else if (224 <=? b0) && (b0 <=? 239) then
         match t with
         | b1 :: b2 :: t2 =>
             let c := (b0 - 224) * 4096 + (b1 - 128) * 64 + (b2 - 128) in
             if is_cont b1 && is_cont b2 && (2048 <=? c) && negb (is_surrogate c)
             then cons c <$> utf8_decode t2 else None
         | _ => None
         end
       else if (240 <=? b0) && (b0 <=? 244) then
         match t with
         | b1 :: b2 :: b3 :: t3 =>
             let c := (b0 - 240) * 262144 + (b1 - 128) * 4096 + (b2 - 128) * 64 + (b3 - 128) in
             if is_cont b1 && is_cont b2 && is_cont b3 && (65536 <=? c) && (c <=? 1114111)
             then cons c <$> utf8_decode t3 else None
         | _ => None
         end
       else None
   end)%Z.

(** What a Python [str] can hold. *)
Definition code_point (c : Z) : Prop := (0 <= c <= 1114111)%Z.

(** [lia] after division and modulo by constants are turned into equations. *)
Ltac zlia := Z.div_mod_to_equations; lia.

Lemma utf8_decode_char c s :
  code_point c -> is_surrogate c = false ->
  utf8_decode (utf8_char c ++ s) = cons c <$> utf8_decode s.
Proof.
  unfold code_point, utf8_char. intros Hc Hs. pose proof Hs as Hs'. unfold is_surrogate in Hs'.
  destruct (Z.ltb_spec c 128) as [H1|H1]; [|destruct (Z.ltb_spec c 2048) as [H2|H2];
    [|destruct (Z.ltb_spec c 65536) as [H3|H3]]]; cbn [app utf8_decode].
  - rewrite (proj2 (Z.ltb_lt c 128) H1), (proj2 (Z.leb_le 0 c)) by lia. done.
  - rewrite (proj2 (Z.ltb_ge _ _)) by zlia. unfold is_cont.
    repeat match goal with |- context[(?a <=? ?b)%Z] =>
      rewrite (proj2 (Z.leb_le a b)) by zlia end. simpl.
    do 2 f_equal. zlia.
  - rewrite (proj2 (Z.ltb_ge _ _)) by zlia. unfold is_cont.
    rewrite (proj2 (Z.leb_gt (224 + c / 4096) 223)) by zlia. rewrite andb_false_r.
    replace ((224 + c / 4096 - 224) * 4096 + (128 + (c / 64) mod 64 - 128) * 64
      + (128 + c mod 64 - 128))%Z with c by zlia. rewrite Hs.
    repeat match goal with |- context[(?a <=? ?b)%Z] =>
      rewrite (proj2 (Z.leb_le a b)) by zlia end. done.
  - rewrite (proj2 (Z.ltb_ge _ _)) by zlia. unfold is_cont.
    rewrite (proj2 (Z.leb_gt (240 + c / 262144) 223)) by zlia.
    rewrite (proj2 (Z.leb_gt (240 + c / 262144) 239)) by zlia. rewrite !andb_false_r.
    replace ((240 + c / 262144 - 240) * 262144 + (128 + (c / 4096) mod 64 - 128) * 4096
      + (128 + (c / 64) mod 64 - 128) * 64 + (128 + c mod 64 - 128))%Z with c by zlia.
    repeat match goal with |- context[(?a <=? ?b)%Z] =>
      rewrite (proj2 (Z.leb_le a b)) by zlia end. done.
Qed.

Lemma utf8_roundtrip s b :
  Forall code_point s -> utf8_encode s = Some b -> utf8_decode b = Some s.
Proof.
  unfold utf8_encode. intros Hs. destruct (existsb is_surrogate s) eqn:E; [done|].
  intros [= <-]. induction Hs as [|c s Hc _ IH]; [done|].
  simpl in E. apply orb_false_iff in E as [E1 E2].
  cbn [flat_map]. rewrite utf8_decode_char by done. by rewrite IH.
Qed.

(** [s.split(c)] for a one-character separator: never empty. *)
Fixpoint split_on (c : Z) (s : str) : list str :=
  match s with
  | [] => [[]]
  | x :: s' =>
      if (x =? c)%Z then [] :: split_on c s'
      else match split_on c s' with
           | w :: ws => (x :: w) :: ws
           | [] => [[x]]
           end
  end.
(** [sep.join(parts)] *)
Fixpoint join (sep : str) (parts : list str) : str :=
  match parts with
  | [] => []
  | [p] => p
  | p :: ps => p ++ sep ++ join sep ps
  end.
Lemma split_on_nonempty c s : split_on c s <> [].
Proof. destruct s as [|x s]; simpl; [done|]. repeat case_match; done. Qed.
Lemma join_split c s : join [c] (split_on c s) = s.
Proof.
  induction s as [|x s IH]; [done|]. simpl. pose proof (split_on_nonempty c s) as Hne.
  destruct (Z.eqb_spec x c) as [->|_].
  - destruct (split_on c s) as [|w ws]; [done|]. simpl in *. by rewrite IH.
  - destruct (split_on c s) as [|w ws]; [done|]. simpl in *. destruct ws; simpl in *; congruence.
Qed.
Lemma split_on_no_sep c s w : w ∈ split_on c s -> c ∉ w.
Proof.
  revert w. induction s as [|x s IH]; simpl; intros w.
  - intros ->%list_elem_of_singleton. by apply not_elem_of_nil.
  - destruct (Z.eqb_spec x c) as [->|Hne].
    + intros [->|H]%elem_of_cons; [by apply not_elem_of_nil|auto].
    + destruct (split_on c s) as [|w0 ws] eqn:E; [by apply split_on_nonempty in E|].
      intros [->|H]%elem_of_cons.
      * rewrite elem_of_cons. intros [->|H]; [done|]. by apply (IH w0); [left|].
      * apply IH. by right.
Qed.

(** ** Exceptions and fallible results *)
Inductive exn : Type :=
| ValueError (message : str)
| TypeError
| UnicodeEncodeError
| AssertionError
| OSError
| FileExistsError
| IndexError
| RuntimeError
| TarError
| IntegrityError
| HTTPException (status_code : Z) (detail : str)
| RetentionFailure (code : str)
| StorageIntegrityError (message : str)
| MarkdownValidationError (message : str)
| PostModerationConfigurationError (message : str)
| PostModerationNotFoundError (message : str)
| PostModerationConflictError (message : str)
| PostModerationInputError (message : str)
| PostModerationStorageError (message : str)
| PostModerationPreconditionError (message : str)
| BackupArchiveError (code : str)
| CursorError (message : str)
| AuthenticationUnavailable (message : str)
| DeletionJournalError (message : str)
| SearchUnavailable (message : str)
| ExactSearchUnavailable (message : str)
| TaxonomyUnavailable (message : str)
| TaxonomyProjectionError (message : str)
| AccountErasureFailure (code : str) (retryable : bool) (retry_at : option (Z * option Z))
| KeyError
| HTTPError  (* of httpx: no answer, or a status outside 2xx *)
| ProjectionFailure (code : str) (retryable : bool)
| ArtifactDurabilityUnavailable (message : str)
| StructError
| CancelledError
| Halted.  (* the process stopped: nothing after it ran *)

Inductive Res (A : Type) : Type :=
| Ok (a : A)
| Raise (e : exn).
Arguments Ok {A} a.
Arguments Raise {A} e.

Global Instance exn_eq_dec : EqDecision exn.
Proof. solve_decision. Defined.
Global Instance Res_eq_dec `{EqDecision A} : EqDecision (Res A).
Proof. solve_decision. Defined.

Definition res_bind {A B} (m : Res A) (k : A -> Res B) : Res B :=
  match m with Ok a => k a | Raise e => Raise e end.
(** [try: m except e: raise h(e)] *)
Definition map_exn {A} (h : exn -> exn) (m : Res A) : Res A :=
  match m with Ok a => Ok a | Raise e => Raise (h e) end.
Definition is_ok {A} (m : Res A) : bool := match m with Ok _ => true | Raise _ => false end.

(** A computation over a mutable state: effects made before an exception stay made. *)
Definition act (S A : Type) : Type := S -> Res A * S.
Definition ret {S A} (a : A) : act S A := fun s => (Ok a, s).
Definition raise {S A} (e : exn) : act S A := fun s => (Raise e, s).
Definition act_bind {S A B} (m : act S A) (k : A -> act S B) : act S B :=
  fun s => match m s with
           | (Ok a, s') => k a s'
           | (Raise e, s') => (Raise e, s')
           end.
Definition gets {S A} (f : S -> A) : act S A := fun s => (Ok (f s), s).
Definition modify {S} (f : S -> S) : act S unit := fun s => (Ok tt, f s).
Definition lift {S A} (m : Res A) : act S A := fun s => (m, s).
(** [try: m finally: f]: an exception of [f] replaces the outcome of [m]. *)
Definition finally {S A} (m : act S A) (f : act S unit) : act S A :=
  fun s => let '(r, s1) := m s in
           match f s1 with (Ok _, s2) => (r, s2) | (Raise e, s2) => (Raise e, s2) end.
(** [try: m except e: h(e)], keeping the state reached at the exception. *)
Definition catch {S A} (m : act S A) (h : exn -> act S A) : act S A :=
  fun s => match m s with
           | (Ok a, s') => (Ok a, s')
           | (Raise e, s') => h e s'
           end.

Declare Scope py_scope.
Delimit Scope py_scope with py.
Notation "'let?' x := m 'in' k" := (res_bind m (fun x => k))
  (at level 10, x pattern, k at level 200) : py_scope.
Notation "'let!' x := m 'in' k" := (act_bind m (fun x => k))
  (at level 10, x pattern, k at level 200) : py_scope.
Notation "m ;;; k" := (act_bind m (fun _ => k))
  (at level 199, right associativity) : py_scope.
Global Open Scope py_scope.

Lemma run_pair {S A : Type} (m : act S A) s : m s = ((m s).1, (m s).2).
Proof. by destruct (m s). Qed.
Lemma act_bind_run {S A B : Type} (m : act S A) (k : A -> act S B) s a s1 :
  m s = (Ok a, s1) -> act_bind m k s = k a s1.
Proof. unfold act_bind. by intros ->. Qed.
Lemma act_bind_fail {S A B : Type} (m : act S A) (k : A -> act S B) s e s1 :
  m s = (Raise e, s1) -> act_bind m k s = (Raise e, s1).
Proof. unfold act_bind. by intros ->. Qed.
Lemma finally_run {S A : Type} (m : act S A) (f : act S unit) s a s1 s2 :
  m s = (Ok a, s1) -> f s1 = (Ok tt, s2) -> finally m f s = (Ok a, s2).
Proof. unfold finally. by intros -> ->. Qed.
Lemma catch_run {S A : Type} (m : act S A) h s a s1 : m s = (Ok a, s1) -> catch m h s = (Ok a, s1).
Proof. unfold catch. by intros ->. Qed.
Lemma catch_fail {S A : Type} (m : act S A) h s e s1 : m s = (Raise e, s1) -> catch m h s = h e s1.
Proof. unfold catch. by intros ->. Qed.
Lemma res_bind_ok {A B} (m : Res A) (k : A -> Res B) b :
  res_bind m k = Ok b <-> exists a, m = Ok a /\ k a = Ok b.
Proof. destruct m; simpl; naive_solver. Qed.
Lemma map_exn_ok {A} h (m : Res A) a : map_exn h m = Ok a <-> m = Ok a.
Proof. destruct m; simpl; naive_solver. Qed.
Lemma act_bind_ok {S A B} (m : act S A) (k : A -> act S B) s b s' :
  act_bind m k s = (Ok b, s') <-> exists a s1, m s = (Ok a, s1) /\ k a s1 = (Ok b, s').
Proof. unfold act_bind. destruct (m s) as [[a|e] s1]; naive_solver. Qed.

(** Peel one successful step of a handler off a hypothesis. *)
Ltac inv_step :=
  match goal with
  | H : res_bind _ _ = Ok _ |- _ =>
      apply res_bind_ok in H; destruct H as (? & ? & H)
  | H : act_bind _ _ _ = (Ok _, _) |- _ =>
      apply act_bind_ok in H; destruct H as (? & ? & ? & H)
  | H : (if ?b then Raise _ else _) = Ok _ |- _ => destruct b eqn:?; [discriminate H|]
  | H : (if ?b then raise _ else _) _ = (Ok _, _) |- _ => destruct b eqn:?; [discriminate H|]
  | H : ret _ _ = _ |- _ => injection H as; subst
  | H : gets _ _ = _ |- _ => injection H as; subst
  | H : modify _ _ = _ |- _ => injection H as; subst
  | H : Ok _ = Ok _ |- _ => injection H as; subst
  | H : (Ok _, _) = (Ok _, _) |- _ => injection H as; subst
  | H : raise _ _ = (Ok _, _) |- _ => discriminate H
  | H : Raise _ = Ok _ |- _ => discriminate H
  end.
Ltac inv_steps := repeat inv_step.

(** Split the boolean guards a successful run passed. *)
Ltac bool_facts :=
  repeat match goal with
  | H : orb _ _ = false |- _ => apply orb_false_iff in H; destruct H
  | H : andb _ _ = true |- _ => apply andb_true_iff in H; destruct H
  | H : negb _ = false |- _ => apply negb_false_iff in H
  | H : negb _ = true |- _ => apply negb_true_iff in H
  | H : eqs _ _ = true |- _ => apply eqs_true in H
  | H : bool_decide _ = true |- _ => apply bool_decide_eq_true in H
  | H : bool_decide _ = false |- _ => apply bool_decide_eq_false in H
  | H : (_ <=? _)%Z = true |- _ => apply Z.leb_le in H
  | H : (_ <=? _)%Z = false |- _ => apply Z.leb_gt in H
  | H : (_ <? _)%Z = true |- _ => apply Z.ltb_lt in H
  | H : (_ <? _)%Z = false |- _ => apply Z.ltb_ge in H
  | H : (_ =? _)%Z = true |- _ => apply Z.eqb_eq in H
  | H : (_ =? _)%Z = false |- _ => apply Z.eqb_neq in H
  end.

(** ** Attribute assignment on rows

    [Eta R] gives a record type's constructor applied to its projections;
    [r <| f := v |>] is the row [r] with attribute [f] set to [v]. *)
Class Eta (R : Type) := eta : R -> R.
Class Setter {R T : Type} (proj : R -> T) := set_attr : T -> R -> R.
Ltac solve_setter :=
  match goal with
  | |- @Setter ?R ?T ?proj =>
      let inst := constr:(_ : Eta R) in
      let body := eval red in inst in
      let body := eval cbv beta in body in
      let pat := eval pattern proj in body in
      match pat with
      | ?F proj => let f := eval cbv beta in (fun (v : T) => F (fun _ => v)) in exact f
      end
  end.
Global Hint Extern 1 (Setter _) => solve_setter : typeclass_instances.
Notation "r <| f := v |>" := (set_attr (proj:=f) v r)
  (at level 1, left associativity, format "r  <|  f  :=  v  |>") : py_scope.
Global Arguments set_attr {R T} proj {_} v r /.

(** ** Generic lemmas on collections *)
Lemma size_list_to_set_le `{Countable A} (l : list A) :
  size (list_to_set l : gset A) <= length l.
Proof.
  induction l as [|x l IH]; [done|].
  rewrite list_to_set_cons, (size_union_alt {[x]} (list_to_set l)), size_singleton, length_cons.
  pose proof (subseteq_size (list_to_set l ∖ {[x]} : gset A) (list_to_set l) ltac:(set_solver)).
  lia.
Qed.
