(* ===== verification/PyTime.v ===== *)
(** * Python's [datetime] as the API uses it

    A [datetime] is a wall-clock reading in microseconds since 1970-01-01T00:00
    of the proleptic Gregorian calendar and, for an aware value, its offset from
    UTC in microseconds.  [timedelta] is a number of microseconds.  The range
    check of years 1..9999 is not modelled: instants are unbounded integers. *)
From Stdlib Require Decimal DecimalFacts DecimalZ.
From S2P Require Import Prelude.
Local Open Scope Z_scope.

Record datetime : Type := MkDatetime { wall : Z; tzoffset : option Z }.
Global Instance datetime_eq_dec : EqDecision datetime.
Proof. solve_decision. Defined.

(** The UTC instant of a value; the database compares columns by instant, and a
    value without a timezone is stored as UTC. *)
Definition instant (d : datetime) : Z := wall d - default 0 (tzoffset d).
Definition dt_leb (a b : datetime) : bool := instant a <=? instant b.
Definition dt_ltb (a b : datetime) : bool := instant a <? instant b.
Definition dt_eqb (a b : datetime) : bool := instant a =? instant b.
(** [max(a, b)]: the first argument unless the second is strictly later. *)
Definition dt_max (a b : datetime) : datetime := if dt_ltb a b then b else a.

Definition replace_utc (d : datetime) : datetime := MkDatetime (wall d) (Some 0).
(** [_utc], as every service writes it: [value if value.tzinfo is not None else
    value.replace(tzinfo=UTC)] *)
Definition utc (value : datetime) : datetime :=
  match tzoffset value with Some _ => value | None => replace_utc value end.
Definition astimezone_utc (d : datetime) : datetime := MkDatetime (instant d) (Some 0).
Definition dt_add (d : datetime) (delta : Z) : datetime := MkDatetime (wall d + delta) (tzoffset d).
Definition seconds (n : Z) : Z := n * 1000000.
Definition days (n : Z) : Z := n * 86400000000.
(** [d.astimezone(UTC).date()] as a number of days since 1970-01-01. *)
Definition utc_date (d : datetime) : Z := instant d / 86400000000.

Lemma instant_add d delta : instant (dt_add d delta) = instant d + delta.
Proof. unfold instant, dt_add; simpl. lia. Qed.
Lemma dt_leb_refl d : dt_leb d d = true.
Proof. unfold dt_leb. lia. Qed.
Lemma dt_leb_trans a b c : dt_leb a b = true -> dt_leb b c = true -> dt_leb a c = true.
Proof. unfold dt_leb. lia. Qed.
Lemma instant_max a b : instant (dt_max a b) = Z.max (instant a) (instant b).
Proof. unfold dt_max, dt_ltb. destruct (Z.ltb_spec (instant a) (instant b)); lia. Qed.

(** ** [isoformat] of an aware UTC value *)

(** Civil date (year, month, day) of a day number. *)
Definition civil (day : Z) : Z * Z * Z :=
  let z := day + 719468 in
  let era := z / 146097 in
  let doe := z - era * 146097 in
  let yoe := (doe - doe / 1460 + doe / 36524 - doe / 146096) / 365 in
  let doy := doe - (365 * yoe + yoe / 4 - yoe / 100) in
  let mp := (5 * doy + 2) / 153 in
  let d := doy - (153 * mp + 2) / 5 + 1 in
  let m := if mp <? 10 then mp + 3 else mp - 9 in
  let y := yoe + era * 400 + (if m <=? 2 then 1 else 0) in
  (y, m, d).

(** Decimal text of an integer ([str(n)]), and left padding with zeros. *)
Fixpoint uint_text (d : Decimal.uint) : str :=
  match d with
  | Decimal.Nil => []
  | Decimal.D0 d => 48 :: uint_text d
  | Decimal.D1 d => 49 :: uint_text d
  | Decimal.D2 d => 50 :: uint_text d
  | Decimal.D3 d => 51 :: uint_text d
  | Decimal.D4 d => 52 :: uint_text d
  | Decimal.D5 d => 53 :: uint_text d
  | Decimal.D6 d => 54 :: uint_text d
  | Decimal.D7 d => 55 :: uint_text d
  | Decimal.D8 d => 56 :: uint_text d
  | Decimal.D9 d => 57 :: uint_text d
  end.
Definition dec (n : Z) : str :=
  match Z.to_int n with
  | Decimal.Pos d => uint_text d
  | Decimal.Neg d => 45 :: uint_text d
  end.
Definition zfill (w : nat) (s : str) : str := replicate (w - length s) 48 ++ s.

Definition isoformat_utc (d : datetime) : str :=
  let t := instant d in
  let day := t / 86400000000 in
  let us := t mod 86400000000 in
  let '(y, m, dd) := civil day in
  let s := us / 1000000 in
  let micro := us mod 1000000 in
  zfill 4 (dec y) ++ u "-" ++ zfill 2 (dec m) ++ u "-" ++ zfill 2 (dec dd) ++ u "T"
  ++ zfill 2 (dec (s / 3600)) ++ u ":" ++ zfill 2 (dec (s / 60 mod 60)) ++ u ":"
  ++ zfill 2 (dec (s mod 60))
  ++ (if micro =? 0 then [] else u "." ++ zfill 6 (dec micro))
  ++ u "+00:00".

Example isoformat_utc_example :
  isoformat_utc (MkDatetime 1709211845000123 (Some 0)) = u "2024-02-29T13:04:05.000123+00:00".
Proof. vm_compute. reflexivity. Qed.
Example isoformat_utc_offset :
  isoformat_utc (MkDatetime 0 (Some 3600000000)) = u "1969-12-31T23:00:00+00:00".
Proof. vm_compute. reflexivity. Qed.

(** [s.replace(old, new)] for a non-empty [old]. *)
Fixpoint replace_str (fuel : nat) (old new s : str) : str :=
  match fuel with
  | O => s
  | S fuel =>
      match s with
      | [] => []
      | c :: t => if starts_with old s then new ++ replace_str fuel old new (drop (length old) s)
                  else c :: replace_str fuel old new t
      end
  end.
(** [value.astimezone(UTC).isoformat().replace("+00:00", "Z")] *)
Definition isoformat_z (d : datetime) : str :=
  let text := isoformat_utc d in replace_str (length text) (u "+00:00") (u "Z") text.

(** ** [datetime.fromisoformat]

    On extended-format texts [YYYY-MM-DD?HH:MM:SS], with an optional fraction
    and an offset [+HH:MM] or [-HH:MM]: the only shape the canonical timestamps
    of the Markdown contracts have.  The digits of a fraction after the sixth are
    dropped, as CPython does; any other text is a [ValueError] here. *)
Definition ascii_digit (c : Z) : option Z :=
  if (48 <=? c) && (c <=? 57) then Some (c - 48) else None.
Fixpoint digits (n : nat) (acc : Z) (s : str) : option (Z * str) :=
  match n with
  | O => Some (acc, s)
  | S n => match s with
           | [] => None
           | c :: t => d ← ascii_digit c; digits n (acc * 10 + d) t
           end
  end.
Definition literal (c : Z) (s : str) : option str :=
  match s with x :: t => if x =? c then Some t else None | [] => None end.
Definition leap (y : Z) : bool :=
  (y mod 4 =? 0) && (negb (y mod 100 =? 0) || (y mod 400 =? 0)).
Definition days_in_month (y m : Z) : Z :=
  if m =? 2 then (if leap y then 29 else 28)
  else if (m =? 4) || (m =? 6) || (m =? 9) || (m =? 11) then 30 else 31.
(** Day number of a civil date. *)
Definition day_number (y m d : Z) : Z :=
  let y := if m <=? 2 then y - 1 else y in
  let era := y / 400 in
  let yoe := y - era * 400 in
  let mp := if m <=? 2 then m + 9 else m - 3 in
  let doy := (153 * mp + 2) / 5 + d - 1 in
  let doe := yoe * 365 + yoe / 4 - yoe / 100 + doy in
  era * 146097 + doe - 719468.
Definition is_sign (c : Z) : bool := (c =? 43) || (c =? 45).
Fixpoint until_sign (s : str) : str * str :=
  match s with
  | [] => ([], [])
  | c :: t => if is_sign c then ([], s) else let '(a, b) := until_sign t in (c :: a, b)
  end.
(** Microseconds of a fraction: at most six digits. *)
Definition fraction (s : str) : option Z :=
  let n := Nat.min 6 (length s) in
  '(v, _) ← digits n 0 s;
  if (n =? 0)%nat then None else Some (v * 10 ^ Z.of_nat (6 - n)).
Definition parse_isoformat (s : str) : option datetime :=
  '(y, s) ← digits 4 0 s; s ← literal 45 s;
  '(m, s) ← digits 2 0 s; s ← literal 45 s;
  '(d, s) ← digits 2 0 s;
  '(h, s) ← digits 2 0 (drop 1 s); s ← literal 58 s;
  '(mi, s) ← digits 2 0 s; s ← literal 58 s;
  '(sec, s) ← digits 2 0 s;
  let '(frac, s) := until_sign s in
  micro ← match frac with
          | [] => Some 0
          | c :: f => if (c =? 46) || (c =? 44) then fraction f else None
          end;
  match s with
  | [] => None
  | sign :: s =>
      '(oh, s) ← digits 2 0 s; s ← literal 58 s;
      '(om, s) ← digits 2 0 s;
      let offset := (oh * 3600 + om * 60) * (if sign =? 45 then -1 else 1) in
      if bool_decide (s = []) && (1 <=? y) && (1 <=? m) && (m <=? 12) && (1 <=? d)
         && (d <=? days_in_month y m) && (h <=? 23) && (mi <=? 59) && (sec <=? 59)
         && (Z.abs offset <? 86400)
      then Some (MkDatetime (days (day_number y m d) + seconds (h * 3600 + mi * 60 + sec) + micro)
                            (Some (seconds offset)))
      else None
  end.
Definition fromisoformat (s : str) : Res datetime :=
  match parse_isoformat s with
  | Some d => Ok d
  | None => Raise (ValueError (u "Invalid isoformat string"))
  end.

Example fromisoformat_example :
  fromisoformat (u "2024-02-29T13:04:05.000123+00:00")
  = Ok (MkDatetime 1709211845000123 (Some 0)).
Proof. vm_compute. reflexivity. Qed.
Example fromisoformat_offset :
  fromisoformat (u "1970-01-01T00:00:00-01:30") = Ok (MkDatetime 0 (Some (-5400000000))).
Proof. vm_compute. reflexivity. Qed.
Example fromisoformat_range :
  fromisoformat (u "2023-02-29T13:04:05+00:00") = Raise (ValueError (u "Invalid isoformat string")).
Proof. vm_compute. reflexivity. Qed.

(** ** [.order_by(key.asc(), id.asc())] *)
Definition dt_id_before (a b : datetime * str) : bool :=
  dt_ltb a.1 b.1 || (dt_eqb a.1 b.1 && str_leb a.2 b.2).
Lemma dt_id_before_total a b : dt_id_before a b = true \/ dt_id_before b a = true.
Proof.
  unfold dt_id_before, dt_ltb, dt_eqb. destruct (Z.lt_trichotomy (instant a.1) (instant b.1))
    as [H|[H|H]].
  - left. apply orb_true_iff. left. by apply Z.ltb_lt.
  - rewrite H, Z.ltb_irrefl, Z.eqb_refl. simpl. apply str_leb_total.
  - right. apply orb_true_iff. left. by apply Z.ltb_lt.
Qed.
Lemma dt_id_before_trans a b c :
  dt_id_before a b = true -> dt_id_before b c = true -> dt_id_before a c = true.
Proof.
  unfold dt_id_before, dt_ltb, dt_eqb. rewrite !orb_true_iff, !andb_true_iff, !Z.ltb_lt, !Z.eqb_eq.
  intros [H1|[H1 H1']] [H2|[H2 H2']]; try (left; lia). right.
  split; [lia|by apply str_leb_trans with b.2].
Qed.
