(* ===== verification/Timestamps.v ===== *)
(** * Timestamps with microseconds, read back

    [isoformat(timespec="microseconds")] of a UTC value and its inverse: the
    calendar of [PyTime] is sound, and a timestamp between the years 1 and 9999 is
    read back from its text as the same instant. *)
From S2P Require Import Prelude PyTime.
Local Open Scope Z_scope.

(** [f"{v:0<n>d}"] of a number with at most [n] digits. *)
Definition fixed (n : nat) (v : Z) : str := map (fun i => 48 + v / 10 ^ Z.of_nat i mod 10) (rev (seq 0 n)).
(** Date and time to the microsecond, without offset. *)
Definition stamp (t : Z) : str :=
  let '(y, m, dd) := civil (t / 86400000000) in
  let us := t mod 86400000000 in
  let s := us / 1000000 in
  fixed 4 y ++ u "-" ++ fixed 2 m ++ u "-" ++ fixed 2 dd ++ u "T"
  ++ fixed 2 (s / 3600) ++ u ":" ++ fixed 2 (s / 60 mod 60) ++ u ":" ++ fixed 2 (s mod 60)
  ++ u "." ++ fixed 6 (us mod 1000000).
(** [value.astimezone(UTC).isoformat(timespec="microseconds")] *)
Definition isoformat_us (d : datetime) : str := stamp (instant d) ++ u "+00:00".
(** [....replace("+00:00", "Z")] *)
Definition isoformat_us_z (d : datetime) : str :=
  let text := isoformat_us d in replace_str (length text) (u "+00:00") (u "Z") text.

Example isoformat_us_example :
  isoformat_us_z (MkDatetime 1709211845000000 (Some 3600000000)) = u "2024-02-29T12:04:05.000000Z".
Proof. vm_compute. reflexivity. Qed.

(** ** Digits *)
Lemma fixed_S n v : fixed (S n) v = (48 + v / 10 ^ Z.of_nat n mod 10) :: fixed n v.
Proof. unfold fixed. rewrite seq_S, rev_app_distr. done. Qed.
Lemma length_fixed n v : length (fixed n v) = n.
Proof. unfold fixed. by rewrite length_map, length_rev, length_seq. Qed.
Lemma fixed_digit n v : Forall (fun c => 48 <= c <= 57) (fixed n v).
Proof.
  unfold fixed. apply Forall_map, Forall_true. intros i. pose proof (Z.mod_pos_bound (v / 10 ^ Z.of_nat i) 10). lia.
Qed.
Lemma pow_S n : 10 ^ Z.of_nat (S n) = 10 * 10 ^ Z.of_nat n.
Proof. rewrite Nat2Z.inj_succ, Z.pow_succ_r by lia. done. Qed.
Lemma fixed_mod n v w : v mod 10 ^ Z.of_nat n = w mod 10 ^ Z.of_nat n -> fixed n v = fixed n w.
Proof.
  revert v w. induction n as [|n IH]; intros v w; [done|]. rewrite !fixed_S, pow_S.
  set (p := 10 ^ Z.of_nat n) in *. assert (0 < p) as Hp by (apply Z.pow_pos_nonneg; lia).
  rewrite (Z.mul_comm 10 p), !(Z.rem_mul_r _ p 10) by lia. intros E.
  pose proof (Z.mod_pos_bound v p Hp). pose proof (Z.mod_pos_bound w p Hp).
  assert (v / p mod 10 = w / p mod 10) as Eq.
  { revert E. generalize (v / p mod 10) as a, (w / p mod 10) as b. intros a b E.
    destruct (Z.lt_trichotomy a b) as [?|[?|?]]; nia. }
  rewrite Eq in *. f_equal. apply IH. lia.
Qed.
(** The last [n] digits of [v]. *)
Lemma digits_fixed n acc v rest :
  digits n acc (fixed n v ++ rest) = Some (acc * 10 ^ Z.of_nat n + v mod 10 ^ Z.of_nat n, rest).
Proof.
  revert acc. induction n as [|n IH]; intros acc.
  - cbn. rewrite Z.mod_1_r. do 2 f_equal. lia.
  - rewrite fixed_S. cbn [digits app]. set (p := 10 ^ Z.of_nat n) in *.
    pose proof (Z.mod_pos_bound (v / p) 10 ltac:(lia)) as Hd. unfold ascii_digit.
    rewrite (proj2 (Z.leb_le 48 _)), (proj2 (Z.leb_le _ 57)) by lia. cbn [andb mbind option_bind].
    rewrite IH, pow_S. fold p. do 2 f_equal. assert (0 < p) as Hp by (apply Z.pow_pos_nonneg; lia).
    rewrite (Z.mul_comm 10 p), (Z.rem_mul_r v p 10) by lia. lia.
Qed.
Lemma digits_fixed_small n v rest : 0 <= v < 10 ^ Z.of_nat n ->
  digits n 0 (fixed n v ++ rest) = Some (v, rest).
Proof. intros H. rewrite digits_fixed, Z.mod_small by done. done. Qed.
(** Read digits are the fixed-width text of their value. *)
Lemma digits_inv n acc s v rest : digits n acc s = Some (v, rest) ->
  exists w, 0 <= w < 10 ^ Z.of_nat n /\ s = fixed n w ++ rest /\ v = acc * 10 ^ Z.of_nat n + w.
Proof.
  revert acc s. induction n as [|n IH]; intros acc s H.
  - cbn in H. injection H as <- <-. exists 0. cbn. split_and!; [lia|lia|done|lia].
  - destruct s as [|c t]; [done|]. cbn [digits] in H. unfold ascii_digit in H.
    destruct ((48 <=? c) && (c <=? 57)) eqn:Hc; [|done]. cbn [mbind option_bind] in H. bool_facts.
    apply IH in H as (w & Hw & -> & ->). set (p := 10 ^ Z.of_nat n) in *.
    exists ((c - 48) * p + w). rewrite pow_S, fixed_S. fold p. split; [nia|]. split; [|lia].
    assert (((c - 48) * p + w) / p mod 10 = c - 48) as ->.
    { rewrite Z.div_add_l, Z.div_small, Z.add_0_r by lia. apply Z.mod_small. lia. }
    cbn [app]. f_equal; [lia|]. f_equal. apply fixed_mod. fold p.
    rewrite Z.add_comm, Z.mod_add by lia. done.
Qed.
(** Texts of one width are ordered as their numbers. *)
Lemma fixed_compare n v w : str_compare (fixed n v) (fixed n w) = (v mod 10 ^ Z.of_nat n ?= w mod 10 ^ Z.of_nat n).
Proof.
  induction n as [|n IH]; [by rewrite !Z.mod_1_r|]. rewrite !fixed_S. cbn [str_compare]. rewrite IH, pow_S.
  set (p := 10 ^ Z.of_nat n). assert (0 < p) as Hp by (apply Z.pow_pos_nonneg; lia).
  rewrite (Z.mul_comm 10 p), !(Z.rem_mul_r _ p 10) by lia.
  pose proof (Z.mod_pos_bound v p Hp). pose proof (Z.mod_pos_bound w p Hp).
  destruct (Z.compare_spec (48 + v / p mod 10) (48 + w / p mod 10)) as [E|E|E].
  - replace (v / p mod 10) with (w / p mod 10) by lia.
    destruct (Z.compare_spec (v mod p) (w mod p)); symmetry;
      [apply Z.compare_eq_iff|apply Z.compare_lt_iff|apply Z.compare_gt_iff]; lia.
  - symmetry. apply Z.compare_lt_iff. nia.
  - symmetry. apply Z.compare_gt_iff. nia.
Qed.

(** ** The calendar *)
Lemma civil_ok day : let '(y, m, d) := civil day in
  1 <= m <= 12 /\ 1 <= d <= days_in_month y m /\ day_number y m d = day.
Proof.
  unfold civil. set (z := day + 719468). set (era := z / 146097). set (doe := z - era * 146097).
  assert (0 <= doe <= 146096) as Hdoe by (subst doe era; zlia).
  set (yoe := (doe - doe / 1460 + doe / 36524 - doe / 146096) / 365).
  assert (0 <= yoe <= 399 /\ 365 * yoe + yoe / 4 - yoe / 100 <= doe
    <= 365 * yoe + yoe / 4 - yoe / 100 + 365) as [Hy Hb] by (subst yoe; clearbody doe; zlia).
  assert (yoe < 399 -> doe < 365 * (yoe + 1) + (yoe + 1) / 4 - (yoe + 1) / 100) as Hnext
    by (subst yoe; clearbody doe; zlia).
  clearbody yoe. set (doy := doe - (365 * yoe + yoe / 4 - yoe / 100)).
  assert (0 <= doy <= 365) as Hdoy by (subst doy; lia).
  assert (doy = 365 -> (yoe + 1) mod 4 = 0 /\ ((yoe + 1) mod 100 <> 0 \/ yoe = 399)) as Hleap
    by (subst doy; clearbody doe; zlia).
  assert (doe = 365 * yoe + yoe / 4 - yoe / 100 + doy) as Ed by (subst doy; lia). clearbody doy.
  set (mp := (5 * doy + 2) / 153). assert (0 <= mp <= 11) as Hmp by (subst mp; zlia).
  assert (0 <= doy - (153 * mp + 2) / 5 /\ (153 * mp + 2) / 5 + (doy - (153 * mp + 2) / 5) = doy) as [Hd0 Hd1]
    by (subst mp; zlia).
  assert (0 <= mp < 12) as Hmp' by lia. set (d := doy - (153 * mp + 2) / 5 + 1).
  assert (d <= (if mp =? 11 then if doy =? 365 then 29 else 28
                else if (mp =? 1) || (mp =? 3) || (mp =? 6) || (mp =? 8) then 30 else 31)) as Hlen.
  { subst d mp. repeat case_match; bool_facts; zlia. }
  assert (1 <= d) as Hd by (subst d; lia).
  set (m := if mp <? 10 then mp + 3 else mp - 9).
  assert (z = era * 146097 + doe) as Ez by (subst doe; lia).
  assert (doy = (153 * mp + 2) / 5 + d - 1) as Edoy by (subst d; lia).
  clearbody d mp doe. set (b := if m <=? 2 then 1 else 0).
  assert ((if m <=? 2 then m + 9 else m - 3) = mp /\ 1 <= m <= 12 /\
    (if m <=? 2 then yoe + era * 400 + b - 1 else yoe + era * 400 + b) = yoe + era * 400) as (Em & Hm & Ey).
  { subst b m. repeat case_match; bool_facts; lia. }
  split; [done|]. split; [split; [done|]|].
  - eapply Z.le_trans; [exact Hlen|]. unfold days_in_month, leap. subst m b.
    repeat case_match; bool_facts; try lia; zlia.
  - unfold day_number. rewrite Ey, Em. replace ((yoe + era * 400) / 400) with era by zlia.
    replace (yoe + era * 400 - era * 400) with yoe by lia. lia.
Qed.

(** ** Reading a timestamp back *)
(** Years 1 to 9999, the range of Python's [datetime]. *)
Definition in_range (t : Z) : Prop := -62135596800000000 <= t < 253402300800000000.
Lemma civil_year t : in_range t -> 1 <= (civil (t / 86400000000)).1.1 <= 9999.
Proof.
  unfold in_range. intros H. set (day := t / 86400000000).
  assert (-719162 <= day <= 2932896) as Hday by (subst day; zlia). clearbody day. clear H.
  pose proof (civil_ok day) as Hc. destruct (civil day) as [[y m] d] eqn:E. cbn [fst].
  destruct Hc as (Hm & Hd & Hn).
  assert (d <= 31) as Hd31 by (unfold days_in_month in Hd; repeat case_match; lia).
  unfold day_number in Hn. destruct (m <=? 2) eqn:Em; bool_facts; zlia.
Qed.
Lemma digits_two v rest : 0 <= v < 100 -> digits 2 0 (fixed 2 v ++ rest) = Some (v, rest).
Proof. apply (digits_fixed_small 2). Qed.
Lemma until_sign_app s t : forallb (fun c => negb (is_sign c)) s = true ->
  until_sign (s ++ t) = let '(a, b) := until_sign t in (s ++ a, b).
Proof.
  induction s as [|c s IH]; cbn [app forallb until_sign]; [by destruct (until_sign t)|].
  intros [Hc Hs]%andb_true_iff. apply negb_true_iff in Hc. rewrite Hc, IH by done. by destruct (until_sign t).
Qed.
Lemma fixed_unsigned n v : forallb (fun c => negb (is_sign c)) (fixed n v) = true.
Proof.
  apply forallb_forall. intros c Hc%list_elem_of_In. pose proof (fixed_digit n v) as H.
  rewrite Forall_forall in H. specialize (H c Hc). unfold is_sign. lia.
Qed.
Lemma literal_app c s : literal c (c :: s) = Some s.
Proof. cbn. by rewrite Z.eqb_refl. Qed.

(** The text of an instant is read as that instant, in UTC. *)
Lemma parse_stamp t : in_range t ->
  parse_isoformat (stamp t ++ u "+00:00") = Some (MkDatetime t (Some 0)).
Proof.
  intros Hr. pose proof (civil_year t Hr) as Hy. pose proof (civil_ok (t / 86400000000)) as Hc.
  unfold stamp. destruct (civil (t / 86400000000)) as [[y m] d]. cbn [fst] in Hy. destruct Hc as (Hm & Hd & Hn).
  assert (d <= 31) as Hd31 by (unfold days_in_month in Hd; repeat case_match; lia).
  set (us := t mod 86400000000). set (s := us / 1000000).
  assert (0 <= s < 86400) as Hs by (subst s us; zlia).
  rewrite <- !app_assoc. unfold parse_isoformat.
  rewrite (digits_fixed_small 4) by (cbn; lia). cbn [mbind option_bind].
  change (u "-" ++ ?x) with (45 :: x). rewrite literal_app. cbn [mbind option_bind].
  rewrite digits_two by lia. cbn [mbind option_bind].
  change (u "-" ++ ?x) with (45 :: x). rewrite literal_app. cbn [mbind option_bind].
  rewrite digits_two by lia. cbn [mbind option_bind].
  change (drop 1 (u "T" ++ ?x)) with x. rewrite digits_two by zlia. cbn [mbind option_bind].
  change (u ":" ++ ?x) with (58 :: x). rewrite literal_app. cbn [mbind option_bind].
  rewrite digits_two by zlia. cbn [mbind option_bind].
  change (u ":" ++ ?x) with (58 :: x). rewrite literal_app. cbn [mbind option_bind].
  rewrite digits_two by zlia. cbn [mbind option_bind].
  change (u "." ++ ?x) with (46 :: x). cbn [until_sign]. change (is_sign 46) with false. cbn match.
  rewrite until_sign_app by apply fixed_unsigned. change (until_sign (u "+00:00")) with (@nil Z, u "+00:00").
  cbn match. rewrite app_nil_r.
  assert (fraction (fixed 6 (us mod 1000000)) = Some (us mod 1000000)) as ->.
  { unfold fraction. rewrite length_fixed. cbn [Nat.min Nat.eqb Nat.sub].
    rewrite <- (app_nil_r (fixed 6 _)), (digits_fixed_small 6) by (cbn; zlia). cbn. f_equal. lia. }
  change ((46 =? 46) || (46 =? 44)) with true. cbn [mbind option_bind].
  change (u "+00:00") with [43; 48; 48; 58; 48; 48]. cbn -[days_in_month day_number Z.mul Z.add Z.div Z.modulo].
  assert ((1 <=? y) && (1 <=? m) && (m <=? 12) && (1 <=? d) && (d <=? days_in_month y m) && (s / 3600 <=? 23)
    && (s / 60 mod 60 <=? 59) && (s mod 60 <=? 59) = true) as Hg.
  { rewrite !andb_true_iff, !Z.leb_le. repeat split; try lia; zlia. }
  rewrite !andb_true_iff in Hg. destruct Hg as [[[[[[[-> ->] ->] ->] ->] ->] ->] ->].
  rewrite Hn. cbn. unfold days, seconds. do 2 f_equal. subst s us. zlia.
Qed.

Lemma replace_offset s fuel : Forall (fun c => c <> 43) s -> (length s + 6 <= fuel)%nat ->
  replace_str fuel (u "+00:00") (u "Z") (s ++ u "+00:00") = s ++ u "Z".
Proof.
  intros H. revert fuel. induction H as [|c s Hc _ IH]; intros fuel Hf.
  - destruct fuel as [|[|fuel]]; [cbn in Hf; lia..|]. done.
  - destruct fuel as [|fuel]; [cbn in Hf; lia|]. cbn [app replace_str].
    change (u "+00:00") with [43; 48; 48; 58; 48; 48] at 1. cbn [starts_with].
    rewrite (proj2 (Z.eqb_neq 43 c)) by done. cbn [andb]. rewrite IH by (cbn in Hf; lia). done.
Qed.
Lemma stamp_chars t : Forall (fun c => 45 <= c <= 90) (stamp t).
Proof.
  unfold stamp. destruct (civil _) as [[y m] d].
  assert (forall n v, Forall (fun c => 45 <= c <= 90) (fixed n v)) as Hf
    by (intros n v; eapply Forall_impl; [apply fixed_digit|]; cbn; lia).
  repeat first [apply Forall_app; split|apply Hf];
    (apply Forall_cons_2; [vm_compute; split; discriminate|apply Forall_nil_2]).
Qed.
Lemma isoformat_us_z_eq d : isoformat_us_z d = stamp (instant d) ++ u "Z".
Proof.
  unfold isoformat_us_z, isoformat_us. apply replace_offset.
  - eapply Forall_impl; [apply stamp_chars|]. cbn. lia.
  - rewrite length_app. apply Nat.le_refl.
Qed.
