(* ===== verification/Json.v ===== *)
(** * JSON values and their text

    [pyval] is what [json.loads] returns and what the protocol edges receive; a
    [float] is represented by its [repr].  [dumps] is [json.dumps] with compact
    separators and sorted keys; [loads] is [json.loads]. *)
From Stdlib Require Decimal DecimalFacts DecimalZ.
From S2P Require Import Prelude PyTime.
Local Open Scope Z_scope.

Inductive pyval : Type :=
| PNone
| PBool (b : bool)
| PInt (n : Z)
| PFloat (repr : str)
| PStr (s : str)
| PList (l : list pyval)
| PDict (d : list (str * pyval)).  (* in insertion order, keys distinct *)

Section pyval_ind.
Context (P : pyval -> Prop).
Context (HNone : P PNone) (HBool : forall b, P (PBool b)) (HInt : forall n, P (PInt n))
  (HFloat : forall r, P (PFloat r)) (HStr : forall s, P (PStr s))
  (HList : forall l, Forall P l -> P (PList l))
  (HDict : forall d, Forall (fun kv => P kv.2) d -> P (PDict d)).
(** Structural induction through lists and dicts. *)
Fixpoint pyval_nested_ind (v : pyval) : P v :=
  match v with
  | PNone => HNone
  | PBool b => HBool b
  | PInt n => HInt n
  | PFloat r => HFloat r
  | PStr s => HStr s
  | PList l => HList l ((fix go l : Forall P l := match l with
                                     | [] => Forall_nil_2 P
                                     | v :: l' => Forall_cons_2 P v l' (pyval_nested_ind v) (go l')
                                     end) l)
  | PDict d => HDict d ((fix go d : Forall (fun kv => P kv.2) d := match d with
                                     | [] => Forall_nil_2 _
                                     | kv :: d' => Forall_cons_2 _ kv d' (pyval_nested_ind kv.2) (go d')
                                     end) d)
  end.
End pyval_ind.

(** [d.get(key)] / [d[key]] *)
Fixpoint dict_get (key : str) (d : list (str * pyval)) : option pyval :=
  match d with
  | [] => None
  | (k, v) :: d' => if bool_decide (key = k) then Some v else dict_get key d'
  end.
(** [d[key] = v] keeps the position of an existing key. *)
Fixpoint dict_set (key : str) (v : pyval) (d : list (str * pyval)) : list (str * pyval) :=
  match d with
  | [] => [(key, v)]
  | (k, w) :: d' => if bool_decide (key = k) then (k, v) :: d' else (k, w) :: dict_set key v d'
  end.
Definition has_key (key : str) (d : list (str * pyval)) : bool :=
  bool_decide (key ∈ d.*1).

(** ** Text *)

(** A hexadecimal escape, four lower-case digits. *)
Definition hexdigit (d : Z) : Z := if d <? 10 then 48 + d else 87 + d.
Definition u_escape (c : Z) : str :=
  [92; 117; hexdigit (c / 4096); hexdigit (c / 256 mod 16); hexdigit (c / 16 mod 16);
   hexdigit (c mod 16)].
(** [ensure_ascii] also escapes every character above ASCII, as surrogate
    pairs beyond the basic plane. *)
Definition esc (ensure_ascii : bool) (c : Z) : str :=
  if c =? 34 then [92; 34]
  else if c =? 92 then [92; 92]
  else if c =? 10 then [92; 110]
  else if c =? 13 then [92; 114]
  else if c =? 9 then [92; 116]
  else if c =? 12 then [92; 102]
  else if c =? 8 then [92; 98]
  else if c <? 32 then u_escape c
  else if ensure_ascii && (126 <? c) then
    if c <? 65536 then u_escape c
    else u_escape (55296 + (c - 65536) / 1024) ++ u_escape (56320 + (c - 65536) mod 1024)
  else [c].
Definition quote (ensure_ascii : bool) (s : str) : str :=
  34 :: flat_map (esc ensure_ascii) s ++ [34].

Definition key_leb {A : Type} (a b : str * A) : bool := str_leb a.1 b.1.
Fixpoint insert_key {A : Type} (x : str * A) (l : list (str * A)) : list (str * A) :=
  match l with
  | [] => [x]
  | y :: l' => if key_leb x y then x :: l else y :: insert_key x l'
  end.
(** [sort_keys=True] *)
Definition sort_keys {A : Type} (l : list (str * A)) : list (str * A) := foldr insert_key [] l.

(** [json.dumps(v, sort_keys=True, separators=(",", ":"))] *)
Fixpoint dumps (ensure_ascii : bool) (v : pyval) : str :=
  match v with
  | PNone => u "null"
  | PBool b => if b then u "true" else u "false"
  | PInt n => dec n
  | PFloat repr => repr
  | PStr s => quote ensure_ascii s
  | PList l => u "[" ++ join (u ",") (map (dumps ensure_ascii) l) ++ u "]"
  | PDict d =>
      u "{" ++ join (u ",") (map (fun kt => quote ensure_ascii kt.1 ++ u ":" ++ kt.2)
                               (sort_keys (map (fun kv => (kv.1, dumps ensure_ascii kv.2)) d)))
      ++ u "}"
  end.

Example dumps_example :
  dumps false (PDict [(u "b", PList [PInt (-12); PNone]); (u "a", PStr (10 :: 233 :: u "\"))])
  = u "{" ++ quote false (u "a") ++ u ":" ++ [34; 92; 110; 233; 92; 92; 34] ++ u ","
    ++ quote false (u "b") ++ u ":[-12,null]}".
Proof. vm_compute. reflexivity. Qed.
Example dumps_ascii :
  dumps true (PStr [128512]) = [34] ++ u "\ud83d\ude00" ++ [34].
Proof. vm_compute. reflexivity. Qed.

(** ** Parsing *)

Definition is_json_space (c : Z) : bool := (c =? 32) || (c =? 9) || (c =? 10) || (c =? 13).
Fixpoint skip_space (s : str) : str :=
  match s with
  | c :: t => if is_json_space c then skip_space t else s
  | [] => []
  end.
Definition hex_value (c : Z) : option Z :=
  if (48 <=? c) && (c <=? 57) then Some (c - 48)
  else if (97 <=? c) && (c <=? 102) then Some (c - 87)
  else if (65 <=? c) && (c <=? 70) then Some (c - 55)
  else None.
Definition hex4 (a b c d : Z) : option Z :=
  a ← hex_value a; b ← hex_value b; c ← hex_value c; d ← hex_value d;
  Some (((a * 16 + b) * 16 + c) * 16 + d).
(** The character after a backslash. *)
Definition unescape (e : Z) : option Z :=
  if e =? 34 then Some 34 else if e =? 92 then Some 92 else if e =? 47 then Some 47
  else if e =? 98 then Some 8 else if e =? 102 then Some 12 else if e =? 110 then Some 10
  else if e =? 114 then Some 13 else if e =? 116 then Some 9 else None.
Definition is_high (c : Z) : bool := (55296 <=? c) && (c <=? 56319).
Definition is_low (c : Z) : bool := (56320 <=? c) && (c <=? 57343).
Definition pair_value (hi lo : Z) : Z := 65536 + (hi - 55296) * 1024 + (lo - 56320).

(** [scanstring], strict: the text after the opening quote. *)
Fixpoint p_string (s : str) : option (str * str) :=
  match s with
  | [] => None
  | c :: t =>
      if c =? 34 then Some ([], t)
      else if c =? 92 then
        match t with
        | [] => None
        | e :: t1 =>
            if e =? 117 then
              match t1 with
              | a :: b :: c1 :: d :: t2 =>
                  n ← hex4 a b c1 d;
                  match t2 with
                  | x :: y :: a' :: b' :: c' :: d' :: t3 =>
                      match (if is_high n && (x =? 92) && (y =? 117) then hex4 a' b' c' d' else None)
                      with
                      | Some m =>
                          if is_low m
                          then '(w, r) ← p_string t3; Some (pair_value n m :: w, r)
                          else '(w, r) ← p_string t2; Some (n :: w, r)
                      | None => '(w, r) ← p_string t2; Some (n :: w, r)
                      end
                  | _ => '(w, r) ← p_string t2; Some (n :: w, r)
                  end
              | _ => None
              end
            else
              n ← unescape e; '(w, r) ← p_string t1; Some (n :: w, r)
        end
      else if c <? 32 then None
      else '(w, r) ← p_string t; Some (c :: w, r)
  end.

Definition add_digit (c : Z) (d : Decimal.uint) : option Decimal.uint :=
  if c =? 48 then Some (Decimal.D0 d) else if c =? 49 then Some (Decimal.D1 d)
  else if c =? 50 then Some (Decimal.D2 d) else if c =? 51 then Some (Decimal.D3 d)
  else if c =? 52 then Some (Decimal.D4 d) else if c =? 53 then Some (Decimal.D5 d)
  else if c =? 54 then Some (Decimal.D6 d) else if c =? 55 then Some (Decimal.D7 d)
  else if c =? 56 then Some (Decimal.D8 d) else if c =? 57 then Some (Decimal.D9 d)
  else None.
(** The longest run of digits. *)
Fixpoint p_digits (s : str) : Decimal.uint * str :=
  match s with
  | c :: t => let '(d, r) := p_digits t in
              match add_digit c d with
              | Some d' => (d', r)
              | None => (Decimal.Nil, s)
              end
  | [] => (Decimal.Nil, [])
  end.
(** A zero, or a run of digits that does not start with one. *)
Definition p_natural (s : str) : option (Decimal.uint * str) :=
  match p_digits s with
  | (Decimal.Nil, _) => None
  | (Decimal.D0 _, _) => Some (Decimal.D0 Decimal.Nil, drop 1 s)
  | (d, r) => Some (d, r)
  end.
(** An optional fraction and an optional exponent: what is left after them. *)
Definition skip_fraction (s : str) : str :=
  match s with
  | c :: t => if c =? 46 then match p_digits t with (Decimal.Nil, _) => s | (_, r) => r end else s
  | [] => []
  end.
Definition skip_sign (s : str) : str :=
  match s with c :: t => if (c =? 43) || (c =? 45) then t else s | [] => [] end.
Definition skip_exponent (s : str) : str :=
  match s with
  | c :: t => if (c =? 101) || (c =? 69)
              then match p_digits (skip_sign t) with (Decimal.Nil, _) => s | (_, r) => r end
              else s
  | [] => []
  end.

Section loads.
(** [repr(float(text))] of a JSON number with a fraction or an exponent; the
    value of a constant [NaN], [Infinity], [-Infinity], or [None] when the
    [parse_constant] hook rejects it; what becomes of the pairs of an object. *)
Context (float_repr : str -> str) (constant : str -> option pyval)
  (object_hook : list (str * pyval) -> option (list (str * pyval))).

Definition p_number (s : str) : option (pyval * str) :=
  let '(neg, t) := match s with
                   | c :: t => if c =? 45 then (true, t) else (false, s)
                   | [] => (false, s)
                   end in
  '(d, r) ← p_natural t;
  let r' := skip_exponent (skip_fraction r) in
  if (length r' =? length r)%nat
  then Some (PInt (Z.of_int (if neg : bool then Decimal.Neg d else Decimal.Pos d)), r)
  else Some (PFloat (float_repr (take (length s - length r') s)), r').
Definition p_literal (word : string) (v : option pyval) (s : str) : option (pyval * str) :=
  if starts_with (u word) s then v ← v; Some (v, drop (length (u word)) s) else None.
Definition p_atom (s : str) : option (pyval * str) :=
  match s with
  | [] => None
  | c :: _ =>
      if c =? 110 then p_literal "null" (Some PNone) s
      else if c =? 116 then p_literal "true" (Some (PBool true)) s
      else if c =? 102 then p_literal "false" (Some (PBool false)) s
      else if c =? 78 then p_literal "NaN" (constant (u "NaN")) s
      else if c =? 73 then p_literal "Infinity" (constant (u "Infinity")) s
      else if starts_with (u "-Infinity") s
      then p_literal "-Infinity" (constant (u "-Infinity")) s
      else p_number s
  end.

(** The value at the start of [s]; the elements of a list and the members of an
    object after the opening bracket.  Two calls consume at least
    one character, so twice the length of the text is fuel enough. *)
Fixpoint p_value (fuel : nat) (s : str) : option (pyval * str) :=
  match fuel with
  | O => None
  | S fuel =>
      match s with
      | [] => None
      | c :: t =>
          if c =? 34 then '(w, r) ← p_string t; Some (PStr w, r)
          else if c =? 91 then
            match skip_space t with
            | x :: r => if x =? 93 then Some (PList [], r)
                        else '(l, r) ← p_elements fuel (skip_space t); Some (PList l, r)
            | [] => None
            end
          else if c =? 123 then
            match skip_space t with
            | x :: r => if x =? 125 then (d ← object_hook []; Some (PDict d, r))
                        else '(l, r) ← p_members fuel (skip_space t);
                             d ← object_hook l; Some (PDict d, r)
            | [] => None
            end
          else p_atom s
      end
  end
with p_elements (fuel : nat) (s : str) : option (list pyval * str) :=
  match fuel with
  | O => None
  | S fuel =>
      '(v, r) ← p_value fuel s;
      match skip_space r with
      | x :: r => if x =? 93 then Some ([v], r)
                  else if x =? 44
                  then '(l, r) ← p_elements fuel (skip_space r); Some (v :: l, r)
                  else None
      | [] => None
      end
  end
with p_members (fuel : nat) (s : str) : option (list (str * pyval) * str) :=
  match fuel with
  | O => None
  | S fuel =>
      match s with
      | c :: t =>
          if c =? 34 then
            '(k, r) ← p_string t;
            match skip_space r with
            | x :: r =>
                if x =? 58 then
                  '(v, r) ← p_value fuel (skip_space r);
                  match skip_space r with
                  | y :: r => if y =? 125 then Some ([(k, v)], r)
                              else if y =? 44
                              then '(l, r) ← p_members fuel (skip_space r); Some ((k, v) :: l, r)
                              else None
                  | [] => None
                  end
                else None
            | [] => None
            end
          else None
      | [] => None
      end
  end.

(** [json.loads(text, ...)]; [None] is a [JSONDecodeError] or the hook's [ValueError]. *)
Definition loads (text : str) : option pyval :=
  '(v, r) ← p_value (2 + 2 * length text) (skip_space text);
  match skip_space r with [] => Some v | _ => None end.
End loads.

(** Python's default: a repeated key keeps its last value. *)
Definition last_wins (pairs : list (str * pyval)) : option (list (str * pyval)) :=
  Some (fold_left (fun d kv => dict_set kv.1 kv.2 d) pairs []).

Example loads_example :
  loads id (fun _ => None) last_wins
    (u " {" ++ quote false (u "k") ++ u " : [1, -2.5e3 ,true], " ++ quote false (u "k") ++ u ":"
     ++ quote true [128512] ++ u "} ")
  = Some (PDict [(u "k", PStr [128512])]).
Proof. vm_compute. reflexivity. Qed.
Example loads_number : loads id (fun _ => None) last_wins (u "[0, -10, 1.50, 01]") = None.
Proof. vm_compute. reflexivity. Qed.

(** ** What the parser makes of a serialized value *)

(** No floats, distinct keys, real characters. *)
Fixpoint plain (v : pyval) : Prop :=
  match v with
  | PFloat _ => False
  | PStr s => Forall code_point s
  | PList l => (fix go l := match l with [] => True | v :: l' => plain v /\ go l' end) l
  | PDict d => NoDup d.*1 /\
      (fix go d := match d with
                   | [] => True
                   | kv :: d' => Forall code_point kv.1 /\ plain kv.2 /\ go d'
                   end) d
  | _ => True
  end.
Lemma plain_list l : plain (PList l) <-> Forall plain l.
Proof. simpl. induction l as [|v l IH]; [done|]. rewrite Forall_cons, <- IH. done. Qed.
Lemma plain_dict d :
  plain (PDict d) <-> NoDup d.*1 /\ Forall (fun kv => Forall code_point kv.1 /\ plain kv.2) d.
Proof.
  simpl. apply and_iff_compat_l. induction d as [|kv d IH]; [done|].
  rewrite Forall_cons, <- IH. tauto.
Qed.
(** The same value with every dict in key order. *)
Fixpoint canon (v : pyval) : pyval :=
  match v with
  | PList l => PList (map canon l)
  | PDict d => PDict (sort_keys (map (fun kv => (kv.1, canon kv.2)) d))
  | _ => v
  end.

Lemma insert_key_map {A B : Type} (f : A -> B) x (l : list (str * A)) :
  insert_key (x.1, f x.2) (map (fun kv => (kv.1, f kv.2)) l)
  = map (fun kv => (kv.1, f kv.2)) (insert_key x l).
Proof.
  induction l as [|y l IH]; [done|]. simpl. unfold key_leb. simpl.
  destruct (str_leb x.1 y.1); [done|]. simpl. by rewrite IH.
Qed.
Lemma sort_keys_map {A B : Type} (f : A -> B) (l : list (str * A)) :
  sort_keys (map (fun kv => (kv.1, f kv.2)) l) = map (fun kv => (kv.1, f kv.2)) (sort_keys l).
Proof.
  unfold sort_keys. induction l as [|x l IH]; [done|]. simpl. rewrite IH. apply insert_key_map.
Qed.
Lemma insert_key_perm {A : Type} x (l : list (str * A)) : insert_key x l ≡ₚ x :: l.
Proof.
  induction l as [|y l IH]; [done|]. simpl. destruct (key_leb x y); [done|].
  rewrite IH. apply Permutation_swap.
Qed.
Lemma sort_keys_perm {A : Type} (l : list (str * A)) : sort_keys l ≡ₚ l.
Proof. induction l as [|x l IH]; [done|]. simpl. by rewrite insert_key_perm, IH. Qed.
Lemma canon_dict d :
  canon (PDict d) = PDict (map (fun kv => (kv.1, canon kv.2)) (sort_keys d)).
Proof. cbn [canon]. by rewrite <- sort_keys_map. Qed.

(** *** Strings *)
Lemma p_string_u a b c d n t :
  hex4 a b c d = Some n -> is_high n = false ->
  p_string (92 :: 117 :: a :: b :: c :: d :: t) = '(w, r) ← p_string t; Some (n :: w, r).
Proof.
  intros Hx Hn. cbn [p_string]. simpl Z.eqb. cbv iota. rewrite Hx. cbn [mbind option_bind].
  rewrite Hn. simpl. destruct t as [|x [|y [|a' [|b' [|c' [|d' t3]]]]]]; reflexivity.
Qed.
Lemma hex_value_digit d : 0 <= d < 16 -> hex_value (hexdigit d) = Some d.
Proof.
  intros H. unfold hexdigit, hex_value. destruct (Z.ltb_spec d 10).
  - destruct (_ && _) eqn:E; [f_equal; lia|lia].
  - destruct ((48 <=? 87 + d) && (87 + d <=? 57)) eqn:E; [lia|].
    rewrite (proj2 (Z.leb_le 97 (87 + d))), (proj2 (Z.leb_le (87 + d) 102)) by lia.
    cbn [andb]. f_equal. lia.
Qed.
Lemma hex4_escape c : 0 <= c < 65536 ->
  hex4 (hexdigit (c / 4096)) (hexdigit (c / 256 mod 16)) (hexdigit (c / 16 mod 16))
    (hexdigit (c mod 16)) = Some c.
Proof.
  intros H. unfold hex4. rewrite !hex_value_digit by zlia. simpl. f_equal. zlia.
Qed.
Lemma p_string_esc c s :
  0 <= c -> p_string (esc false c ++ s) = '(w, r) ← p_string s; Some (c :: w, r).
Proof.
  intros Hc. unfold esc. cbn [andb].
  repeat match goal with |- context[if c =? ?k then _ else _] =>
    destruct (Z.eqb_spec c k) as [->|?]; [reflexivity|] end.
  destruct (Z.ltb_spec c 32) as [Hlt|Hge].
  - unfold u_escape. cbn [app]. apply p_string_u; [apply hex4_escape; lia|].
    unfold is_high. apply andb_false_iff. left. apply Z.leb_gt. lia.
  - cbn [app p_string]. rewrite !(proj2 (Z.eqb_neq _ _)) by done.
    by rewrite (proj2 (Z.ltb_ge _ _)) by done.
Qed.
Lemma p_string_quote s rest :
  Forall code_point s -> p_string (flat_map (esc false) s ++ 34 :: rest) = Some (s, rest).
Proof.
  induction 1 as [|c s Hc _ IH]; [done|]. cbn [flat_map]. rewrite <- app_assoc.
  rewrite p_string_esc by (unfold code_point in Hc; lia). by rewrite IH.
Qed.

(** *** Integers *)
Definition not_digit (s : str) : Prop := forall c t, s = c :: t -> c < 48 \/ 57 < c.
Lemma add_digit_other c d : c < 48 \/ 57 < c -> add_digit c d = None.
Proof.
  intros H. unfold add_digit.
  repeat match goal with |- context[c =? ?k] => destruct (Z.eqb_spec c k); [lia|] end. done.
Qed.
Lemma p_digits_none s : not_digit s -> p_digits s = (Decimal.Nil, s).
Proof.
  destruct s as [|c t]; [done|]. intros H. simpl. destruct (p_digits t).
  by rewrite add_digit_other by (by eapply H).
Qed.
Lemma p_digits_text d rest : not_digit rest -> p_digits (uint_text d ++ rest) = (d, rest).
Proof.
  intros H. induction d; cbn [uint_text app]; [by apply p_digits_none|..];
    cbn [p_digits]; by rewrite IHd.
Qed.
(** The digits of [str(n)]: no leading zero. *)
Definition normal (d : Decimal.uint) : Prop :=
  d = Decimal.D0 Decimal.Nil \/ (d <> Decimal.Nil /\ forall e, d <> Decimal.D0 e).
Lemma nzhead_not_zero d e : Decimal.nzhead d <> Decimal.D0 e.
Proof. induction d; simpl; [done|exact IHd|done..]. Qed.
Lemma unorm_normal d : Decimal.unorm d = d -> normal d.
Proof.
  unfold Decimal.unorm. pose proof (nzhead_not_zero d) as Hnz. intros H.
  destruct (Decimal.nzhead d) eqn:E; [left; by rewrite <- H|by destruct (Hnz _ eq_refl)|..];
    right; rewrite <- H; split; intros; discriminate.
Qed.
Lemma dec_shape n :
  exists d, normal d /\
    (Z.to_int n = Decimal.Pos d \/ (Z.to_int n = Decimal.Neg d)).
Proof.
  pose proof (DecimalZ.to_of (Z.to_int n)) as H. rewrite DecimalZ.of_to in H.
  destruct (Z.to_int n) as [d|d]; exists d.
  - split; [|by left]. simpl in H. injection H as H. by apply unorm_normal.
  - split; [|by right]. simpl in H. pose proof (nzhead_not_zero d) as Hnz.
    destruct (Decimal.nzhead d) eqn:E; try discriminate H;
      [by destruct (Hnz _ eq_refl)|..]; injection H as H; right; rewrite H;
      split; intros; discriminate.
Qed.
Lemma p_natural_text d rest :
  normal d -> not_digit rest -> p_natural (uint_text d ++ rest) = Some (d, rest).
Proof.
  intros Hd Hr. unfold p_natural. rewrite p_digits_text by done.
  destruct Hd as [->|[Hn Hz]]; [done|]. by destruct d; [|destruct (Hz d)|..].
Qed.

(** *** What may follow a value *)
Definition delimited (s : str) : Prop :=
  match s with [] => True | c :: _ => c = 44 \/ c = 93 \/ c = 125 \/ c = 10 end.
Lemma delimited_not_digit s : delimited s -> not_digit s.
Proof. intros H c t ->. simpl in H. lia. Qed.
Lemma delimited_fraction s : delimited s -> skip_exponent (skip_fraction s) = s.
Proof.
  destruct s as [|c t]; [done|]. intros H. simpl in H. unfold skip_fraction.
  rewrite (proj2 (Z.eqb_neq c 46)) by lia. unfold skip_exponent.
  rewrite !(proj2 (Z.eqb_neq c _)) by lia. done.
Qed.

(** The first character of a serialized value. *)
Definition value_head (c : Z) : Prop :=
  c = 34 \/ c = 91 \/ c = 123 \/ c = 45 \/ 48 <= c <= 57 \/ c = 110 \/ c = 116 \/ c = 102.
Lemma uint_text_head d : d <> Decimal.Nil -> exists c t, uint_text d = c :: t /\ 48 <= c <= 57.
Proof. destruct d; [done|..]; intros _; eexists _, _; (split; [reflexivity|lia]). Qed.
Lemma normal_not_nil d : normal d -> d <> Decimal.Nil.
Proof. by intros [->|[H _]]. Qed.
Lemma dec_head n : exists c t, dec n = c :: t /\ (c = 45 \/ 48 <= c <= 57).
Proof.
  destruct (dec_shape n) as (d & Hd & [E|E]); unfold dec; rewrite E.
  - destruct (uint_text_head d (normal_not_nil _ Hd)) as (c & t & -> & ?). eauto.
  - eauto.
Qed.
Lemma dumps_head v : plain v -> exists c t, dumps false v = c :: t /\ value_head c.
Proof.
  unfold value_head. destruct v as [|b|n|r|s|l|d]; intros Hv; cbn [dumps].
  - eexists _, _. split; [reflexivity|]. vm_compute. tauto.
  - destruct b; (eexists _, _; split; [reflexivity|]; vm_compute; tauto).
  - destruct (dec_head n) as (c & t & -> & ?). exists c, t. split; [done|lia].
  - done.
  - eexists _, _. split; [reflexivity|lia].
  - eexists _, _. split; [reflexivity|]. vm_compute. tauto.
  - eexists _, _. split; [reflexivity|]. vm_compute. tauto.
Qed.
Lemma head_space c t : value_head c -> skip_space (c :: t) = c :: t.
Proof.
  unfold value_head. intros H. simpl. unfold is_json_space.
  rewrite !(proj2 (Z.eqb_neq c _)) by lia. done.
Qed.
Lemma dumps_space v r : plain v -> skip_space (dumps false v ++ r) = dumps false v ++ r.
Proof.
  intros Hv. destruct (dumps_head v Hv) as (c & t & -> & H). cbn [app]. by apply head_space.
Qed.
Lemma skip_mark (c : Z) t : is_json_space c = false -> skip_space (c :: t) = c :: t.
Proof. simpl. by intros ->. Qed.

Section loads_dumps.
Context (float_repr : str -> str) (constant : str -> option pyval)
  (object_hook : list (str * pyval) -> option (list (str * pyval))).
(** The object hook keeps pairs with distinct keys. *)
Hypothesis hook_distinct : forall d, NoDup d.*1 -> object_hook d = Some d.
Let value := p_value float_repr constant object_hook.
Let elements := p_elements float_repr constant object_hook.
Let members := p_members float_repr constant object_hook.

Lemma p_number_dec n rest :
  delimited rest -> p_number float_repr (dec n ++ rest) = Some (PInt n, rest).
Proof.
  intros Hr. destruct (dec_shape n) as (d & Hd & E).
  pose proof (delimited_not_digit _ Hr) as Hnd.
  unfold dec, p_number. destruct E as [E|E]; rewrite E.
  - destruct (uint_text_head d (normal_not_nil _ Hd)) as (c & t & Ht & Hc).
    rewrite Ht. cbn [app]. rewrite (proj2 (Z.eqb_neq c 45)) by lia.
    change (c :: t ++ rest) with ((c :: t) ++ rest). rewrite <- Ht.
    rewrite p_natural_text by done. cbn [mbind option_bind]. cbv zeta.
    by rewrite delimited_fraction, Nat.eqb_refl, <- E, DecimalZ.of_to.
  - cbn [app]. rewrite Z.eqb_refl. rewrite p_natural_text by done. cbn [mbind option_bind].
    cbv zeta. by rewrite delimited_fraction, Nat.eqb_refl, <- E, DecimalZ.of_to.
Qed.
Lemma starts_with_app p s : starts_with p (p ++ s) = true.
Proof. apply starts_with_spec. by exists s. Qed.
Lemma p_literal_app w v rest : p_literal w (Some v) (u w ++ rest) = Some (v, rest).
Proof. unfold p_literal. by rewrite starts_with_app, drop_app_length. Qed.

Lemma p_atom_value fuel v rest :
  match v with PNone | PBool _ | PInt _ => True | _ => False end -> delimited rest ->
  value (S fuel) (dumps false v ++ rest) = Some (v, rest).
Proof.
  intros Hv Hr. unfold value. destruct v as [|[]|n| | | |]; try destruct Hv; cbn [dumps];
    [exact (p_literal_app "null" PNone rest)|exact (p_literal_app "true" (PBool true) rest)
    |exact (p_literal_app "false" (PBool false) rest)|].
  - destruct (dec_head n) as (c & t & E & Hc).
    transitivity (p_number float_repr (dec n ++ rest)); [|by apply p_number_dec].
    rewrite E. cbn [app p_value p_atom]. rewrite !(proj2 (Z.eqb_neq c _)) by lia.
    destruct (starts_with (u "-Infinity") (c :: t ++ rest)) eqn:Hs; [|done]. exfalso.
    destruct (dec_shape n) as (d & Hd & [E'|E']); unfold dec in E; rewrite E' in E.
    + destruct (uint_text_head d (normal_not_nil _ Hd)) as (c' & t' & Ht & Hc').
      rewrite Ht in E. injection E as <- <-.
      change (u "-Infinity") with (45 :: u "Infinity") in Hs. cbn [starts_with] in Hs.
      apply andb_true_iff in Hs as [Hs _]. lia.
    + injection E as <- <-. change (u "-Infinity") with (45 :: 73 :: u "nfinity") in Hs.
      destruct (uint_text_head d (normal_not_nil _ Hd)) as (c' & t' & Ht & Hc').
      rewrite Ht in Hs. cbn [starts_with app] in Hs. rewrite Z.eqb_refl in Hs. cbn [andb] in Hs.
      apply andb_true_iff in Hs as [Hs _]. lia.
Qed.

Definition members_text (d : list (str * pyval)) : str :=
  join (u ",") (map (fun kv => quote false kv.1 ++ u ":" ++ dumps false kv.2) d).
Definition elements_text (l : list pyval) : str := join (u ",") (map (dumps false) l).
Lemma dumps_list l : dumps false (PList l) = u "[" ++ elements_text l ++ u "]".
Proof. reflexivity. Qed.
Lemma dumps_dict d :
  dumps false (PDict d) = u "{" ++ members_text (sort_keys d) ++ u "}".
Proof.
  cbn [dumps]. unfold members_text.
  by rewrite (sort_keys_map (dumps false)), map_map.
Qed.

(** The parser's equations. *)
Lemma elements_S fuel s :
  elements (S fuel) s =
  '(v, r) ← value fuel s;
  match skip_space r with
  | x :: r => if x =? 93 then Some ([v], r)
              else if x =? 44
              then '(l, r) ← elements fuel (skip_space r); Some (v :: l, r)
              else None
  | [] => None
  end.
Proof. reflexivity. Qed.
Lemma members_S fuel s :
  members (S fuel) s =
  match s with
  | c :: t =>
      if c =? 34 then
        '(k, r) ← p_string t;
        match skip_space r with
        | x :: r =>
            if x =? 58 then
              '(v, r) ← value fuel (skip_space r);
              match skip_space r with
              | y :: r => if y =? 125 then Some ([(k, v)], r)
                          else if y =? 44
                          then '(l, r) ← members fuel (skip_space r); Some ((k, v) :: l, r)
                          else None
              | [] => None
              end
            else None
        | [] => None
        end
      else None
  | [] => None
  end.
Proof. reflexivity. Qed.
Lemma value_S fuel c t :
  value (S fuel) (c :: t) =
  if c =? 34 then '(w, r) ← p_string t; Some (PStr w, r)
  else if c =? 91 then
    match skip_space t with
    | x :: r => if x =? 93 then Some (PList [], r)
                else '(l, r) ← elements fuel (skip_space t); Some (PList l, r)
    | [] => None
    end
  else if c =? 123 then
    match skip_space t with
    | x :: r => if x =? 125 then (d ← object_hook []; Some (PDict d, r))
                else '(l, r) ← members fuel (skip_space t);
                     d ← object_hook l; Some (PDict d, r)
    | [] => None
    end
  else p_atom float_repr constant (c :: t).
Proof. reflexivity. Qed.
#[local] Opaque value elements members.

Lemma member_step fuel s k r v y r' :
  p_string s = Some (k, 58 :: r) -> value fuel (skip_space r) = Some (v, y :: r') ->
  is_json_space y = false ->
  members (S fuel) (34 :: s) =
  if y =? 125 then Some ([(k, v)], r')
  else if y =? 44
  then '(l, r) ← members fuel (skip_space r'); Some ((k, v) :: l, r)
  else None.
Proof.
  intros H1 H2 Hy. rewrite members_S. change (34 =? 34) with true. cbv iota. rewrite H1.
  cbn [mbind option_bind]. rewrite skip_mark by done. change (58 =? 58) with true. cbv iota.
  rewrite H2. cbn [mbind option_bind]. by rewrite skip_mark.
Qed.
Lemma value_string fuel s w r :
  p_string s = Some (w, r) -> value (S fuel) (34 :: s) = Some (PStr w, r).
Proof. intros H. rewrite value_S. change (34 =? 34) with true. cbv iota. by rewrite H. Qed.
Lemma value_list fuel t l r :
  (exists x t', skip_space t = x :: t' /\ x <> 93) ->
  elements fuel (skip_space t) = Some (l, r) -> value (S fuel) (91 :: t) = Some (PList l, r).
Proof.
  intros (x & t' & E & Hne) H. rewrite value_S. change (91 =? 34) with false.
  change (91 =? 91) with true. cbv iota. rewrite H, E. by rewrite (proj2 (Z.eqb_neq _ _) Hne).
Qed.
Lemma value_dict fuel t l d r :
  (exists x t', skip_space t = x :: t' /\ x <> 125) ->
  members fuel (skip_space t) = Some (l, r) ->
  object_hook l = Some d -> value (S fuel) (123 :: t) = Some (PDict d, r).
Proof.
  intros (x & t' & E & Hne) H Hd. rewrite value_S. change (123 =? 34) with false.
  change (123 =? 91) with false. change (123 =? 123) with true. cbv iota. rewrite H, E.
  rewrite (proj2 (Z.eqb_neq _ _) Hne). cbn [mbind option_bind]. by rewrite Hd.
Qed.

(** [v] is read back from its text. *)
Definition reads (v : pyval) : Prop := forall fuel rest,
  (2 * length (dumps false v) <= fuel)%nat -> delimited rest ->
  value fuel (dumps false v ++ rest) = Some (canon v, rest).

Lemma elements_head v l (r : str) :
  plain v -> exists c t, elements_text (v :: l) ++ r = c :: t /\ value_head c.
Proof.
  intros Hv. destruct (dumps_head v Hv) as (c & t & E & Hc). exists c. unfold elements_text.
  cbn [map]. destruct (map (dumps false) l); cbn [join]; rewrite E; cbn [app]; eauto.
Qed.
Lemma elements_space v l r :
  plain v -> skip_space (elements_text (v :: l) ++ r) = elements_text (v :: l) ++ r.
Proof.
  intros Hv. destruct (elements_head v l r Hv) as (c & t & -> & Hc). by apply head_space.
Qed.
Lemma elements_cons v v' l :
  elements_text (v :: v' :: l) = dumps false v ++ 44 :: elements_text (v' :: l).
Proof. reflexivity. Qed.
#[local] Opaque elements_text.
Lemma reads_elements l fuel rest :
  l <> [] -> Forall plain l -> Forall reads l ->
  (2 * length (elements_text l) + 1 <= fuel)%nat ->
  elements fuel (elements_text l ++ 93 :: rest) = Some (map canon l, rest).
Proof.
  revert fuel. induction l as [|v l IH]; intros fuel Hne Hp Hr Hf; [done|].
  apply Forall_cons in Hp as [Hpv Hp]. apply Forall_cons in Hr as [Hrv Hr].
  destruct fuel as [|fuel]; [lia|]. rewrite elements_S. destruct l as [|v' l].
  - change (elements_text [v]) with (dumps false v) in *.
    rewrite (Hrv fuel (93 :: rest)); [|lia|simpl; auto].
    cbn [mbind option_bind]. by rewrite skip_mark.
  - rewrite elements_cons in *. rewrite length_app, length_cons in Hf. rewrite <- app_assoc.
    rewrite Hrv; [|lia|simpl; auto]. cbn [mbind option_bind app].
    rewrite skip_mark by done. change (44 =? 93) with false. change (44 =? 44) with true.
    cbv iota. rewrite elements_space by (by apply Forall_cons in Hp as [? _]).
    rewrite IH; [done|done|done|done|lia].
Qed.

Definition member_text (kv : str * pyval) : str :=
  quote false kv.1 ++ u ":" ++ dumps false kv.2.
Lemma members_cons kv kv' d :
  members_text (kv :: kv' :: d) = member_text kv ++ 44 :: members_text (kv' :: d).
Proof. reflexivity. Qed.
Lemma member_text_eq kv r :
  member_text kv ++ r
  = 34 :: flat_map (esc false) kv.1 ++ 34 :: 58 :: dumps false kv.2 ++ r.
Proof.
  unfold member_text, quote. cbn [app]. rewrite <- !app_assoc. reflexivity.
Qed.
Lemma members_head kv d r : exists t, members_text (kv :: d) ++ r = 34 :: t.
Proof.
  destruct d as [|kv' d].
  - change (members_text [kv]) with (member_text kv). rewrite member_text_eq. eauto.
  - rewrite members_cons, <- app_assoc, member_text_eq. eauto.
Qed.
#[local] Opaque members_text.

Lemma reads_members (d : list (str * pyval)) fuel rest :
  d <> [] -> Forall (fun kv => Forall code_point kv.1 /\ plain kv.2) d ->
  Forall (fun kv => reads kv.2) d ->
  (2 * length (members_text d) + 1 <= fuel)%nat ->
  members fuel (members_text d ++ 125 :: rest)
  = Some (map (fun kv => (kv.1, canon kv.2)) d, rest).
Proof.
  revert fuel. induction d as [|kv d IH]; intros fuel Hne Hp Hr Hf; [done|].
  apply Forall_cons in Hp as [[Hkey Hpv] Hp]. apply Forall_cons in Hr as [Hrv Hr].
  destruct fuel as [|fuel]; [lia|].
  assert (forall y r', delimited (y :: r') -> is_json_space y = false ->
    (2 * length (dumps false kv.2) <= fuel)%nat ->
    members (S fuel) (member_text kv ++ y :: r') =
    if y =? 125 then Some ([(kv.1, canon kv.2)], r')
    else if y =? 44
    then '(l, r) ← members fuel (skip_space r'); Some ((kv.1, canon kv.2) :: l, r)
    else None) as Hstep.
  { intros y r' Hy Hsp Hlen. rewrite member_text_eq.
    eapply member_step; [by apply p_string_quote| |done].
    rewrite dumps_space by done. by apply Hrv. }
  assert (length (member_text kv) >= length (dumps false kv.2) + 3)%nat as Hlen.
  { pose proof (f_equal length (member_text_eq kv [])) as E.
    rewrite !app_nil_r in E. rewrite E. cbn [length]. rewrite length_app. cbn [length]. lia. }
  destruct d as [|kv' d].
  - change (members_text [kv]) with (member_text kv) in *.
    rewrite Hstep; [done|simpl; auto|done|lia].
  - rewrite members_cons in *. rewrite length_app, length_cons in Hf. rewrite <- app_assoc.
    cbn [app]. rewrite Hstep; [|simpl; auto|done|lia].
    change (44 =? 125) with false. change (44 =? 44) with true. cbv iota.
    destruct (members_head kv' d (125 :: rest)) as (t & E).
    rewrite E, skip_mark by done. rewrite <- E. rewrite IH; [done|done|done|done|lia].
Qed.

Lemma plain_reads v : plain v -> reads v.
Proof.
  induction v as [|b|n|r|s|l IH|d IH] using pyval_nested_ind; intros Hp fuel rest Hf Hd.
  - destruct fuel; [simpl in Hf; lia|]. by apply p_atom_value.
  - destruct fuel; [destruct b; simpl in Hf; lia|]. by apply p_atom_value.
  - destruct (dec_head n) as (c & t & E & _).
    destruct fuel; [cbn [dumps] in Hf; rewrite E in Hf; simpl in Hf; lia|]. by apply p_atom_value.
  - done.
  - destruct fuel; [simpl in Hf; lia|]. cbn [dumps canon]. unfold quote. cbn [app].
    rewrite <- app_assoc. by apply value_string, p_string_quote.
  - apply plain_list in Hp. rewrite dumps_list in *. cbn [canon].
    change (u "[" ++ ?x) with (91 :: x) in *. change (u "]") with [93] in *.
    rewrite length_cons, length_app in Hf. cbn [length] in Hf.
    destruct fuel as [|fuel]; [lia|]. cbn [app]. rewrite <- app_assoc. cbn [app].
    destruct l as [|v l].
    { change (elements_text []) with ([] : str). cbn [app map]. rewrite value_S.
      by rewrite skip_mark. }
    pose proof Hp as Hp'. apply Forall_cons in Hp' as [Hpv _].
    pose proof (elements_space v l (93 :: rest) Hpv) as Hsp.
    apply value_list; rewrite Hsp.
    + destruct (elements_head v l (93 :: rest) Hpv) as (c & t & E & Hc).
      exists c, t. split; [done|]. unfold value_head in Hc. lia.
    + apply reads_elements; [done|done| |lia].
      apply Forall_forall. intros x Hx. rewrite Forall_forall in IH, Hp. auto.
  - pose proof Hp as [Hnd Hpd]%plain_dict. rewrite dumps_dict in *. rewrite canon_dict.
    change (u "{" ++ ?x) with (123 :: x) in *. change (u "}") with [125] in *.
    rewrite length_cons, length_app in Hf. cbn [length] in Hf.
    destruct fuel as [|fuel]; [lia|]. cbn [app]. rewrite <- app_assoc. cbn [app].
    pose proof (sort_keys_perm d) as Hperm.
    rewrite <- Hperm in IH, Hpd. rewrite <- Hperm in Hnd. clear Hperm Hp.
    destruct (sort_keys d) as [|kv d'].
    { change (members_text []) with ([] : str). cbn [app map]. rewrite value_S.
      rewrite skip_mark by done. cbn [mbind]. by rewrite hook_distinct by constructor. }
    destruct (members_head kv d' (125 :: rest)) as (t & E).
    assert (skip_space (members_text (kv :: d') ++ 125 :: rest)
      = members_text (kv :: d') ++ 125 :: rest) as Hsp by by rewrite E, skip_mark.
    eapply value_dict; rewrite ?Hsp.
    + exists 34, t. split; [done|lia].
    + apply reads_members; [done|done| |lia].
      rewrite Forall_forall in IH, Hpd |- *. intros x Hx. apply IH; [done|]. by apply Hpd.
    + apply hook_distinct. rewrite <- list_fmap_compose. exact Hnd.
Qed.

(** The text of a value is read back as the same value in canonical key order. *)
Lemma loads_dumps v :
  plain v -> loads float_repr constant object_hook (dumps false v) = Some (canon v).
Proof.
  intros Hv. unfold loads. rewrite <- (app_nil_r (dumps false v)) at 2.
  rewrite dumps_space by done.
  pose proof (plain_reads v Hv (2 + 2 * length (dumps false v))%nat [] ltac:(lia) I) as H.
  change (p_value float_repr constant object_hook) with value. by rewrite H.
Qed.
End loads_dumps.

(** Two values with the same text are the same up to the order of keys. *)
Lemma dumps_injective v w :
  plain v -> plain w -> dumps false v = dumps false w -> canon v = canon w.
Proof.
  intros Hv Hw E. assert (forall d : list (str * pyval), NoDup d.*1 -> Some d = Some d) as Hh by done.
  pose proof (loads_dumps id (fun _ => None) Some Hh v Hv) as H1.
  rewrite E, (loads_dumps id (fun _ => None) Some Hh w Hw) in H1. congruence.
Qed.

(** ** Objects at the top *)
Section loads_dict.
Context (float_repr : str -> str) (constant : str -> option pyval)
  (object_hook : list (str * pyval) -> option (list (str * pyval))) (P : list (str * pyval) -> Prop).
Hypothesis constant_scalar : forall s d, constant s <> Some (PDict d).
Hypothesis hook_P : forall l d, object_hook l = Some d -> P d.

Lemma p_literal_value w v s x r : p_literal w v s = Some (x, r) -> v = Some x.
Proof. unfold p_literal. case_match; [|done]. destruct v; [|done]. cbn. congruence. Qed.
Lemma p_number_scalar s d r : p_number float_repr s <> Some (PDict d, r).
Proof.
  unfold p_number. destruct (match s with [] => _ | _ => _ end) as [neg t].
  destruct (p_natural t) as [[n r']|]; [|done]. cbn -[Nat.eqb]. by case_match.
Qed.
Lemma p_atom_scalar s d r : p_atom float_repr constant s <> Some (PDict d, r).
Proof.
  unfold p_atom. destruct s as [|c t]; [done|]. intros H.
  repeat match type of H with (if ?b then _ else _) = _ => destruct b end;
    first [by apply p_number_scalar in H|apply p_literal_value in H; try done; by apply constant_scalar in H].
Qed.
Lemma p_value_dict fuel s d r : p_value float_repr constant object_hook fuel s = Some (PDict d, r) -> P d.
Proof.
  destruct fuel as [|fuel]; [done|]. destruct s as [|c t]; [done|]. cbn [p_value].
  destruct (c =? 34); [destruct (p_string t) as [[]|]; done|]. destruct (c =? 91).
  { destruct (skip_space t) as [|x t']; [done|]. destruct (x =? 93); [done|].
    intros ([? ?] & _ & ?)%bind_Some. done. }
  destruct (c =? 123); [|by intros H%p_atom_scalar].
  destruct (skip_space t) as [|x t']; [done|]. destruct (x =? 125).
  - intros (e & He & H)%bind_Some. injection H as -> _. eauto.
  - intros ([l r'] & _ & H)%bind_Some. apply bind_Some in H as (e & He & H). injection H as -> _. eauto.
Qed.
(** A parsed top-level object is a result of the hook. *)
Lemma loads_dict text d : loads float_repr constant object_hook text = Some (PDict d) -> P d.
Proof.
  unfold loads. intros ([v r] & Hv & H)%bind_Some. case_match; [|done]. injection H as ->.
  by eapply p_value_dict.
Qed.
End loads_dict.
