(* ===== verification/Models.v ===== *)
(** * The database rows (src/apps/api/app/models.py)

    One record per mapped class, with its columns in order, and a predicate
    [<Class>_ok] that says the row satisfies the column widths and the CHECK
    constraints the class declares. *)
From S2P Require Import Prelude PyTime.

(** [String(n)] columns and constraints on nullable columns. *)
Definition fits (n : Z) (s : str) : bool := (len s <=? n)%Z.
Definition if_some {A} (p : A -> bool) (o : option A) : bool :=
  match o with Some x => p x | None => true end.
Definition opt_fits (n : Z) (o : option str) : bool := if_some (fits n) o.
Definition not_null {A} (o : option A) : bool := match o with Some _ => true | None => false end.
Definition is_null {A} (o : option A) : bool := negb (not_null o).

Module Document.
Record Document : Type := Mk {
  id : str;
  kind : str;
  owner_id : str;
  public_identifier : str;
  visibility : str;
  schema_version : option Z;
  current_version : Z;
  created_at : datetime;
  updated_at : datetime
}.
Global Instance Document_eta : Eta Document := fun r =>
  Mk r.(id) r.(kind) r.(owner_id) r.(public_identifier) r.(visibility) r.(schema_version) r.(current_version) r.(created_at) r.(updated_at).
Definition Document_ok (r : Document) : bool :=
  fits 36 r.(id)
  && fits 16 r.(kind)
  && fits 255 r.(owner_id)
  && fits 100 r.(public_identifier)
  && fits 16 r.(visibility)
  && (if_some (λ x, (x =? 1) || (x =? 2))%Z r.(schema_version)).
End Document.

Module DocumentVersion.
Record DocumentVersion : Type := Mk {
  id : str;
  document_id : str;
  version : Z;
  sha256 : str;
  storage_path : str;
  actor_id : str;
  actor_method : str;
  grant_id : option str;
  created_at : datetime
}.
Global Instance DocumentVersion_eta : Eta DocumentVersion := fun r =>
  Mk r.(id) r.(document_id) r.(version) r.(sha256) r.(storage_path) r.(actor_id) r.(actor_method) r.(grant_id) r.(created_at).
Definition DocumentVersion_ok (r : DocumentVersion) : bool :=
  fits 36 r.(id)
  && fits 36 r.(document_id)
  && fits 64 r.(sha256)
  && fits 1024 r.(storage_path)
  && fits 255 r.(actor_id)
  && fits 32 r.(actor_method)
  && opt_fits 36 r.(grant_id).
End DocumentVersion.

Module PublicTaxonomyProjectionState.
Record PublicTaxonomyProjectionState : Type := Mk {
  taxonomy : str;
  revision : Z;
  status : str;
  contract_digest : str;
  last_error_code : option str;
  updated_at : datetime
}.
Global Instance PublicTaxonomyProjectionState_eta : Eta PublicTaxonomyProjectionState := fun r =>
  Mk r.(taxonomy) r.(revision) r.(status) r.(contract_digest) r.(last_error_code) r.(updated_at).
Definition PublicTaxonomyProjectionState_ok (r : PublicTaxonomyProjectionState) : bool :=
  fits 32 r.(taxonomy)
  && fits 24 r.(status)
  && fits 64 r.(contract_digest)
  && opt_fits 80 r.(last_error_code)
  && one_of r.(taxonomy) ["occupation"; "industry"; "location"; "skill"; "language"; "seniority"; "open_to"; "organization"; "representative"; "work_mode"]
  && one_of r.(status) ["backfill_required"; "building"; "ready"; "failed"]
  && (0 <=? r.(revision))%Z.
End PublicTaxonomyProjectionState.

Module PublicTaxonomyDocumentSnapshot.
Record PublicTaxonomyDocumentSnapshot : Type := Mk {
  document_id : str;
  document_version : Z;
  schema_version : Z;
  availability_status : str;
  availability_from : option str;
  representation_status : str;
  contact_disclosure : str;
  updated_at : datetime
}.
Global Instance PublicTaxonomyDocumentSnapshot_eta : Eta PublicTaxonomyDocumentSnapshot := fun r =>
  Mk r.(document_id) r.(document_version) r.(schema_version) r.(availability_status) r.(availability_from) r.(representation_status) r.(contact_disclosure) r.(updated_at).
Definition PublicTaxonomyDocumentSnapshot_ok (r : PublicTaxonomyDocumentSnapshot) : bool :=
  fits 36 r.(document_id)
  && fits 32 r.(availability_status)
  && opt_fits 40 r.(availability_from)
  && fits 32 r.(representation_status)
  && fits 32 r.(contact_disclosure)
  && (1 <=? r.(document_version))%Z
  && (r.(schema_version) =? 2)%Z.
End PublicTaxonomyDocumentSnapshot.

Module PublicTaxonomyTerm.
Record PublicTaxonomyTerm : Type := Mk {
  id : str;
  taxonomy : str;
  scheme : str;
  external_id : str;
  canonical_id : str;
  filter_value : str;
  label : option str;
  label_conflict : bool;
  vocabulary_version : option str;
  version_conflict : bool
}.
Global Instance PublicTaxonomyTerm_eta : Eta PublicTaxonomyTerm := fun r =>
  Mk r.(id) r.(taxonomy) r.(scheme) r.(external_id) r.(canonical_id) r.(filter_value) r.(label) r.(label_conflict) r.(vocabulary_version) r.(version_conflict).
Definition PublicTaxonomyTerm_ok (r : PublicTaxonomyTerm) : bool :=
  fits 36 r.(id)
  && fits 32 r.(taxonomy)
  && fits 80 r.(scheme)
  && fits 255 r.(external_id)
  && fits 336 r.(canonical_id)
  && fits 68 r.(filter_value)
  && opt_fits 160 r.(label)
  && opt_fits 64 r.(vocabulary_version)
  && one_of r.(taxonomy) ["occupation"; "industry"; "location"; "skill"; "language"; "seniority"; "open_to"; "organization"; "representative"; "work_mode"]
  && fits 336 r.(canonical_id)
  && bool_decide (r.(canonical_id) = r.(scheme) ++ u ":" ++ r.(external_id))
  && (len r.(filter_value) =? 68)%Z
  && bool_decide (take 4 r.(filter_value) = u "tx1_").
End PublicTaxonomyTerm.

Module PublicTaxonomyMembership.
Record PublicTaxonomyMembership : Type := Mk {
  id : str;
  document_id : str;
  term_id : str;
  field_name : str;
  source_ordinal : Z;
  label_assertion : str;
  vocabulary_version : option str;
  language_proficiency : option str;
  organization_relationship : option str;
  location_country_code : option str;
  location_region : option str;
  location_city : option str
}.
Global Instance PublicTaxonomyMembership_eta : Eta PublicTaxonomyMembership := fun r =>
  Mk r.(id) r.(document_id) r.(term_id) r.(field_name) r.(source_ordinal) r.(label_assertion) r.(vocabulary_version) r.(language_proficiency) r.(organization_relationship) r.(location_country_code) r.(location_region) r.(location_city).
Definition PublicTaxonomyMembership_ok (r : PublicTaxonomyMembership) : bool :=
  fits 36 r.(id)
  && fits 36 r.(document_id)
  && fits 36 r.(term_id)
  && fits 32 r.(field_name)
  && fits 160 r.(label_assertion)
  && opt_fits 64 r.(vocabulary_version)
  && opt_fits 32 r.(language_proficiency)
  && opt_fits 32 r.(organization_relationship)
  && opt_fits 2 r.(location_country_code)
  && opt_fits 100 r.(location_region)
  && opt_fits 100 r.(location_city).
End PublicTaxonomyMembership.

Module PublicExactSearchProjectionState.
Record PublicExactSearchProjectionState : Type := Mk {
  scope : str;
  revision : Z;
  status : str;
  contract_digest : str;
  last_error_code : option str;
  created_at : datetime;
  updated_at : datetime
}.
Global Instance PublicExactSearchProjectionState_eta : Eta PublicExactSearchProjectionState := fun r =>
  Mk r.(scope) r.(revision) r.(status) r.(contract_digest) r.(last_error_code) r.(created_at) r.(updated_at).
Definition PublicExactSearchProjectionState_ok (r : PublicExactSearchProjectionState) : bool :=
  fits 32 r.(scope)
  && fits 24 r.(status)
  && fits 64 r.(contract_digest)
  && opt_fits 80 r.(last_error_code)
  && eqs r.(scope) "documents"
  && one_of r.(status) ["backfill_required"; "building"; "ready"; "failed"]
  && (0 <=? r.(revision))%Z.
End PublicExactSearchProjectionState.

Module PublicExactSearchDocumentSnapshot.
Record PublicExactSearchDocumentSnapshot : Type := Mk {
  document_id : str;
  document_version : Z;
  source_sha256 : str;
  search_sha256 : str;
  kind : str;
  schema_version : Z;
  identifier : str;
  name : str;
  headline : str;
  title : option str;
  location : str;
  availability_status : option str;
  availability_from : option str;
  representation_status : option str;
  contact_disclosure : option str;
  updated_at : datetime;
  normalized_search_text : str;
  search_vector : str
}.
Global Instance PublicExactSearchDocumentSnapshot_eta : Eta PublicExactSearchDocumentSnapshot := fun r =>
  Mk r.(document_id) r.(document_version) r.(source_sha256) r.(search_sha256) r.(kind) r.(schema_version) r.(identifier) r.(name) r.(headline) r.(title) r.(location) r.(availability_status) r.(availability_from) r.(representation_status) r.(contact_disclosure) r.(updated_at) r.(normalized_search_text) r.(search_vector).
Definition PublicExactSearchDocumentSnapshot_ok (r : PublicExactSearchDocumentSnapshot) : bool :=
  fits 36 r.(document_id)
  && fits 64 r.(source_sha256)
  && fits 64 r.(search_sha256)
  && fits 16 r.(kind)
  && fits 100 r.(identifier)
  && fits 160 r.(name)
  && fits 280 r.(headline)
  && opt_fits 160 r.(title)
  && fits 280 r.(location)
  && opt_fits 32 r.(availability_status)
  && opt_fits 40 r.(availability_from)
  && opt_fits 32 r.(representation_status)
  && opt_fits 32 r.(contact_disclosure)
  && (1 <=? r.(document_version))%Z
  && ((r.(schema_version) =? 1) || (r.(schema_version) =? 2))%Z
  && one_of r.(kind) ["profile"; "resume"].
End PublicExactSearchDocumentSnapshot.

Module PublicExactSearchCompactValue.
Record PublicExactSearchCompactValue : Type := Mk {
  id : str;
  document_id : str;
  field_name : str;
  value : str;
  source_ordinal : Z
}.
Global Instance PublicExactSearchCompactValue_eta : Eta PublicExactSearchCompactValue := fun r =>
  Mk r.(id) r.(document_id) r.(field_name) r.(value) r.(source_ordinal).
Definition PublicExactSearchCompactValue_ok (r : PublicExactSearchCompactValue) : bool :=
  fits 36 r.(id)
  && fits 36 r.(document_id)
  && fits 16 r.(field_name)
  && fits 280 r.(value)
  && one_of r.(field_name) ["skill"; "location"].
End PublicExactSearchCompactValue.

Module SearchProjectionTask.
Record SearchProjectionTask : Type := Mk {
  document_id : str;
  version : Z;
  state : str;
  attempts : Z;
  available_at : datetime;
  lease_expires_at : option datetime;
  claimed_by : option str;
  claim_token : option str;
  last_error_code : option str;
  dead_lettered_at : option datetime;
  created_at : datetime;
  updated_at : datetime
}.
Global Instance SearchProjectionTask_eta : Eta SearchProjectionTask := fun r =>
  Mk r.(document_id) r.(version) r.(state) r.(attempts) r.(available_at) r.(lease_expires_at) r.(claimed_by) r.(claim_token) r.(last_error_code) r.(dead_lettered_at) r.(created_at) r.(updated_at).
Definition SearchProjectionTask_ok (r : SearchProjectionTask) : bool :=
  fits 36 r.(document_id)
  && fits 20 r.(state)
  && opt_fits 128 r.(claimed_by)
  && opt_fits 36 r.(claim_token)
  && opt_fits 64 r.(last_error_code)
  && one_of r.(state) ["pending"; "leased"; "dead_letter"]
  && (1 <=? r.(version))%Z
  && (0 <=? r.(attempts))%Z.
End SearchProjectionTask.

Module Post.
Record Post : Type := Mk {
  id : str;
  owner_id : str;
  author_profile_document_id : str;
  author_profile_handle : str;
  status : str;
  current_version : Z;
  sha256 : str;
  storage_path : str;
  published_at : datetime;
  created_at : datetime;
  updated_at : datetime;
  withdrawn_at : option datetime;
  withheld_at : option datetime
}.
Global Instance Post_eta : Eta Post := fun r =>
  Mk r.(id) r.(owner_id) r.(author_profile_document_id) r.(author_profile_handle) r.(status) r.(current_version) r.(sha256) r.(storage_path) r.(published_at) r.(created_at) r.(updated_at) r.(withdrawn_at) r.(withheld_at).
Definition Post_ok (r : Post) : bool :=
  fits 36 r.(id)
  && fits 255 r.(owner_id)
  && fits 36 r.(author_profile_document_id)
  && fits 100 r.(author_profile_handle)
  && fits 20 r.(status)
  && fits 64 r.(sha256)
  && fits 1024 r.(storage_path)
  && one_of r.(status) ["published"; "withdrawn"; "withheld"]
  && (r.(current_version) =? 1)%Z.
End Post.

Module PostVersion.
Record PostVersion : Type := Mk {
  id : str;
  post_id : str;
  version : Z;
  sha256 : str;
  storage_path : str;
  created_at : datetime
}.
Global Instance PostVersion_eta : Eta PostVersion := fun r =>
  Mk r.(id) r.(post_id) r.(version) r.(sha256) r.(storage_path) r.(created_at).
Definition PostVersion_ok (r : PostVersion) : bool :=
  fits 36 r.(id)
  && fits 36 r.(post_id)
  && fits 64 r.(sha256)
  && fits 1024 r.(storage_path)
  && (r.(version) =? 1)%Z.
End PostVersion.

Module PostRateBucket.
Record PostRateBucket : Type := Mk {
  owner_id : str;
  bucket_date : Z;
  post_count : Z;
  updated_at : datetime
}.
Global Instance PostRateBucket_eta : Eta PostRateBucket := fun r =>
  Mk r.(owner_id) r.(bucket_date) r.(post_count) r.(updated_at).
Definition PostRateBucket_ok (r : PostRateBucket) : bool :=
  fits 255 r.(owner_id).
End PostRateBucket.

Module ProfileFollow.
Record ProfileFollow : Type := Mk {
  id : str;
  follower_owner_id : str;
  followed_owner_id : str;
  followed_profile_handle : str;
  created_at : datetime
}.
Global Instance ProfileFollow_eta : Eta ProfileFollow := fun r =>
  Mk r.(id) r.(follower_owner_id) r.(followed_owner_id) r.(followed_profile_handle) r.(created_at).
Definition ProfileFollow_ok (r : ProfileFollow) : bool :=
  fits 36 r.(id)
  && fits 255 r.(follower_owner_id)
  && fits 255 r.(followed_owner_id)
  && fits 100 r.(followed_profile_handle).
End ProfileFollow.

Module PostGraphPairLock.
Record PostGraphPairLock : Type := Mk {
  pair_owner_low : str;
  pair_owner_high : str;
  created_at : datetime
}.
Global Instance PostGraphPairLock_eta : Eta PostGraphPairLock := fun r =>
  Mk r.(pair_owner_low) r.(pair_owner_high) r.(created_at).
Definition PostGraphPairLock_ok (r : PostGraphPairLock) : bool :=
  fits 255 r.(pair_owner_low)
  && fits 255 r.(pair_owner_high)
  && str_ltb r.(pair_owner_low) r.(pair_owner_high).
End PostGraphPairLock.

Module FollowRateBucket.
Record FollowRateBucket : Type := Mk {
  owner_id : str;
  bucket_date : Z;
  follow_count : Z;
  updated_at : datetime
}.
Global Instance FollowRateBucket_eta : Eta FollowRateBucket := fun r =>
  Mk r.(owner_id) r.(bucket_date) r.(follow_count) r.(updated_at).
Definition FollowRateBucket_ok (r : FollowRateBucket) : bool :=
  fits 255 r.(owner_id).
End FollowRateBucket.

Module PostContentBlock.
Record PostContentBlock : Type := Mk {
  id : str;
  blocker_owner_id : str;
  blocked_owner_id : str;
  created_at : datetime
}.
Global Instance PostContentBlock_eta : Eta PostContentBlock := fun r =>
  Mk r.(id) r.(blocker_owner_id) r.(blocked_owner_id) r.(created_at).
Definition PostContentBlock_ok (r : PostContentBlock) : bool :=
  fits 36 r.(id)
  && fits 255 r.(blocker_owner_id)
  && fits 255 r.(blocked_owner_id).
End PostContentBlock.

Module PostReport.
Record PostReport : Type := Mk {
  id : str;
  post_id : str;
  case_id : str;
  reporter_owner_id : str;
  reason_code : str;
  narrative : option str;
  created_at : datetime
}.
Global Instance PostReport_eta : Eta PostReport := fun r =>
  Mk r.(id) r.(post_id) r.(case_id) r.(reporter_owner_id) r.(reason_code) r.(narrative) r.(created_at).
Definition PostReport_ok (r : PostReport) : bool :=
  fits 36 r.(id)
  && fits 36 r.(post_id)
  && fits 36 r.(case_id)
  && fits 255 r.(reporter_owner_id)
  && fits 32 r.(reason_code).
End PostReport.

Module PostReportRateBucket.
Record PostReportRateBucket : Type := Mk {
  owner_id : str;
  bucket_date : Z;
  report_count : Z;
  updated_at : datetime
}.
Global Instance PostReportRateBucket_eta : Eta PostReportRateBucket := fun r =>
  Mk r.(owner_id) r.(bucket_date) r.(report_count) r.(updated_at).
Definition PostReportRateBucket_ok (r : PostReportRateBucket) : bool :=
  fits 255 r.(owner_id).
End PostReportRateBucket.

Module ModerationCase.
Record ModerationCase : Type := Mk {
  id : str;
  post_id : str;
  subject_owner_id : str;
  status : str;
  created_at : datetime;
  updated_at : datetime;
  closed_at : option datetime;
  retention_expires_at : option datetime;
  sensitive_purged_at : option datetime
}.
Global Instance ModerationCase_eta : Eta ModerationCase := fun r =>
  Mk r.(id) r.(post_id) r.(subject_owner_id) r.(status) r.(created_at) r.(updated_at) r.(closed_at) r.(retention_expires_at) r.(sensitive_purged_at).
Definition ModerationCase_ok (r : ModerationCase) : bool :=
  fits 36 r.(id)
  && fits 36 r.(post_id)
  && fits 255 r.(subject_owner_id)
  && fits 24 r.(status)
  && one_of r.(status) ["open"; "dismissed"; "withheld"; "appealed"; "appeal_upheld"; "appeal_overturned"; "legacy_withheld"; "legacy_withdrawn"].
End ModerationCase.

Module ModerationDecision.
Record ModerationDecision : Type := Mk {
  id : str;
  case_id : str;
  post_id : str;
  moderator_id : str;
  moderator_role : str;
  action : str;
  reason_code : str;
  subject_explanation : str;
  internal_rationale : option str;
  evidence : option str;
  evidence_snapshot_sha256 : option str;
  decided_at : datetime
}.
Global Instance ModerationDecision_eta : Eta ModerationDecision := fun r =>
  Mk r.(id) r.(case_id) r.(post_id) r.(moderator_id) r.(moderator_role) r.(action) r.(reason_code) r.(subject_explanation) r.(internal_rationale) r.(evidence) r.(evidence_snapshot_sha256) r.(decided_at).
Definition ModerationDecision_ok (r : ModerationDecision) : bool :=
  fits 36 r.(id)
  && fits 36 r.(case_id)
  && fits 36 r.(post_id)
  && fits 255 r.(moderator_id)
  && fits 40 r.(moderator_role)
  && fits 20 r.(action)
  && fits 32 r.(reason_code)
  && fits 500 r.(subject_explanation)
  && opt_fits 64 r.(evidence_snapshot_sha256)
  && one_of r.(action) ["no_action"; "withhold"]
  && eqs r.(moderator_role) "content_moderator"
  && (if_some (λ x, len x =? 64)%Z r.(evidence_snapshot_sha256)).
End ModerationDecision.

Module ModerationAppeal.
Record ModerationAppeal : Type := Mk {
  id : str;
  case_id : str;
  decision_id : str;
  subject_owner_id : str;
  rationale : option str;
  status : str;
  submitted_at : datetime;
  reviewed_at : option datetime;
  appeal_reviewer_id : option str;
  appeal_reviewer_role : option str;
  subject_explanation : option str;
  internal_rationale : option str;
  review_snapshot_sha256 : option str
}.
Global Instance ModerationAppeal_eta : Eta ModerationAppeal := fun r =>
  Mk r.(id) r.(case_id) r.(decision_id) r.(subject_owner_id) r.(rationale) r.(status) r.(submitted_at) r.(reviewed_at) r.(appeal_reviewer_id) r.(appeal_reviewer_role) r.(subject_explanation) r.(internal_rationale) r.(review_snapshot_sha256).
Definition ModerationAppeal_ok (r : ModerationAppeal) : bool :=
  fits 36 r.(id)
  && fits 36 r.(case_id)
  && fits 36 r.(decision_id)
  && fits 255 r.(subject_owner_id)
  && fits 20 r.(status)
  && opt_fits 255 r.(appeal_reviewer_id)
  && opt_fits 40 r.(appeal_reviewer_role)
  && opt_fits 500 r.(subject_explanation)
  && opt_fits 64 r.(review_snapshot_sha256)
  && one_of r.(status) ["submitted"; "upheld"; "overturned"]
  && (if_some (λ x, eqs x "appeal_reviewer") r.(appeal_reviewer_role))
  && (if_some (λ x, len x =? 64)%Z r.(review_snapshot_sha256)).
End ModerationAppeal.

Module ModerationAuditEvent.
Record ModerationAuditEvent : Type := Mk {
  id : str;
  case_id : str;
  post_id : str;
  event_type : str;
  actor_id : str;
  actor_role : str;
  safe_metadata : str;
  occurred_at : datetime
}.
Global Instance ModerationAuditEvent_eta : Eta ModerationAuditEvent := fun r =>
  Mk r.(id) r.(case_id) r.(post_id) r.(event_type) r.(actor_id) r.(actor_role) r.(safe_metadata) r.(occurred_at).
Definition ModerationAuditEvent_ok (r : ModerationAuditEvent) : bool :=
  fits 36 r.(id)
  && fits 36 r.(case_id)
  && fits 36 r.(post_id)
  && fits 32 r.(event_type)
  && fits 255 r.(actor_id)
  && fits 40 r.(actor_role)
  && one_of r.(event_type) ["case_opened"; "report_linked"; "decision_no_action"; "decision_withheld"; "appeal_submitted"; "appeal_upheld"; "appeal_overturned"; "sensitive_purged"]
  && one_of r.(actor_role) ["system"; "subject"; "content_moderator"; "appeal_reviewer"].
End ModerationAuditEvent.

Module PostModerationEvent.
Record PostModerationEvent : Type := Mk {
  id : str;
  post_id : str;
  actor_id : str;
  actor_role : str;
  action : str;
  occurred_at : datetime
}.
Global Instance PostModerationEvent_eta : Eta PostModerationEvent := fun r =>
  Mk r.(id) r.(post_id) r.(actor_id) r.(actor_role) r.(action) r.(occurred_at).
Definition PostModerationEvent_ok (r : PostModerationEvent) : bool :=
  fits 36 r.(id)
  && fits 36 r.(post_id)
  && fits 255 r.(actor_id)
  && fits 40 r.(actor_role)
  && fits 20 r.(action)
  && one_of r.(action) ["withhold"; "restore"]
  && eqs r.(actor_role) "content_moderator".
End PostModerationEvent.

Module ApiKey.
Record ApiKey : Type := Mk {
  id : str;
  owner_id : str;
  prefix : str;
  secret_hash : str;
  scopes : str;
  revoked : bool;
  created_at : datetime;
  last_used_at : option datetime
}.
Global Instance ApiKey_eta : Eta ApiKey := fun r =>
  Mk r.(id) r.(owner_id) r.(prefix) r.(secret_hash) r.(scopes) r.(revoked) r.(created_at) r.(last_used_at).
Definition ApiKey_ok (r : ApiKey) : bool :=
  fits 36 r.(id)
  && fits 255 r.(owner_id)
  && fits 24 r.(prefix).
End ApiKey.

Module AgentIdentity.
Record AgentIdentity : Type := Mk {
  id : str;
  owner_id : str;
  handle : str;
  display_name : str;
  description : str;
  profile_document_id : str;
  status : str;
  created_at : datetime;
  updated_at : datetime;
  withdrawn_at : option datetime
}.
Global Instance AgentIdentity_eta : Eta AgentIdentity := fun r =>
  Mk r.(id) r.(owner_id) r.(handle) r.(display_name) r.(description) r.(profile_document_id) r.(status) r.(created_at) r.(updated_at) r.(withdrawn_at).
Definition AgentIdentity_ok (r : AgentIdentity) : bool :=
  fits 36 r.(id)
  && fits 255 r.(owner_id)
  && fits 100 r.(handle)
  && fits 100 r.(display_name)
  && fits 500 r.(description)
  && fits 36 r.(profile_document_id)
  && fits 20 r.(status)
  && one_of r.(status) ["active"; "withdrawn"; "withheld"].
End AgentIdentity.

Module AgentGrant.
Record AgentGrant : Type := Mk {
  id : str;
  owner_id : str;
  name : str;
  prefix : str;
  secret_hash : str;
  scopes : str;
  mode : str;
  resource_type : str;
  resource_id : option str;
  mandate_id : option str;
  revoked : bool;
  expires_at : datetime;
  created_at : datetime;
  last_used_at : option datetime
}.
Global Instance AgentGrant_eta : Eta AgentGrant := fun r =>
  Mk r.(id) r.(owner_id) r.(name) r.(prefix) r.(secret_hash) r.(scopes) r.(mode) r.(resource_type) r.(resource_id) r.(mandate_id) r.(revoked) r.(expires_at) r.(created_at) r.(last_used_at).
Definition AgentGrant_ok (r : AgentGrant) : bool :=
  fits 36 r.(id)
  && fits 255 r.(owner_id)
  && fits 100 r.(name)
  && fits 24 r.(prefix)
  && fits 20 r.(mode)
  && fits 20 r.(resource_type)
  && opt_fits 255 r.(resource_id)
  && opt_fits 36 r.(mandate_id).
End AgentGrant.

Module AgentMandate.
Record AgentMandate : Type := Mk {
  id : str;
  identity_id : str;
  owner_id : str;
  scope : str;
  status : str;
  expires_at : datetime;
  created_at : datetime;
  revoked_at : option datetime;
  suspended_at : option datetime
}.
Global Instance AgentMandate_eta : Eta AgentMandate := fun r =>
  Mk r.(id) r.(identity_id) r.(owner_id) r.(scope) r.(status) r.(expires_at) r.(created_at) r.(revoked_at) r.(suspended_at).
Definition AgentMandate_ok (r : AgentMandate) : bool :=
  fits 36 r.(id)
  && fits 36 r.(identity_id)
  && fits 255 r.(owner_id)
  && fits 64 r.(scope)
  && fits 20 r.(status)
  && eqs r.(scope) "internal_contact_request"
  && one_of r.(status) ["active"; "revoked"; "expired"; "suspended"].
End AgentMandate.

Module IdempotencyRecord.
Record IdempotencyRecord : Type := Mk {
  id : str;
  owner_id : str;
  idempotency_key : str;
  operation : str;
  request_hash : str;
  response_status : Z;
  response_body : str;
  response_headers : str;
  resource_type : option str;
  resource_id : option str;
  created_at : datetime
}.
Global Instance IdempotencyRecord_eta : Eta IdempotencyRecord := fun r =>
  Mk r.(id) r.(owner_id) r.(idempotency_key) r.(operation) r.(request_hash) r.(response_status) r.(response_body) r.(response_headers) r.(resource_type) r.(resource_id) r.(created_at).
Definition IdempotencyRecord_ok (r : IdempotencyRecord) : bool :=
  fits 36 r.(id)
  && fits 255 r.(owner_id)
  && fits 128 r.(idempotency_key)
  && fits 255 r.(operation)
  && fits 64 r.(request_hash)
  && opt_fits 32 r.(resource_type)
  && opt_fits 255 r.(resource_id).
End IdempotencyRecord.

Module AccountLifecycleReceiptRateLimit.
Record AccountLifecycleReceiptRateLimit : Type := Mk {
  id : str;
  deletion_id : str;
  receipt_hmac : str;
  ip_hmac : str;
  window_started_at : datetime;
  request_count : Z;
  updated_at : datetime
}.
Global Instance AccountLifecycleReceiptRateLimit_eta : Eta AccountLifecycleReceiptRateLimit := fun r =>
  Mk r.(id) r.(deletion_id) r.(receipt_hmac) r.(ip_hmac) r.(window_started_at) r.(request_count) r.(updated_at).
Definition AccountLifecycleReceiptRateLimit_ok (r : AccountLifecycleReceiptRateLimit) : bool :=
  fits 36 r.(id)
  && fits 36 r.(deletion_id)
  && fits 64 r.(receipt_hmac)
  && fits 64 r.(ip_hmac).
End AccountLifecycleReceiptRateLimit.

Module AccountReverificationUse.
Record AccountReverificationUse : Type := Mk {
  id : str;
  reverification_id_hmac : str;
  subject_hmac : str;
  sid_hmac : str;
  jti_hmac : str;
  purpose : str;
  action_hmac : str;
  used_at : datetime
}.
Global Instance AccountReverificationUse_eta : Eta AccountReverificationUse := fun r =>
  Mk r.(id) r.(reverification_id_hmac) r.(subject_hmac) r.(sid_hmac) r.(jti_hmac) r.(purpose) r.(action_hmac) r.(used_at).
Definition AccountReverificationUse_ok (r : AccountReverificationUse) : bool :=
  fits 36 r.(id)
  && fits 64 r.(reverification_id_hmac)
  && fits 64 r.(subject_hmac)
  && fits 64 r.(sid_hmac)
  && fits 64 r.(jti_hmac)
  && fits 24 r.(purpose)
  && fits 64 r.(action_hmac)
  && one_of r.(purpose) ["export"; "delete_request"; "delete_confirm"; "delete_receipt_recover"].
End AccountReverificationUse.

Module AccountErasureItem.
Record AccountErasureItem : Type := Mk {
  id : str;
  deletion_id : str;
  resource_type : str;
  resource_id : str;
  phase : str;
  disposition : str;
  state : str;
  attempts : Z;
  available_at : option datetime;
  lease_expires_at : option datetime;
  claimed_by : option str;
  claim_token : option str;
  hold_kind : option str;
  hold_id : option str;
  hold_review_at : option datetime;
  last_error_code : option str;
  created_at : datetime;
  updated_at : datetime;
  completed_at : option datetime
}.
Global Instance AccountErasureItem_eta : Eta AccountErasureItem := fun r =>
  Mk r.(id) r.(deletion_id) r.(resource_type) r.(resource_id) r.(phase) r.(disposition) r.(state) r.(attempts) r.(available_at) r.(lease_expires_at) r.(claimed_by) r.(claim_token) r.(hold_kind) r.(hold_id) r.(hold_review_at) r.(last_error_code) r.(created_at) r.(updated_at) r.(completed_at).
Definition AccountErasureItem_ok (r : AccountErasureItem) : bool :=
  fits 36 r.(id)
  && fits 36 r.(deletion_id)
  && fits 64 r.(resource_type)
  && fits 255 r.(resource_id)
  && fits 16 r.(phase)
  && fits 16 r.(disposition)
  && fits 16 r.(state)
  && opt_fits 128 r.(claimed_by)
  && opt_fits 64 r.(claim_token)
  && opt_fits 24 r.(hold_kind)
  && opt_fits 36 r.(hold_id)
  && opt_fits 80 r.(last_error_code)
  && one_of r.(phase) ["conceal"; "revoke"; "detach"; "delete_row"; "delete_file"; "unindex"; "provider"; "postcheck"; "backup"]
  && one_of r.(disposition) ["delete"; "detach"; "hold"]
  && one_of r.(state) ["queued"; "leased"; "completed"; "held"; "dead_letter"]
  && if_some (fun x => one_of x ["retention"; "policy"]) r.(hold_kind).
End AccountErasureItem.

Module AccountBackupManifest.
Record AccountBackupManifest : Type := Mk {
  id : str;
  generation_id : str;
  created_at : datetime;
  expires_at : datetime;
  state : str;
  db_manifest_digest : str;
  markdown_manifest_digest : str;
  expired_proof_digest : option str;
  expired_at : option datetime;
  crypto_destroyed_proof_digest : option str;
  crypto_destroyed_at : option datetime
}.
Global Instance AccountBackupManifest_eta : Eta AccountBackupManifest := fun r =>
  Mk r.(id) r.(generation_id) r.(created_at) r.(expires_at) r.(state) r.(db_manifest_digest) r.(markdown_manifest_digest) r.(expired_proof_digest) r.(expired_at) r.(crypto_destroyed_proof_digest) r.(crypto_destroyed_at).
Definition AccountBackupManifest_ok (r : AccountBackupManifest) : bool :=
  fits 36 r.(id)
  && fits 128 r.(generation_id)
  && fits 20 r.(state)
  && fits 64 r.(db_manifest_digest)
  && fits 64 r.(markdown_manifest_digest)
  && opt_fits 64 r.(expired_proof_digest)
  && opt_fits 64 r.(crypto_destroyed_proof_digest)
  && one_of r.(state) ["active"; "expired"; "crypto_destroyed"]
  && (let expired := not_null r.(expired_proof_digest) && not_null r.(expired_at) in
      let not_expired := is_null r.(expired_proof_digest) && is_null r.(expired_at) in
      let destroyed := not_null r.(crypto_destroyed_proof_digest) && not_null r.(crypto_destroyed_at) in
      let not_destroyed :=
        is_null r.(crypto_destroyed_proof_digest) && is_null r.(crypto_destroyed_at) in
      eqs r.(state) "active" && not_expired && not_destroyed
      || eqs r.(state) "expired" && expired && not_destroyed
      || eqs r.(state) "crypto_destroyed" && destroyed && not_expired).
End AccountBackupManifest.

Definition ACCOUNT_BACKUP_AUTHORITY_ID : str := u "account-backup-generation-authority".
Module AccountBackupAuthority.
Record AccountBackupAuthority : Type := Mk {
  id : str;
  current_generation_id : str;
  registered_at : datetime;
  updated_at : datetime
}.
Global Instance AccountBackupAuthority_eta : Eta AccountBackupAuthority := fun r =>
  Mk r.(id) r.(current_generation_id) r.(registered_at) r.(updated_at).
Definition AccountBackupAuthority_ok (r : AccountBackupAuthority) : bool :=
  fits 64 r.(id)
  && fits 128 r.(current_generation_id).
End AccountBackupAuthority.

Module AccountLifecycle.
Record AccountLifecycle : Type := Mk {
  id : str;
  subject_hmac : str;
  request_idempotency_hmac : option str;
  confirmation_idempotency_hmac : option str;
  receipt_hmac : option str;
  receipt_ciphertext : option str;
  receipt_recovery_idempotency_hmac : option str;
  provider_subject_ciphertext : option str;
  provider_session_ciphertext : option str;
  state : str;
  provider_state : str;
  backup_state : str;
  policy_version : str;
  requested_at : datetime;
  confirmed_at : option datetime;
  concealed_at : option datetime;
  live_erased_at : option datetime;
  terminal_at : option datetime;
  safe_failure_code : option str
}.
Global Instance AccountLifecycle_eta : Eta AccountLifecycle := fun r =>
  Mk r.(id) r.(subject_hmac) r.(request_idempotency_hmac) r.(confirmation_idempotency_hmac) r.(receipt_hmac) r.(receipt_ciphertext) r.(receipt_recovery_idempotency_hmac) r.(provider_subject_ciphertext) r.(provider_session_ciphertext) r.(state) r.(provider_state) r.(backup_state) r.(policy_version) r.(requested_at) r.(confirmed_at) r.(concealed_at) r.(live_erased_at) r.(terminal_at) r.(safe_failure_code).
Definition AccountLifecycle_ok (r : AccountLifecycle) : bool :=
  fits 36 r.(id)
  && fits 64 r.(subject_hmac)
  && opt_fits 64 r.(request_idempotency_hmac)
  && opt_fits 64 r.(confirmation_idempotency_hmac)
  && opt_fits 64 r.(receipt_hmac)
  && opt_fits 64 r.(receipt_recovery_idempotency_hmac)
  && fits 32 r.(state)
  && fits 16 r.(provider_state)
  && fits 16 r.(backup_state)
  && fits 64 r.(policy_version)
  && opt_fits 80 r.(safe_failure_code)
  && one_of r.(state) ["confirmation_pending"; "concealed"; "erasure_planned"; "erasing"; "held"; "failed"; "live_erasure_complete"; "backup_expiry_pending"; "fully_erased"]
  && one_of r.(provider_state) ["pending"; "verified"; "failed"; "unsupported"]
  && one_of r.(backup_state) ["expiry_pending"; "verified"].
End AccountLifecycle.

Module AccountAccessDeny.
Record AccountAccessDeny : Type := Mk {
  id : str;
  subject_hmac : str;
  deletion_id : str;
  denied_at : datetime
}.
Global Instance AccountAccessDeny_eta : Eta AccountAccessDeny := fun r =>
  Mk r.(id) r.(subject_hmac) r.(deletion_id) r.(denied_at).
Definition AccountAccessDeny_ok (r : AccountAccessDeny) : bool :=
  fits 36 r.(id)
  && fits 64 r.(subject_hmac)
  && fits 36 r.(deletion_id).
End AccountAccessDeny.

Module AccountBackupObligation.
Record AccountBackupObligation : Type := Mk {
  id : str;
  deletion_id : str;
  generation_id : str;
  generation_created_at : option datetime;
  generation_expires_at : option datetime;
  db_manifest_digest : option str;
  markdown_manifest_digest : option str;
  state : str;
  proof_digest : option str;
  verified_at : option datetime
}.
Global Instance AccountBackupObligation_eta : Eta AccountBackupObligation := fun r =>
  Mk r.(id) r.(deletion_id) r.(generation_id) r.(generation_created_at) r.(generation_expires_at) r.(db_manifest_digest) r.(markdown_manifest_digest) r.(state) r.(proof_digest) r.(verified_at).
Definition AccountBackupObligation_ok (r : AccountBackupObligation) : bool :=
  fits 36 r.(id)
  && fits 36 r.(deletion_id)
  && fits 128 r.(generation_id)
  && opt_fits 64 r.(db_manifest_digest)
  && opt_fits 64 r.(markdown_manifest_digest)
  && fits 16 r.(state)
  && opt_fits 64 r.(proof_digest)
  && one_of r.(state) ["pending"; "verified"].
End AccountBackupObligation.

Module AccountLifecycleTombstone.
Record AccountLifecycleTombstone : Type := Mk {
  id : str;
  deletion_id : str;
  policy_version : str;
  phase : str;
  result_digest : str;
  occurred_at : datetime
}.
Global Instance AccountLifecycleTombstone_eta : Eta AccountLifecycleTombstone := fun r =>
  Mk r.(id) r.(deletion_id) r.(policy_version) r.(phase) r.(result_digest) r.(occurred_at).
Definition AccountLifecycleTombstone_ok (r : AccountLifecycleTombstone) : bool :=
  fits 36 r.(id)
  && fits 36 r.(deletion_id)
  && fits 64 r.(policy_version)
  && fits 32 r.(phase)
  && fits 64 r.(result_digest).
End AccountLifecycleTombstone.

Module AccountErasureFileProof.
Record AccountErasureFileProof : Type := Mk {
  id : str;
  deletion_id : str;
  resource_type : str;
  resource_id : str;
  relative_path : str;
  deleted_at : datetime
}.
Global Instance AccountErasureFileProof_eta : Eta AccountErasureFileProof := fun r =>
  Mk r.(id) r.(deletion_id) r.(resource_type) r.(resource_id) r.(relative_path) r.(deleted_at).
Definition AccountErasureFileProof_ok (r : AccountErasureFileProof) : bool :=
  fits 36 r.(id)
  && fits 36 r.(deletion_id)
  && fits 64 r.(resource_type)
  && fits 255 r.(resource_id)
  && fits 1024 r.(relative_path).
End AccountErasureFileProof.

Module IdentifierReservation.
Record IdentifierReservation : Type := Mk {
  id : str;
  namespace : str;
  identifier_hmac : str;
  deletion_id : str;
  created_at : datetime
}.
Global Instance IdentifierReservation_eta : Eta IdentifierReservation := fun r =>
  Mk r.(id) r.(namespace) r.(identifier_hmac) r.(deletion_id) r.(created_at).
Definition IdentifierReservation_ok (r : IdentifierReservation) : bool :=
  fits 36 r.(id)
  && fits 64 r.(namespace)
  && fits 64 r.(identifier_hmac)
  && fits 36 r.(deletion_id).
End IdentifierReservation.

Module ChangeEvent.
Record ChangeEvent : Type := Mk {
  sequence : Z;
  owner_id : str;
  event_type : str;
  resource_type : str;
  resource_id : str;
  actor_id : str;
  actor_method : str;
  grant_id : option str;
  payload : str;
  occurred_at : datetime
}.
Global Instance ChangeEvent_eta : Eta ChangeEvent := fun r =>
  Mk r.(sequence) r.(owner_id) r.(event_type) r.(resource_type) r.(resource_id) r.(actor_id) r.(actor_method) r.(grant_id) r.(payload) r.(occurred_at).
Definition ChangeEvent_ok (r : ChangeEvent) : bool :=
  fits 255 r.(owner_id)
  && fits 80 r.(event_type)
  && fits 32 r.(resource_type)
  && fits 255 r.(resource_id)
  && fits 255 r.(actor_id)
  && fits 32 r.(actor_method)
  && opt_fits 36 r.(grant_id).
End ChangeEvent.

Module ContactPolicy.
Record ContactPolicy : Type := Mk {
  owner_id : str;
  allow_agent_requests : bool;
  daily_request_limit : Z;
  version : Z;
  updated_at : datetime
}.
Global Instance ContactPolicy_eta : Eta ContactPolicy := fun r =>
  Mk r.(owner_id) r.(allow_agent_requests) r.(daily_request_limit) r.(version) r.(updated_at).
Definition ContactPolicy_ok (r : ContactPolicy) : bool :=
  fits 255 r.(owner_id).
End ContactPolicy.

Module ContactBlock.
Record ContactBlock : Type := Mk {
  id : str;
  blocker_owner_id : str;
  blocked_owner_id : str;
  created_at : datetime
}.
Global Instance ContactBlock_eta : Eta ContactBlock := fun r =>
  Mk r.(id) r.(blocker_owner_id) r.(blocked_owner_id) r.(created_at).
Definition ContactBlock_ok (r : ContactBlock) : bool :=
  fits 36 r.(id)
  && fits 255 r.(blocker_owner_id)
  && fits 255 r.(blocked_owner_id).
End ContactBlock.

Module ContactRequest.
Record ContactRequest : Type := Mk {
  id : str;
  sender_owner_id : str;
  recipient_owner_id : str;
  sender_actor_id : str;
  sender_actor_method : str;
  sender_grant_id : option str;
  sender_mandate_id : option str;
  origin : str;
  sender_identity_handle : option str;
  sender_identity_display_name : option str;
  target_identity_handle : option str;
  target_identity_display_name : option str;
  target_document_id : str;
  purpose : str;
  message : str;
  status : str;
  decision_actor_id : option str;
  report_reason : option str;
  created_at : datetime;
  decided_at : option datetime;
  retention_expires_at : datetime
}.
Global Instance ContactRequest_eta : Eta ContactRequest := fun r =>
  Mk r.(id) r.(sender_owner_id) r.(recipient_owner_id) r.(sender_actor_id) r.(sender_actor_method) r.(sender_grant_id) r.(sender_mandate_id) r.(origin) r.(sender_identity_handle) r.(sender_identity_display_name) r.(target_identity_handle) r.(target_identity_display_name) r.(target_document_id) r.(purpose) r.(message) r.(status) r.(decision_actor_id) r.(report_reason) r.(created_at) r.(decided_at) r.(retention_expires_at).
Definition ContactRequest_ok (r : ContactRequest) : bool :=
  fits 36 r.(id)
  && fits 255 r.(sender_owner_id)
  && fits 255 r.(recipient_owner_id)
  && fits 255 r.(sender_actor_id)
  && fits 32 r.(sender_actor_method)
  && opt_fits 36 r.(sender_grant_id)
  && opt_fits 36 r.(sender_mandate_id)
  && fits 32 r.(origin)
  && opt_fits 100 r.(sender_identity_handle)
  && opt_fits 100 r.(sender_identity_display_name)
  && opt_fits 100 r.(target_identity_handle)
  && opt_fits 100 r.(target_identity_display_name)
  && fits 36 r.(target_document_id)
  && fits 160 r.(purpose)
  && fits 20 r.(status)
  && opt_fits 255 r.(decision_actor_id)
  && one_of r.(origin) ["profile_contact"; "agent_outreach"]
  && one_of r.(status) ["pending"; "accepted"; "rejected"; "blocked"; "reported"].
End ContactRequest.

Module ContactRateBucket.
Record ContactRateBucket : Type := Mk {
  sender_owner_id : str;
  bucket_date : Z;
  request_count : Z;
  updated_at : datetime
}.
Global Instance ContactRateBucket_eta : Eta ContactRateBucket := fun r =>
  Mk r.(sender_owner_id) r.(bucket_date) r.(request_count) r.(updated_at).
Definition ContactRateBucket_ok (r : ContactRateBucket) : bool :=
  fits 255 r.(sender_owner_id).
End ContactRateBucket.

Module AgentOutreachRecipientRateBucket.
Record AgentOutreachRecipientRateBucket : Type := Mk {
  recipient_owner_id : str;
  bucket_date : Z;
  request_count : Z;
  updated_at : datetime
}.
Global Instance AgentOutreachRecipientRateBucket_eta : Eta AgentOutreachRecipientRateBucket := fun r =>
  Mk r.(recipient_owner_id) r.(bucket_date) r.(request_count) r.(updated_at).
Definition AgentOutreachRecipientRateBucket_ok (r : AgentOutreachRecipientRateBucket) : bool :=
  fits 255 r.(recipient_owner_id).
End AgentOutreachRecipientRateBucket.

Module AgentOutreachDirectPeerRateBucket.
Record AgentOutreachDirectPeerRateBucket : Type := Mk {
  direct_peer_hmac : str;
  bucket_date : Z;
  request_count : Z;
  updated_at : datetime
}.
Global Instance AgentOutreachDirectPeerRateBucket_eta : Eta AgentOutreachDirectPeerRateBucket := fun r =>
  Mk r.(direct_peer_hmac) r.(bucket_date) r.(request_count) r.(updated_at).
Definition AgentOutreachDirectPeerRateBucket_ok (r : AgentOutreachDirectPeerRateBucket) : bool :=
  fits 64 r.(direct_peer_hmac).
End AgentOutreachDirectPeerRateBucket.

Module Organization.
Record Organization : Type := Mk {
  id : str;
  owner_id : str;
  slug : str;
  name : str;
  description : option str;
  website_url : option str;
  visibility : str;
  verification_status : str;
  verification_material_version : Z;
  version : Z;
  created_at : datetime;
  updated_at : datetime
}.
Global Instance Organization_eta : Eta Organization := fun r =>
  Mk r.(id) r.(owner_id) r.(slug) r.(name) r.(description) r.(website_url) r.(visibility) r.(verification_status) r.(verification_material_version) r.(version) r.(created_at) r.(updated_at).
Definition Organization_ok (r : Organization) : bool :=
  fits 36 r.(id)
  && fits 255 r.(owner_id)
  && fits 80 r.(slug)
  && fits 160 r.(name)
  && opt_fits 2048 r.(website_url)
  && fits 16 r.(visibility)
  && fits 20 r.(verification_status).
End Organization.

Module OrganizationMembership.
Record OrganizationMembership : Type := Mk {
  id : str;
  organization_id : str;
  member_owner_id : str;
  member_profile_handle : option str;
  role : str;
  status : str;
  invited_by_owner_id : str;
  created_at : datetime
}.
Global Instance OrganizationMembership_eta : Eta OrganizationMembership := fun r =>
  Mk r.(id) r.(organization_id) r.(member_owner_id) r.(member_profile_handle) r.(role) r.(status) r.(invited_by_owner_id) r.(created_at).
Definition OrganizationMembership_ok (r : OrganizationMembership) : bool :=
  fits 36 r.(id)
  && fits 36 r.(organization_id)
  && fits 255 r.(member_owner_id)
  && opt_fits 100 r.(member_profile_handle)
  && fits 20 r.(role)
  && fits 20 r.(status)
  && fits 255 r.(invited_by_owner_id).
End OrganizationMembership.

Module OrganizationVerification.
Record OrganizationVerification : Type := Mk {
  id : str;
  organization_id : str;
  purpose : str;
  submitted_by_owner_id : str;
  material_claim_digest : str;
  created_at : datetime
}.
Global Instance OrganizationVerification_eta : Eta OrganizationVerification := fun r =>
  Mk r.(id) r.(organization_id) r.(purpose) r.(submitted_by_owner_id) r.(material_claim_digest) r.(created_at).
Definition OrganizationVerification_ok (r : OrganizationVerification) : bool :=
  fits 36 r.(id)
  && fits 36 r.(organization_id)
  && fits 40 r.(purpose)
  && fits 255 r.(submitted_by_owner_id)
  && fits 64 r.(material_claim_digest)
  && eqs r.(purpose) "recruiting_control".
End OrganizationVerification.

Module OrganizationVerificationEvidence.
Record OrganizationVerificationEvidence : Type := Mk {
  id : str;
  verification_id : str;
  evidence_kind : str;
  metadata_json : str;
  artifact_content_type : str;
  artifact_sha256 : str;
  artifact_size_bytes : Z;
  storage_path : str;
  created_at : datetime;
  retention_expires_at : datetime
}.
Global Instance OrganizationVerificationEvidence_eta : Eta OrganizationVerificationEvidence := fun r =>
  Mk r.(id) r.(verification_id) r.(evidence_kind) r.(metadata_json) r.(artifact_content_type) r.(artifact_sha256) r.(artifact_size_bytes) r.(storage_path) r.(created_at) r.(retention_expires_at).
Definition OrganizationVerificationEvidence_ok (r : OrganizationVerificationEvidence) : bool :=
  fits 36 r.(id)
  && fits 36 r.(verification_id)
  && fits 40 r.(evidence_kind)
  && fits 80 r.(artifact_content_type)
  && fits 64 r.(artifact_sha256)
  && fits 512 r.(storage_path)
  && (0 <? r.(artifact_size_bytes))%Z && (r.(artifact_size_bytes) <=? 262144)%Z
  && one_of r.(evidence_kind) ["corporate_registration"; "domain_control"; "employment_authority"; "other"]
  && one_of r.(artifact_content_type) ["application/pdf"; "image/jpeg"; "image/png"; "text/plain"].
End OrganizationVerificationEvidence.

Module OrganizationVerificationEvent.
Record OrganizationVerificationEvent : Type := Mk {
  id : str;
  verification_id : str;
  organization_id : str;
  purpose : str;
  to_state : str;
  actor_id : str;
  actor_role : str;
  policy_version : option str;
  material_claim_digest : str;
  expires_at : option datetime;
  occurred_at : datetime
}.
Global Instance OrganizationVerificationEvent_eta : Eta OrganizationVerificationEvent := fun r =>
  Mk r.(id) r.(verification_id) r.(organization_id) r.(purpose) r.(to_state) r.(actor_id) r.(actor_role) r.(policy_version) r.(material_claim_digest) r.(expires_at) r.(occurred_at).
Definition OrganizationVerificationEvent_ok (r : OrganizationVerificationEvent) : bool :=
  fits 36 r.(id)
  && fits 36 r.(verification_id)
  && fits 36 r.(organization_id)
  && fits 40 r.(purpose)
  && fits 20 r.(to_state)
  && fits 255 r.(actor_id)
  && fits 40 r.(actor_role)
  && opt_fits 80 r.(policy_version)
  && fits 64 r.(material_claim_digest)
  && one_of r.(to_state) ["submitted"; "under_review"; "active"; "rejected"; "expired"; "suspended"; "revoked"]
  && eqs r.(purpose) "recruiting_control"
  && one_of r.(actor_role) ["submitter"; "recruiting_verifier"].
End OrganizationVerificationEvent.

Module Job.
Record Job : Type := Mk {
  id : str;
  organization_id : str;
  slug : str;
  title : str;
  description : str;
  location : option str;
  work_mode : option str;
  employment_type : option str;
  status : str;
  version : Z;
  published_at : option datetime;
  created_at : datetime;
  updated_at : datetime
}.
Global Instance Job_eta : Eta Job := fun r =>
  Mk r.(id) r.(organization_id) r.(slug) r.(title) r.(description) r.(location) r.(work_mode) r.(employment_type) r.(status) r.(version) r.(published_at) r.(created_at) r.(updated_at).
Definition Job_ok (r : Job) : bool :=
  fits 36 r.(id)
  && fits 36 r.(organization_id)
  && fits 100 r.(slug)
  && fits 200 r.(title)
  && opt_fits 200 r.(location)
  && opt_fits 20 r.(work_mode)
  && opt_fits 30 r.(employment_type)
  && fits 20 r.(status).
End Job.

Module JobVersion.
Record JobVersion : Type := Mk {
  job_id : str;
  version : Z;
  organization_id : str;
  organization_slug : str;
  organization_name : str;
  slug : str;
  title : str;
  description : str;
  location : option str;
  work_mode : option str;
  employment_type : option str;
  status : str;
  published_at : option datetime;
  created_at : datetime;
  updated_at : datetime;
  response_body : str;
  response_sha256 : str
}.
Global Instance JobVersion_eta : Eta JobVersion := fun r =>
  Mk r.(job_id) r.(version) r.(organization_id) r.(organization_slug) r.(organization_name) r.(slug) r.(title) r.(description) r.(location) r.(work_mode) r.(employment_type) r.(status) r.(published_at) r.(created_at) r.(updated_at) r.(response_body) r.(response_sha256).
Definition JobVersion_ok (r : JobVersion) : bool :=
  fits 36 r.(job_id)
  && fits 36 r.(organization_id)
  && fits 80 r.(organization_slug)
  && fits 160 r.(organization_name)
  && fits 100 r.(slug)
  && fits 200 r.(title)
  && opt_fits 200 r.(location)
  && opt_fits 20 r.(work_mode)
  && opt_fits 30 r.(employment_type)
  && fits 20 r.(status)
  && fits 64 r.(response_sha256)
  && (1 <=? r.(version))%Z
  && one_of r.(status) ["draft"; "published"; "closed"].
End JobVersion.

Module Application.
Record Application : Type := Mk {
  id : str;
  job_id : str;
  applicant_owner_id : str;
  applicant_actor_id : str;
  applicant_actor_method : str;
  applicant_grant_id : option str;
  snapshot_document_id : str;
  snapshot_document_kind : str;
  snapshot_document_identifier : str;
  snapshot_document_version : Z;
  snapshot_sha256 : str;
  snapshot_size_bytes : option Z;
  snapshot_storage_path : option str;
  message : str;
  status : str;
  confirmed_by_owner_id : str;
  confirmed_at : datetime;
  retention_policy_version : str;
  retention_expires_at : datetime;
  decision_actor_id : option str;
  created_at : datetime;
  updated_at : datetime;
  decided_at : option datetime
}.
Global Instance Application_eta : Eta Application := fun r =>
  Mk r.(id) r.(job_id) r.(applicant_owner_id) r.(applicant_actor_id) r.(applicant_actor_method) r.(applicant_grant_id) r.(snapshot_document_id) r.(snapshot_document_kind) r.(snapshot_document_identifier) r.(snapshot_document_version) r.(snapshot_sha256) r.(snapshot_size_bytes) r.(snapshot_storage_path) r.(message) r.(status) r.(confirmed_by_owner_id) r.(confirmed_at) r.(retention_policy_version) r.(retention_expires_at) r.(decision_actor_id) r.(created_at) r.(updated_at) r.(decided_at).
Definition Application_ok (r : Application) : bool :=
  fits 36 r.(id)
  && fits 36 r.(job_id)
  && fits 255 r.(applicant_owner_id)
  && fits 255 r.(applicant_actor_id)
  && fits 32 r.(applicant_actor_method)
  && opt_fits 36 r.(applicant_grant_id)
  && fits 36 r.(snapshot_document_id)
  && fits 16 r.(snapshot_document_kind)
  && fits 100 r.(snapshot_document_identifier)
  && fits 64 r.(snapshot_sha256)
  && opt_fits 1024 r.(snapshot_storage_path)
  && fits 20 r.(status)
  && fits 255 r.(confirmed_by_owner_id)
  && fits 32 r.(retention_policy_version)
  && opt_fits 255 r.(decision_actor_id)
  && (if_some (λ x, (0 <? x) && (x <=? 131072))%Z r.(snapshot_size_bytes)).
End Application.

Module ApplicationRateBucket.
Record ApplicationRateBucket : Type := Mk {
  applicant_owner_id : str;
  bucket_date : Z;
  application_count : Z;
  updated_at : datetime
}.
Global Instance ApplicationRateBucket_eta : Eta ApplicationRateBucket := fun r =>
  Mk r.(applicant_owner_id) r.(bucket_date) r.(application_count) r.(updated_at).
Definition ApplicationRateBucket_ok (r : ApplicationRateBucket) : bool :=
  fits 255 r.(applicant_owner_id).
End ApplicationRateBucket.

Module ConnectionBlock.
Record ConnectionBlock : Type := Mk {
  id : str;
  blocker_owner_id : str;
  blocked_owner_id : str;
  created_at : datetime
}.
Global Instance ConnectionBlock_eta : Eta ConnectionBlock := fun r =>
  Mk r.(id) r.(blocker_owner_id) r.(blocked_owner_id) r.(created_at).
Definition ConnectionBlock_ok (r : ConnectionBlock) : bool :=
  fits 36 r.(id)
  && fits 255 r.(blocker_owner_id)
  && fits 255 r.(blocked_owner_id)
  && negb (bool_decide (r.(blocker_owner_id) = r.(blocked_owner_id))).
End ConnectionBlock.

Module ConnectionRequest.
Record ConnectionRequest : Type := Mk {
  id : str;
  pair_owner_low : str;
  pair_owner_high : str;
  requester_owner_id : str;
  recipient_owner_id : str;
  requester_profile_handle : str;
  recipient_profile_handle : str;
  requested_messaging : bool;
  recipient_messaging_consent : option bool;
  status : str;
  requester_actor_id : str;
  requester_actor_method : str;
  decision_actor_id : option str;
  created_at : datetime;
  updated_at : datetime;
  decided_at : option datetime;
  retention_expires_at : datetime
}.
Global Instance ConnectionRequest_eta : Eta ConnectionRequest := fun r =>
  Mk r.(id) r.(pair_owner_low) r.(pair_owner_high) r.(requester_owner_id) r.(recipient_owner_id) r.(requester_profile_handle) r.(recipient_profile_handle) r.(requested_messaging) r.(recipient_messaging_consent) r.(status) r.(requester_actor_id) r.(requester_actor_method) r.(decision_actor_id) r.(created_at) r.(updated_at) r.(decided_at) r.(retention_expires_at).
Definition ConnectionRequest_ok (r : ConnectionRequest) : bool :=
  fits 36 r.(id)
  && fits 255 r.(pair_owner_low)
  && fits 255 r.(pair_owner_high)
  && fits 255 r.(requester_owner_id)
  && fits 255 r.(recipient_owner_id)
  && fits 100 r.(requester_profile_handle)
  && fits 100 r.(recipient_profile_handle)
  && fits 20 r.(status)
  && fits 255 r.(requester_actor_id)
  && fits 32 r.(requester_actor_method)
  && opt_fits 255 r.(decision_actor_id)
  && str_ltb r.(pair_owner_low) r.(pair_owner_high)
  && one_of r.(status) ["pending"; "accepted"; "rejected"; "blocked"].
End ConnectionRequest.

Module Connection.
Record Connection : Type := Mk {
  id : str;
  connection_request_id : str;
  pair_owner_low : str;
  pair_owner_high : str;
  requester_owner_id : str;
  recipient_owner_id : str;
  requester_profile_handle : str;
  recipient_profile_handle : str;
  requested_messaging : bool;
  recipient_messaging_consent : bool;
  messaging_enabled : bool;
  status : str;
  created_at : datetime;
  updated_at : datetime;
  ended_at : option datetime;
  ended_by_owner_id : option str;
  retention_expires_at : datetime
}.
Global Instance Connection_eta : Eta Connection := fun r =>
  Mk r.(id) r.(connection_request_id) r.(pair_owner_low) r.(pair_owner_high) r.(requester_owner_id) r.(recipient_owner_id) r.(requester_profile_handle) r.(recipient_profile_handle) r.(requested_messaging) r.(recipient_messaging_consent) r.(messaging_enabled) r.(status) r.(created_at) r.(updated_at) r.(ended_at) r.(ended_by_owner_id) r.(retention_expires_at).
Definition Connection_ok (r : Connection) : bool :=
  fits 36 r.(id)
  && fits 36 r.(connection_request_id)
  && fits 255 r.(pair_owner_low)
  && fits 255 r.(pair_owner_high)
  && fits 255 r.(requester_owner_id)
  && fits 255 r.(recipient_owner_id)
  && fits 100 r.(requester_profile_handle)
  && fits 100 r.(recipient_profile_handle)
  && fits 20 r.(status)
  && opt_fits 255 r.(ended_by_owner_id)
  && str_ltb r.(pair_owner_low) r.(pair_owner_high)
  && one_of r.(status) ["active"; "removed"; "blocked"].
End Connection.

Module Conversation.
Record Conversation : Type := Mk {
  id : str;
  connection_id : str;
  pair_owner_low : str;
  pair_owner_high : str;
  status : str;
  created_by_owner_id : str;
  created_at : datetime;
  closed_at : option datetime;
  retention_expires_at : datetime
}.
Global Instance Conversation_eta : Eta Conversation := fun r =>
  Mk r.(id) r.(connection_id) r.(pair_owner_low) r.(pair_owner_high) r.(status) r.(created_by_owner_id) r.(created_at) r.(closed_at) r.(retention_expires_at).
Definition Conversation_ok (r : Conversation) : bool :=
  fits 36 r.(id)
  && fits 36 r.(connection_id)
  && fits 255 r.(pair_owner_low)
  && fits 255 r.(pair_owner_high)
  && fits 20 r.(status)
  && fits 255 r.(created_by_owner_id)
  && str_ltb r.(pair_owner_low) r.(pair_owner_high)
  && one_of r.(status) ["active"; "closed"; "blocked"].
End Conversation.

Module Message.
Record Message : Type := Mk {
  id : str;
  conversation_id : str;
  sender_owner_id : str;
  sender_actor_id : str;
  sender_actor_method : str;
  markdown : str;
  content_sha256 : str;
  status : str;
  created_at : datetime;
  retention_expires_at : datetime
}.
Global Instance Message_eta : Eta Message := fun r =>
  Mk r.(id) r.(conversation_id) r.(sender_owner_id) r.(sender_actor_id) r.(sender_actor_method) r.(markdown) r.(content_sha256) r.(status) r.(created_at) r.(retention_expires_at).
Definition Message_ok (r : Message) : bool :=
  fits 36 r.(id)
  && fits 36 r.(conversation_id)
  && fits 255 r.(sender_owner_id)
  && fits 255 r.(sender_actor_id)
  && fits 32 r.(sender_actor_method)
  && fits 64 r.(content_sha256)
  && fits 20 r.(status)
  && eqs r.(status) "active".
End Message.

Module Notification.
Record Notification : Type := Mk {
  id : str;
  recipient_owner_id : str;
  type : str;
  actor_owner_id : option str;
  resource_type : str;
  resource_id : str;
  created_at : datetime;
  read_at : option datetime;
  retention_expires_at : datetime
}.
Global Instance Notification_eta : Eta Notification := fun r =>
  Mk r.(id) r.(recipient_owner_id) r.(type) r.(actor_owner_id) r.(resource_type) r.(resource_id) r.(created_at) r.(read_at) r.(retention_expires_at).
Definition Notification_ok (r : Notification) : bool :=
  fits 36 r.(id)
  && fits 255 r.(recipient_owner_id)
  && fits 80 r.(type)
  && opt_fits 255 r.(actor_owner_id)
  && fits 32 r.(resource_type)
  && fits 255 r.(resource_id).
End Notification.

Module LifecycleTask.
Record LifecycleTask : Type := Mk {
  id : str;
  resource_type : str;
  resource_id : str;
  policy_version : str;
  state : str;
  attempts : Z;
  available_at : datetime;
  lease_expires_at : option datetime;
  claimed_by : option str;
  claim_token : option str;
  last_error_code : option str;
  created_at : datetime;
  completed_at : option datetime
}.
Global Instance LifecycleTask_eta : Eta LifecycleTask := fun r =>
  Mk r.(id) r.(resource_type) r.(resource_id) r.(policy_version) r.(state) r.(attempts) r.(available_at) r.(lease_expires_at) r.(claimed_by) r.(claim_token) r.(last_error_code) r.(created_at) r.(completed_at).
Definition LifecycleTask_ok (r : LifecycleTask) : bool :=
  fits 36 r.(id)
  && fits 64 r.(resource_type)
  && fits 255 r.(resource_id)
  && fits 80 r.(policy_version)
  && fits 20 r.(state)
  && opt_fits 120 r.(claimed_by)
  && opt_fits 36 r.(claim_token)
  && opt_fits 80 r.(last_error_code)
  && one_of r.(state) ["queued"; "leased"; "completed"; "dead_letter"]
  && (0 <=? r.(attempts))%Z.
End LifecycleTask.

Module RetentionHold.
Record RetentionHold : Type := Mk {
  id : str;
  resource_type : str;
  resource_id : str;
  purpose : str;
  authority : str;
  expires_at : datetime;
  review_at : datetime;
  created_at : datetime;
  released_at : option datetime;
  released_by_authority : option str
}.
Global Instance RetentionHold_eta : Eta RetentionHold := fun r =>
  Mk r.(id) r.(resource_type) r.(resource_id) r.(purpose) r.(authority) r.(expires_at) r.(review_at) r.(created_at) r.(released_at) r.(released_by_authority).
Definition RetentionHold_ok (r : RetentionHold) : bool :=
  fits 36 r.(id)
  && fits 64 r.(resource_type)
  && fits 255 r.(resource_id)
  && fits 160 r.(purpose)
  && fits 255 r.(authority)
  && opt_fits 255 r.(released_by_authority)
  && dt_leb r.(review_at) r.(expires_at).
End RetentionHold.

Module RetentionTombstone.
Record RetentionTombstone : Type := Mk {
  id : str;
  resource_type : str;
  resource_id : str;
  policy_version : str;
  task_id : str;
  disposed_at : datetime
}.
Global Instance RetentionTombstone_eta : Eta RetentionTombstone := fun r =>
  Mk r.(id) r.(resource_type) r.(resource_id) r.(policy_version) r.(task_id) r.(disposed_at).
Definition RetentionTombstone_ok (r : RetentionTombstone) : bool :=
  fits 36 r.(id)
  && fits 64 r.(resource_type)
  && fits 255 r.(resource_id)
  && fits 80 r.(policy_version)
  && fits 36 r.(task_id).
End RetentionTombstone.

Module ConnectionRequestRateBucket.
Record ConnectionRequestRateBucket : Type := Mk {
  requester_owner_id : str;
  bucket_date : Z;
  request_count : Z;
  updated_at : datetime
}.
Global Instance ConnectionRequestRateBucket_eta : Eta ConnectionRequestRateBucket := fun r =>
  Mk r.(requester_owner_id) r.(bucket_date) r.(request_count) r.(updated_at).
Definition ConnectionRequestRateBucket_ok (r : ConnectionRequestRateBucket) : bool :=
  fits 255 r.(requester_owner_id).
End ConnectionRequestRateBucket.

Module MessageRateBucket.
Record MessageRateBucket : Type := Mk {
  sender_owner_id : str;
  bucket_date : Z;
  message_count : Z;
  updated_at : datetime
}.
Global Instance MessageRateBucket_eta : Eta MessageRateBucket := fun r =>
  Mk r.(sender_owner_id) r.(bucket_date) r.(message_count) r.(updated_at).
Definition MessageRateBucket_ok (r : MessageRateBucket) : bool :=
  fits 255 r.(sender_owner_id).
End MessageRateBucket.

Module AgentProposal.
Record AgentProposal : Type := Mk {
  id : str;
  owner_id : str;
  submitter_actor_id : str;
  submitter_grant_id : str;
  document_id : str;
  document_kind : str;
  document_identifier : str;
  markdown : str;
  if_match : str;
  status : str;
  decision_actor_id : option str;
  created_at : datetime;
  decided_at : option datetime
}.
Global Instance AgentProposal_eta : Eta AgentProposal := fun r =>
  Mk r.(id) r.(owner_id) r.(submitter_actor_id) r.(submitter_grant_id) r.(document_id) r.(document_kind) r.(document_identifier) r.(markdown) r.(if_match) r.(status) r.(decision_actor_id) r.(created_at) r.(decided_at).
Definition AgentProposal_ok (r : AgentProposal) : bool :=
  fits 36 r.(id)
  && fits 255 r.(owner_id)
  && fits 255 r.(submitter_actor_id)
  && fits 36 r.(submitter_grant_id)
  && fits 36 r.(document_id)
  && fits 16 r.(document_kind)
  && fits 100 r.(document_identifier)
  && fits 96 r.(if_match)
  && fits 20 r.(status)
  && opt_fits 255 r.(decision_actor_id).
End AgentProposal.
