(* ===== verification/Database.v ===== *)
(** * The database behind the API

    A [db] holds one finite map from primary key to row for every modelled
    table whose key is a string, and two tables with other keys.  The module
    gives the session primitives the services use on it. *)
From S2P Require Import Prelude PyTime Models.
Export Document(Document) DocumentVersion(DocumentVersion) Post(Post) PostVersion(PostVersion)
  PostReport(PostReport) ModerationCase(ModerationCase) ModerationDecision(ModerationDecision)
  ModerationAppeal(ModerationAppeal) ModerationAuditEvent(ModerationAuditEvent)
  PostModerationEvent(PostModerationEvent) ApiKey(ApiKey) AgentIdentity(AgentIdentity)
  AgentGrant(AgentGrant) AgentMandate(AgentMandate) IdempotencyRecord(IdempotencyRecord)
  AccountBackupAuthority(AccountBackupAuthority) IdentifierReservation(IdentifierReservation)
  ChangeEvent(ChangeEvent) ContactRequest(ContactRequest)
  AgentOutreachDirectPeerRateBucket(AgentOutreachDirectPeerRateBucket)
  Organization(Organization) OrganizationMembership(OrganizationMembership)
  OrganizationVerification(OrganizationVerification)
  OrganizationVerificationEvidence(OrganizationVerificationEvidence)
  OrganizationVerificationEvent(OrganizationVerificationEvent) Job(Job) Application(Application)
  ConnectionRequest(ConnectionRequest) Connection(Connection) Conversation(Conversation)
  Message(Message) Notification(Notification) LifecycleTask(LifecycleTask)
  RetentionHold(RetentionHold) RetentionTombstone(RetentionTombstone)
  AccountLifecycle(AccountLifecycle) AccountAccessDeny(AccountAccessDeny)
  PublicTaxonomyProjectionState(PublicTaxonomyProjectionState)
  PublicTaxonomyDocumentSnapshot(PublicTaxonomyDocumentSnapshot)
  PublicTaxonomyTerm(PublicTaxonomyTerm) PublicTaxonomyMembership(PublicTaxonomyMembership)
  PublicExactSearchProjectionState(PublicExactSearchProjectionState)
  PublicExactSearchDocumentSnapshot(PublicExactSearchDocumentSnapshot)
  PublicExactSearchCompactValue(PublicExactSearchCompactValue)
  SearchProjectionTask(SearchProjectionTask) PostRateBucket(PostRateBucket)
  ProfileFollow(ProfileFollow) PostGraphPairLock(PostGraphPairLock)
  FollowRateBucket(FollowRateBucket) PostContentBlock(PostContentBlock)
  PostReportRateBucket(PostReportRateBucket)
  AccountLifecycleReceiptRateLimit(AccountLifecycleReceiptRateLimit)
  AccountReverificationUse(AccountReverificationUse) AccountErasureItem(AccountErasureItem)
  AccountBackupManifest(AccountBackupManifest) AccountBackupObligation(AccountBackupObligation)
  AccountLifecycleTombstone(AccountLifecycleTombstone)
  AccountErasureFileProof(AccountErasureFileProof) ContactPolicy(ContactPolicy)
  ContactBlock(ContactBlock) ContactRateBucket(ContactRateBucket)
  AgentOutreachRecipientRateBucket(AgentOutreachRecipientRateBucket) JobVersion(JobVersion)
  ApplicationRateBucket(ApplicationRateBucket) ConnectionBlock(ConnectionBlock)
  ConnectionRequestRateBucket(ConnectionRequestRateBucket) MessageRateBucket(MessageRateBucket)
  AgentProposal(AgentProposal).

(** ** Tables *)
Inductive table : Set :=
| TDocument | TDocumentVersion | TPost | TPostVersion | TPostReport | TModerationCase
| TModerationDecision | TModerationAppeal | TModerationAuditEvent | TPostModerationEvent
| TApiKey | TAgentIdentity | TAgentGrant | TAgentMandate | TIdempotencyRecord
| TAccountBackupAuthority | TIdentifierReservation | TContactRequest | TOrganization
| TOrganizationMembership | TOrganizationVerification | TOrganizationVerificationEvidence
| TOrganizationVerificationEvent | TJob | TApplication | TConnectionRequest | TConnection
| TConversation | TMessage | TNotification | TLifecycleTask | TRetentionHold
| TRetentionTombstone
| TAccountLifecycle | TAccountAccessDeny | TPublicTaxonomyProjectionState
| TPublicTaxonomyDocumentSnapshot | TPublicTaxonomyTerm | TPublicTaxonomyMembership
| TPublicExactSearchProjectionState | TPublicExactSearchDocumentSnapshot
| TPublicExactSearchCompactValue | TSearchProjectionTask | TPostRateBucket | TProfileFollow
| TPostGraphPairLock | TFollowRateBucket | TPostContentBlock | TPostReportRateBucket
| TAccountLifecycleReceiptRateLimit | TAccountReverificationUse | TAccountErasureItem
| TAccountBackupManifest | TAccountBackupObligation | TAccountLifecycleTombstone
| TAccountErasureFileProof | TContactPolicy | TContactBlock | TContactRateBucket
| TAgentOutreachRecipientRateBucket | TJobVersion | TApplicationRateBucket | TConnectionBlock
| TConnectionRequestRateBucket | TMessageRateBucket | TAgentProposal.
Global Instance table_eq_dec : EqDecision table.
Proof. solve_decision. Defined.

Definition row (t : table) : Type :=
  match t with
  | TDocument => Document | TDocumentVersion => DocumentVersion | TPost => Post
  | TPostVersion => PostVersion | TPostReport => PostReport
  | TModerationCase => ModerationCase | TModerationDecision => ModerationDecision
  | TModerationAppeal => ModerationAppeal | TModerationAuditEvent => ModerationAuditEvent
  | TPostModerationEvent => PostModerationEvent | TApiKey => ApiKey
  | TAgentIdentity => AgentIdentity | TAgentGrant => AgentGrant | TAgentMandate => AgentMandate
  | TIdempotencyRecord => IdempotencyRecord
  | TAccountBackupAuthority => AccountBackupAuthority
  | TIdentifierReservation => IdentifierReservation | TContactRequest => ContactRequest
  | TOrganization => Organization | TOrganizationMembership => OrganizationMembership
  | TOrganizationVerification => OrganizationVerification
  | TOrganizationVerificationEvidence => OrganizationVerificationEvidence
  | TOrganizationVerificationEvent => OrganizationVerificationEvent
  | TJob => Job | TApplication => Application | TConnectionRequest => ConnectionRequest
  | TConnection => Connection | TConversation => Conversation | TMessage => Message
  | TNotification => Notification | TLifecycleTask => LifecycleTask
  | TRetentionHold => RetentionHold | TRetentionTombstone => RetentionTombstone
  | TAccountLifecycle => AccountLifecycle | TAccountAccessDeny => AccountAccessDeny
  | TPublicTaxonomyProjectionState => PublicTaxonomyProjectionState
  | TPublicTaxonomyDocumentSnapshot => PublicTaxonomyDocumentSnapshot
  | TPublicTaxonomyTerm => PublicTaxonomyTerm
  | TPublicTaxonomyMembership => PublicTaxonomyMembership
  | TPublicExactSearchProjectionState => PublicExactSearchProjectionState
  | TPublicExactSearchDocumentSnapshot => PublicExactSearchDocumentSnapshot
  | TPublicExactSearchCompactValue => PublicExactSearchCompactValue
  | TSearchProjectionTask => SearchProjectionTask | TPostRateBucket => PostRateBucket
  | TProfileFollow => ProfileFollow | TPostGraphPairLock => PostGraphPairLock
  | TFollowRateBucket => FollowRateBucket | TPostContentBlock => PostContentBlock
  | TPostReportRateBucket => PostReportRateBucket
  | TAccountLifecycleReceiptRateLimit => AccountLifecycleReceiptRateLimit
  | TAccountReverificationUse => AccountReverificationUse
  | TAccountErasureItem => AccountErasureItem | TAccountBackupManifest => AccountBackupManifest
  | TAccountBackupObligation => AccountBackupObligation
  | TAccountLifecycleTombstone => AccountLifecycleTombstone
  | TAccountErasureFileProof => AccountErasureFileProof | TContactPolicy => ContactPolicy
  | TContactBlock => ContactBlock | TContactRateBucket => ContactRateBucket
  | TAgentOutreachRecipientRateBucket => AgentOutreachRecipientRateBucket
  | TJobVersion => JobVersion | TApplicationRateBucket => ApplicationRateBucket
  | TConnectionBlock => ConnectionBlock
  | TConnectionRequestRateBucket => ConnectionRequestRateBucket
  | TMessageRateBucket => MessageRateBucket | TAgentProposal => AgentProposal
  end.

(** A key of two columns: the separator is no code point. *)
Definition pair_key (a b : str) : str := a ++ (-1)%Z :: b.

(** The primary key and the declared constraints of a row. *)
Definition row_id (t : table) : row t -> str :=
  match t with
  | TDocument => Document.id
  | TDocumentVersion => DocumentVersion.id
  | TPost => Post.id
  | TPostVersion => PostVersion.id
  | TPostReport => PostReport.id
  | TModerationCase => ModerationCase.id
  | TModerationDecision => ModerationDecision.id
  | TModerationAppeal => ModerationAppeal.id
  | TModerationAuditEvent => ModerationAuditEvent.id
  | TPostModerationEvent => PostModerationEvent.id
  | TApiKey => ApiKey.id
  | TAgentIdentity => AgentIdentity.id
  | TAgentGrant => AgentGrant.id
  | TAgentMandate => AgentMandate.id
  | TIdempotencyRecord => IdempotencyRecord.id
  | TAccountBackupAuthority => AccountBackupAuthority.id
  | TIdentifierReservation => IdentifierReservation.id
  | TContactRequest => ContactRequest.id
  | TOrganization => Organization.id
  | TOrganizationMembership => OrganizationMembership.id
  | TOrganizationVerification => OrganizationVerification.id
  | TOrganizationVerificationEvidence => OrganizationVerificationEvidence.id
  | TOrganizationVerificationEvent => OrganizationVerificationEvent.id
  | TJob => Job.id
  | TApplication => Application.id
  | TConnectionRequest => ConnectionRequest.id
  | TConnection => Connection.id
  | TConversation => Conversation.id
  | TMessage => Message.id
  | TNotification => Notification.id
  | TLifecycleTask => LifecycleTask.id
  | TRetentionHold => RetentionHold.id
  | TRetentionTombstone => RetentionTombstone.id
  | TAccountLifecycle => AccountLifecycle.id
  | TAccountAccessDeny => AccountAccessDeny.id
  | TPublicTaxonomyProjectionState => PublicTaxonomyProjectionState.taxonomy
  | TPublicTaxonomyDocumentSnapshot => PublicTaxonomyDocumentSnapshot.document_id
  | TPublicTaxonomyTerm => PublicTaxonomyTerm.id
  | TPublicTaxonomyMembership => PublicTaxonomyMembership.id
  | TPublicExactSearchProjectionState => PublicExactSearchProjectionState.scope
  | TPublicExactSearchDocumentSnapshot => PublicExactSearchDocumentSnapshot.document_id
  | TPublicExactSearchCompactValue => PublicExactSearchCompactValue.id
  | TSearchProjectionTask => fun r => pair_key (SearchProjectionTask.document_id r) [SearchProjectionTask.version r]
  | TPostRateBucket => fun r => pair_key (PostRateBucket.owner_id r) [PostRateBucket.bucket_date r]
  | TProfileFollow => ProfileFollow.id
  | TPostGraphPairLock => fun r => pair_key (PostGraphPairLock.pair_owner_low r) (PostGraphPairLock.pair_owner_high r)
  | TFollowRateBucket => fun r => pair_key (FollowRateBucket.owner_id r) [FollowRateBucket.bucket_date r]
  | TPostContentBlock => PostContentBlock.id
  | TPostReportRateBucket => fun r => pair_key (PostReportRateBucket.owner_id r) [PostReportRateBucket.bucket_date r]
  | TAccountLifecycleReceiptRateLimit => AccountLifecycleReceiptRateLimit.id
  | TAccountReverificationUse => AccountReverificationUse.id
  | TAccountErasureItem => AccountErasureItem.id
  | TAccountBackupManifest => AccountBackupManifest.id
  | TAccountBackupObligation => AccountBackupObligation.id
  | TAccountLifecycleTombstone => AccountLifecycleTombstone.id
  | TAccountErasureFileProof => AccountErasureFileProof.id
  | TContactPolicy => ContactPolicy.owner_id
  | TContactBlock => ContactBlock.id
  | TContactRateBucket => fun r => pair_key (ContactRateBucket.sender_owner_id r) [ContactRateBucket.bucket_date r]
  | TAgentOutreachRecipientRateBucket => fun r => pair_key (AgentOutreachRecipientRateBucket.recipient_owner_id r) [AgentOutreachRecipientRateBucket.bucket_date r]
  | TJobVersion => fun r => pair_key (JobVersion.job_id r) [JobVersion.version r]
  | TApplicationRateBucket => fun r => pair_key (ApplicationRateBucket.applicant_owner_id r) [ApplicationRateBucket.bucket_date r]
  | TConnectionBlock => ConnectionBlock.id
  | TConnectionRequestRateBucket => fun r => pair_key (ConnectionRequestRateBucket.requester_owner_id r) [ConnectionRequestRateBucket.bucket_date r]
  | TMessageRateBucket => fun r => pair_key (MessageRateBucket.sender_owner_id r) [MessageRateBucket.bucket_date r]
  | TAgentProposal => AgentProposal.id
  end.
Definition row_ok (t : table) : row t -> bool :=
  match t with
  | TDocument => Document.Document_ok
  | TDocumentVersion => DocumentVersion.DocumentVersion_ok
  | TPost => Post.Post_ok
  | TPostVersion => PostVersion.PostVersion_ok
  | TPostReport => PostReport.PostReport_ok
  | TModerationCase => ModerationCase.ModerationCase_ok
  | TModerationDecision => ModerationDecision.ModerationDecision_ok
  | TModerationAppeal => ModerationAppeal.ModerationAppeal_ok
  | TModerationAuditEvent => ModerationAuditEvent.ModerationAuditEvent_ok
  | TPostModerationEvent => PostModerationEvent.PostModerationEvent_ok
  | TApiKey => ApiKey.ApiKey_ok
  | TAgentIdentity => AgentIdentity.AgentIdentity_ok
  | TAgentGrant => AgentGrant.AgentGrant_ok
  | TAgentMandate => AgentMandate.AgentMandate_ok
  | TIdempotencyRecord => IdempotencyRecord.IdempotencyRecord_ok
  | TAccountBackupAuthority => AccountBackupAuthority.AccountBackupAuthority_ok
  | TIdentifierReservation => IdentifierReservation.IdentifierReservation_ok
  | TContactRequest => ContactRequest.ContactRequest_ok
  | TOrganization => Organization.Organization_ok
  | TOrganizationMembership => OrganizationMembership.OrganizationMembership_ok
  | TOrganizationVerification => OrganizationVerification.OrganizationVerification_ok
  | TOrganizationVerificationEvidence => OrganizationVerificationEvidence.OrganizationVerificationEvidence_ok
  | TOrganizationVerificationEvent => OrganizationVerificationEvent.OrganizationVerificationEvent_ok
  | TJob => Job.Job_ok
  | TApplication => Application.Application_ok
  | TConnectionRequest => ConnectionRequest.ConnectionRequest_ok
  | TConnection => Connection.Connection_ok
  | TConversation => Conversation.Conversation_ok
  | TMessage => Message.Message_ok
  | TNotification => Notification.Notification_ok
  | TLifecycleTask => LifecycleTask.LifecycleTask_ok
  | TRetentionHold => RetentionHold.RetentionHold_ok
  | TRetentionTombstone => RetentionTombstone.RetentionTombstone_ok
  | TAccountLifecycle => AccountLifecycle.AccountLifecycle_ok
  | TAccountAccessDeny => AccountAccessDeny.AccountAccessDeny_ok
  | TPublicTaxonomyProjectionState => PublicTaxonomyProjectionState.PublicTaxonomyProjectionState_ok
  | TPublicTaxonomyDocumentSnapshot => PublicTaxonomyDocumentSnapshot.PublicTaxonomyDocumentSnapshot_ok
  | TPublicTaxonomyTerm => PublicTaxonomyTerm.PublicTaxonomyTerm_ok
  | TPublicTaxonomyMembership => PublicTaxonomyMembership.PublicTaxonomyMembership_ok
  | TPublicExactSearchProjectionState => PublicExactSearchProjectionState.PublicExactSearchProjectionState_ok
  | TPublicExactSearchDocumentSnapshot => PublicExactSearchDocumentSnapshot.PublicExactSearchDocumentSnapshot_ok
  | TPublicExactSearchCompactValue => PublicExactSearchCompactValue.PublicExactSearchCompactValue_ok
  | TSearchProjectionTask => SearchProjectionTask.SearchProjectionTask_ok
  | TPostRateBucket => PostRateBucket.PostRateBucket_ok
  | TProfileFollow => ProfileFollow.ProfileFollow_ok
  | TPostGraphPairLock => PostGraphPairLock.PostGraphPairLock_ok
  | TFollowRateBucket => FollowRateBucket.FollowRateBucket_ok
  | TPostContentBlock => PostContentBlock.PostContentBlock_ok
  | TPostReportRateBucket => PostReportRateBucket.PostReportRateBucket_ok
  | TAccountLifecycleReceiptRateLimit => AccountLifecycleReceiptRateLimit.AccountLifecycleReceiptRateLimit_ok
  | TAccountReverificationUse => AccountReverificationUse.AccountReverificationUse_ok
  | TAccountErasureItem => AccountErasureItem.AccountErasureItem_ok
  | TAccountBackupManifest => AccountBackupManifest.AccountBackupManifest_ok
  | TAccountBackupObligation => AccountBackupObligation.AccountBackupObligation_ok
  | TAccountLifecycleTombstone => AccountLifecycleTombstone.AccountLifecycleTombstone_ok
  | TAccountErasureFileProof => AccountErasureFileProof.AccountErasureFileProof_ok
  | TContactPolicy => ContactPolicy.ContactPolicy_ok
  | TContactBlock => ContactBlock.ContactBlock_ok
  | TContactRateBucket => ContactRateBucket.ContactRateBucket_ok
  | TAgentOutreachRecipientRateBucket => AgentOutreachRecipientRateBucket.AgentOutreachRecipientRateBucket_ok
  | TJobVersion => JobVersion.JobVersion_ok
  | TApplicationRateBucket => ApplicationRateBucket.ApplicationRateBucket_ok
  | TConnectionBlock => ConnectionBlock.ConnectionBlock_ok
  | TConnectionRequestRateBucket => ConnectionRequestRateBucket.ConnectionRequestRateBucket_ok
  | TMessageRateBucket => MessageRateBucket.MessageRateBucket_ok
  | TAgentProposal => AgentProposal.AgentProposal_ok
  end.

(** UNIQUE constraints, other than the primary key, of the tables the services
    insert into: [row_conflict t r r'] says that the table cannot hold both rows.
    NULL values do not conflict. *)
Definition same_value (a b : option str) : bool := not_null a && bool_decide (a = b).
Definition row_conflict (t : table) : row t -> row t -> bool :=
  match t with
  | TPostReport => fun r r' =>
      bool_decide (PostReport.post_id r = PostReport.post_id r')
      && bool_decide (PostReport.reporter_owner_id r = PostReport.reporter_owner_id r')
  | TModerationCase => fun r r' =>
      bool_decide (ModerationCase.post_id r = ModerationCase.post_id r')
      && eqs (ModerationCase.status r) "open" && eqs (ModerationCase.status r') "open"
  | TModerationDecision => fun r r' =>
      bool_decide (ModerationDecision.case_id r = ModerationDecision.case_id r')
  | TModerationAppeal => fun r r' =>
      bool_decide (ModerationAppeal.decision_id r = ModerationAppeal.decision_id r')
  | TLifecycleTask => fun r r' =>
      bool_decide (LifecycleTask.resource_type r = LifecycleTask.resource_type r')
      && bool_decide (LifecycleTask.resource_id r = LifecycleTask.resource_id r')
  | TRetentionTombstone => fun r r' =>
      bool_decide (RetentionTombstone.resource_type r = RetentionTombstone.resource_type r')
      && bool_decide (RetentionTombstone.resource_id r = RetentionTombstone.resource_id r')
  | TIdempotencyRecord => fun r r' =>
      bool_decide (IdempotencyRecord.owner_id r = IdempotencyRecord.owner_id r')
      && bool_decide (IdempotencyRecord.idempotency_key r = IdempotencyRecord.idempotency_key r')
  | TIdentifierReservation => fun r r' =>
      bool_decide (IdentifierReservation.namespace r = IdentifierReservation.namespace r')
      && bool_decide (IdentifierReservation.identifier_hmac r
                      = IdentifierReservation.identifier_hmac r')
  | TAccountLifecycle => fun r r' =>
      bool_decide (AccountLifecycle.subject_hmac r = AccountLifecycle.subject_hmac r')
      || same_value (AccountLifecycle.request_idempotency_hmac r)
           (AccountLifecycle.request_idempotency_hmac r')
      || same_value (AccountLifecycle.confirmation_idempotency_hmac r)
           (AccountLifecycle.confirmation_idempotency_hmac r')
      || same_value (AccountLifecycle.receipt_hmac r) (AccountLifecycle.receipt_hmac r')
  | TAccountAccessDeny => fun r r' =>
      bool_decide (AccountAccessDeny.subject_hmac r = AccountAccessDeny.subject_hmac r')
      || bool_decide (AccountAccessDeny.deletion_id r = AccountAccessDeny.deletion_id r')
  | TAccountReverificationUse => fun r r' =>
      bool_decide (AccountReverificationUse.reverification_id_hmac r = AccountReverificationUse.reverification_id_hmac r')
  | TAccountLifecycleReceiptRateLimit => fun r r' =>
      bool_decide (AccountLifecycleReceiptRateLimit.receipt_hmac r = AccountLifecycleReceiptRateLimit.receipt_hmac r')
      && bool_decide (AccountLifecycleReceiptRateLimit.ip_hmac r = AccountLifecycleReceiptRateLimit.ip_hmac r')
      && bool_decide (AccountLifecycleReceiptRateLimit.window_started_at r = AccountLifecycleReceiptRateLimit.window_started_at r')
  | TAccountErasureItem => fun r r' =>
      bool_decide (AccountErasureItem.deletion_id r = AccountErasureItem.deletion_id r')
      && bool_decide (AccountErasureItem.resource_type r = AccountErasureItem.resource_type r')
      && bool_decide (AccountErasureItem.resource_id r = AccountErasureItem.resource_id r')
      && bool_decide (AccountErasureItem.phase r = AccountErasureItem.phase r')
  | TAccountBackupManifest => fun r r' =>
      bool_decide (AccountBackupManifest.generation_id r = AccountBackupManifest.generation_id r')
  | TAccountBackupObligation => fun r r' =>
      bool_decide (AccountBackupObligation.deletion_id r = AccountBackupObligation.deletion_id r')
      && bool_decide (AccountBackupObligation.generation_id r = AccountBackupObligation.generation_id r')
  | TAccountLifecycleTombstone => fun r r' =>
      bool_decide (AccountLifecycleTombstone.deletion_id r = AccountLifecycleTombstone.deletion_id r')
  | TAccountErasureFileProof => fun r r' =>
      bool_decide (AccountErasureFileProof.deletion_id r = AccountErasureFileProof.deletion_id r')
      && bool_decide (AccountErasureFileProof.resource_type r = AccountErasureFileProof.resource_type r')
      && bool_decide (AccountErasureFileProof.resource_id r = AccountErasureFileProof.resource_id r')
  | TPublicTaxonomyTerm => fun r r' =>
      bool_decide (PublicTaxonomyTerm.taxonomy r = PublicTaxonomyTerm.taxonomy r')
      && bool_decide (PublicTaxonomyTerm.scheme r = PublicTaxonomyTerm.scheme r')
      && bool_decide (PublicTaxonomyTerm.external_id r = PublicTaxonomyTerm.external_id r')
      || bool_decide (PublicTaxonomyTerm.filter_value r = PublicTaxonomyTerm.filter_value r')
  | TPublicTaxonomyMembership => fun r r' =>
      bool_decide (PublicTaxonomyMembership.document_id r = PublicTaxonomyMembership.document_id r')
      && bool_decide (PublicTaxonomyMembership.field_name r = PublicTaxonomyMembership.field_name r')
      && (bool_decide (PublicTaxonomyMembership.term_id r = PublicTaxonomyMembership.term_id r')
          || (PublicTaxonomyMembership.source_ordinal r =? PublicTaxonomyMembership.source_ordinal r')%Z)
  | _ => fun _ _ => false
  end.

Record db : Type := MkDb {
  tbl : forall t : table, gmap str (row t);
  change_events : gmap Z ChangeEvent;
  peer_buckets : gmap (str * Z) AgentOutreachDirectPeerRateBucket
}.
Definition empty_db : db := MkDb (fun _ => ∅) ∅ ∅.

Definition set_table (t : table) (m : gmap str (row t)) (f : forall t, gmap str (row t)) :
  forall t, gmap str (row t) :=
  fun t' => match decide (t = t') with
            | left e => eq_rect t (fun x => gmap str (row x)) m t' e
            | right _ => f t'
            end.
Definition set_tbl (t : table) (m : gmap str (row t)) (d : db) : db :=
  MkDb (set_table t m (tbl d)) (change_events d) (peer_buckets d).
Definition put (t : table) (k : str) (r : row t) (d : db) : db := set_tbl t (<[k:=r]> (tbl d t)) d.
Definition del (t : table) (k : str) (d : db) : db := set_tbl t (delete k (tbl d t)) d.
Definition set_change_events (m : gmap Z ChangeEvent) (d : db) : db :=
  MkDb (tbl d) m (peer_buckets d).
Definition set_peer_buckets (m : gmap (str * Z) AgentOutreachDirectPeerRateBucket) (d : db) : db :=
  MkDb (tbl d) (change_events d) m.

Lemma tbl_set_eq t m d : tbl (set_tbl t m d) t = m.
Proof.
  unfold set_tbl, set_table; simpl. destruct (decide (t = t)) as [e|]; [|done].
  by rewrite (proof_irrel e eq_refl).
Qed.
Lemma tbl_set_ne t t' m d : t <> t' -> tbl (set_tbl t m d) t' = tbl d t'.
Proof. intros H. unfold set_tbl, set_table; simpl. by destruct (decide (t = t')). Qed.
Lemma tbl_put_eq t k r d : tbl (put t k r d) t = <[k:=r]> (tbl d t).
Proof. apply tbl_set_eq. Qed.
Lemma tbl_put_ne t t' k r d : t <> t' -> tbl (put t k r d) t' = tbl d t'.
Proof. apply tbl_set_ne. Qed.
Lemma tbl_del_eq t k d : tbl (del t k d) t = delete k (tbl d t).
Proof. apply tbl_set_eq. Qed.
Lemma tbl_del_ne t t' k d : t <> t' -> tbl (del t k d) t' = tbl d t'.
Proof. apply tbl_set_ne. Qed.
Lemma tbl_set_change_events m d : tbl (set_change_events m d) = tbl d.
Proof. done. Qed.

Create HintDb db_tbl.
Create Rewrite HintDb db_rw.
#[export] Hint Rewrite tbl_set_eq tbl_put_eq tbl_del_eq tbl_set_change_events : db_rw.
#[export] Hint Rewrite tbl_set_ne tbl_put_ne tbl_del_ne using discriminate : db_rw.
Ltac db_simpl := autorewrite with db_rw in *.

(** ** Queries *)

(** [select(T).where(p)]: the rows that satisfy [p], in no specified order. *)
Definition select (t : table) (p : row t -> bool) (d : db) : list (row t) :=
  filter (fun r => p r = true) (map_to_list (tbl d t)).*2.

Lemma elem_of_select t p d r :
  r ∈ select t p d <-> (exists k, tbl d t !! k = Some r) /\ p r = true.
Proof.
  unfold select. rewrite list_elem_of_filter, list_elem_of_fmap.
  split.
  - intros [Hp ([k r'] & -> & H)]. apply elem_of_map_to_list in H. eauto.
  - intros [[k Hk] Hp]. split; [done|]. exists (k, r). split; [done|].
    by apply elem_of_map_to_list.
Qed.

Lemma in_select (t : table) (p : row t -> bool) (d : db) (k : str) (r : row t) :
  tbl d t !! k = Some r -> p r = true -> r ∈ select t p d.
Proof. intros H Hp. apply elem_of_select. eauto. Qed.

(** [.order_by(...).limit(1)]: the least row of a selection for [before]. *)
Fixpoint first_by {A} (before : A -> A -> bool) (l : list A) : option A :=
  match l with
  | [] => None
  | x :: l' => match first_by before l' with
               | Some y => Some (if before y x then y else x)
               | None => Some x
               end
  end.

Lemma first_by_elem {A} (before : A -> A -> bool) l x :
  first_by before l = Some x -> x ∈ l.
Proof.
  revert x. induction l as [|y l IH]; intros x; simpl; [done|].
  destruct (first_by before l) as [z|]; intros [= <-].
  - destruct (before z y); [right; auto|left].
  - left.
Qed.
Lemma first_by_none {A} (before : A -> A -> bool) l : first_by before l = None <-> l = [].
Proof. destruct l; simpl; [done|]. destruct (first_by before l); done. Qed.
Lemma first_by_some {A} (before : A -> A -> bool) l :
  l <> [] -> exists x, first_by before l = Some x.
Proof.
  intros H. destruct (first_by before l) eqn:E; [eauto|].
  by apply first_by_none in E.
Qed.
(** Nothing selected precedes the chosen row, for a total preorder. *)
Lemma first_by_least {A} (before : A -> A -> bool) l x
  (Htot : forall a b, before a b = true \/ before b a = true)
  (Htr : forall a b c, before a b = true -> before b c = true -> before a c = true) :
  first_by before l = Some x -> forall y, y ∈ l -> before x y = true.
Proof.
  revert x. induction l as [|z l IH]; intros x; simpl; [done|].
  destruct (first_by before l) as [w|] eqn:E; intros [= <-] y Hy.
  - apply elem_of_cons in Hy as [->|Hy].
    + destruct (before w z) eqn:B; [done|]. destruct (Htot z z); done.
    + destruct (before w z) eqn:B; [by apply IH|].
      apply Htr with w; [|by apply IH]. destruct (Htot w z); congruence.
  - apply elem_of_cons in Hy as [->|Hy]; [destruct (Htot z z); done|].
    apply first_by_none in E as ->. by apply elem_of_nil in Hy.
Qed.

(** [.order_by(...)]: a stable insertion sort. *)
Fixpoint insert_by {A} (before : A -> A -> bool) (x : A) (l : list A) : list A :=
  match l with
  | [] => [x]
  | y :: l' => if before x y then x :: l else y :: insert_by before x l'
  end.
Definition sort_by {A} (before : A -> A -> bool) (l : list A) : list A :=
  foldr (insert_by before) [] l.

Lemma insert_by_perm {A} (before : A -> A -> bool) x l : insert_by before x l ≡ₚ x :: l.
Proof.
  induction l as [|y l IH]; simpl; [done|]. destruct (before x y); [done|].
  rewrite IH. apply Permutation_swap.
Qed.
Lemma sort_by_perm {A} (before : A -> A -> bool) l : sort_by before l ≡ₚ l.
Proof. induction l as [|x l IH]; simpl; [done|]. by rewrite insert_by_perm, IH. Qed.

(** Bulk [update(T).where(p).values(...)] and [delete(T).where(p)]. *)
Definition update_where (t : table) (p : row t -> bool) (f : row t -> row t) (d : db) : db :=
  set_tbl t ((fun r => if p r then f r else r) <$> tbl d t) d.
Definition delete_where (t : table) (p : row t -> bool) (d : db) : db :=
  set_tbl t (filter (fun kr => p kr.2 = false) (tbl d t)) d.

Lemma tbl_update_where_eq t p f d :
  tbl (update_where t p f d) t = (fun r => if p r then f r else r) <$> tbl d t.
Proof. apply tbl_set_eq. Qed.
Lemma tbl_update_where_ne t t' p f d : t <> t' -> tbl (update_where t p f d) t' = tbl d t'.
Proof. apply tbl_set_ne. Qed.
Lemma tbl_delete_where_eq t p d :
  tbl (delete_where t p d) t = filter (fun kr => p kr.2 = false) (tbl d t).
Proof. apply tbl_set_eq. Qed.
Lemma tbl_delete_where_ne t t' p d : t <> t' -> tbl (delete_where t p d) t' = tbl d t'.
Proof. apply tbl_set_ne. Qed.
#[export] Hint Rewrite tbl_update_where_eq tbl_delete_where_eq : db_rw.
#[export] Hint Rewrite tbl_update_where_ne tbl_delete_where_ne using discriminate : db_rw.

Lemma lookup_delete_where t p d k r :
  tbl (delete_where t p d) t !! k = Some r <-> tbl d t !! k = Some r /\ p r = false.
Proof. rewrite tbl_delete_where_eq, map_lookup_filter_Some. done. Qed.

(** [session.add] at flush: a row that breaks a CHECK constraint, a column width,
    the primary key or a UNIQUE constraint is an [IntegrityError]. *)
Definition can_insert (t : table) (r : row t) (d : db) : bool :=
  row_ok t r && bool_decide (tbl d t !! row_id t r = None)
  && bool_decide (map_Forall (fun _ r' => row_conflict t r r' = false) (tbl d t)).
Definition session_add (t : table) (r : row t) : act db unit := fun d =>
  if can_insert t r d then (Ok tt, put t (row_id t r) r d) else (Raise IntegrityError, d).
(** An autoincrement insert of a change event. *)
Definition next_sequence (d : db) : Z :=
  (1 + map_fold (fun k _ acc => Z.max k acc) 0 (change_events d))%Z.
Definition add_change_event (e : Z -> ChangeEvent) (d : db) : db :=
  set_change_events (<[next_sequence d := e (next_sequence d)]> (change_events d)) d.

(** ** Well-formed databases *)

(** Every row sits under its own primary key. *)
Definition keys_ok (d : db) : Prop := forall t k r, tbl d t !! k = Some r -> row_id t r = k.
(** Every row satisfies its table's column widths and CHECK constraints. *)
Definition rows_ok (d : db) : Prop := forall t k r, tbl d t !! k = Some r -> row_ok t r = true.
(** No two rows of a table violate a UNIQUE constraint. *)
Definition unique_ok (d : db) : Prop :=
  forall t k k' r r', tbl d t !! k = Some r -> tbl d t !! k' = Some r' ->
    row_conflict t r r' = true -> k = k'.

Lemma keys_ok_put t k r d : keys_ok d -> row_id t r = k -> keys_ok (put t k r d).
Proof.
  intros H Hr t' k' r'. destruct (decide (t = t')) as [<-|Hne].
  - rewrite tbl_put_eq, lookup_insert. case_decide; [naive_solver|apply H].
  - rewrite tbl_put_ne by done. apply H.
Qed.
Lemma keys_ok_del t k d : keys_ok d -> keys_ok (del t k d).
Proof.
  intros H t' k' r'. destruct (decide (t = t')) as [<-|Hne].
  - rewrite tbl_del_eq, lookup_delete. case_decide; [done|apply H].
  - rewrite tbl_del_ne by done. apply H.
Qed.
Lemma rows_ok_put t k r d : rows_ok d -> row_ok t r = true -> rows_ok (put t k r d).
Proof.
  intros H Hr t' k' r'. destruct (decide (t = t')) as [<-|Hne].
  - rewrite tbl_put_eq, lookup_insert. case_decide; [naive_solver|apply H].
  - rewrite tbl_put_ne by done. apply H.
Qed.
Lemma rows_ok_del t k d : rows_ok d -> rows_ok (del t k d).
Proof.
  intros H t' k' r'. destruct (decide (t = t')) as [<-|Hne].
  - rewrite tbl_del_eq, lookup_delete. case_decide; [done|apply H].
  - rewrite tbl_del_ne by done. apply H.
Qed.
#[export] Hint Resolve keys_ok_put keys_ok_del rows_ok_put rows_ok_del : db_tbl.
Lemma keys_ok_update_where t p f d :
  keys_ok d -> (forall r, row_id t (f r) = row_id t r) -> keys_ok (update_where t p f d).
Proof.
  intros H Hf t' k' r'. destruct (decide (t = t')) as [<-|Hne].
  - rewrite tbl_update_where_eq, lookup_fmap, fmap_Some. intros (r & Hr & ->).
    destruct (p r); rewrite ?Hf; by apply H.
  - rewrite tbl_update_where_ne by done. apply H.
Qed.
Lemma keys_ok_delete_where t p d : keys_ok d -> keys_ok (delete_where t p d).
Proof.
  intros H t' k' r'. destruct (decide (t = t')) as [<-|Hne].
  - intros [Hr _]%lookup_delete_where. by apply H.
  - rewrite tbl_delete_where_ne by done. apply H.
Qed.
Lemma keys_ok_change_events m d : keys_ok d -> keys_ok (set_change_events m d).
Proof. done. Qed.
#[export] Hint Resolve keys_ok_update_where keys_ok_delete_where keys_ok_change_events : db_tbl.
