(* ===== verification/Sorting.v ===== *)
(** * Ordered queries

    [sort_by] sorts by a total transitive order, and its result does not depend on
    the order of its input when only equal rows precede each other both ways. *)
From S2P Require Import Prelude Models Database.

Section sorting.
Context {A : Type} (before : A -> A -> bool)
  (Htot : forall x y, before x y = true \/ before y x = true)
  (Htr : forall x y z, before x y = true -> before y z = true -> before x z = true).
Notation sorted := (StronglySorted (fun x y => before x y = true)).
Lemma insert_by_sorted x l : sorted l -> sorted (insert_by before x l).
Proof.
  induction 1 as [|y l Hl IH Hy]; cbn [insert_by]; [repeat constructor|].
  destruct (before x y) eqn:E.
  - constructor; [by constructor|]. constructor; [done|]. eapply Forall_impl; [exact Hy|].
    intros z Hz. cbv beta in *. by apply Htr with y.
  - constructor; [done|]. rewrite insert_by_perm. constructor; [|done]. destruct (Htot x y); congruence.
Qed.
Lemma sort_by_sorted l : sorted (sort_by before l).
Proof. induction l as [|x l IH]; cbn; [constructor|by apply insert_by_sorted]. Qed.
Lemma sorted_app l1 l2 x y : sorted (l1 ++ l2) -> x ∈ l1 -> y ∈ l2 -> before x y = true.
Proof.
  induction l1 as [|z l1 IH]; intros Hs Hx Hy; [by apply elem_of_nil in Hx|].
  cbn in Hs. inversion_clear Hs as [|? ? Hs' Hz]. apply elem_of_cons in Hx as [->|Hx]; [|by apply IH].
  rewrite Forall_forall in Hz. apply Hz, elem_of_app. by right.
Qed.
Lemma sort_by_unique l l' : (forall x y, x ∈ l -> y ∈ l -> before x y = true -> before y x = true -> x = y) ->
  l ≡ₚ l' -> sort_by before l = sort_by before l'.
Proof.
  intros H Hl. apply (StronglySorted_unique_strong (fun x y => before x y = true)); [|apply sort_by_sorted..|].
  - intros x y Hx Hy. apply H; [by rewrite sort_by_perm in Hx|]. by rewrite sort_by_perm, <-Hl in Hy.
  - by rewrite !sort_by_perm.
Qed.
End sorting.

