(* ===== verification/ForeignKeys.v ===== *)
(** * Foreign keys (the ForeignKey columns of src/apps/api/app/models.py)

    [session.delete] on a row that other rows refer to: RESTRICT references make
    it an [IntegrityError], CASCADE references delete the referring rows with it.
    The columns and their actions are those of models.py; what [delete_rows] does
    with them is the documented behaviour of the database, not code of the
    repository. *)
From S2P Require Import Prelude PyTime Models Database.
Local Open Scope Z_scope.

Inductive on_delete : Set := Cascade | Restrict.
(** A column of the table [child] that holds the key of a parent row. *)
Record reference : Type := MkReference
  { child : table; column : row child -> option str; action : on_delete }.

Definition DocumentVersion_document_id : reference :=
  MkReference TDocumentVersion (fun r => Some (DocumentVersion.document_id r)) Cascade.
Definition PublicTaxonomyDocumentSnapshot_document_id : reference :=
  MkReference TPublicTaxonomyDocumentSnapshot (fun r => Some (PublicTaxonomyDocumentSnapshot.document_id r)) Cascade.
Definition PublicTaxonomyMembership_document_id : reference :=
  MkReference TPublicTaxonomyMembership (fun r => Some (PublicTaxonomyMembership.document_id r)) Cascade.
Definition PublicTaxonomyMembership_term_id : reference :=
  MkReference TPublicTaxonomyMembership (fun r => Some (PublicTaxonomyMembership.term_id r)) Cascade.
Definition PublicExactSearchDocumentSnapshot_document_id : reference :=
  MkReference TPublicExactSearchDocumentSnapshot (fun r => Some (PublicExactSearchDocumentSnapshot.document_id r)) Cascade.
Definition PublicExactSearchCompactValue_document_id : reference :=
  MkReference TPublicExactSearchCompactValue (fun r => Some (PublicExactSearchCompactValue.document_id r)) Cascade.
Definition Post_author_profile_document_id : reference :=
  MkReference TPost (fun r => Some (Post.author_profile_document_id r)) Restrict.
Definition PostVersion_post_id : reference :=
  MkReference TPostVersion (fun r => Some (PostVersion.post_id r)) Cascade.
Definition PostReport_post_id : reference :=
  MkReference TPostReport (fun r => Some (PostReport.post_id r)) Restrict.
Definition PostReport_case_id : reference :=
  MkReference TPostReport (fun r => Some (PostReport.case_id r)) Restrict.
Definition ModerationCase_post_id : reference :=
  MkReference TModerationCase (fun r => Some (ModerationCase.post_id r)) Restrict.
Definition ModerationDecision_case_id : reference :=
  MkReference TModerationDecision (fun r => Some (ModerationDecision.case_id r)) Restrict.
Definition ModerationDecision_post_id : reference :=
  MkReference TModerationDecision (fun r => Some (ModerationDecision.post_id r)) Restrict.
Definition ModerationAppeal_case_id : reference :=
  MkReference TModerationAppeal (fun r => Some (ModerationAppeal.case_id r)) Restrict.
Definition ModerationAppeal_decision_id : reference :=
  MkReference TModerationAppeal (fun r => Some (ModerationAppeal.decision_id r)) Restrict.
Definition ModerationAuditEvent_case_id : reference :=
  MkReference TModerationAuditEvent (fun r => Some (ModerationAuditEvent.case_id r)) Restrict.
Definition ModerationAuditEvent_post_id : reference :=
  MkReference TModerationAuditEvent (fun r => Some (ModerationAuditEvent.post_id r)) Restrict.
Definition PostModerationEvent_post_id : reference :=
  MkReference TPostModerationEvent (fun r => Some (PostModerationEvent.post_id r)) Restrict.
Definition AgentIdentity_profile_document_id : reference :=
  MkReference TAgentIdentity (fun r => Some (AgentIdentity.profile_document_id r)) Restrict.
Definition AgentGrant_mandate_id : reference :=
  MkReference TAgentGrant (AgentGrant.mandate_id) Restrict.
Definition AgentMandate_identity_id : reference :=
  MkReference TAgentMandate (fun r => Some (AgentMandate.identity_id r)) Restrict.
Definition AccountAccessDeny_deletion_id : reference :=
  MkReference TAccountAccessDeny (fun r => Some (AccountAccessDeny.deletion_id r)) Restrict.
Definition AccountLifecycleReceiptRateLimit_deletion_id : reference :=
  MkReference TAccountLifecycleReceiptRateLimit (fun r => Some (AccountLifecycleReceiptRateLimit.deletion_id r)) Cascade.
Definition AccountErasureItem_deletion_id : reference :=
  MkReference TAccountErasureItem (fun r => Some (AccountErasureItem.deletion_id r)) Cascade.
Definition AccountErasureItem_hold_id : reference :=
  MkReference TAccountErasureItem (AccountErasureItem.hold_id) Restrict.
Definition AccountBackupObligation_deletion_id : reference :=
  MkReference TAccountBackupObligation (fun r => Some (AccountBackupObligation.deletion_id r)) Cascade.
Definition AccountErasureFileProof_deletion_id : reference :=
  MkReference TAccountErasureFileProof (fun r => Some (AccountErasureFileProof.deletion_id r)) Cascade.
Definition ContactRequest_sender_mandate_id : reference :=
  MkReference TContactRequest (ContactRequest.sender_mandate_id) Restrict.
Definition OrganizationMembership_organization_id : reference :=
  MkReference TOrganizationMembership (fun r => Some (OrganizationMembership.organization_id r)) Cascade.
Definition OrganizationVerification_organization_id : reference :=
  MkReference TOrganizationVerification (fun r => Some (OrganizationVerification.organization_id r)) Restrict.
Definition OrganizationVerificationEvidence_verification_id : reference :=
  MkReference TOrganizationVerificationEvidence (fun r => Some (OrganizationVerificationEvidence.verification_id r)) Restrict.
Definition OrganizationVerificationEvent_verification_id : reference :=
  MkReference TOrganizationVerificationEvent (fun r => Some (OrganizationVerificationEvent.verification_id r)) Restrict.
Definition OrganizationVerificationEvent_organization_id : reference :=
  MkReference TOrganizationVerificationEvent (fun r => Some (OrganizationVerificationEvent.organization_id r)) Restrict.
Definition Job_organization_id : reference :=
  MkReference TJob (fun r => Some (Job.organization_id r)) Cascade.
Definition JobVersion_job_id : reference :=
  MkReference TJobVersion (fun r => Some (JobVersion.job_id r)) Cascade.
Definition Application_job_id : reference :=
  MkReference TApplication (fun r => Some (Application.job_id r)) Cascade.
Definition Connection_connection_request_id : reference :=
  MkReference TConnection (fun r => Some (Connection.connection_request_id r)) Restrict.
Definition Conversation_connection_id : reference :=
  MkReference TConversation (fun r => Some (Conversation.connection_id r)) Restrict.
Definition Message_conversation_id : reference :=
  MkReference TMessage (fun r => Some (Message.conversation_id r)) Restrict.
(** The references to a table. *)
Definition references (t : table) : list reference :=
  match t with
  | TDocument => [DocumentVersion_document_id; PublicTaxonomyDocumentSnapshot_document_id;
      PublicExactSearchDocumentSnapshot_document_id; Post_author_profile_document_id;
      AgentIdentity_profile_document_id]
  | TPublicTaxonomyDocumentSnapshot => [PublicTaxonomyMembership_document_id]
  | TPublicTaxonomyTerm => [PublicTaxonomyMembership_term_id]
  | TPublicExactSearchDocumentSnapshot => [PublicExactSearchCompactValue_document_id]
  | TPost => [PostVersion_post_id; PostReport_post_id; ModerationCase_post_id;
      ModerationDecision_post_id; ModerationAuditEvent_post_id; PostModerationEvent_post_id]
  | TModerationCase => [PostReport_case_id; ModerationDecision_case_id;
      ModerationAppeal_case_id; ModerationAuditEvent_case_id]
  | TModerationDecision => [ModerationAppeal_decision_id]
  | TAgentMandate => [AgentGrant_mandate_id; ContactRequest_sender_mandate_id]
  | TAgentIdentity => [AgentMandate_identity_id]
  | TAccountLifecycle => [AccountAccessDeny_deletion_id;
      AccountLifecycleReceiptRateLimit_deletion_id; AccountErasureItem_deletion_id;
      AccountBackupObligation_deletion_id; AccountErasureFileProof_deletion_id]
  | TRetentionHold => [AccountErasureItem_hold_id]
  | TOrganization => [OrganizationMembership_organization_id;
      OrganizationVerification_organization_id; OrganizationVerificationEvent_organization_id;
      Job_organization_id]
  | TOrganizationVerification => [OrganizationVerificationEvidence_verification_id;
      OrganizationVerificationEvent_verification_id]
  | TJob => [JobVersion_job_id; Application_job_id]
  | TConnectionRequest => [Connection_connection_request_id]
  | TConnection => [Conversation_connection_id]
  | TConversation => [Message_conversation_id]
  | _ => []
  end.

(** The rows of the child table that refer to the key [i]. *)
Definition referring (ref : reference) (i : str) (d : db) : list (row (child ref)) :=
  select (child ref) (fun r => bool_decide (column ref r = Some i)) d.
Definition restricts (d : db) (i : str) (ref : reference) : bool :=
  match action ref with
  | Restrict => negb (bool_decide (referring ref i d = []))
  | Cascade => false
  end.
Fixpoint for_each {S A : Type} (l : list A) (f : A -> act S unit) : act S unit :=
  match l with
  | [] => ret tt
  | x :: l => f x ;;; for_each l f
  end.
(** [fuel] bounds the depth of cascades: no table is more than three levels deep. *)
Fixpoint delete_rows (fuel : nat) (t : table) (i : str) : act db unit :=
  match fuel with
  | O => ret tt
  | S fuel =>
      let! d := gets id in
      if existsb (restricts d i) (references t) then raise IntegrityError
      else
        for_each (references t) (fun ref =>
          match action ref with
          | Restrict => ret tt
          | Cascade => for_each (referring ref i d) (fun r => delete_rows fuel (child ref) (row_id (child ref) r))
          end) ;;;
        modify (del t i)
  end.
Definition delete_row (t : table) (i : str) : act db unit := delete_rows 3 t i.

(** ** Referential integrity *)

(** Every reference is to a row that exists. *)
Definition fk_ok (d : db) : Prop :=
  forall t ref k r p, ref ∈ references t -> tbl d (child ref) !! k = Some r ->
    column ref r = Some p -> is_Some (tbl d t !! p).
(** The rows a deletion reaches through CASCADE references. *)
Inductive cascades (d : db) (t : table) (i : str) : table -> str -> Prop :=
  | cascades_self : cascades d t i t i
  | cascades_child t' j ref r : cascades d t i t' j -> ref ∈ references t' -> action ref = Cascade ->
      r ∈ referring ref j d -> cascades d t i (child ref) (row_id (child ref) r).
(** How many levels of CASCADE references lie below a table, itself included. *)
Definition depth (t : table) : nat :=
  match t with
  | TDocument | TOrganization => 3
  | TPublicTaxonomyDocumentSnapshot | TPublicExactSearchDocumentSnapshot | TPublicTaxonomyTerm
  | TPost | TJob | TAccountLifecycle => 2
  | _ => 1
  end.
(** Only deletions separate two databases. *)
Definition only_fewer (d d' : db) : Prop :=
  forall t k r, tbl d' t !! k = Some r -> tbl d t !! k = Some r.
Global Instance only_fewer_preorder : PreOrder only_fewer.
Proof. split; [by intros d t k r|]. intros a b c H1 H2 t k r H. by apply H1, H2. Qed.

Lemma depth_child t ref : ref ∈ references t -> action ref = Cascade -> (depth (child ref) < depth t)%nat.
Proof.
  intros H. destruct t; cbn in H; rewrite ?elem_of_cons, ?elem_of_nil in H;
    repeat destruct H as [->|H]; cbn; done || lia.
Qed.
Lemma only_fewer_keys d d' : only_fewer d d' -> keys_ok d -> keys_ok d'.
Proof. intros H Hk t k r Hr. by apply Hk, H. Qed.
Lemma only_fewer_none d d' t k : only_fewer d d' -> tbl d t !! k = None -> tbl d' t !! k = None.
Proof.
  intros H Hn. destruct (tbl d' t !! k) as [r|] eqn:E; [|done]. apply H in E. congruence.
Qed.
Lemma referring_nil ref i d d' : only_fewer d d' -> referring ref i d = [] -> referring ref i d' = [].
Proof.
  intros H Hn. apply elem_of_nil_inv. intros r [[k Hr] Hp]%elem_of_select.
  assert (r ∈ referring ref i d) as Hin by (apply elem_of_select; eauto).
  rewrite Hn in Hin. by apply elem_of_nil in Hin.
Qed.
Lemma only_fewer_del t i d : only_fewer d (del t i d).
Proof.
  intros t' k r. destruct (decide (t = t')) as [<-|]; db_simpl.
  - rewrite lookup_delete. case_decide; [done|auto].
  - by rewrite tbl_del_ne.
Qed.
(** A row nobody refers to can go. *)
Lemma fk_ok_del t i d : fk_ok d -> (forall ref, ref ∈ references t -> referring ref i d = []) -> fk_ok (del t i d).
Proof.
  intros H Hn t' ref k r p Hr Hk Hc. apply only_fewer_del in Hk.
  destruct (H t' ref k r p Hr Hk Hc) as [r' Hr'].
  destruct (decide (t = t')) as [<-|]; [|rewrite tbl_del_ne by done; eauto].
  rewrite tbl_del_eq, lookup_delete. case_decide as E; [|eauto]. subst p.
  assert (r ∈ referring ref i d) as Hin.
  { apply elem_of_select. split; [eauto|]. by apply bool_decide_eq_true. }
  rewrite Hn in Hin by done. by apply elem_of_nil in Hin.
Qed.
Lemma for_each_ok {S A : Type} (l : list A) (f : A -> act S unit) (I : S -> Prop) (Q : A -> S -> Prop) s s' :
  (forall x s s', x ∈ l -> I s -> f x s = (Ok tt, s') -> I s' /\ Q x s' /\ forall y, Q y s -> Q y s') ->
  I s -> for_each l f s = (Ok tt, s') -> I s' /\ forall x, x ∈ l -> Q x s'.
Proof.
  intros Hf. assert (I s -> for_each l f s = (Ok tt, s') ->
    I s' /\ (forall x, x ∈ l -> Q x s') /\ forall y, Q y s -> Q y s') as H; [|naive_solver].
  revert s Hf. induction l as [|x l IH]; intros s Hf Hs; cbn.
  - intros [= ->]. split_and!; [done| |done]. by intros x ?%elem_of_nil.
  - intros ([] & s1 & H1 & H2)%act_bind_ok.
    apply Hf in H1 as (I1 & Q1 & K1); [|left|done].
    apply IH in H2 as (I2 & Q2 & K2); [|intros y a b Hy; apply Hf; by right|done].
    split_and!; [done| |auto]. intros y [->|Hy]%elem_of_cons; auto.
Qed.

Lemma cascades_mono d s t i t' k : only_fewer d s -> cascades s t i t' k -> cascades d t i t' k.
Proof.
  intros H. induction 1 as [|t' j ref r _ IH Hr Ha Hin]; [constructor|]. eapply cascades_child; [done..|].
  apply elem_of_select in Hin as [[k Hk] Hp]. apply elem_of_select. eauto.
Qed.
Lemma cascades_trans d t i t1 j t2 k : cascades d t i t1 j -> cascades d t1 j t2 k -> cascades d t i t2 k.
Proof. intros H. induction 1; [done|]. by eapply cascades_child. Qed.

(** What a deletion that ran to its end leaves. *)
Definition deleted (d : db) (t : table) (i : str) (d' : db) : Prop :=
  fk_ok d' /\ only_fewer d d' /\
  forall t' k r, tbl d t' !! k = Some r -> tbl d' t' !! k = None -> cascades d t i t' k.
Lemma deleted_child d t i s ref r s' : deleted d t i s -> ref ∈ references t -> action ref = Cascade ->
  r ∈ referring ref i d -> deleted s (child ref) (row_id (child ref) r) s' -> deleted d t i s'.
Proof.
  intros (_ & Hf & Hc) Hr Ha Hin (Hk & Hf' & Hc'). split_and!; [done|by transitivity s|].
  intros t' k x Hx Hn. destruct (tbl s t' !! k) as [y|] eqn:E; [|eauto].
  apply cascades_trans with (child ref) (row_id (child ref) r).
  - eapply cascades_child; [constructor|done..].
  - eapply cascades_mono; [done|]. by eapply Hc'.
Qed.
Lemma existsb_none {A : Type} (p : A -> bool) l x : existsb p l = false -> x ∈ l -> p x = false.
Proof.
  intros H Hx. destruct (p x) eqn:E; [|done]. rewrite <-H. symmetry. apply existsb_exists.
  exists x. split; [by apply list_elem_of_In|done].
Qed.
Lemma deleted_refl t i d : fk_ok d -> deleted d t i d.
Proof. intros H. split_and!; [done..|]. intros t' k r Hr. by rewrite Hr. Qed.
Lemma deleted_keys t i d s : keys_ok d -> deleted d t i s -> keys_ok s.
Proof. intros H (_ & Hs & _). by eapply only_fewer_keys. Qed.

Section level.
Context (fuel : nat)
  (IH : forall t i d d', (depth t <= fuel)%nat -> keys_ok d -> fk_ok d ->
     delete_rows fuel t i d = (Ok tt, d') -> deleted d t i d' /\ tbl d' t !! i = None)
  (t : table) (i : str) (d : db) (Hd : (depth t <= S fuel)%nat) (Hk : keys_ok d).

(** One CASCADE reference: every row that refers to the key goes. *)
Lemma delete_referring ref s s' : ref ∈ references t -> action ref = Cascade -> deleted d t i s ->
  for_each (referring ref i d) (fun r => delete_rows fuel (child ref) (row_id (child ref) r)) s = (Ok tt, s') ->
  deleted d t i s' /\ only_fewer s s' /\ referring ref i s' = [].
Proof using IH Hd Hk.
  intros Hr Ha Hs H. pose proof (depth_child _ _ Hr Ha) as Hdepth.
  apply (for_each_ok _ _ (fun x => deleted d t i x /\ only_fewer s x)
    (fun r x => tbl x (child ref) !! row_id (child ref) r = None)) in H; [|intros r a b Hin [Ia Fa] Hab|done].
  - destruct H as [[Hdel Hfew] Hgone]. split_and!; [done..|]. apply elem_of_nil_inv.
    intros r [[k Hx] Hp]%elem_of_select. destruct Hdel as (_ & Hdf & _). apply Hdf in Hx as Hx0.
    rewrite <-(Hk _ _ _ Hx0), Hgone in Hx; [done|]. apply elem_of_select. eauto.
  - apply IH in Hab as [Hab Hn]; [|lia|by eapply deleted_keys|by destruct Ia].
    split_and!; [by eapply deleted_child| |done|].
    + transitivity a; [done|]. by destruct Hab as (_ & ? & _).
    + intros y Hy. destruct Hab as (_ & Hf & _). by eapply only_fewer_none.
Qed.
Lemma delete_rows_level d' : fk_ok d -> delete_rows (S fuel) t i d = (Ok tt, d') ->
  deleted d t i d' /\ tbl d' t !! i = None.
Proof using IH Hd Hk.
  intros Hf. cbn [delete_rows]. intros (d1 & d0 & [= <- <-] & H)%act_bind_ok. cbn [id] in H.
  destruct (existsb (restricts d i) (references t)) eqn:Hres; [done|].
  apply act_bind_ok in H as ([] & s & H & [= <-]).
  apply (for_each_ok _ _ (deleted d t i) (fun ref x => action ref = Cascade -> referring ref i x = [])) in H
    as [Hdel Hcas]; [|intros ref a b Hin Ia Hab|by apply deleted_refl].
  - destruct Hdel as (Hfk & Hfew & Hc). split; [split_and!|].
    + apply fk_ok_del; [done|]. intros ref Hin. destruct (action ref) eqn:Ha; [by apply Hcas|].
      eapply referring_nil; [done|].
      pose proof (existsb_none _ _ ref Hres Hin) as Hr. unfold restricts in Hr. rewrite Ha in Hr.
      by apply negb_false_iff, bool_decide_eq_true in Hr.
    + transitivity s; [done|]. apply only_fewer_del.
    + intros t' k r Hr Hn. destruct (tbl s t' !! k) eqn:E; [|eauto].
      destruct (decide (t = t')) as [<-|Hne]; [|rewrite tbl_del_ne in Hn by done; congruence].
      rewrite tbl_del_eq, lookup_delete in Hn. case_decide as Heq; [subst; constructor|congruence].
    + rewrite tbl_del_eq. apply lookup_delete_eq.
  - destruct (action ref) eqn:Ha.
    + apply delete_referring in Hab as (H1 & H2 & H3); [|done..]. split_and!; [done..|].
      intros y Hy Hya. eapply referring_nil; [done|auto].
    + injection Hab as <-. split_and!; [done|done|auto].
Qed.
End level.

Lemma delete_rows_spec fuel t i d d' : (depth t <= fuel)%nat -> keys_ok d -> fk_ok d ->
  delete_rows fuel t i d = (Ok tt, d') -> deleted d t i d' /\ tbl d' t !! i = None.
Proof.
  revert t i d d'. induction fuel as [|fuel IH]; intros t i d d' Hd Hk Hf; [destruct t; cbn in Hd; lia|].
  by apply delete_rows_level.
Qed.
(** Deleting a row and what CASCADE requires keeps every foreign key satisfied,
    removes the row, and removes nothing but it and the rows that CASCADE references
    reach from it; no row is changed. *)
Theorem row_deletion_integrity t i d d' : keys_ok d -> fk_ok d -> delete_row t i d = (Ok tt, d') ->
  fk_ok d' /\ only_fewer d d' /\ tbl d' t !! i = None
  /\ forall t' k r, tbl d t' !! k = Some r -> tbl d' t' !! k = None -> cascades d t i t' k.
Proof.
  intros Hk Hf H. apply delete_rows_spec in H as [(H1 & H2 & H3) H4]; [done|destruct t; cbn; lia|done..].
Qed.

(** ** What a deletion leaves alone *)

(** [d'] agrees with [d] on the tables [ts]. *)
Definition same_on (ts : list table) (d d' : db) : Prop := forall t, t ∈ ts -> tbl d' t = tbl d t.
Global Instance same_on_preorder ts : PreOrder (same_on ts).
Proof. split; [by intros d t|]. intros a b c H1 H2 t Ht. by rewrite H2, H1. Qed.
Lemma same_on_put ts t k r d : t ∉ ts -> same_on ts d (put t k r d).
Proof. intros H t' Ht. apply tbl_put_ne. by intros ->. Qed.
Lemma same_on_del ts t k d : t ∉ ts -> same_on ts d (del t k d).
Proof. intros H t' Ht. apply tbl_del_ne. by intros ->. Qed.
Lemma same_on_delete_where ts t p d : t ∉ ts -> same_on ts d (delete_where t p d).
Proof. intros H t' Ht. apply tbl_delete_where_ne. by intros ->. Qed.
(** The tables CASCADE references reach from [t] within [fuel] levels. *)
Fixpoint below (fuel : nat) (t : table) : list table :=
  match fuel with
  | O => []
  | S fuel => t :: flat_map (fun ref => match action ref with Cascade => below fuel (child ref) | Restrict => [] end)
                     (references t)
  end.
Lemma for_each_same {A : Type} (l : list A) (f : A -> act db unit) ts d r d' :
  (forall x d r d', x ∈ l -> f x d = (r, d') -> same_on ts d d') -> for_each l f d = (r, d') -> same_on ts d d'.
Proof.
  revert d. induction l as [|x l IH]; intros d Hf; cbn [for_each]; [by intros [= <- <-]|].
  unfold act_bind. destruct (f x d) as [[[]|e] d1] eqn:E; intros H.
  - transitivity d1; [by eapply Hf; [left|]|]. eapply IH; [|done]. intros y a b c Hy. apply Hf. by right.
  - injection H as <- <-. eapply Hf; [left|done].
Qed.
Lemma delete_rows_same ts fuel t i d r d' : (forall t', t' ∈ below fuel t -> t' ∉ ts) ->
  delete_rows fuel t i d = (r, d') -> same_on ts d d'.
Proof.
  revert t i d r d'. induction fuel as [|fuel IH]; intros t i d r d' Hb; cbn [delete_rows]; [by intros [= <- <-]|].
  change (act_bind (gets id) ?k d) with (k d d). cbv beta.
  destruct (existsb _ _); [by intros [= <- <-]|]. unfold act_bind at 1.
  destruct (for_each _ _ d) as [x d1] eqn:E. assert (same_on ts d d1) as Hs.
  { eapply for_each_same; [|exact E]. intros ref a b c Hr. cbv beta.
    destruct (action ref) eqn:Ha; [|by intros [= <- <-]].
    apply for_each_same. intros y a' b' c' Hy. apply IH. intros t' Ht'. apply Hb. right.
    apply list_elem_of_In, in_flat_map. exists ref. rewrite Ha. split; by apply list_elem_of_In. }
  destruct x; intros [= <- <-]; [|done]. transitivity d1; [done|]. apply same_on_del, Hb. left.
Qed.

(** ** A document with its taxonomy projection *)
Definition referenced : list table :=
  [TDocument; TPublicTaxonomyDocumentSnapshot; TPublicTaxonomyTerm; TPublicExactSearchDocumentSnapshot; TPost;
   TModerationCase; TModerationDecision; TAgentMandate; TAgentIdentity; TAccountLifecycle; TRetentionHold;
   TOrganization; TOrganizationVerification; TJob; TConnectionRequest; TConnection; TConversation].
Lemma references_elsewhere t : t ∉ referenced -> references t = [].
Proof.
  intros H. destruct t; first [reflexivity|exfalso; apply H; apply (bool_decide_unpack _); vm_compute; exact I].
Qed.
Definition fk_check (d : db) : bool :=
  forallb (fun t => forallb (fun ref => forallb (fun r =>
    match column ref r with Some p => not_null (tbl d t !! p) | None => true end)
    (select (child ref) (fun _ => true) d)) (references t)) referenced.
Lemma fk_check_true d : fk_check d = true -> fk_ok d.
Proof.
  unfold fk_check. rewrite forallb_forall. intros H t ref k r p Hr Hk Hc.
  destruct (decide (t ∈ referenced)) as [Ht|Ht]; [|rewrite references_elsewhere in Hr by done; by apply elem_of_nil in Hr].
  apply list_elem_of_In, H in Ht. rewrite forallb_forall in Ht. apply list_elem_of_In, Ht in Hr.
  rewrite forallb_forall in Hr.
  assert (In r (select (child ref) (fun _ => true) d)) as Hin by (by apply list_elem_of_In, (in_select _ _ _ k)).
  apply Hr in Hin. rewrite Hc in Hin. by destruct (tbl d t !! p).
Qed.
Module CascadeDemo.
Definition noon : datetime := MkDatetime 1000 (Some 0).
Definition document : Document := Document.Mk (u "p") (u "profile") (u "user") (u "ada") (u "public") (Some 2) 1 noon noon.
Definition snapshot : PublicTaxonomyDocumentSnapshot :=
  PublicTaxonomyDocumentSnapshot.Mk (u "p") 1 2 (u "open") None (u "self") (u "open") noon.
Definition term : PublicTaxonomyTerm :=
  PublicTaxonomyTerm.Mk (u "t") (u "skill") (u "s") (u "x") (u "s:x") (u "tx1_") (Some (u "X")) false None false.
Definition membership : PublicTaxonomyMembership :=
  PublicTaxonomyMembership.Mk (u "m") (u "p") (u "t") (u "skills") 0 (u "X") None None None None None None.
Definition d : db :=
  put TDocument (u "p") document (put TPublicTaxonomyDocumentSnapshot (u "p") snapshot
    (put TPublicTaxonomyMembership (u "m") membership (put TPublicTaxonomyTerm (u "t") term empty_db))).
Definition deleted : db := (delete_row TDocument (u "p") d).2.
Lemma cascade_keys : keys_ok d.
Proof.
  repeat (apply keys_ok_put; [|reflexivity]). intros t k r H. exfalso.
  exact (eq_None_ne_Some_1 _ _ (lookup_empty k) H).
Qed.
End CascadeDemo.
Lemma row_deletion_integrity_witness :
  tbl CascadeDemo.deleted TPublicTaxonomyMembership !! u "m" = None
  /\ tbl CascadeDemo.deleted TPublicTaxonomyTerm !! u "t" = Some CascadeDemo.term
  /\ fk_ok CascadeDemo.deleted /\ only_fewer CascadeDemo.d CascadeDemo.deleted.
Proof.
  split; [vm_compute; reflexivity|]. split; [vm_compute; reflexivity|].
  assert ((delete_row TDocument (u "p") CascadeDemo.d).1 = Ok tt) as E by (vm_compute; reflexivity).
  destruct (row_deletion_integrity TDocument (u "p") CascadeDemo.d CascadeDemo.deleted) as (H1 & H2 & _).
  - exact CascadeDemo.cascade_keys.
  - apply fk_check_true. vm_compute. reflexivity.
  - rewrite <-E. apply surjective_pairing.
  - split; [exact H1|exact H2].
Defined.
