(* ===== verification/HoldLineage.v ===== *)
(** * Hold lineage (src/apps/api/app/services/hold_lineage.py)

    The canonical parents whose retention hold preserves a resource
    ([hold_ancestors]) and the descendants that must be locked before a hold on
    a parent is accepted ([hold_descendants]). *)
From S2P Require Import Prelude PyTime Models Database.

(** ** Data and operations *)

(** [Resource = tuple[str, str]]: a resource type and a row id. *)
Notation Resource := (str * str)%type (only parsing).

(** [row = session.get(T, id); None if row is None else (parent_type, row.f)] *)
Definition via (d : db) (t : table) (i : str) (parent_type : string) (f : row t -> str) :
  option Resource :=
  match tbl d t !! i with
  | None => None
  | Some r => Some (u parent_type, f r)
  end.

(** The body of the [while] loop of [hold_ancestors]: the next [current]. *)
Definition hold_parent (d : db) (r : Resource) : option Resource :=
  let '(ty, i) := r in
  if eqs ty "document_version" then
    via d TDocumentVersion i "document" DocumentVersion.document_id
  else if eqs ty "post_version" then via d TPostVersion i "post" PostVersion.post_id
  else if eqs ty "agent_mandate" then
    via d TAgentMandate i "agent_identity" AgentMandate.identity_id
  else if eqs ty "agent_identity" then
    via d TAgentIdentity i "document" AgentIdentity.profile_document_id
  else if eqs ty "agent_grant" then
    match tbl d TAgentGrant !! i with
    | None => None
    | Some g =>
        match AgentGrant.mandate_id g with
        | Some m => Some (u "agent_mandate", m)
        | None =>
            if one_of (AgentGrant.resource_type g) ["document"; "organization"] then
              match AgentGrant.resource_id g with
              | Some ((_ :: _) as rid) => Some (AgentGrant.resource_type g, rid)
              | _ => None
              end
            else None
        end
    end
  else if eqs ty "connection" then
    via d TConnection i "connection_request" Connection.connection_request_id
  else if eqs ty "conversation" then
    via d TConversation i "connection" Conversation.connection_id
  else if eqs ty "message" then via d TMessage i "conversation" Message.conversation_id
  else if eqs ty "job" then via d TJob i "organization" Job.organization_id
  else if eqs ty "application" then via d TApplication i "job" Application.job_id
  else if eqs ty "organization_verification_evidence" then
    via d TOrganizationVerificationEvidence i "organization_verification"
      OrganizationVerificationEvidence.verification_id
  else if eqs ty "organization_verification_event" then
    via d TOrganizationVerificationEvent i "organization_verification"
      OrganizationVerificationEvent.verification_id
  else if eqs ty "organization_verification" then
    via d TOrganizationVerification i "organization" OrganizationVerification.organization_id
  else if eqs ty "organization_membership" then
    via d TOrganizationMembership i "organization" OrganizationMembership.organization_id
  else if eqs ty "moderation_decision" then
    via d TModerationDecision i "moderation_case" ModerationDecision.case_id
  else if eqs ty "moderation_appeal" then
    via d TModerationAppeal i "moderation_case" ModerationAppeal.case_id
  else if eqs ty "moderation_audit_event" then
    via d TModerationAuditEvent i "moderation_case" ModerationAuditEvent.case_id
  else if eqs ty "post_report" then
    via d TPostReport i "moderation_case" PostReport.case_id
  else if eqs ty "moderation_case" then via d TModerationCase i "post" ModerationCase.post_id
  else if eqs ty "post_moderation_event" then
    via d TPostModerationEvent i "post" PostModerationEvent.post_id
  else None.

(** The [while current is not None] loop, with its membership [break]. *)
Fixpoint hold_ancestors_loop (fuel : nat) (d : db) (current : Resource) (ancestors : gset Resource) :
  option (gset Resource) :=
  match fuel with
  | 0 => None
  | S fuel' =>
      match hold_parent d current with
      | None => Some ancestors
      | Some p =>
          if decide (p ∈ ancestors) then Some ancestors
          else hold_ancestors_loop fuel' d p ({[p]} ∪ ancestors)
      end
  end.

(** Resource types nest at most three deep, so four iterations always finish. *)
Definition ancestors_fuel : nat := 4.
Definition hold_ancestors (d : db) (r : Resource) : gset Resource :=
  default ∅ (hold_ancestors_loop ancestors_fuel d r ∅).

(** [[(child_type, row.id) for row in session.scalars(select(T).where(p)).all()]] *)
Definition listed (d : db) (t : table) (child_type : string) (p : row t -> bool) : list Resource :=
  (fun r => (u child_type, row_id t r)) <$> select t p d.

(** The [children] one iteration of [hold_descendants] lists for its parent. *)
Definition hold_children (d : db) (r : Resource) : list Resource :=
  let '(ty, i) := r in
  if eqs ty "document" then
    listed d TDocumentVersion "document_version"
      (fun x => bool_decide (DocumentVersion.document_id x = i))
    ++ listed d TAgentIdentity "agent_identity"
         (fun x => bool_decide (AgentIdentity.profile_document_id x = i))
    ++ listed d TAgentGrant "agent_grant"
         (fun x => eqs (AgentGrant.resource_type x) "document"
                   && bool_decide (AgentGrant.resource_id x = Some i))
  else if eqs ty "post" then
    listed d TPostVersion "post_version" (fun x => bool_decide (PostVersion.post_id x = i))
    ++ listed d TModerationCase "moderation_case"
         (fun x => bool_decide (ModerationCase.post_id x = i))
    ++ listed d TPostModerationEvent "post_moderation_event"
         (fun x => bool_decide (PostModerationEvent.post_id x = i))
  else if eqs ty "agent_identity" then
    listed d TAgentMandate "agent_mandate"
      (fun x => bool_decide (AgentMandate.identity_id x = i))
  else if eqs ty "agent_mandate" then
    listed d TAgentGrant "agent_grant"
      (fun x => bool_decide (AgentGrant.mandate_id x = Some i))
  else if eqs ty "connection_request" then
    listed d TConnection "connection"
      (fun x => bool_decide (Connection.connection_request_id x = i))
  else if eqs ty "connection" then
    listed d TConversation "conversation"
      (fun x => bool_decide (Conversation.connection_id x = i))
  else if eqs ty "conversation" then
    listed d TMessage "message" (fun x => bool_decide (Message.conversation_id x = i))
  else if eqs ty "organization" then
    listed d TJob "job" (fun x => bool_decide (Job.organization_id x = i))
    ++ listed d TOrganizationMembership "organization_membership"
         (fun x => bool_decide (OrganizationMembership.organization_id x = i))
    ++ listed d TOrganizationVerification "organization_verification"
         (fun x => bool_decide (OrganizationVerification.organization_id x = i))
    ++ listed d TAgentGrant "agent_grant"
         (fun x => eqs (AgentGrant.resource_type x) "organization"
                   && bool_decide (AgentGrant.resource_id x = Some i))
  else if eqs ty "job" then
    listed d TApplication "application" (fun x => bool_decide (Application.job_id x = i))
  else if eqs ty "organization_verification" then
    listed d TOrganizationVerificationEvidence "organization_verification_evidence"
      (fun x => bool_decide (OrganizationVerificationEvidence.verification_id x = i))
    ++ listed d TOrganizationVerificationEvent "organization_verification_event"
         (fun x => bool_decide (OrganizationVerificationEvent.verification_id x = i))
  else if eqs ty "moderation_case" then
    listed d TModerationDecision "moderation_decision"
      (fun x => bool_decide (ModerationDecision.case_id x = i))
    ++ listed d TModerationAppeal "moderation_appeal"
         (fun x => bool_decide (ModerationAppeal.case_id x = i))
    ++ listed d TModerationAuditEvent "moderation_audit_event"
         (fun x => bool_decide (ModerationAuditEvent.case_id x = i))
    ++ listed d TPostReport "post_report" (fun x => bool_decide (PostReport.case_id x = i))
  else [].

(** [for child in children: if child not in protected: ...] *)
Definition protect (acc : gset Resource * list Resource) (child : Resource) :
  gset Resource * list Resource :=
  let '(protected, pending) := acc in
  if decide (child ∈ protected) then acc else ({[child]} ∪ protected, child :: pending).

(** The [while pending] loop; the head of [pending] is the end [list.pop] takes. *)
Fixpoint hold_descendants_loop (fuel : nat) (d : db) (protected : gset Resource)
  (pending : list Resource) : option (gset Resource) :=
  match pending with
  | [] => Some protected
  | parent :: rest =>
      match fuel with
      | 0 => None
      | S fuel' =>
          let '(protected', pending') := fold_left protect (hold_children d parent) (protected, rest) in
          hold_descendants_loop fuel' d protected' pending'
      end
  end.

(** Each iteration handles a distinct resource: the start or a row of the database. *)
Definition child_tables : list table :=
  [TDocumentVersion; TAgentIdentity; TAgentGrant; TPostVersion; TModerationCase;
   TPostModerationEvent; TAgentMandate; TConnection; TConversation; TMessage; TJob;
   TOrganizationMembership; TOrganizationVerification; TApplication;
   TOrganizationVerificationEvidence; TOrganizationVerificationEvent; TModerationDecision;
   TModerationAppeal; TModerationAuditEvent; TPostReport].
Definition descendants_fuel (d : db) : nat :=
  S (sum_list ((fun t => size (tbl d t)) <$> child_tables)).
Definition hold_descendants (d : db) (r : Resource) : gset Resource :=
  default ∅ (hold_descendants_loop (descendants_fuel d) d {[r]} [r]).

(** ** Ranks: every parent has a strictly smaller type rank *)
Definition type_rank (ty : str) : nat :=
  if one_of ty ["document_version"; "post_version"; "agent_identity"; "connection"; "job";
                "organization_verification"; "organization_membership"; "moderation_case";
                "post_moderation_event"] then 1
  else if one_of ty ["agent_mandate"; "conversation"; "application";
                     "organization_verification_evidence"; "organization_verification_event";
                     "moderation_decision"; "moderation_appeal"; "moderation_audit_event";
                     "post_report"] then 2
  else if one_of ty ["agent_grant"; "message"] then 3
  else 0.

(** Case analysis over the [if/elif] chain on a resource type. *)
Ltac type_cases H :=
  repeat match type of H with
  | (if eqs ?ty ?s then _ else _) = _ =>
      let E := fresh "E" in destruct (eqs ty s) eqn:E; [apply eqs_true in E; subst ty|clear E]
  end.
Lemma via_some d t i s f p :
  via d t i s f = Some p <-> exists r, tbl d t !! i = Some r /\ p = (u s, f r).
Proof. unfold via. destruct (tbl d t !! i); naive_solver. Qed.
Ltac via_inv :=
  repeat match goal with
  | H : via _ _ _ _ _ = Some _ |- _ => apply via_some in H as (? & ? & ->)
  end.

Lemma hold_parent_rank d x p :
  hold_parent d x = Some p -> type_rank p.1 < type_rank x.1.
Proof.
  destruct x as [ty i]. unfold hold_parent. intros H. type_cases H; via_inv;
    try (vm_compute; lia); [|done].
  destruct (tbl d TAgentGrant !! i) as [g|]; [|done].
  destruct (AgentGrant.mandate_id g); [injection H as <-; vm_compute; lia|].
  destruct (one_of _ _) eqn:E; [|done].
  destruct (AgentGrant.resource_id g) as [[|]|]; try done. injection H as <-.
  simpl. apply one_of_true in E.
  rewrite !Exists_cons, Exists_nil in E. destruct E as [-> |[-> |[]]]; vm_compute; lia.
Qed.

Lemma type_rank_le ty : type_rank ty <= 3.
Proof. unfold type_rank. repeat case_match; lia. Qed.

(** [x] has parent [p]. *)
Definition parent_rel (d : db) (x p : Resource) : Prop := hold_parent d x = Some p.

Lemma parent_rel_tc_rank d x p : tc (parent_rel d) x p -> type_rank p.1 < type_rank x.1.
Proof.
  induction 1 as [x p H|x y p H _ IH]; [exact (hold_parent_rank _ _ _ H)|].
  pose proof (hold_parent_rank _ _ _ H). lia.
Qed.

Lemma hold_ancestors_loop_spec d fuel x anc :
  type_rank x.1 < fuel ->
  (forall a, a ∈ anc -> type_rank x.1 <= type_rank a.1) ->
  exists res, hold_ancestors_loop fuel d x anc = Some res /\
    forall a, a ∈ res <-> a ∈ anc \/ tc (parent_rel d) x a.
Proof.
  revert x anc. induction fuel as [|fuel IH]; intros x anc Hf Hanc; [lia|]. simpl.
  destruct (hold_parent d x) as [p|] eqn:E.
  - pose proof (hold_parent_rank _ _ _ E) as Hr.
    destruct (decide (p ∈ anc)) as [Hp|Hp]; [apply Hanc in Hp; lia|].
    destruct (IH p ({[p]} ∪ anc)) as (res & -> & Hres); [lia|set_solver by lia|].
    exists res. split; [done|]. intros a. rewrite Hres.
    assert (tc (parent_rel d) x a <-> a = p \/ tc (parent_rel d) p a) as ->; [|set_solver].
    split.
    + intros H. inversion H as [? ? H1|? y ? H1 H2]; subst; unfold parent_rel in H1;
        rewrite E in H1; injection H1 as <-; auto.
    + intros [->|H]; [by apply tc_once|by apply tc_l with p].
  - exists anc. split; [done|]. intros a. split; [auto|]. intros [?|H]; [done|].
    inversion H as [? ? H1|? y ? H1 H2]; subst; unfold parent_rel in H1; congruence.
Qed.

(** Ancestors are exactly the strict transitive parents. *)
Lemma elem_of_hold_ancestors d x a :
  a ∈ hold_ancestors d x <-> tc (parent_rel d) x a.
Proof.
  unfold hold_ancestors. destruct (hold_ancestors_loop_spec d ancestors_fuel x ∅)
    as (res & -> & H); [pose proof (type_rank_le x.1); unfold ancestors_fuel; lia|set_solver|].
  simpl. rewrite H. set_solver.
Qed.

Lemma hold_ancestors_fuel_enough d x fuel :
  ancestors_fuel <= fuel -> hold_ancestors_loop fuel d x ∅ = Some (hold_ancestors d x).
Proof.
  intros Hf. destruct (hold_ancestors_loop_spec d fuel x ∅) as (res & -> & H);
    [pose proof (type_rank_le x.1); unfold ancestors_fuel in Hf; lia|set_solver|].
  f_equal. apply leibniz_equiv. intros a. rewrite elem_of_hold_ancestors, H. set_solver.
Qed.

(** ** Descendants: a worklist search that visits each resource once *)
Definition child_rel (d : db) (p x : Resource) : Prop := x ∈ hold_children d p.

(** The resources [hold_children] can list. *)
Definition table_type (t : table) : string :=
  match t with
  | TDocumentVersion => "document_version" | TAgentIdentity => "agent_identity"
  | TAgentGrant => "agent_grant" | TPostVersion => "post_version"
  | TModerationCase => "moderation_case" | TPostModerationEvent => "post_moderation_event"
  | TAgentMandate => "agent_mandate" | TConnection => "connection"
  | TConversation => "conversation" | TMessage => "message" | TJob => "job"
  | TOrganizationMembership => "organization_membership"
  | TOrganizationVerification => "organization_verification" | TApplication => "application"
  | TOrganizationVerificationEvidence => "organization_verification_evidence"
  | TOrganizationVerificationEvent => "organization_verification_event"
  | TModerationDecision => "moderation_decision" | TModerationAppeal => "moderation_appeal"
  | TModerationAuditEvent => "moderation_audit_event" | TPostReport => "post_report"
  | _ => ""
  end.
Definition universe (d : db) : list Resource :=
  child_tables ≫= fun t => (fun kr => (u (table_type t), row_id t kr.2)) <$> map_to_list (tbl d t).

Lemma length_universe d :
  length (universe d) = sum_list ((fun t => size (tbl d t)) <$> child_tables).
Proof.
  unfold universe. induction child_tables as [|t l IH]; [done|].
  rewrite bind_cons, fmap_cons, length_app, length_fmap, IH, length_map_to_list. done.
Qed.

Lemma elem_of_listed d t s p x :
  x ∈ listed d t s p <->
  exists k r, tbl d t !! k = Some r /\ p r = true /\ x = (u s, row_id t r).
Proof.
  unfold listed. rewrite list_elem_of_fmap. setoid_rewrite elem_of_select. naive_solver.
Qed.

Lemma listed_universe d t s p x :
  t ∈ child_tables -> s = table_type t -> x ∈ listed d t s p -> x ∈ universe d.
Proof.
  intros Ht -> (k & r & Hk & _ & ->)%elem_of_listed.
  unfold universe. apply list_elem_of_bind. exists t. split; [|done].
  apply list_elem_of_fmap. exists (k, r). split; [done|]. by apply elem_of_map_to_list.
Qed.

Lemma hold_children_universe d p x : x ∈ hold_children d p -> x ∈ universe d.
Proof.
  destruct p as [ty i]. unfold hold_children.
  repeat case_match; rewrite ?elem_of_app; intros Hx; destruct_or?; try (by apply elem_of_nil in Hx);
    (eapply listed_universe; [| |eassumption]; [apply list_elem_of_In; simpl; tauto|done]).
Qed.

#[local] Opaque universe hold_children.
Section worklist.
Context (d : db) (start : Resource).

(** What the loop maintains: everything protected is reachable, pending
    resources are protected, and a protected resource that is no longer
    pending has all its children protected. *)
Record worklist_inv (P : gset Resource) (pend : list Resource) : Prop := {
  wi_start : start ∈ P;
  wi_reach : forall x, x ∈ P -> rtc (child_rel d) start x;
  wi_pend : forall x, x ∈ pend -> x ∈ P;
  wi_done : forall x y, x ∈ P -> x ∉ pend -> child_rel d x y -> y ∈ P
}.

Definition measure (P : gset Resource) (pend : list Resource) : nat :=
  size (list_to_set (universe d) ∖ P : gset Resource) + length pend.

Lemma measure_protect P pend x :
  x ∈ universe d ->
  let '(P', pend') := protect (P, pend) x in
  measure P' pend' = measure P pend.
Proof.
  intros Hx. unfold protect, measure. destruct (decide (x ∈ P)) as [|HP]; [done|]. simpl.
  assert (list_to_set (universe d) ∖ P =
          {[x]} ∪ (list_to_set (universe d) ∖ ({[x]} ∪ P) : gset Resource)) as ->.
  { apply set_eq. intros y. rewrite elem_of_union, !elem_of_difference, elem_of_union,
      elem_of_singleton, !elem_of_list_to_set.
    destruct (decide (y = x)) as [->|]; naive_solver. }
  rewrite (size_union {[x]} (list_to_set (universe d) ∖ ({[x]} ∪ P))) by set_solver.
  rewrite size_singleton. lia.
Qed.

Lemma protect_all children P pend P' pend' :
  (forall x, x ∈ children -> x ∈ universe d) ->
  fold_left protect children (P, pend) = (P', pend') ->
  measure P' pend' = measure P pend /\
  (forall x, x ∈ P' <-> x ∈ P \/ x ∈ children) /\
  (forall x, x ∈ pend' <-> x ∈ pend \/ (x ∈ children /\ x ∉ P)).
Proof.
  revert P pend. induction children as [|c cs IH]; intros P pend HU; simpl.
  - intros [= <- <-]. set_solver.
  - intros H. pose proof (measure_protect P pend c (HU c ltac:(left))) as Hm.
    unfold protect in *. destruct (decide (c ∈ P)) as [Hc|Hc].
    + destruct (IH P pend) as (E & E1 & E2); [set_solver|done|]. set_solver.
    + destruct (IH ({[c]} ∪ P) (c :: pend)) as (E & E1 & E2); [set_solver|done|].
      split; [congruence|]. split; intros x; rewrite ?E1, ?E2.
      * set_solver.
      * rewrite !elem_of_cons. destruct (decide (x = c)) as [->|]; set_solver.
Qed.

Lemma worklist_step P p rest P' pend' :
  worklist_inv P (p :: rest) ->
  fold_left protect (hold_children d p) (P, rest) = (P', pend') ->
  worklist_inv P' pend' /\ S (measure P' pend') = measure P (p :: rest).
Proof.
  intros [Hs Hr Hp Hd] Hfold.
  destruct (protect_all _ _ _ _ _ (hold_children_universe d p) Hfold) as (Hm & HP & Hpend).
  split; [|unfold measure in *; simpl in *; lia].
  split.
  - apply HP. auto.
  - intros x [Hx|Hx]%HP; [auto|]. apply rtc_r with p; [|done]. apply Hr, Hp. left.
  - intros x [Hx|[Hx _]]%Hpend; apply HP; [|auto]. left. apply Hp. by right.
  - intros x y [Hx|Hx]%HP Hn Hc; apply HP.
    + destruct (decide (x = p)) as [->|Hne]; [by right|]. left. apply Hd with x; [done| |done].
      rewrite elem_of_cons. intros [?|?]; [done|]. apply Hn, Hpend. auto.
    + destruct (decide (x ∈ P)) as [HxP|HxP].
      * destruct (decide (x = p)) as [->|Hne]; [by right|]. left.
        apply Hd with x; [done| |done]. rewrite elem_of_cons.
        intros [?|?]; [done|]. apply Hn, Hpend. auto.
      * exfalso. apply Hn, Hpend. auto.
Qed.

Lemma hold_descendants_loop_spec fuel P pend :
  worklist_inv P pend -> measure P pend <= fuel ->
  exists res, hold_descendants_loop fuel d P pend = Some res /\ worklist_inv res [].
Proof.
  revert P pend. induction fuel as [|fuel IH]; intros P [|p rest] Hinv Hm; simpl;
    try (by exists P); [unfold measure in Hm; simpl in Hm; lia|].
  destruct (fold_left protect (hold_children d p) (P, rest)) as [P' pend'] eqn:E.
  destruct (worklist_step _ _ _ _ _ Hinv E) as [Hinv' Hm'].
  apply IH; [done|lia].
Qed.

Lemma worklist_init : worklist_inv {[start]} [start].
Proof. split; [set_solver| |set_solver|set_solver]. intros x ->%elem_of_singleton. done. Qed.

Lemma measure_init : measure {[start]} [start] <= descendants_fuel d.
Proof.
  unfold measure, descendants_fuel. rewrite <- length_universe. simpl.
  pose proof (subseteq_size (list_to_set (universe d) ∖ {[start]} : gset Resource)
                (list_to_set (universe d)) ltac:(set_solver)).
  pose proof (size_list_to_set_le (universe d)). lia.
Qed.
End worklist.

Lemma worklist_inv_closed d start P :
  worklist_inv d start P [] -> forall x, x ∈ P <-> rtc (child_rel d) start x.
Proof.
  intros [Hs Hr _ Hd] x. split; [apply Hr|].
  intros H. revert Hs. clear Hr. induction H as [x|x y z Hxy _ IH]; [done|].
  intros Hx. apply IH. apply Hd with x; [done|set_solver|done].
Qed.

Lemma hold_descendants_fuel_enough d r fuel :
  descendants_fuel d <= fuel ->
  exists res, hold_descendants_loop fuel d {[r]} [r] = Some res /\ worklist_inv d r res [].
Proof.
  intros Hf. apply hold_descendants_loop_spec; [apply worklist_init|].
  pose proof (measure_init d r). lia.
Qed.

(** Descendants are exactly the resources reachable through [hold_children]. *)
Lemma elem_of_hold_descendants d r x :
  x ∈ hold_descendants d r <-> rtc (child_rel d) r x.
Proof.
  unfold hold_descendants.
  destruct (hold_descendants_fuel_enough d r (descendants_fuel d)) as (res & -> & H); [done|].
  simpl. by apply worklist_inv_closed.
Qed.

(** ** Duality of the two traversals *)
#[local] Transparent hold_children.

Lemma listed_intro d t s p k r :
  keys_ok d -> tbl d t !! k = Some r -> p r = true -> (u s, k) ∈ listed d t s p.
Proof.
  intros Hk Hr Hp. apply elem_of_listed. exists k, r. by rewrite (Hk _ _ _ Hr).
Qed.
Lemma listed_elim d t s p k r :
  keys_ok d -> (u s, k) ∈ listed d t s p -> tbl d t !! k = Some r -> p r = true.
Proof.
  intros Hk (k' & r' & Hr' & Hp & [= Hid])%elem_of_listed Hr.
  rewrite (Hk _ _ _ Hr') in Hid. subst k'. congruence.
Qed.

(** Every parent lists its children: the traversal that admits a hold sees each
    resource whose disposal the hold blocks. *)
Lemma parent_lists_child d x p :
  keys_ok d -> hold_parent d x = Some p -> child_rel d p x.
Proof.
  intros Hk H. destruct x as [ty i]. unfold hold_parent in H.
  type_cases H; via_inv; unfold child_rel, hold_children;
    try (simpl; rewrite ?elem_of_app;
         repeat (first [ eapply listed_intro; [done|eassumption|by apply bool_decide_eq_true]
                       | left; eapply listed_intro; [done|eassumption|by apply bool_decide_eq_true]
                       | right ]); fail); [|done].
  destruct (tbl d TAgentGrant !! i) as [g|] eqn:Hg; [|done].
  destruct (AgentGrant.mandate_id g) as [m|] eqn:Hm.
  - injection H as <-. simpl. eapply listed_intro; [done|eassumption|].
    by apply bool_decide_eq_true.
  - destruct (one_of _ _) eqn:E; [|done].
    destruct (AgentGrant.resource_id g) as [[|c rid]|] eqn:Hrid; try done. injection H as <-.
    apply one_of_true in E. rewrite !Exists_cons, Exists_nil in E.
    destruct E as [E|[E|[]]]; rewrite E; simpl; rewrite ?elem_of_app; do 2 right; try right;
      (eapply listed_intro; [done|eassumption|]); rewrite E;
      (apply andb_true_iff; split; [apply eqs_refl|by apply bool_decide_eq_true]).
Qed.

(** A grant is bound either to a mandate or to a non-empty document or
    organization id, never to both (the two places that create grants). *)
Definition grants_ok (d : db) : Prop :=
  forall k g, tbl d TAgentGrant !! k = Some g ->
    one_of (AgentGrant.resource_type g) ["document"; "organization"] = true ->
    AgentGrant.mandate_id g = None /\ AgentGrant.resource_id g <> Some [].

Lemma listed_inv d t s p x :
  keys_ok d -> x ∈ listed d t s p ->
  exists k r, x = (u s, k) /\ tbl d t !! k = Some r /\ p r = true.
Proof.
  intros Hk (k & r & Hr & Hp & ->)%elem_of_listed. rewrite (Hk _ _ _ Hr). eauto.
Qed.

Lemma child_has_parent d x p :
  keys_ok d -> grants_ok d -> child_rel d p x -> hold_parent d x = Some p.
Proof.
  intros Hk Hg. destruct p as [ty i]. unfold child_rel, hold_children.
  repeat match goal with
  | |- _ ∈ (if eqs ?ty ?s then _ else _) -> _ =>
      let E := fresh "E" in destruct (eqs ty s) eqn:E; [apply eqs_true in E; subst ty|clear E]
  end; rewrite ?elem_of_app; intros Hx; destruct_or?;
    try (by apply elem_of_nil in Hx);
    match goal with H : x ∈ listed _ _ _ _ |- _ =>
      apply listed_inv in H as (k & r & -> & Hr & Hp); [|done] end;
    simpl in *; unfold via; simpl; rewrite ?Hr;
    try (apply bool_decide_eq_true in Hp; congruence).
  - apply andb_true_iff in Hp as [Ht Hp]. apply eqs_true in Ht. apply bool_decide_eq_true in Hp.
    destruct (Hg _ _ Hr) as [-> Hne]; [by rewrite Ht|]. rewrite Ht, Hp in *. simpl.
    by destruct i.
  - apply bool_decide_eq_true in Hp. by rewrite Hp.
  - apply andb_true_iff in Hp as [Ht Hp]. apply eqs_true in Ht. apply bool_decide_eq_true in Hp.
    destruct (Hg _ _ Hr) as [-> Hne]; [by rewrite Ht|]. rewrite Ht, Hp in *. simpl.
    by destruct i.
Qed.

Lemma tc_flip {A} (R S : A -> A -> Prop) x y :
  (forall a b, R a b -> S b a) -> tc R x y -> tc S y x.
Proof.
  intros HRS. induction 1 as [x y H|x y z H _ IH]; [by apply tc_once, HRS|].
  apply tc_r with y; [done|by apply HRS].
Qed.

(** ** Properties *)

(** The loop of [hold_ancestors] finishes within four iterations on every
    database, and then returns exactly the strict transitive parents. *)
Theorem hold_ancestors_correct d x fuel :
  ancestors_fuel <= fuel ->
  exists res, hold_ancestors_loop fuel d x ∅ = Some res /\
    forall a, a ∈ res <-> tc (parent_rel d) x a.
Proof.
  intros Hf. exists (hold_ancestors d x).
  split; [by apply hold_ancestors_fuel_enough|apply elem_of_hold_ancestors].
Qed.

(** C28: The worklist of [hold_descendants] empties within one iteration per row of
    the database plus one, and then returns exactly the reachable resources. *)
Theorem hold_descendants_correct d r fuel :
  descendants_fuel d <= fuel ->
  exists res, hold_descendants_loop fuel d {[r]} [r] = Some res /\
    forall x, x ∈ res <-> rtc (child_rel d) r x.
Proof.
  intros Hf. destruct (hold_descendants_fuel_enough d r fuel Hf) as (res & E & H).
  exists res. split; [done|by apply worklist_inv_closed].
Qed.

Lemma ancestor_lists d x a : keys_ok d -> tc (parent_rel d) x a -> rtc (child_rel d) a x.
Proof. intros Hk H. apply tc_rtc. revert H. apply tc_flip. intros b c. by apply parent_lists_child. Qed.

(** Every resource a hold preserves is locked when the hold is admitted. *)
Theorem held_resource_is_locked d x a :
  keys_ok d -> a ∈ hold_ancestors d x -> x ∈ hold_descendants d a.
Proof. intros Hk H%elem_of_hold_ancestors. by apply elem_of_hold_descendants, ancestor_lists. Qed.

(** On databases whose grants are well formed, the two traversals are dual. *)
Theorem hold_lineage_dual d x a :
  keys_ok d -> grants_ok d ->
  (a ∈ hold_ancestors d x <-> x ∈ hold_descendants d a /\ x <> a).
Proof.
  intros Hk Hg. split.
  - intros H%elem_of_hold_ancestors. split; [by apply elem_of_hold_descendants, ancestor_lists|].
    intros ->. apply parent_rel_tc_rank in H. lia.
  - intros [H Hne]. apply elem_of_hold_descendants, rtc_tc in H as [->|H]; [done|].
    apply elem_of_hold_ancestors. revert H. apply tc_flip.
    intros b c. by apply child_has_parent.
Qed.

(** ** A concrete lineage: a report, its case and its post *)
Module LineageDemo.
Definition t0 : datetime := MkDatetime 0 (Some 0%Z).
Definition report : PostReport :=
  PostReport.Mk (u "r") (u "p") (u "c") (u "reporter") (u "spam") None t0.
Definition case : ModerationCase :=
  ModerationCase.Mk (u "c") (u "p") (u "author") (u "open") t0 t0 None None None.
Definition d : db := put TPostReport (u "r") report (put TModerationCase (u "c") case empty_db).
Lemma keys : keys_ok d.
Proof.
  repeat (apply keys_ok_put; [|reflexivity]). intros t k r H.
  by destruct (lookup_empty_Some (M:=gmap str) k r).
Qed.
Lemma grants : grants_ok d.
Proof.
  intros k g H. unfold d in H. rewrite !tbl_put_ne in H by discriminate.
  by destruct (lookup_empty_Some (M:=gmap str) k g).
Qed.
End LineageDemo.

Lemma hold_ancestors_correct_witness :
  exists res, hold_ancestors_loop 4 LineageDemo.d (u "post_report", u "r") ∅ = Some res /\
    (u "post", u "p") ∈ res.
Proof.
  destruct (hold_ancestors_correct LineageDemo.d (u "post_report", u "r") 4) as (res & E & H);
    [unfold ancestors_fuel; lia|].
  exists res. split; [exact E|]. apply H.
  apply tc_l with (u "moderation_case", u "c"); [vm_compute; reflexivity|].
  apply tc_once. vm_compute. reflexivity.
Defined.
Lemma hold_descendants_correct_witness :
  exists res, hold_descendants_loop (descendants_fuel LineageDemo.d) LineageDemo.d
      {[(u "post", u "p")]} [(u "post", u "p")] = Some res /\ (u "post_report", u "r") ∈ res.
Proof.
  destruct (hold_descendants_correct LineageDemo.d (u "post", u "p")
    (descendants_fuel LineageDemo.d)) as (res & E & H); [lia|].
  exists res. split; [exact E|]. apply H.
  apply rtc_l with (u "moderation_case", u "c"); [|apply rtc_once];
    (unfold child_rel; match goal with |- ?x ∈ ?l => apply (bool_decide_unpack (x ∈ l)) end;
     vm_compute; exact I).
Defined.
Lemma held_resource_is_locked_witness :
  (u "post_report", u "r") ∈ hold_descendants LineageDemo.d (u "post", u "p").
Proof.
  apply (held_resource_is_locked LineageDemo.d (u "post_report", u "r") (u "post", u "p")
    LineageDemo.keys).
  apply (bool_decide_unpack (_ ∈ _)). vm_compute. exact I.
Defined.
Lemma hold_lineage_dual_witness :
  (u "post", u "p") ∈ hold_ancestors LineageDemo.d (u "post_report", u "r").
Proof.
  apply (hold_lineage_dual LineageDemo.d _ _ LineageDemo.keys LineageDemo.grants).
  split; [|by intros [=]]. apply (bool_decide_unpack (_ ∈ _)). vm_compute. exact I.
Defined.
