(* ===== verification/Sha256.v ===== *)
(** * [hashlib.sha256] and [hmac]

    The digests the API computes, as executable functions on byte lists (a byte
    is an integer in 0..255): FIPS 180-4 SHA-256 on 32-bit words written as
    integers with their wrap-around, its lowercase hexadecimal rendering, and
    RFC 2104 HMAC. *)
From S2P Require Import Prelude.
Local Open Scope Z_scope.

Definition bytes : Type := list Z.

(** ** 32-bit words *)
Definition w32 (z : Z) : Z := z mod 4294967296.
Definition add32 (a b : Z) : Z := w32 (a + b).
Definition rotr (n x : Z) : Z := Z.lor (Z.shiftr x n) (w32 (Z.shiftl x (32 - n))).
Definition not32 (x : Z) : Z := 4294967295 - x.
Definition Ch (x y z : Z) : Z := Z.lxor (Z.land x y) (Z.land (not32 x) z).
Definition Maj (x y z : Z) : Z := Z.lxor (Z.lxor (Z.land x y) (Z.land x z)) (Z.land y z).
Definition Sigma0 (x : Z) : Z := Z.lxor (Z.lxor (rotr 2 x) (rotr 13 x)) (rotr 22 x).
Definition Sigma1 (x : Z) : Z := Z.lxor (Z.lxor (rotr 6 x) (rotr 11 x)) (rotr 25 x).
Definition sigma0 (x : Z) : Z := Z.lxor (Z.lxor (rotr 7 x) (rotr 18 x)) (Z.shiftr x 3).
Definition sigma1 (x : Z) : Z := Z.lxor (Z.lxor (rotr 17 x) (rotr 19 x)) (Z.shiftr x 10).

Definition round_constants : list Z :=
  [1116352408; 1899447441; 3049323471; 3921009573; 961987163; 1508970993; 2453635748;
   2870763221; 3624381080; 310598401; 607225278; 1426881987; 1925078388; 2162078206;
   2614888103; 3248222580; 3835390401; 4022224774; 264347078; 604807628; 770255983;
   1249150122; 1555081692; 1996064986; 2554220882; 2821834349; 2952996808; 3210313671;
   3336571891; 3584528711; 113926993; 338241895; 666307205; 773529912; 1294757372;
   1396182291; 1695183700; 1986661051; 2177026350; 2456956037; 2730485921; 2820302411;
   3259730800; 3345764771; 3516065817; 3600352804; 4094571909; 275423344; 430227734;
   506948616; 659060556; 883997877; 958139571; 1322822218; 1537002063; 1747873779;
   1955562222; 2024104815; 2227730452; 2361852424; 2428436474; 2756734187; 3204031479;
   3329325298].
Definition initial_hash : list Z :=
  [1779033703; 3144134277; 1013904242; 2773480762; 1359893119; 2600822924; 528734635;
   1541459225].

(** ** Padding and message schedule *)

(** The 8 big-endian bytes of a length. *)
Definition be_bytes (n : nat) (z : Z) : bytes :=
  map (fun i => (z / 2 ^ (8 * Z.of_nat i)) mod 256) (rev (seq 0 n)).
Definition pad (m : bytes) : bytes :=
  let zeros := (55 - len m) mod 64 in
  m ++ [128] ++ replicate (Z.to_nat zeros) 0 ++ be_bytes 8 (8 * len m).

Fixpoint chunks {A} (n : nat) (fuel : nat) (l : list A) : list (list A) :=
  match fuel with
  | O => []
  | S fuel' => match l with [] => [] | _ => take n l :: chunks n fuel' (drop n l) end
  end.
Definition be_word (b : bytes) : Z := fold_left (fun acc x => acc * 256 + x) b 0.

(** The schedule, newest word first. *)
Fixpoint extend (n : nat) (w : list Z) : list Z :=
  match n with
  | O => w
  | S n' =>
      let next := w32 (sigma1 (nth 1 w 0) + nth 6 w 0 + sigma0 (nth 14 w 0) + nth 15 w 0) in
      extend n' (next :: w)
  end.
Definition schedule (block : bytes) : list Z :=
  rev (extend 48 (rev (map be_word (chunks 4 16 block)))).

(** ** Compression *)
Definition round (st : list Z) (kw : Z * Z) : list Z :=
  match st with
  | [a; b; c; d; e; f; g; h] =>
      let t1 := w32 (h + Sigma1 e + Ch e f g + kw.1 + kw.2) in
      let t2 := w32 (Sigma0 a + Maj a b c) in
      [add32 t1 t2; a; b; c; add32 d t1; e; f; g]
  | _ => st
  end.
Definition compress (h : list Z) (block : bytes) : list Z :=
  zip_with add32 h (fold_left round (zip round_constants (schedule block)) h).

Definition sha256_words (m : bytes) : list Z :=
  let p := pad m in fold_left compress (chunks 64 (length p) p) initial_hash.
(** [hashlib.sha256(m).digest()] *)
Definition sha256 (m : bytes) : bytes := flat_map (be_bytes 4) (sha256_words m).

(** ** Hexadecimal *)
Definition hex_char (d : Z) : Z := if d <? 10 then 48 + d else 87 + d.
Definition hex (b : bytes) : str := flat_map (fun x => [hex_char (x / 16); hex_char (x mod 16)]) b.
(** [hashlib.sha256(m).hexdigest()] *)
Definition sha256_hex (m : bytes) : str := hex (sha256 m).
(** [character in "0123456789abcdef"] *)
Definition is_hex_lower (c : Z) : bool := (48 <=? c) && (c <=? 57) || (97 <=? c) && (c <=? 102).

(** ** HMAC-SHA256 *)
Definition hmac_sha256 (key msg : bytes) : bytes :=
  let k0 := if 64 <? len key then sha256 key else key in
  let k := k0 ++ replicate (64 - length k0) 0 in
  sha256 (map (Z.lxor 92) k ++ sha256 (map (Z.lxor 54) k ++ msg)).

Example sha256_empty :
  sha256_hex [] = u "e3b0c44298fc1c149afbf4c8996fb92427ae41e4649b934ca495991b7852b855".
Proof. vm_compute. reflexivity. Qed.
Example sha256_two_blocks :
  sha256_hex (u "abcdbcdecdefdefgefghfghighijhijkijkljklmklmnlmnomnopnopq") =
  u "248d6a61d20638b8e5c026930c3e6039a33ce45964ff2167f6ecedd419db06c1".
Proof. vm_compute. reflexivity. Qed.
Example hmac_rfc4231_case2 :
  hex (hmac_sha256 (u "Jefe") (u "what do ya want for nothing?")) =
  u "5bdcc146bf60754e6a042426089575c75a003f089d2739839dec58b964ec3843".
Proof. vm_compute. reflexivity. Qed.

(** ** Shape of a digest *)

Definition is_byte (x : Z) : Prop := 0 <= x < 256.

Lemma length_round st kw : length (round st kw) = length st.
Proof. do 9 (destruct st as [|? st]; [done|]). done. Qed.
Lemma length_rounds l st : length (fold_left round l st) = length st.
Proof. revert st. induction l as [|kw l IH]; intros st; simpl; [done|]. by rewrite IH, length_round. Qed.
Lemma length_compress h block : length (compress h block) = length h.
Proof. unfold compress. rewrite length_zip_with, length_rounds. lia. Qed.
Lemma length_sha256_words m : length (sha256_words m) = 8%nat.
Proof.
  unfold sha256_words. generalize (chunks 64 (length (pad m)) (pad m)) as bs.
  assert (length initial_hash = 8%nat) as H by done. revert H. generalize initial_hash as h.
  intros h Hh bs. revert h Hh. induction bs as [|b bs IH]; intros h Hh; simpl; [done|].
  apply IH. by rewrite length_compress.
Qed.
Lemma be_bytes_byte n z : Forall is_byte (be_bytes n z).
Proof.
  unfold be_bytes. apply Forall_fmap, Forall_true. intros i. unfold is_byte; simpl.
  apply Z.mod_pos_bound. lia.
Qed.
Lemma length_flat_map_const {A B} (f : A -> list B) n l :
  (forall x, length (f x) = n) -> length (flat_map f l) = (n * length l)%nat.
Proof. intros H. induction l as [|x l IH]; simpl; [lia|]. rewrite length_app, H, IH. lia. Qed.
Lemma length_sha256 m : length (sha256 m) = 32%nat.
Proof.
  unfold sha256. rewrite (length_flat_map_const _ 4), length_sha256_words; [done|].
  intros x. unfold be_bytes. by rewrite length_map, length_rev, length_seq.
Qed.
Lemma sha256_byte m : Forall is_byte (sha256 m).
Proof.
  unfold sha256. induction (sha256_words m) as [|w ws IH]; cbn [flat_map]; [constructor|].
  apply Forall_app. split; [apply be_bytes_byte|done].
Qed.

Lemma length_hex b : length (hex b) = (2 * length b)%nat.
Proof. unfold hex. by apply length_flat_map_const. Qed.
Lemma hex_char_lower d : 0 <= d < 16 -> is_hex_lower (hex_char d) = true.
Proof. intros H. unfold is_hex_lower, hex_char. destruct (Z.ltb_spec d 10); lia. Qed.
Lemma hex_lower b : Forall is_byte b -> forallb is_hex_lower (hex b) = true.
Proof.
  unfold hex. induction 1 as [|x b Hx _ IH]; simpl; [done|]. unfold is_byte in Hx.
  rewrite IH, !hex_char_lower; [done|apply Z.mod_pos_bound; lia|].
  split; [apply Z.div_pos; lia|apply Z.div_lt_upper_bound; lia].
Qed.

Lemma length_sha256_hex m : length (sha256_hex m) = 64%nat.
Proof. unfold sha256_hex. by rewrite length_hex, length_sha256. Qed.
Lemma sha256_hex_lower m : forallb is_hex_lower (sha256_hex m) = true.
Proof. apply hex_lower, sha256_byte. Qed.
