(* ===== verification/JsonText.v ===== *)
(** * Python text in JSON values

    Encoding, comparisons with literals, and what [json.dumps] produces: its
    texts are Python text, their UTF-8 form determines them, and canonical dicts
    agree member by member. *)
From S2P Require Import Prelude PyTime Json Sha256.
Local Open Scope Z_scope.

(** [value.encode("utf-8")] *)
Definition encode (value : str) : Res bytes :=
  match utf8_encode value with Some b => Ok b | None => Raise UnicodeEncodeError end.
(** [x == 1] for a JSON value. *)
Definition equals_one (v : option pyval) : bool :=
  match v with
  | Some (PInt 1) | Some (PBool true) => true
  | Some (PFloat repr) => eqs repr "1.0"
  | _ => false
  end.
Definition is_str (v : option pyval) (s : str) : bool :=
  match v with Some (PStr x) => bool_decide (x = s) | _ => false end.

Lemma is_str_true v s : is_str v s = true <-> v = Some (PStr s).
Proof.
  destruct v as [[]|]; cbn; try (split; congruence). rewrite bool_decide_eq_true. split; [by intros ->|congruence].
Qed.
(** [d.pop(key)]: what is left. *)
Definition dict_pop (key : str) (d : list (str * pyval)) : list (str * pyval) :=
  filter (fun kv => kv.1 <> key) d.
(** [set(d) == {...}] *)
Definition keys_are (keys : list string) (d : list (str * pyval)) : bool :=
  forallb (fun k => has_key (u k) d) keys && forallb (fun kv => one_of kv.1 keys) d.
(** [x == n] for an integer [n]; integral floats below 10^16 end in [.0]. *)
Definition equals_int (v : option pyval) (n : Z) : bool :=
  match v with
  | Some (PInt m) => m =? n
  | Some (PBool b) => Z.b2z b =? n
  | Some (PFloat repr) => bool_decide (repr = dec n ++ u ".0")
  | _ => false
  end.
(** [hmac.compare_digest(a, b)] on [str] *)
Definition compare_digest (a b : str) : Res bool :=
  if existsb (fun c => 128 <=? c) (a ++ b) then Raise TypeError else Ok (bool_decide (a = b)).

(** ** Python text *)
Definition text (s : str) : Prop := Forall code_point s.

Lemma text_app s t : text s -> text t -> text (s ++ t).
Proof. intros ??. by apply Forall_app. Qed.
Lemma text_u s : text (u s).
Proof.
  unfold text, u. induction (list_ascii_of_string s) as [|c l IH]; simpl; constructor; [|done].
  unfold code_point. pose proof (N_ascii_bounded c). lia.
Qed.
Lemma text_uint d : text (uint_text d).
Proof. induction d; simpl; [constructor|constructor; [unfold code_point; lia|done]..]. Qed.
Lemma text_dec n : text (dec n).
Proof.
  unfold dec. destruct (Z.to_int n); [|constructor; [unfold code_point; lia|]]; apply text_uint.
Qed.
Lemma text_zfill w s : text s -> text (zfill w s).
Proof.
  intros H. apply text_app; [|done]. apply Forall_forall. intros x Hx.
  apply elem_of_replicate in Hx as [-> _]. unfold code_point. lia.
Qed.
Lemma text_drop n s : text s -> text (drop n s).
Proof. apply Forall_drop. Qed.
Create HintDb text.
#[export] Hint Resolve text_app text_u text_dec text_zfill text_drop : text.
Lemma text_isoformat d : text (isoformat_utc d).
Proof.
  unfold isoformat_utc. destruct (civil _) as [[y m] dd].
  repeat first [apply text_zfill|apply text_u|apply text_dec|case_match; [by constructor|]|apply text_app].
Qed.
Lemma text_replace fuel old new s : text new -> text s -> text (replace_str fuel old new s).
Proof.
  intros Hn. revert s. induction fuel as [|fuel IH]; intros s Hs; simpl; [done|].
  destruct s as [|c t]; [done|]. apply Forall_cons in Hs as [Hc Ht].
  destruct (starts_with old (c :: t)).
  - apply text_app; [done|]. apply IH, text_drop. by constructor.
  - constructor; [done|by apply IH].
Qed.
Lemma text_iso d : text (isoformat_z d).
Proof. apply text_replace; [apply text_u|apply text_isoformat]. Qed.
Lemma text_digest_hex b : text (sha256_hex b).
Proof.
  pose proof (sha256_hex_lower b) as H. rewrite forallb_forall in H. apply Forall_forall.
  intros x Hx%list_elem_of_In%H. unfold is_hex_lower in Hx. unfold code_point.
  apply orb_true_iff in Hx as [Hx|Hx]; bool_facts; lia.
Qed.
#[export] Hint Resolve text_digest_hex : text.

(** A dict with distinct literal keys. *)
Ltac plain_members :=
  apply (proj2 (plain_dict _)); split;
  [ apply (bool_decide_unpack (NoDup _)); vm_compute; exact I
  | repeat (apply Forall_cons_2; [split; [apply text_u|]|]); [..|apply Forall_nil_2] ].

(** ** Reading members of a canonical manifest *)
Lemma dict_get_elem k v (d : list (str * pyval)) :
  NoDup d.*1 -> dict_get k d = Some v <-> (k, v) ∈ d.
Proof.
  induction d as [|[k' v'] d IH]; cbn [dict_get fmap list_fmap fst]; intros Hnd.
  - rewrite elem_of_nil. done.
  - apply NoDup_cons in Hnd as [Hk Hnd]. rewrite elem_of_cons, <- IH by done.
    destruct (decide (k = k')) as [->|Hne].
    + rewrite bool_decide_true by done. split; [intros [= ->]; by left|].
      intros [[= ->]|Hd%IH]; [done| |done]. destruct Hk. by apply (list_elem_of_fmap_2 fst) in Hd.
    + rewrite bool_decide_false by done. split; [by right|]. intros [[=]|]; done.
Qed.
Lemma dict_get_perm k (d d' : list (str * pyval)) :
  NoDup d.*1 -> d ≡ₚ d' -> dict_get k d = dict_get k d'.
Proof.
  intros Hnd Hp. assert (NoDup d'.*1) as Hnd' by by rewrite <- Hp.
  apply option_eq. intros v. by rewrite !dict_get_elem, Hp.
Qed.
Lemma dict_get_map k (f : pyval -> pyval) (d : list (str * pyval)) :
  dict_get k (map (fun kv => (kv.1, f kv.2)) d) = f <$> dict_get k d.
Proof.
  induction d as [|[k' v] d IH]; [done|]. cbn [map dict_get fst snd]. rewrite IH.
  by destruct (bool_decide (k = k')).
Qed.
(** Equal canonical dicts agree, member by member. *)
Lemma canon_member k (d d' : list (str * pyval)) :
  NoDup d.*1 -> NoDup d'.*1 -> canon (PDict d) = canon (PDict d') ->
  canon <$> dict_get k d = canon <$> dict_get k d'.
Proof.
  assert (forall d : list (str * pyval), NoDup d.*1 ->
    canon <$> dict_get k d = dict_get k (sort_keys (map (fun kv => (kv.1, canon kv.2)) d))) as H.
  { intros e Hnd. rewrite <- dict_get_map. apply dict_get_perm; [|by rewrite sort_keys_perm].
    assert ((map (fun kv : str * pyval => (kv.1, canon kv.2)) e).*1 = e.*1) as ->; [|done].
    induction e as [|x e IH]; [done|]. cbn. f_equal. apply IH. by apply NoDup_cons in Hnd as [_ ?]. }
  intros Hnd Hnd' E. rewrite !H by done. cbn [canon] in E. by injection E as ->.
Qed.
Lemma plain_keys d : plain (PDict d) -> NoDup d.*1.
Proof. by intros [H _]%plain_dict. Qed.
(** A text member of equal canonical dicts. *)
Lemma canon_str k d d' s s' :
  plain (PDict d) -> plain (PDict d') -> canon (PDict d) = canon (PDict d') ->
  dict_get k d = Some (PStr s) -> dict_get k d' = Some (PStr s') -> s = s'.
Proof.
  intros Hd Hd' E H H'. pose proof (canon_member k _ _ (plain_keys _ Hd) (plain_keys _ Hd') E) as M.
  rewrite H, H' in M. by injection M.
Qed.

Lemma encode_inj s s' b :
  text s -> text s' -> encode s = Ok b -> encode s' = Ok b -> s = s'.
Proof.
  unfold encode. intros Hs Hs'. destruct (utf8_encode s) as [x|] eqn:E; [|done].
  destruct (utf8_encode s') as [y|] eqn:E'; [|done]. intros [= <-] [= <-].
  apply utf8_roundtrip in E, E'; [congruence|done..].
Qed.
Lemma text_cons c s : 0 <= c <= 1114111 -> text s -> text (c :: s).
Proof. by constructor. Qed.
Lemma text_quote s : text s -> text (quote false s).
Proof.
  intros H. unfold quote. apply text_cons; [lia|]. apply text_app; [|apply text_cons; [lia|constructor]].
  induction H as [|c s Hc _ IH]; [constructor|]. cbn [flat_map]. apply text_app; [|exact IH].
  unfold esc, u_escape, hexdigit. unfold code_point in Hc.
  repeat case_match; bool_facts; repeat (apply text_cons; [first [lia|zlia]|]); try constructor;
    simpl in *; discriminate.
Qed.
Lemma text_join sep l : text sep -> Forall text l -> text (join sep l).
Proof.
  intros Hs. induction 1 as [|x l Hx Hl IH]; [constructor|]. destruct l; [done|].
  cbn [join]. repeat apply text_app; done.
Qed.
Lemma text_dumps v : plain v -> text (dumps false v).
Proof.
  induction v as [|b|n|r|s|l IH|d IH] using pyval_nested_ind; intros Hv.
  - apply text_u.
  - destruct b; apply text_u.
  - apply text_dec.
  - done.
  - by apply text_quote.
  - apply plain_list in Hv. cbn [dumps]. repeat apply text_app; try apply text_u.
    apply text_join; [apply text_u|]. apply Forall_map.
    rewrite Forall_forall in IH, Hv |- *. auto.
  - apply plain_dict in Hv as [_ Hv]. cbn [dumps]. repeat apply text_app; try apply text_u.
    apply text_join; [apply text_u|]. apply Forall_map. rewrite (sort_keys_perm _).
    apply Forall_map. rewrite Forall_forall in IH, Hv |- *. intros kv Hkv.
    destruct (Hv _ Hkv) as [Hk Hp]. cbn [fst snd].
    repeat apply text_app; [by apply text_quote|apply text_u|by apply IH].
Qed.


(** ** Key order does not matter *)
Lemma key_leb_total {A : Type} (x y : str * A) : key_leb x y = false -> key_leb y x = true.
Proof. unfold key_leb. destruct (str_leb_total x.1 y.1); congruence. Qed.
Lemma insert_key_comm {A : Type} (x y : str * A) l :
  x.1 <> y.1 -> insert_key x (insert_key y l) = insert_key y (insert_key x l).
Proof.
  intros Hne. assert (key_leb x y = true -> key_leb y x = true -> False) as Hanti.
  { unfold key_leb. intros H1 H2. by apply Hne, str_leb_antisym. }
  assert (forall a b c : str * A, key_leb a b = true -> key_leb b c = true -> key_leb a c = true) as Htr.
  { unfold key_leb. intros a b c. apply str_leb_trans. }
  induction l as [|z l IH]; cbn [insert_key].
  - destruct (key_leb x y) eqn:E1, (key_leb y x) eqn:E2; try done; [by destruct Hanti|].
    apply key_leb_total in E1. congruence.
  - destruct (key_leb y z) eqn:Eyz, (key_leb x z) eqn:Exz; cbn [insert_key]; rewrite ?Eyz, ?Exz.
    + destruct (key_leb x y) eqn:E1, (key_leb y x) eqn:E2; cbn [insert_key]; rewrite ?Eyz, ?Exz; try done.
      * by destruct Hanti.
      * apply key_leb_total in E1. congruence.
    + destruct (key_leb x y) eqn:E1; [|done].
      assert (key_leb x z = true) by by apply Htr with y. congruence.
    + destruct (key_leb y x) eqn:E1; [|done].
      assert (key_leb y z = true) by by apply Htr with x. congruence.
    + by rewrite IH.
Qed.
Lemma sort_keys_perm_eq {A : Type} (l l' : list (str * A)) :
  l ≡ₚ l' -> NoDup l.*1 -> sort_keys l = sort_keys l'.
Proof.
  induction 1 as [|x l l' Hp IH|x y l|l1 l2 l3 H1 IH1 H2 IH2]; intros Hnd; [done| | |].
  - cbn [sort_keys foldr]. fold (sort_keys l). fold (sort_keys l'). rewrite IH; [done|].
    cbn in Hnd. by apply NoDup_cons in Hnd as [_ ?].
  - cbn [sort_keys foldr]. fold (sort_keys l). apply insert_key_comm. cbn in Hnd.
    apply NoDup_cons in Hnd as [Hnd _]. intros E. apply Hnd. rewrite E. left.
  - rewrite IH1, IH2; [done|by rewrite <- H1|done].
Qed.
Definition member_of (kt : str * str) : str := quote false kt.1 ++ u ":" ++ kt.2.
Lemma dumps_dict_text d :
  dumps false (PDict d)
  = u "{" ++ join (u ",") (map member_of (sort_keys (map (fun kv => (kv.1, dumps false kv.2)) d))) ++ u "}".
Proof. done. Qed.
Lemma map_keys {A B : Type} (f : A -> B) (d : list (str * A)) :
  (map (fun kv => (kv.1, f kv.2)) d).*1 = d.*1.
Proof. induction d as [|kv d IH]; [done|]. cbn. f_equal. exact IH. Qed.
Lemma dumps_perm d d' : d ≡ₚ d' -> NoDup d.*1 -> dumps false (PDict d) = dumps false (PDict d').
Proof.
  intros Hp Hnd. rewrite !dumps_dict_text. do 4 f_equal. apply sort_keys_perm_eq; [by rewrite Hp|].
  by rewrite map_keys.
Qed.
Definition canon_members (d : list (str * pyval)) : list (str * pyval) :=
  map (fun kv => (kv.1, canon kv.2)) d.
Lemma canon_keys d : (canon_members d).*1 = d.*1.
Proof. apply map_keys. Qed.
Lemma plain_canon v : plain v -> plain (canon v).
Proof.
  induction v as [|b|n|r|s|l IH|d IH] using pyval_nested_ind; intros Hv; try done.
  - apply plain_list in Hv. cbn [canon]. apply plain_list. apply Forall_map.
    rewrite Forall_forall in IH, Hv |- *. auto.
  - apply plain_dict in Hv as [Hnd Hv]. change (canon (PDict d)) with (PDict (sort_keys (canon_members d))).
    apply (proj2 (plain_dict _)). rewrite (sort_keys_perm (canon_members d)), canon_keys. split; [done|].
    apply Forall_map. rewrite Forall_forall in IH, Hv |- *. intros kv Hkv. destruct (Hv kv Hkv) as [Hk Hp].
    split; [exact Hk|by apply IH].
Qed.
Lemma dumps_canon v : plain v -> dumps false (canon v) = dumps false v.
Proof.
  induction v as [|b|n|r|s|l IH|d IH] using pyval_nested_ind; intros Hv; try done.
  - apply plain_list in Hv. cbn [canon dumps]. rewrite map_map. do 3 f_equal. apply map_ext_in.
    intros v Hin%list_elem_of_In. rewrite Forall_forall in IH, Hv. auto.
  - apply plain_dict in Hv as [Hnd Hv].
    change (canon (PDict d)) with (PDict (sort_keys (canon_members d))).
    rewrite (dumps_perm (sort_keys (canon_members d)) (canon_members d));
      [|by rewrite sort_keys_perm|by rewrite (sort_keys_perm (canon_members d)), canon_keys].
    rewrite !dumps_dict_text. unfold canon_members. rewrite map_map. do 5 f_equal.
    apply map_ext_in. intros kv Hin%list_elem_of_In. cbn [fst snd]. f_equal.
    rewrite Forall_forall in IH, Hv. destruct (Hv kv Hin). auto.
Qed.
Lemma dict_set_fresh k v d : k ∉ d.*1 -> dict_set k v d = d ++ [(k, v)].
Proof.
  induction d as [|[k' v'] d IH]; [done|]. cbn. rewrite not_elem_of_cons. intros [Hne Hd].
  rewrite bool_decide_false by done. by rewrite IH.
Qed.
