(* ===== verification/Base64.v ===== *)
(** * URL-safe base64

    [urlsafe_b64encode] with and without its padding, the strict decoder cursors
    need, and the lenient one of [binascii.a2b_base64], which skips characters
    outside the alphabet. *)
From S2P Require Import Prelude Sha256.
Local Open Scope Z_scope.

Definition alphanumeric (c : Z) : bool :=
  (48 <=? c) && (c <=? 57) || (65 <=? c) && (c <=? 90) || (97 <=? c) && (c <=? 122).
Definition base64url_char (c : Z) : bool := alphanumeric c || (c =? 45) || (c =? 95).

(** ** Without padding *)
Definition b64_char (d : Z) : Z :=
  if d <? 26 then 65 + d else if d <? 52 then 71 + d else if d <? 62 then d - 4
  else if d =? 62 then 45 else 95.
Definition b64_value (c : Z) : Z :=
  if c =? 45 then 62 else if c =? 95 then 63 else if c <=? 57 then c + 4
  else if c <=? 90 then c - 65 else c - 71.
(** [urlsafe_b64encode(raw).decode("ascii").rstrip("=")] *)
Fixpoint b64_encode (raw : bytes) : str :=
  match raw with
  | [] => []
  | [a] => [b64_char (a / 4); b64_char (a mod 4 * 16)]
  | [a; b] => [b64_char (a / 4); b64_char (a mod 4 * 16 + b / 16); b64_char (b mod 16 * 4)]
  | a :: b :: c :: raw =>
      b64_char (a / 4) :: b64_char (a mod 4 * 16 + b / 16) :: b64_char (b mod 16 * 4 + c / 64)
        :: b64_char (c mod 64) :: b64_encode raw
  end.
(** [urlsafe_b64decode((cursor + padding).encode("ascii"))] on the base64url alphabet;
    one character left over is a [binascii.Error]. *)
Fixpoint b64_decode (s : str) : option bytes :=
  match s with
  | [] => Some []
  | [_] => None
  | [w; x] => Some [b64_value w * 4 + b64_value x / 16]
  | [w; x; y] =>
      Some [b64_value w * 4 + b64_value x / 16; b64_value x mod 16 * 16 + b64_value y / 4]
  | w :: x :: y :: z :: s =>
      t ← b64_decode s;
      Some (b64_value w * 4 + b64_value x / 16 :: b64_value x mod 16 * 16 + b64_value y / 4
            :: b64_value y mod 4 * 64 + b64_value z :: t)
  end.

Example b64_example : b64_encode (u "any carnal pleas") = u "YW55IGNhcm5hbCBwbGVhcw".
Proof. vm_compute. reflexivity. Qed.

(** ** With padding *)
(** [urlsafe_b64encode(raw).decode("ascii")] *)
Definition urlsafe_b64encode (raw : bytes) : str :=
  let s := b64_encode raw in s ++ replicate (Z.to_nat (- len s mod 4)) 61.
(** A digit of either alphabet. *)
Definition b64_digit (c : Z) : option Z :=
  if (65 <=? c) && (c <=? 90) then Some (c - 65) else if (97 <=? c) && (c <=? 122) then Some (c - 71)
  else if (48 <=? c) && (c <=? 57) then Some (c + 4) else if (c =? 43) || (c =? 45) then Some 62
  else if (c =? 47) || (c =? 95) then Some 63 else None.
(** [binascii.a2b_base64], not strict: the digit's place in its group of four, the
    bits left of the last one, and the padding seen. *)
Fixpoint a2b_base64 (quad left pads : Z) (s : str) : option bytes :=
  match s with
  | [] => if quad =? 0 then Some [] else None
  | c :: s =>
      if c =? 61
      then if quad <? 2 then a2b_base64 quad left pads s
           else if 4 <=? quad + (pads + 1) then Some [] else a2b_base64 quad left (pads + 1) s
      else match b64_digit c with
           | None => a2b_base64 quad left pads s
           | Some v =>
               if quad =? 0 then a2b_base64 1 v 0 s
               else if quad =? 1 then cons (left * 4 + v / 16) <$> a2b_base64 2 (v mod 16) 0 s
               else if quad =? 2 then cons (left * 16 + v / 4) <$> a2b_base64 3 (v mod 4) 0 s
               else cons (left * 64 + v) <$> a2b_base64 0 0 0 s
           end
  end.
Definition urlsafe_b64decode (s : str) : option bytes := a2b_base64 0 0 0 s.

Example lenient : urlsafe_b64decode (u "YW 55!I+=_A==") = Some (u "any" ++ [35; 239; 192]).
Proof. vm_compute. reflexivity. Qed.
Example short : urlsafe_b64decode (u "YW55I===") = None.
Proof. vm_compute. reflexivity. Qed.

(** ** Round trips *)
Lemma b64_char_ok d : 0 <= d < 64 -> base64url_char (b64_char d) = true /\ b64_value (b64_char d) = d.
Proof.
  intros H. unfold b64_char, b64_value, base64url_char, alphanumeric.
  destruct (Z.ltb_spec d 26); [|destruct (Z.ltb_spec d 52); [|destruct (Z.ltb_spec d 62);
    [|destruct (Z.eqb_spec d 62)]]];
    (split; [lia|]); repeat case_match; bool_facts; lia.
Qed.
(** Three bytes at a time. *)
Lemma bytes_ind (P : list Z -> Prop) :
  P [] -> (forall a, P [a]) -> (forall a b, P [a; b]) ->
  (forall a b c l, P l -> P (a :: b :: c :: l)) -> forall l, P l.
Proof.
  intros H0 H1 H2 H3. fix IH 1. intros [|a [|b [|c l]]]; [done|apply H1|apply H2|].
  apply H3, IH.
Qed.
Ltac byte_facts :=
  repeat match goal with H : Forall is_byte (_ :: _) |- _ => apply Forall_cons in H as [? H] end;
  unfold is_byte in *.
Ltac b64_values :=
  repeat match goal with |- context[b64_value (b64_char ?d)] =>
    rewrite (proj2 (b64_char_ok d ltac:(zlia))) end.
Lemma b64_roundtrip raw : Forall is_byte raw -> b64_decode (b64_encode raw) = Some raw.
Proof.
  induction raw as [|a|a b|a b c l IH] using bytes_ind; intros H; byte_facts; cbn [b64_encode b64_decode];
    [done|b64_values|b64_values|].
  - do 2 f_equal. zlia.
  - do 2 f_equal; [zlia|f_equal; zlia].
  - rewrite IH by done. cbn [mbind option_bind]. b64_values. do 2 f_equal; [zlia|].
    f_equal; [zlia|]. f_equal. zlia.
Qed.
Lemma b64_encode_chars raw : Forall is_byte raw -> forallb base64url_char (b64_encode raw) = true.
Proof.
  induction raw as [|a|a b|a b c l IH] using bytes_ind; intros H; byte_facts; cbn [b64_encode forallb];
    [done|..]; rewrite ?IH by done;
    repeat match goal with |- context[base64url_char (b64_char ?d)] =>
      rewrite (proj1 (b64_char_ok d ltac:(zlia))) end; done.
Qed.
Lemma b64_encode_nil raw : b64_encode raw = [] -> raw = [].
Proof. by destruct raw as [|a [|b [|c l]]]. Qed.

Lemma b64_digit_char d : 0 <= d < 64 -> b64_char d <> 61 /\ b64_digit (b64_char d) = Some d.
Proof.
  intros H. unfold b64_char, b64_digit.
  destruct (Z.ltb_spec d 26); [|destruct (Z.ltb_spec d 52); [|destruct (Z.ltb_spec d 62);
    [|destruct (Z.eqb_spec d 62)]]];
    (split; [lia|]); repeat case_match; bool_facts; first [f_equal; lia|exfalso; lia].
Qed.
Lemma a2b_digit quad left pads d s : 0 <= d < 64 ->
  a2b_base64 quad left pads (b64_char d :: s) =
    if quad =? 0 then a2b_base64 1 d 0 s
    else if quad =? 1 then cons (left * 4 + d / 16) <$> a2b_base64 2 (d mod 16) 0 s
    else if quad =? 2 then cons (left * 16 + d / 4) <$> a2b_base64 3 (d mod 4) 0 s
    else cons (left * 64 + d) <$> a2b_base64 0 0 0 s.
Proof.
  intros H. destruct (b64_digit_char d H) as [Hne Hd]. cbn [a2b_base64].
  by rewrite (proj2 (Z.eqb_neq _ _) Hne), Hd.
Qed.
Lemma urlsafe_roundtrip raw : Forall is_byte raw -> urlsafe_b64decode (urlsafe_b64encode raw) = Some raw.
Proof.
  unfold urlsafe_b64decode, urlsafe_b64encode.
  induction raw as [|a|a b|a b c l IH] using bytes_ind; intros H; byte_facts; cbn [b64_encode].
  - done.
  - cbn [app]. rewrite !a2b_digit by zlia. change (Z.to_nat (- len [_; _] mod 4)) with 2%nat.
    cbn -[Z.mul Z.add Z.div Z.modulo].
    change (4 <=? 2 + (0 + 1)) with false. change (4 <=? 2 + (0 + 1 + 1)) with true.
    change (4 <=? 3 + (0 + 1)) with true. cbn [fmap option_fmap option_map]. do 2 f_equal. zlia.
  - cbn [app]. rewrite !a2b_digit by zlia. change (Z.to_nat (- len [_; _; _] mod 4)) with 1%nat.
    cbn -[Z.mul Z.add Z.div Z.modulo].
    change (4 <=? 2 + (0 + 1)) with false. change (4 <=? 2 + (0 + 1 + 1)) with true.
    change (4 <=? 3 + (0 + 1)) with true. cbn [fmap option_fmap option_map]. do 2 f_equal; [zlia|]. f_equal. zlia.
  - replace (- len (_ :: _ :: _ :: _ :: b64_encode l) mod 4) with (- len (b64_encode l) mod 4)
      by (unfold len; cbn [length]; zlia).
    cbn [app]. rewrite !a2b_digit by zlia. cbn [Z.eqb Pos.eqb]. rewrite IH by done. cbn -[Z.mul Z.add Z.div Z.modulo].
    f_equal. f_equal; [zlia|]. f_equal; [zlia|]. f_equal. zlia.
Qed.
Lemma urlsafe_padded raw : replicate (Z.to_nat (- len (urlsafe_b64encode raw) mod 4)) 61 = [].
Proof.
  unfold urlsafe_b64encode. set (s := b64_encode raw).
  assert (len (s ++ replicate (Z.to_nat (- len s mod 4)) 61) mod 4 = 0) as H.
  { unfold len. rewrite length_app, length_replicate. zlia. }
  replace (- len _ mod 4) with 0 by zlia. done.
Qed.
Lemma urlsafe_ascii raw : Forall is_byte raw -> existsb (fun c => 128 <=? c) (urlsafe_b64encode raw) = false.
Proof.
  intros H%b64_encode_chars. unfold urlsafe_b64encode. rewrite existsb_app. apply orb_false_iff. split.
  - apply not_true_iff_false. intros (c & Hc & Hl)%existsb_exists. rewrite forallb_forall in H.
    apply H in Hc. unfold base64url_char, alphanumeric in Hc. lia.
  - generalize (Z.to_nat (- len (b64_encode raw) mod 4)) as n. by induction n.
Qed.
