(* ===== verification/JsonBytes.v ===== *)
(** * [json.loads] on bytes

    The encoding is guessed from the first bytes and decoded with the
    [surrogatepass] handler; constants [NaN] and [Infinity] are accepted and a
    repeated key keeps its last value.  Integers of more than 4300 digits, which
    the interpreter refuses by default, are read here. *)
From S2P Require Import Prelude Json Sha256 JsonText.
Local Open Scope Z_scope.

Inductive encoding : Type := Utf8 | Utf8Sig | Utf16 (big : bool) (bom : bool) | Utf32 (big : bool) (bom : bool).
(** [json.detect_encoding] *)
Definition detect_encoding (b : bytes) : encoding :=
  if starts_with [0; 0; 254; 255] b then Utf32 true true
  else if starts_with [255; 254; 0; 0] b then Utf32 false true
  else if starts_with [254; 255] b then Utf16 true true
  else if starts_with [255; 254] b then Utf16 false true
  else if starts_with [239; 187; 191] b then Utf8Sig
  else match b with
       | [b0; b1] => if b0 =? 0 then Utf16 true false else if b1 =? 0 then Utf16 false false else Utf8
       | b0 :: b1 :: b2 :: b3 :: _ =>
           if b0 =? 0 then (if b1 =? 0 then Utf32 true false else Utf16 true false)
           else if b1 =? 0
           then (if (b2 =? 0) && (b3 =? 0) then Utf32 false false else Utf16 false false)
           else Utf8
       | _ => Utf8
       end.

(** Strict UTF-8 except that encoded surrogates are let through. *)
Fixpoint utf8_decode_pass (b : bytes) : option str :=
  match b with
  | [] => Some []
  | b0 :: t =>
      if b0 <? 128 then cons b0 <$> utf8_decode_pass t
      else if (194 <=? b0) && (b0 <=? 223) then
        match t with
        | b1 :: t1 =>
            if is_cont b1 then cons ((b0 - 192) * 64 + (b1 - 128)) <$> utf8_decode_pass t1 else None
        | _ => None
        end
      else if (224 <=? b0) && (b0 <=? 239) then
        match t with
        | b1 :: b2 :: t2 =>
            let c := (b0 - 224) * 4096 + (b1 - 128) * 64 + (b2 - 128) in
            if is_cont b1 && is_cont b2 && (2048 <=? c) then cons c <$> utf8_decode_pass t2 else None
        | _ => None
        end
      else if (240 <=? b0) && (b0 <=? 244) then
        match t with
        | b1 :: b2 :: b3 :: t3 =>
            let c := (b0 - 240) * 262144 + (b1 - 128) * 4096 + (b2 - 128) * 64 + (b3 - 128) in
            if is_cont b1 && is_cont b2 && is_cont b3 && (65536 <=? c) && (c <=? 1114111)
            then cons c <$> utf8_decode_pass t3 else None
        | _ => None
        end
      else None
  end.
(** The 16-bit units of a text, and the text of its units. *)
Fixpoint units16 (big : bool) (b : bytes) : option (list Z) :=
  match b with
  | [] => Some []
  | [_] => None
  | x :: y :: b => cons (if big then x * 256 + y else y * 256 + x) <$> units16 big b
  end.
Fixpoint join_pairs (units : list Z) : str :=
  match units with
  | hi :: ((lo :: units') as rest) =>
      if is_high hi && is_low lo then pair_value hi lo :: join_pairs units' else hi :: join_pairs rest
  | l => l
  end.
Fixpoint units32 (big : bool) (b : bytes) : option str :=
  match b with
  | [] => Some []
  | x :: y :: z :: w :: b =>
      let c := if big then ((x * 256 + y) * 256 + z) * 256 + w else ((w * 256 + z) * 256 + y) * 256 + x in
      if c <=? 1114111 then cons c <$> units32 big b else None
  | _ => None
  end.
Definition decode_json (b : bytes) : option str :=
  match detect_encoding b with
  | Utf8 => utf8_decode_pass b
  | Utf8Sig => utf8_decode_pass (drop 3 b)
  | Utf16 big bom => join_pairs <$> units16 big (if bom : bool then drop 2 b else b)
  | Utf32 big bom => units32 big (if bom : bool then drop 4 b else b)
  end.

(** The text [json.dumps] gives the float of a JSON number is a parameter. *)
Definition json_constant (name : str) : option pyval := Some (PFloat name).
Definition loads_bytes (float_text : str -> str) (b : bytes) : option pyval :=
  text ← decode_json b; loads float_text json_constant last_wins text.

Example loads_utf16 :
  loads_bytes id ([255; 254] ++ flat_map (fun c => [c; 0]) (u "[NaN,1]")) = Some (PList [PFloat (u "NaN"); PInt 1]).
Proof. vm_compute. reflexivity. Qed.
Example loads_surrogate : loads_bytes id ([34; 237; 160; 189; 34]) = Some (PStr [55357]).
Proof. vm_compute. reflexivity. Qed.

(** ** ASCII *)
Definition ascii (c : Z) : Prop := 0 < c < 128.
Lemma utf8_decode_ascii s : Forall ascii s -> utf8_decode_pass s = Some s.
Proof.
  unfold ascii. induction 1 as [|c s Hc _ IH]; [done|]. cbn [utf8_decode_pass].
  rewrite (proj2 (Z.ltb_lt c 128)), IH by lia. done.
Qed.
Lemma detect_ascii s : Forall ascii s -> detect_encoding s = Utf8.
Proof.
  unfold ascii, detect_encoding. intros H.
  assert (forall c s', s = c :: s' -> 0 < c < 128) as Hc by (intros c s' ->; by apply Forall_cons in H as [? _]).
  destruct s as [|b0 s]; [done|]. specialize (Hc b0 s eq_refl). apply Forall_cons in H as [_ H].
  cbn [starts_with]. rewrite !(proj2 (Z.eqb_neq _ b0)) by lia. cbn [andb].
  destruct s as [|b1 s]; [done|]. apply Forall_cons in H as [H1 H].
  rewrite (proj2 (Z.eqb_neq b0 0)), (proj2 (Z.eqb_neq b1 0)) by lia.
  by destruct s as [|b2 [|b3 s]].
Qed.
Lemma last_wins_distinct (d : list (str * pyval)) : NoDup d.*1 -> last_wins d = Some d.
Proof.
  unfold last_wins. intros Hnd. f_equal.
  assert (forall acc, NoDup (acc ++ d).*1 ->
    fold_left (fun d kv => dict_set kv.1 kv.2 d) d acc = acc ++ d) as H; [|by apply (H [])].
  clear Hnd. induction d as [|[k v] d IH]; intros acc Hnd; cbn [fold_left fst snd]; [by rewrite app_nil_r|].
  rewrite dict_set_fresh.
  - rewrite IH; rewrite <- app_assoc; done.
  - rewrite fmap_app in Hnd. apply NoDup_app in Hnd as (_ & Hno & _). intros Hin. apply (Hno _ Hin). by left.
Qed.
(** The ASCII text of a value is read back in canonical order. *)
Lemma loads_bytes_dumps float_text v : plain v -> Forall ascii (dumps false v ++ [10]) ->
  loads_bytes float_text (dumps false v ++ [10]) = Some (canon v).
Proof.
  intros Hv Ha. unfold loads_bytes, decode_json. rewrite detect_ascii, utf8_decode_ascii by done.
  cbn [mbind option_bind]. unfold loads. rewrite dumps_space by done.
  pose proof (plain_reads float_text json_constant last_wins last_wins_distinct v Hv
    (2 + 2 * length (dumps false v ++ [10%Z]))%nat (cons 10 nil)) as H. rewrite H; [done| |by cbn; tauto].
  rewrite length_app. cbn. lia.
Qed.
(** A record's keys are distinct. *)
Lemma dict_set_in k v (d : list (str * pyval)) x : x ∈ (dict_set k v d).*1 -> x = k \/ x ∈ d.*1.
Proof.
  induction d as [|[k' v'] d IH]; cbn; [rewrite list_elem_of_singleton; tauto|].
  destruct (bool_decide _); cbn; rewrite !elem_of_cons; [tauto|]. intros [->|Hx]; [tauto|].
  apply IH in Hx. tauto.
Qed.
Lemma dict_set_keys k v (d : list (str * pyval)) : NoDup d.*1 -> NoDup (dict_set k v d).*1.
Proof.
  induction d as [|[k' v'] d IH]; cbn; intros Hnd; [apply NoDup_singleton|].
  apply NoDup_cons in Hnd as [Hk Hnd]. case_bool_decide; cbn; constructor; auto.
  by intros [->|]%dict_set_in.
Qed.
Lemma loads_bytes_keys float_text b d : loads_bytes float_text b = Some (PDict d) -> NoDup d.*1.
Proof.
  unfold loads_bytes. intros (text & _ & H)%bind_Some. revert H.
  apply (loads_dict _ _ _ (fun d => NoDup d.*1)); [done|].
  unfold last_wins. intros l e [= <-].
  assert (forall acc, NoDup acc.*1 -> NoDup (fold_left (fun d kv => dict_set kv.1 kv.2 d) l acc).*1) as H;
    [|apply H; constructor].
  induction l as [|kv l IH]; intros acc Hacc; [done|]. cbn [fold_left]. by apply IH, dict_set_keys.
Qed.
