(* ===== verification/FlatRecords.v ===== *)
(** * Flat JSON records of printable text

    The records of the deletion authorities: objects whose members are short
    printable strings and small numbers.  Their two encodings agree, are ASCII of a
    bounded length, and do not depend on the order of the members. *)
From Stdlib Require DecimalPos DecimalZ.
From S2P Require Import Prelude PyTime Timestamps Json JsonText JsonBytes.
Local Open Scope Z_scope.

(** ** Flat records of printable text *)
Definition printable (s : str) : Prop := Forall (fun c => 32 <= c <= 126) s.
(** Keys of up to 40 and strings of up to 400 characters. *)
Definition short (n : nat) (s : str) : Prop := printable s /\ (length s <= n)%nat.
Definition flat_value (v : pyval) : Prop :=
  match v with PStr s => short 400 s | PInt n => 0 <= n < 10 ^ 20 | _ => False end.
Definition flat (d : list (str * pyval)) : Prop := Forall (fun kv => short 40 kv.1 /\ flat_value kv.2) d.

Lemma printable_app s t : printable (s ++ t) <-> printable s /\ printable t.
Proof. apply Forall_app. Qed.
Lemma esc_printable e c : 32 <= c <= 126 -> esc e c = esc false c /\ printable (esc false c) /\ (length (esc false c) <= 2)%nat.
Proof.
  intros H. unfold esc, printable.
  destruct (Z.eqb_spec c 34) as [->|]; [|destruct (Z.eqb_spec c 92) as [->|]].
  1,2: split; [done|]; split; [|cbn; lia]; repeat (apply Forall_cons_2; [lia|]); apply Forall_nil_2.
  rewrite !(proj2 (Z.eqb_neq c _)) by lia. rewrite (proj2 (Z.ltb_ge c 32)), (proj2 (Z.ltb_ge 126 c)) by lia.
  rewrite !andb_false_r. split; [done|]. split; [|cbn; lia]. apply Forall_cons_2; [lia|apply Forall_nil_2].
Qed.
Lemma quote_printable e s : printable s ->
  quote e s = quote false s /\ printable (quote false s) /\ (length (quote false s) <= 2 * length s + 2)%nat.
Proof.
  intros H. unfold quote.
  assert (flat_map (esc e) s = flat_map (esc false) s /\ printable (flat_map (esc false) s)
    /\ (length (flat_map (esc false) s) <= 2 * length s)%nat) as (-> & Hp & Hl).
  { induction H as [|c s Hc _ (IH1 & IH2 & IH3)]; [split_and!; [done|apply Forall_nil_2|done]|].
    destruct (esc_printable e c Hc) as (E & Hp & Hl). cbn [flat_map]. rewrite E, IH1, length_app. cbn [length].
    split; [done|]. split; [by apply printable_app|lia]. }
  split; [done|]. split; [|cbn [length]; rewrite length_app; cbn; lia].
  apply Forall_cons_2; [lia|]. apply printable_app. split; [done|]. apply Forall_cons_2; [lia|apply Forall_nil_2].
Qed.

(** The length of a decimal number. *)
Lemma of_uint_acc_bound d acc : Z.pos acc * 10 ^ Z.of_nat (length (uint_text d)) <= Z.pos (Pos.of_uint_acc d acc).
Proof.
  revert acc. induction d as [|d IH|d IH|d IH|d IH|d IH|d IH|d IH|d IH|d IH|d IH]; intros acc;
    cbn [uint_text length Pos.of_uint_acc]; [rewrite Z.mul_1_r; lia|..];
    rewrite pow_S; (eapply Z.le_trans; [|apply IH]); set (p := 10 ^ Z.of_nat (length (uint_text d)));
    assert (0 < p) by (apply Z.pow_pos_nonneg; lia); nia.
Qed.
Lemma dec_length n k : 0 <= n < 10 ^ Z.of_nat k -> (1 <= k)%nat -> (length (dec n) <= k)%nat.
Proof.
  intros Hn Hk. destruct (dec_shape n) as (d & Hd & E). pose proof (DecimalZ.of_to n) as Hof.
  destruct E as [E|E]; unfold dec; rewrite E in Hof |- *.
  2: { cbn [Z.of_int] in Hof. unfold Z.of_uint in Hof. assert (n = 0) as -> by lia. cbn in E. discriminate E. }
  cbn [Z.of_int] in Hof. destruct Hd as [->|[Hnil Hz]]; [cbn; lia|].
  assert (forall p e, Z.of_N (N.pos (Pos.of_uint_acc e p)) = n -> (S (length (uint_text e)) <= k)%nat) as H.
  { intros p e Hp. cbn in Hp. pose proof (of_uint_acc_bound e p) as Hb.
    assert (10 ^ Z.of_nat (length (uint_text e)) < 10 ^ Z.of_nat k) as Hlt.
    { assert (0 < 10 ^ Z.of_nat (length (uint_text e))) by (apply Z.pow_pos_nonneg; lia). nia. }
    apply Z.pow_lt_mono_r_iff in Hlt; lia. }
  destruct d as [|e|e|e|e|e|e|e|e|e|e]; [done|by destruct (Hz e)|..]; cbn [uint_text length];
    eapply H; exact Hof.
Qed.
Lemma uint_text_digits d : Forall (fun c => 48 <= c <= 57) (uint_text d).
Proof. induction d; cbn [uint_text]; [apply Forall_nil_2|apply Forall_cons_2; [lia|done]..]. Qed.
Lemma dec_printable n : printable (dec n).
Proof.
  assert (forall d, printable (uint_text d)) as H
    by (intros d; eapply Forall_impl; [apply uint_text_digits|]; cbn; lia).
  unfold dec. destruct (Z.to_int n); [apply H|]. apply Forall_cons_2; [lia|apply H].
Qed.

(** ** Encodings of a flat record *)
(** A bound on the text of a member, with its separators. *)
Definition member_weight (kv : str * pyval) : nat :=
  2 * length kv.1 + 4 + match kv.2 with PStr s => 2 * length s + 2 | _ => 20 end.
Definition weight (d : list (str * pyval)) : nat := sum_list_with member_weight d.

Lemma flat_dumps v e : flat_value v ->
  dumps e v = dumps false v /\ printable (dumps false v) /\
  (length (dumps false v) <= match v with PStr s => 2 * length s + 2 | _ => 20 end)%nat.
Proof.
  destruct v as [| |n| |s| |]; try done; intros H; cbn [dumps].
  - split; [done|]. split; [apply dec_printable|]. apply dec_length; [exact H|lia].
  - by apply quote_printable, H.
Qed.
Lemma flat_perm d d' : d ≡ₚ d' -> flat d -> flat d'.
Proof. unfold flat. by intros ->. Qed.
Lemma dumps_flat_eq e (d : list (str * pyval)) : flat d -> dumps e (PDict d) =
  u "{" ++ join (u ",") (map (fun kv => quote false kv.1 ++ u ":" ++ dumps false kv.2) (sort_keys d)) ++ u "}".
Proof.
  intros Hd. cbn [dumps].
  assert (map (fun kv => (kv.1, dumps e kv.2)) d = map (fun kv => (kv.1, dumps false kv.2)) d) as ->.
  { apply map_ext_in. intros kv Hin%list_elem_of_In. unfold flat in Hd. rewrite Forall_forall in Hd.
    destruct (Hd kv Hin) as [_ Hv]. by destruct (flat_dumps kv.2 e Hv) as [-> _]. }
  rewrite sort_keys_map, map_map. do 3 f_equal. apply map_ext_in. intros kv Hin%list_elem_of_In. cbn [fst snd].
  rewrite (sort_keys_perm d) in Hin. unfold flat in Hd. rewrite Forall_forall in Hd. destruct (Hd kv Hin) as [[Hk _] _].
  by destruct (quote_printable e kv.1 Hk) as [-> _].
Qed.
Lemma member_text kv : printable kv.1 -> flat_value kv.2 ->
  let t := quote false kv.1 ++ u ":" ++ dumps false kv.2 in
  printable t /\ (length t + 1 <= member_weight kv)%nat.
Proof.
  intros Hk Hv t. destruct (quote_printable false kv.1 Hk) as (_ & Hp & Hl).
  destruct (flat_dumps kv.2 false Hv) as (_ & Hp' & Hl'). subst t. unfold member_weight.
  rewrite !length_app. change (length (u ":")) with 1%nat. split; [|lia].
  apply printable_app. split; [done|]. apply printable_app. split; [|done].
  apply Forall_cons_2; [vm_compute; split; discriminate|apply Forall_nil_2].
Qed.
Lemma join_printable (l : list str) : Forall printable l -> printable (join (u ",") l).
Proof.
  induction 1 as [|x l Hx Hl IH]; [apply Forall_nil_2|]. destruct l as [|y l]; [done|].
  change (join (u ",") (x :: y :: l)) with (x ++ u "," ++ join (u ",") (y :: l)).
  apply printable_app. split; [done|]. apply printable_app. split; [|done].
  apply Forall_cons_2; [vm_compute; split; discriminate|apply Forall_nil_2].
Qed.
Lemma join_length (l : list str) : (length (join (u ",") l) <= sum_list_with (fun t => length t + 1) l)%nat.
Proof.
  induction l as [|x [|y l] IH]; [done|cbn; lia|].
  change (join (u ",") (x :: y :: l)) with (x ++ u "," ++ join (u ",") (y :: l)).
  rewrite !length_app. change (length (u ",")) with 1%nat.
  change (sum_list_with (fun t => length t + 1)%nat (x :: y :: l))
    with ((length x + 1) + sum_list_with (fun t => length t + 1) (y :: l))%nat. lia.
Qed.
Lemma weight_bound d : flat d -> (weight d <= 886 * length d)%nat.
Proof.
  induction 1 as [|[k v] d [[_ Hk] Hv] _ IH]; [done|]. unfold weight in *. cbn [sum_list_with member_weight fst snd length].
  cbn [fst] in Hk. destruct v; cbn [flat_value snd] in Hv; try done; unfold short in Hv; unfold member_weight at 1; cbn [fst snd]; lia.
Qed.
(** The text of a flat record: the same in both encodings, printable and short. *)
Lemma dumps_flat d : flat d ->
  dumps true (PDict d) = dumps false (PDict d) /\ printable (dumps false (PDict d)) /\
  (length (dumps false (PDict d)) <= weight d + 2)%nat.
Proof.
  intros Hd. rewrite !dumps_flat_eq by done. split; [done|].
  assert (flat (sort_keys d)) as Hs by (apply (flat_perm d); [symmetry; apply sort_keys_perm|done]).
  assert (weight d = weight (sort_keys d)) as -> by (unfold weight; by rewrite sort_keys_perm).
  generalize dependent (sort_keys d). clear d Hd. intros d Hd. split.
  - apply printable_app. split; [apply Forall_cons_2; [vm_compute; split; discriminate|apply Forall_nil_2]|].
    apply printable_app. split; [|apply Forall_cons_2; [vm_compute; split; discriminate|apply Forall_nil_2]].
    apply join_printable, Forall_map. eapply Forall_impl; [exact Hd|]. intros kv [[Hk _] Hv]. by apply member_text.
  - rewrite !length_app. change (length (u "{")) with 1%nat. change (length (u "}")) with 1%nat.
    etransitivity; [apply Nat.add_le_mono_l, Nat.add_le_mono_r, join_length|].
    assert (sum_list_with (fun t => length t + 1)
      (map (fun kv => quote false kv.1 ++ u ":" ++ dumps false kv.2) d) <= weight d)%nat; [|lia].
    induction Hd as [|kv d [[Hk _] Hv] _ IH]; [done|]. cbn [map sum_list_with weight].
    destruct (member_text kv Hk Hv) as [_ Hl]. unfold weight in IH. lia.
Qed.
Lemma flat_plain d : flat d -> NoDup d.*1 -> plain (PDict d).
Proof.
  intros Hd Hnd. apply plain_dict. split; [done|]. eapply Forall_impl; [exact Hd|]. intros [k v] [[Hk _] Hv]. cbn in *.
  assert (forall s, printable s -> Forall code_point s) as Hp.
  { intros s Hs. eapply Forall_impl; [exact Hs|]. unfold code_point. lia. }
  split; [by apply Hp|]. destruct v; try done. by apply Hp, Hv.
Qed.
Lemma flat_canon d : flat d -> canon_members d = d.
Proof.
  unfold canon_members. induction 1 as [|[k v] d [_ Hv] _ IH]; [done|]. cbn [map fst snd]. rewrite IH. by destruct v.
Qed.
(** A flat record is read back from its canonical line, in key order. *)
Lemma loads_flat float_text d : flat d -> NoDup d.*1 ->
  loads_bytes float_text (dumps true (PDict d) ++ [10]) = Some (PDict (sort_keys d)).
Proof.
  intros Hd Hnd. destruct (dumps_flat d Hd) as (-> & Hp & _).
  rewrite loads_bytes_dumps; [| |].
  - change (canon (PDict d)) with (PDict (sort_keys (canon_members d))). by rewrite flat_canon.
  - by apply flat_plain.
  - apply Forall_app. split; [|apply Forall_cons_2; [unfold ascii; lia|apply Forall_nil_2]].
    eapply Forall_impl; [exact Hp|]. unfold ascii. cbn. lia.
Qed.

(** ** Records do not depend on the order of their members *)
Lemma keys_of_sorted (d : list (str * pyval)) : NoDup d.*1 -> NoDup (sort_keys d).*1.
Proof. intros H. by rewrite (sort_keys_perm d). Qed.
Lemma dict_get_sorted k (d : list (str * pyval)) : NoDup d.*1 -> dict_get k (sort_keys d) = dict_get k d.
Proof. intros H. apply dict_get_perm; [by apply keys_of_sorted|apply sort_keys_perm]. Qed.
Lemma keys_are_sorted keys (d : list (str * pyval)) : NoDup d.*1 -> keys_are keys (sort_keys d) = keys_are keys d.
Proof.
  intros Hnd. unfold keys_are. f_equal.
  - induction keys as [|k keys IH]; [done|]. cbn [forallb]. rewrite IH. f_equal. unfold has_key.
    apply bool_decide_ext. by rewrite sort_keys_perm.
  - apply eq_true_iff_eq. rewrite !forallb_forall. setoid_rewrite <- list_elem_of_In. by setoid_rewrite sort_keys_perm.
Qed.
Lemma flat_pop key d : flat d -> flat (dict_pop key d).
Proof. unfold flat, dict_pop. rewrite !Forall_forall. intros H kv [_ Hin]%list_elem_of_filter. by apply H. Qed.
Lemma pop_keys key (d : list (str * pyval)) : NoDup d.*1 -> NoDup (dict_pop key d).*1.
Proof.
  induction d as [|[k v] d IH]; intros Hnd; [done|]. apply NoDup_cons in Hnd as [Hk Hnd].
  unfold dict_pop in *. rewrite filter_cons. case_decide; [|auto]. cbn. constructor; [|auto].
  intros Hin. apply Hk. apply list_elem_of_fmap in Hin as (y & -> & Hy). apply list_elem_of_filter in Hy as [_ Hy].
  by apply (list_elem_of_fmap_2 fst) in Hy.
Qed.
Lemma dumps_flat_perm d d' : d ≡ₚ d' -> flat d -> NoDup d.*1 -> dumps true (PDict d) = dumps true (PDict d').
Proof.
  intros Hp Hd Hnd. pose proof (flat_perm _ _ Hp Hd) as Hd'.
  destruct (dumps_flat d Hd) as [-> _]. destruct (dumps_flat d' Hd') as [-> _]. by apply dumps_perm.
Qed.
Lemma dumps_pop_sorted key d : flat d -> NoDup d.*1 ->
  dumps true (PDict (dict_pop key (sort_keys d))) = dumps true (PDict (dict_pop key d)).
Proof.
  intros Hd Hnd. symmetry. apply dumps_flat_perm; [|by apply flat_pop|by apply pop_keys].
  unfold dict_pop. by rewrite sort_keys_perm.
Qed.
(** A member appended to a record and popped again. *)
Lemma pop_appended key v (d : list (str * pyval)) : key ∉ d.*1 -> dict_pop key (d ++ [(key, v)]) = d.
Proof.
  intros H. unfold dict_pop. rewrite filter_app, filter_cons_False, filter_nil, app_nil_r by (cbn; tauto).
  induction d as [|[k w] d IH]; [done|]. cbn in H. apply not_elem_of_cons in H as [Hne H].
  rewrite filter_cons_True, IH by (done || cbn; congruence). done.
Qed.

(** ** Members after [d[key] = v] and [d.pop(key)] *)
Lemma get_set k k' v d : dict_get k (dict_set k' v d) = if bool_decide (k = k') then Some v else dict_get k d.
Proof.
  induction d as [|[k0 v0] d IH]; cbn; [done|]. destruct (decide (k' = k0)) as [->|Hne].
  - rewrite (bool_decide_true (k0 = k0)) by done. cbn. by destruct (bool_decide (k = k0)).
  - rewrite (bool_decide_false (k' = k0)) by done. cbn. rewrite IH.
    destruct (decide (k = k0)) as [->|]; [|by rewrite (bool_decide_false (k = k0))].
    rewrite (bool_decide_true (k0 = k0)) by done. by rewrite bool_decide_false by congruence.
Qed.
Lemma get_pop k k' (d : list (str * pyval)) :
  dict_get k (dict_pop k' d) = if bool_decide (k = k') then None else dict_get k d.
Proof.
  unfold dict_pop. induction d as [|[k0 v0] d IH]; [by destruct (bool_decide _)|]. rewrite filter_cons. cbn [fst].
  destruct (decide (k0 <> k')) as [Hne|E%dec_stable].
  - cbn [dict_get]. rewrite IH. destruct (decide (k = k0)) as [->|]; [|by rewrite (bool_decide_false (k = k0))].
    by rewrite (bool_decide_true (k0 = k0)), bool_decide_false.
  - subst. rewrite IH. cbn [dict_get]. destruct (decide (k = k')) as [->|]; [by rewrite !bool_decide_true|].
    by rewrite !bool_decide_false.
Qed.
Lemma get_some_key k d : is_Some (dict_get k d) <-> k ∈ d.*1.
Proof.
  induction d as [|[k' v] d IH]; cbn; [rewrite elem_of_nil; split; [by intros []|done]|].
  rewrite elem_of_cons, <- IH. case_bool_decide; [split; [by left|eauto]|]. tauto.
Qed.
Lemma keys_are_spec keys (d : list (str * pyval)) :
  keys_are keys d = true <-> (forall k, k ∈ keys -> is_Some (dict_get (u k) d)) /\ (forall k, k ∈ d.*1 -> one_of k keys = true).
Proof.
  unfold keys_are. rewrite andb_true_iff, !forallb_forall. setoid_rewrite <- list_elem_of_In.
  setoid_rewrite get_some_key. unfold has_key. setoid_rewrite bool_decide_eq_true. split; intros [H1 H2]; (split; [done|]).
  - intros k (kv & -> & Hkv)%list_elem_of_fmap. by apply H2.
  - intros kv Hkv. by apply H2, list_elem_of_fmap_2.
Qed.
Lemma keys_are_length keys (d : list (str * pyval)) : NoDup d.*1 -> keys_are keys d = true -> (length d <= length keys)%nat.
Proof.
  intros Hnd [_ H]%keys_are_spec. rewrite <- (length_fmap fst d), <- (length_map u keys).
  apply submseteq_length, NoDup_submseteq; [done|]. intros k Hk%H.
  unfold one_of in Hk. apply existsb_exists in Hk as (s & Hs & E). apply eqs_true in E as ->.
  apply list_elem_of_In. by apply in_map.
Qed.
Lemma flat_by_keys keys (d : list (str * pyval)) : NoDup d.*1 -> keys_are keys d = true ->
  (forall k, k ∈ keys -> short 40 (u k) /\ exists v, dict_get (u k) d = Some v /\ flat_value v) -> flat d.
Proof.
  intros Hnd [_ H]%keys_are_spec Hk. apply Forall_forall. intros [k v] Hin.
  assert (one_of k keys = true) as Ho by (apply H; by apply (list_elem_of_fmap_2 fst _ (k, v))).
  unfold one_of in Ho. apply existsb_exists in Ho as (s & Hs%list_elem_of_In & E). apply eqs_true in E as ->.
  destruct (Hk s Hs) as (Hsh & w & Hw & Hf). apply dict_get_elem in Hin; [|done].
  split; [done|]. cbn in *. congruence.
Qed.
(** A record whose keys are exactly the given ones. *)
Lemma keys_are_exact keys (d : list (str * pyval)) : d.*1 = map u keys -> keys_are keys d = true.
Proof.
  intros E. apply keys_are_spec. split.
  - intros k Hk. apply get_some_key. rewrite E. by apply list_elem_of_In, in_map, list_elem_of_In.
  - intros k Hk. rewrite E in Hk. apply list_elem_of_In, in_map_iff in Hk as (s & <- & Hs).
    unfold one_of. apply existsb_exists. exists s. split; [done|apply eqs_refl].
Qed.
