(* ===== verification/Lifecycle.v ===== *)
(** * Lifecycle credentials (src/apps/api/app/auth.py)

    The keyed digests and authenticated envelopes of account deletion.  AES-GCM
    belongs to a third-party library: [seal] and [unseal] take a key, a nonce, the
    text and the associated data. *)
From S2P Require Import Prelude Sha256 JsonText Base64.
Local Open Scope Z_scope.

(** The settings the deletion authorities read. *)
Record LifecycleSettings : Type := MkLifecycleSettings
  { lifecycle_hmac_key : option str; lifecycle_aead_key : option str;
    deletion_witness_hmac_key : option str;
    deletion_journal_path : option (list str); deletion_witness_path : option (list str) }.

Definition unavailable_value : exn :=
  AuthenticationUnavailable (u "account lifecycle provider value is invalid").
Definition invalid_ciphertext : exn :=
  AuthenticationUnavailable (u "account lifecycle provider ciphertext is invalid").

(** [lifecycle_hmac] *)
Definition lifecycle_hmac (settings : LifecycleSettings) (label value : str) : Res str :=
  match lifecycle_hmac_key settings with
  | None => Raise (AuthenticationUnavailable (u "account lifecycle HMAC is not configured"))
  | Some key =>
      let? key := encode key in
      let? message := encode (u "connect.md:lifecycle:" ++ label ++ u ":v1:" ++ value) in
      Ok (hex (hmac_sha256 key message))
  end.
(** [_lifecycle_aead]: the derived key. *)
Definition lifecycle_aead (settings : LifecycleSettings) : Res bytes :=
  match lifecycle_aead_key settings with
  | None => Raise (AuthenticationUnavailable (u "account lifecycle AEAD is not configured"))
  | Some key => let? key := encode key in Ok (sha256 (u "connect.md:lifecycle:aead:v1:" ++ key))
  end.
(** [_lifecycle_provider_context] *)
Definition lifecycle_provider_context (deletion_id field : str) : Res bytes :=
  encode (u "connect.md:lifecycle:provider-" ++ field ++ u ":v1:" ++ deletion_id).
(** [s.split(".", 1)] when it has two parts. *)
Fixpoint split_dot (s : str) : option (str * str) :=
  match s with
  | [] => None
  | c :: s => if c =? 46 then Some ([], s) else '(a, b) ← split_dot s; Some (c :: a, b)
  end.

Section aead.
Context (seal : bytes -> bytes -> bytes -> bytes -> bytes)
  (unseal : bytes -> bytes -> bytes -> bytes -> option bytes).
(** [_encrypt_lifecycle_provider_value] *)
Definition encrypt_provider_value (settings : LifecycleSettings) (nonce : bytes)
  (deletion_id field value : str) : Res str :=
  if negb ((1 <=? len value) && (len value <=? 255)) then Raise unavailable_value
  else
    let? key := lifecycle_aead settings in
    let? plaintext := encode value in
    let? context := lifecycle_provider_context deletion_id field in
    Ok (u "v1." ++ urlsafe_b64encode (nonce ++ seal key nonce plaintext context)).
(** The [try] of [_decrypt_lifecycle_provider_value]; [None] is one of the caught
    exceptions. *)
Definition decrypt_payload (ciphertext : str) : option bytes :=
  '(version, encoded) ← split_dot ciphertext;
  if negb (eqs version "v1") then None
  else
    let padded := encoded ++ replicate (Z.to_nat (- len encoded mod 4)) 61 in
    if existsb (fun c => 128 <=? c) padded then None
    else
      payload ← urlsafe_b64decode padded;
      if len payload <=? 28 then None else Some payload.
Definition decrypt_provider_value (settings : LifecycleSettings) (deletion_id field ciphertext : str) : Res str :=
  match decrypt_payload ciphertext with
  | None => Raise invalid_ciphertext
  | Some payload =>
      match lifecycle_aead settings with
      | Raise UnicodeEncodeError => Raise invalid_ciphertext
      | Raise e => Raise e
      | Ok key =>
          match lifecycle_provider_context deletion_id field with
          | Raise _ => Raise invalid_ciphertext
          | Ok context =>
              match unseal key (take 12 payload) (drop 12 payload) context with
              | None => Raise invalid_ciphertext
              | Some plaintext =>
                  match utf8_decode plaintext with
                  | None | Some [] => Raise invalid_ciphertext
                  | Some value => Ok value
                  end
              end
          end
      end
  end.
(** [encrypt_lifecycle_provider_subject], [decrypt_lifecycle_provider_subject] *)
Definition encrypt_subject (settings : LifecycleSettings) (nonce : bytes) (deletion_id subject : str) : Res str :=
  encrypt_provider_value settings nonce deletion_id (u "subject") subject.
Definition decrypt_subject (settings : LifecycleSettings) (deletion_id ciphertext : str) : Res str :=
  decrypt_provider_value settings deletion_id (u "subject") ciphertext.

(** AES-GCM opens the bytes it sealed, under the same key, nonce and data, and adds
    a tag of sixteen bytes. *)
Class Aead : Prop := {
  seal_bytes key nonce text data : Forall is_byte text -> Forall is_byte (seal key nonce text data);
  seal_length key nonce text data : length (seal key nonce text data) = (length text + 16)%nat;
  unseal_seal key nonce text data : Forall is_byte text ->
    unseal key nonce (seal key nonce text data) data = Some text
}.
Context {aead : Aead}.

Lemma encode_ok s b : text s -> encode s = Ok b -> utf8_encode s = Some b /\ utf8_decode b = Some s.
Proof.
  unfold encode. intros Hs. destruct (utf8_encode s) eqn:E; [|done]. intros [= ->].
  split; [done|]. by apply utf8_roundtrip in E.
Qed.
Lemma encode_length s b : encode s = Ok b -> (length s <= length b)%nat.
Proof.
  unfold encode, utf8_encode. destruct (existsb _ s); [done|]. intros [= <-].
  induction s as [|c s IH]; [done|]. cbn [flat_map]. rewrite length_app.
  assert (1 <= length (utf8_char c))%nat by (unfold utf8_char; repeat case_match; cbn; lia). cbn. lia.
Qed.
Lemma encode_bytes s b : text s -> encode s = Ok b -> Forall is_byte b.
Proof.
  unfold encode, utf8_encode. intros Hs. destruct (existsb _ s); [done|]. intros [= <-].
  induction Hs as [|c s Hc _ IH]; [constructor|]. cbn [flat_map]. apply Forall_app. split; [|done].
  unfold code_point in Hc. unfold utf8_char, is_byte.
  repeat case_match; bool_facts; repeat (apply Forall_cons_2; [zlia|]); apply Forall_nil_2.
Qed.
Lemma decrypt_payload_ok payload : Forall is_byte payload -> 28 < len payload ->
  decrypt_payload (u "v1." ++ urlsafe_b64encode payload) = Some payload.
Proof.
  intros Hb Hl. unfold decrypt_payload. change (split_dot (u "v1." ++ ?x)) with (Some (u "v1", x)).
  cbn [mbind option_bind]. rewrite eqs_refl. cbn [negb].
  rewrite urlsafe_padded, app_nil_r, urlsafe_ascii, urlsafe_roundtrip by done. cbn [mbind option_bind].
  by rewrite (proj2 (Z.leb_gt _ _)) by lia.
Qed.
(** A provider value is recovered from its envelope. *)
Lemma provider_roundtrip settings nonce deletion_id field value ciphertext :
  length nonce = 12%nat -> Forall is_byte nonce -> text value ->
  encrypt_provider_value settings nonce deletion_id field value = Ok ciphertext ->
  decrypt_provider_value settings deletion_id field ciphertext = Ok value.
Proof.
  intros Hn Hb Ht H. unfold encrypt_provider_value in H. inv_step.
  match goal with H : negb _ = false |- _ => apply negb_false_iff, andb_true_iff in H as [Hl _] end.
  apply Z.leb_le in Hl. apply res_bind_ok in H as (key & Hkey & H).
  apply res_bind_ok in H as (plaintext & Hp & H). apply res_bind_ok in H as (context & Hc & H).
  match type of H with Ok ?x = _ => assert (x = ciphertext) as <- by congruence end. clear H.
  unfold decrypt_provider_value. pose proof (encode_bytes _ _ Ht Hp) as Hpb. rewrite decrypt_payload_ok.
  - rewrite Hkey, Hc, <- Hn, take_app_length, drop_app_length, unseal_seal by done.
    destruct (encode_ok _ _ Ht Hp) as [_ ->]. by destruct value.
  - apply Forall_app. split; [done|by apply seal_bytes].
  - unfold len. rewrite length_app, seal_length, Hn. pose proof (encode_length _ _ Hp). unfold len in Hl. lia.
Qed.
End aead.
