(* ===== verification/Disk.v ===== *)
(** * A POSIX directory tree, one system call at a time

    Names map to files, directories and links; a file carries the number of its
    inode, its mode and its link count.  A computation has a budget of effects: a
    system call that finds it spent does nothing and stops the process, so that
    every budget is one place where a crash can happen.  Durability follows the
    order of the calls. *)
From S2P Require Import Prelude Sha256.
Local Open Scope Z_scope.

Inductive jnode : Type :=
| JFile (inode : Z) (payload : bytes) (mode nlink : Z)
| JDir (mode : Z)
| JLink (to_directory : option bool).  (* [None]: dangling *)
Abbreviation disk := (@gmap (list str) (@list_eq_dec str str_eq_dec) (@list_countable str str_eq_dec str_countable) jnode).
Record machine : Type := MkMachine { files : disk; power : nat }.

(** One system call. *)
Definition syscall (f : disk -> Res disk) : act machine unit := fun s =>
  match power s with
  | O => (Raise Halted, s)
  | S k => match f (files s) with
           | Ok d => (Ok tt, MkMachine d k)
           | Raise e => (Raise e, MkMachine (files s) k)
           end
  end.
(** What a computation reads of the tree. *)
Definition look {A : Type} (f : disk -> Res A) : act machine A := fun s => (f (files s), s).

Definition parent_ok (d : disk) (p : list str) : bool :=
  match d !! removelast p with Some (JDir _) => true | _ => false end.
(** An inode number not in use. *)
Definition inode_of (n : jnode) : Z := match n with JFile i _ _ _ => i | _ => 0 end.
Definition fresh_inode (d : disk) : Z := 1 + foldr Z.max 0 (map (fun kv => inode_of kv.2) (map_to_list d)).
(** One link less for every other name of the inode. *)
Definition drop_link (inode : Z) (n : jnode) : jnode :=
  match n with
  | JFile i payload mode nlink => if i =? inode then JFile i payload mode (nlink - 1) else n
  | n => n
  end.
Definition remove_name (p : list str) (d : disk) : disk :=
  match d !! p with
  | Some (JFile i _ _ _) => drop_link i <$> delete p d
  | _ => delete p d
  end.

(** [os.open(p, O_WRONLY | O_CREAT | O_EXCL, mode)] *)
Definition create_excl (p : list str) (mode : Z) : act machine unit := syscall (fun d =>
  match d !! p with
  | Some _ => Raise FileExistsError
  | None => if parent_ok d p then Ok (<[p := JFile (fresh_inode d) [] mode 1]> d) else Raise OSError
  end).
(** [handle.write(payload)] of a file just created, flushed and synced. *)
Definition write_file (p : list str) (payload : bytes) : act machine unit := syscall (fun d =>
  match d !! p with
  | Some (JFile i _ mode nlink) => Ok (<[p := JFile i payload mode nlink]> d)
  | _ => Raise OSError
  end).
(** [os.link(src, dst)] *)
Definition link (src dst : list str) : act machine unit := syscall (fun d =>
  match d !! src, d !! dst with
  | Some _, Some _ => Raise FileExistsError
  | Some (JFile i payload mode nlink), None =>
      if parent_ok d dst
      then Ok (<[dst := JFile i payload mode (nlink + 1)]> (<[src := JFile i payload mode (nlink + 1)]> d))
      else Raise OSError
  | _, _ => Raise OSError
  end).
(** [os.replace(src, dst)] *)
Definition replace (src dst : list str) : act machine unit := syscall (fun d =>
  match d !! src, d !! dst with
  | Some (JFile i payload mode nlink), Some (JDir _) => Raise OSError
  | Some (JFile i payload mode nlink), _ =>
      if parent_ok d dst
      then Ok (<[dst := JFile i payload mode nlink]> (delete src (remove_name dst d)))
      else Raise OSError
  | _, _ => Raise OSError
  end).
(** [try: p.unlink() except FileNotFoundError: pass] *)
Definition unlink_if_present (p : list str) : act machine unit := syscall (fun d =>
  match d !! p with
  | Some (JDir _) => Raise OSError
  | Some _ => Ok (remove_name p d)
  | None => Ok d
  end).
(** [p.mkdir(mode=mode, exist_ok=True)] *)
Definition mkdir (p : list str) (mode : Z) : act machine unit := syscall (fun d =>
  match d !! p with
  | Some (JDir _) | Some (JLink (Some true)) => Ok d
  | Some _ => Raise FileExistsError
  | None => if parent_ok d p then Ok (<[p := JDir mode]> d) else Raise OSError
  end).
(** [p.chmod(mode)]; the target of a link is outside the tree. *)
Definition chmod (p : list str) (mode : Z) : act machine unit := syscall (fun d =>
  match d !! p with
  | Some (JDir _) => Ok (<[p := JDir mode]> d)
  | Some (JFile i payload _ nlink) => Ok (<[p := JFile i payload mode nlink]> d)
  | Some (JLink (Some _)) => Ok d
  | Some (JLink None) | None => Raise OSError
  end).

(** [p.read_bytes()] of a path that is not a link. *)
Definition read_bytes (d : disk) (p : list str) : Res bytes :=
  match d !! p with Some (JFile _ payload _ _) => Ok payload | _ => Raise OSError end.
(** [p.exists()], [p.is_dir()], [p.is_symlink()] *)
Definition exists_path (d : disk) (p : list str) : bool :=
  match d !! p with None | Some (JLink None) => false | Some _ => true end.
Definition is_directory (d : disk) (p : list str) : bool :=
  match d !! p with Some (JDir _) | Some (JLink (Some true)) => true | _ => false end.
Definition is_link (d : disk) (p : list str) : bool := match d !! p with Some (JLink _) => true | _ => false end.
(** [S_IMODE(p.stat(follow_symlinks=False).st_mode)] *)
Definition mode_of (d : disk) (p : list str) : Res Z :=
  match d !! p with
  | Some (JFile _ _ mode _) | Some (JDir mode) => Ok mode
  | Some (JLink _) => Ok 511
  | None => Raise OSError
  end.
(** [sorted(p.iterdir(), key=lambda item: item.name)], by name. *)
Definition child_name (dir : list str) (p : list str) : option str :=
  match p with
  | [] => None
  | _ => if bool_decide (removelast p = dir) then last p else None
  end.
Definition sorted_children (d : disk) (dir : list str) : list str :=
  sorted_strs (omap (fun kv => child_name dir kv.1) (map_to_list d)).

(** ** What the calls leave *)
Lemma fresh_inode_lt d p n : d !! p = Some n -> inode_of n < fresh_inode d.
Proof.
  unfold fresh_inode. intros H%elem_of_map_to_list. induction (map_to_list d) as [|kv l IH]; [by apply elem_of_nil in H|].
  cbn [map foldr]. apply elem_of_cons in H as [<-|H]; [cbn; lia|]. specialize (IH H). lia.
Qed.
Lemma drop_link_other i n : (forall j pl m k, n = JFile j pl m k -> j <> i) -> drop_link i n = n.
Proof. destruct n as [j pl m k| |]; cbn; [|done..]. intros H. by rewrite (proj2 (Z.eqb_neq j i)) by eauto. Qed.
Lemma sorted_children_perm d dir : sorted_children d dir ≡ₚ omap (fun kv => child_name dir kv.1) (map_to_list d).
Proof. apply merge_sort_Permutation. Qed.
Lemma sorted_children_sorted d dir : StronglySorted str_le (sorted_children d dir).
Proof. apply Sorted_StronglySorted; [apply _|]. apply Sorted_merge_sort. apply _. Qed.
Lemma child_name_some dir p n : child_name dir p = Some n <-> p = dir ++ [n].
Proof.
  unfold child_name. destruct p as [|x p _] using rev_ind.
  - split; [done|]. by destruct dir.
  - rewrite removelast_last, last_snoc. destruct (p ++ [x]) eqn:E; [by destruct p|]. rewrite <- E. clear E.
    case_bool_decide as Hd; split.
    + intros [= ->]. by rewrite Hd.
    + intros [_ [= ->]]%app_inj_tail. done.
    + done.
    + by intros [? _]%app_inj_tail.
Qed.
Lemma elem_of_children d dir n : n ∈ sorted_children d dir <-> is_Some (d !! (dir ++ [n])).
Proof.
  rewrite sorted_children_perm, list_elem_of_omap. split.
  - intros ([p x] & Hin & Hn). cbn in Hn. apply child_name_some in Hn as ->. apply elem_of_map_to_list in Hin. eauto.
  - intros [x Hx]. exists (dir ++ [n], x). split; [by apply elem_of_map_to_list|]. by apply child_name_some.
Qed.
Lemma NoDup_children d dir : NoDup (sorted_children d dir).
Proof.
  rewrite sorted_children_perm. pose proof (NoDup_fst_map_to_list d) as H. revert H.
  generalize (map_to_list d) as l. induction l as [|[p x] l IH]; intros H; [constructor|].
  cbn in H. apply NoDup_cons in H as [Hp H]. cbn. destruct (child_name dir p) as [n|] eqn:En; [|auto].
  constructor; [|auto]. intros ([q y] & Hin & Hq)%list_elem_of_omap. cbn in Hq.
  apply child_name_some in En as ->. apply child_name_some in Hq as ->.
  apply Hp. by apply (list_elem_of_fmap_2 fst) in Hin.
Qed.
(** A directory's listing is the one sorted list of its children. *)
Lemma children_eq d dir l : NoDup l -> StronglySorted str_le l ->
  (forall n, n ∈ l <-> is_Some (d !! (dir ++ [n]))) -> sorted_children d dir = l.
Proof.
  intros Hnd Hs Hl. apply (StronglySorted_unique str_le); [apply sorted_children_sorted|done|].
  apply NoDup_Permutation; [apply NoDup_children|done|]. intros n. by rewrite elem_of_children, Hl.
Qed.

(** ** Every outcome, wherever the computation stops *)
Definition outcomes {A : Type} (m : act machine A) (d : disk) (Q : Res A -> disk -> Prop) : Prop :=
  forall k, Q (m (MkMachine d k)).1 (files (m (MkMachine d k)).2).
Section outcomes.
Context {A B : Type}.

Lemma outcomes_ret (a : A) (d : disk) (Q : Res A -> disk -> Prop) : Q (Ok a) d -> outcomes (ret a) d Q.
Proof. by intros H k. Qed.
Lemma outcomes_raise (e : exn) (d : disk) (Q : Res A -> disk -> Prop) : Q (Raise e) d -> outcomes (raise e) d Q.
Proof. by intros H k. Qed.
Lemma outcomes_lift (r : Res A) (d : disk) (Q : Res A -> disk -> Prop) : Q r d -> outcomes (lift r) d Q.
Proof. by intros H k. Qed.
Lemma outcomes_look (f : disk -> Res A) (d : disk) (Q : Res A -> disk -> Prop) : Q (f d) d -> outcomes (look f) d Q.
Proof. by intros H k. Qed.
Lemma outcomes_syscall (f : disk -> Res disk) (d : disk) (Q : Res unit -> disk -> Prop) :
  Q (Raise Halted) d -> match f d with Ok d' => Q (Ok tt) d' | Raise e => Q (Raise e) d end ->
  outcomes (syscall f) d Q.
Proof. intros Hh H [|k]; unfold syscall; cbn; [done|]. by destruct (f d). Qed.
Lemma outcomes_bind (m : act machine A) (g : A -> act machine B) (d : disk) (Q : Res B -> disk -> Prop) :
  outcomes m d (fun r d' => match r with Ok a => outcomes (g a) d' Q | Raise e => Q (Raise e) d' end) ->
  outcomes (act_bind m g) d Q.
Proof.
  intros H k. specialize (H k). unfold act_bind. destruct (m (MkMachine d k)) as [[a|e] [d' k']]; cbn in *;
    [apply H|done].
Qed.
Lemma outcomes_catch (m : act machine A) (h : exn -> act machine A) (d : disk) (Q : Res A -> disk -> Prop) :
  outcomes m d (fun r d' => match r with Ok a => Q (Ok a) d' | Raise e => outcomes (h e) d' Q end) ->
  outcomes (catch m h) d Q.
Proof.
  intros H k. specialize (H k). unfold catch. destruct (m (MkMachine d k)) as [[a|e] [d' k']]; cbn in *;
    [done|apply H].
Qed.
Lemma outcomes_finally (m : act machine A) (f : act machine unit) (d : disk) (Q : Res A -> disk -> Prop) :
  outcomes m d (fun r d' => outcomes f d' (fun r' d'' =>
    Q (match r' with Ok _ => r | Raise e => Raise e end) d'')) ->
  outcomes (finally m f) d Q.
Proof.
  intros H k. specialize (H k). unfold finally. destruct (m (MkMachine d k)) as [r [d' k']]; cbn in *.
  specialize (H k'). by destruct (f (MkMachine d' k')) as [[]].
Qed.
Lemma outcomes_mono (m : act machine A) (d : disk) (Q Q' : Res A -> disk -> Prop) :
  (forall r d', Q r d' -> Q' r d') -> outcomes m d Q -> outcomes m d Q'.
Proof. intros H Hm k. apply H, Hm. Qed.
End outcomes.

Lemma syscall_run (f : disk -> Res disk) (d d' : disk) (k : nat) :
  f d = Ok d' -> syscall f (MkMachine d (S k)) = (Ok tt, MkMachine d' k).
Proof. intros H. unfold syscall. cbn. by rewrite H. Qed.

(** ** A spent budget *)
(** Without power a computation leaves the tree alone. *)
Definition inert {A : Type} (m : act machine A) : Prop := forall d, (m (MkMachine d 0)).2 = MkMachine d 0.
Create HintDb inert discriminated.
Section inert.
Context {A B : Type}.

Lemma inert_ret (a : A) : inert (ret a).
Proof. done. Qed.
Lemma inert_raise (e : exn) : inert (raise (A:=A) e).
Proof. done. Qed.
Lemma inert_lift (r : Res A) : inert (lift r).
Proof. done. Qed.
Lemma inert_look (f : disk -> Res A) : inert (look f).
Proof. done. Qed.
Lemma inert_syscall (f : disk -> Res disk) : inert (syscall f).
Proof. done. Qed.
Lemma inert_bind (m : act machine A) (g : A -> act machine B) :
  inert m -> (forall a, inert (g a)) -> inert (act_bind m g).
Proof.
  intros Hm Hg d. specialize (Hm d). unfold act_bind. destruct (m (MkMachine d 0)) as [[a|e] s]; cbn in Hm; subst s.
  - apply Hg.
  - done.
Qed.
Lemma inert_catch (m : act machine A) (h : exn -> act machine A) :
  inert m -> (forall e, inert (h e)) -> inert (catch m h).
Proof.
  intros Hm Hh d. specialize (Hm d). unfold catch. destruct (m (MkMachine d 0)) as [[a|e] s]; cbn in Hm; subst s.
  - done.
  - apply Hh.
Qed.
Lemma inert_finally (m : act machine A) (f : act machine unit) : inert m -> inert f -> inert (finally m f).
Proof.
  intros Hm Hf d. specialize (Hm d). specialize (Hf d). unfold finally. destruct (m (MkMachine d 0)) as [r s].
  cbn in Hm. subst s. by destruct (f (MkMachine d 0)) as [[?|?] ?].
Qed.
End inert.
#[export] Hint Resolve inert_ret inert_raise inert_lift inert_look inert_syscall inert_bind inert_catch inert_finally : inert.
(** Inertness by the shape of the computation. *)
Ltac inert := repeat (intros; first [solve [auto 1 with inert] | progress case_match
  | apply inert_bind | apply inert_catch | apply inert_finally]).

(** ** Files written under a temporary name *)
(** A file with one link shares its inode with no other name. *)
Definition links_ok (d : disk) : Prop := forall (p q : list str) (i : Z) pl m pl' m' k,
  d !! p = Some (JFile i pl m 1) -> d !! q = Some (JFile i pl' m' k) -> p = q.
Lemma drop_links_id (i : Z) (d : disk) : (forall (p : list str) (j : Z) pl m k, d !! p = Some (JFile j pl m k) -> j <> i) ->
  drop_link i <$> d = d.
Proof.
  intros H. apply map_eq. intros p. rewrite lookup_fmap. destruct (d !! p) as [n|] eqn:E; [|done]. cbn.
  f_equal. apply drop_link_other. intros j pl m k ->. by eapply H.
Qed.
Lemma remove_single (d : disk) (p : list str) (i : Z) pl m : links_ok d -> d !! p = Some (JFile i pl m 1) -> remove_name p d = delete p d.
Proof.
  intros Hl Hp. unfold remove_name. rewrite Hp. apply drop_links_id. intros q j pl' m' k Hq ->.
  apply lookup_delete_Some in Hq as [Hne Hq]. apply Hne. by eapply Hl.
Qed.
Lemma fresh_not_used (d : disk) (p : list str) (j : Z) pl m k : d !! p = Some (JFile j pl m k) -> j <> fresh_inode d.
Proof. intros H%fresh_inode_lt. cbn in H. lia. Qed.
Lemma remove_created (d : disk) (tmp : list str) m pl : d !! tmp = None ->
  remove_name tmp (<[tmp := JFile (fresh_inode d) pl m 1]> d) = d.
Proof.
  intros Ht. unfold remove_name. rewrite lookup_insert_eq. rewrite delete_insert_id by done.
  apply drop_links_id. intros p j pl' m' k. apply fresh_not_used.
Qed.
Lemma remove_linked (d : disk) (tmp p : list str) m pl : d !! tmp = None -> tmp <> p ->
  remove_name tmp (<[p := JFile (fresh_inode d) pl m 2]> (<[tmp := JFile (fresh_inode d) pl m 2]> d))
  = <[p := JFile (fresh_inode d) pl m 1]> d.
Proof.
  intros Ht Hne. unfold remove_name. rewrite lookup_insert_ne, lookup_insert_eq by congruence.
  rewrite delete_insert_ne, delete_insert_id by congruence. rewrite fmap_insert. cbn [drop_link]. rewrite Z.eqb_refl.
  rewrite drop_links_id; [done|]. intros q j pl' m' k. apply fresh_not_used.
Qed.
