(* ===== verification/DeletionJournal.v ===== *)
(** * The deletion journal (src/apps/api/app/services/deletion_journal.py)

    HMAC-chained files outside every restorable database and storage generation,
    and an independent chain of witnesses of the journal's head.  POSIX branches
    only.  The two roots are resolved paths without links above them; [flock]
    serialises the holders of a lock, so an operation runs alone on the tree.
    [float_text] is what [json.dumps] prints of a JSON float. *)
From S2P Require Import Prelude PyTime Timestamps Json Sha256 JsonText JsonBytes Lifecycle Disk Models.
Import AccountLifecycle(AccountLifecycle) AccountAccessDeny(AccountAccessDeny).
Local Open Scope Z_scope.

Definition _FORMAT : str := u "connectmd-deletion-journal-v1".
Definition _WITNESS_FORMAT : str := u "connectmd-deletion-head-witness-v1".
Definition _ZERO_DIGEST : str := replicate 64 48.
Definition journal_error (message : str) : exn := DeletionJournalError message.

(** [_DIGEST.fullmatch(value)] *)
Definition is_digest (value : str) : bool := (length value =? 64)%nat && forallb is_hex_lower value.
(** [f"{sequence:020d}.json"] *)
Definition entry_file (sequence : Z) : str := fixed 20 sequence ++ u ".json".
(** [int(_ENTRY_NAME.fullmatch(name).group(1))] *)
Definition entry_sequence (name : str) : option Z :=
  if (length name =? 25)%nat && bool_decide (drop 20 name = u ".json")
  then fst <$> digits 20 0 name else None.

Record DeletionCommitment : Type := MkCommitment
  { sequence : Z; deletion_id : str; subject_hmac : str; subject_ciphertext : str;
    backup_generation_id : str; backup_generation_created_at : datetime;
    committed_at : datetime; policy_version : str }.

(** [_canonical] *)
Definition canonical (payload : list (str * pyval)) : bytes := dumps true (PDict payload).
(** [_utc_text] *)
Definition utc_text (value : datetime) : str := isoformat_us_z value.
(** [_parse_utc] *)
Definition parse_utc (value : option pyval) (field : string) : Res datetime :=
  match value with
  | Some (PStr value) =>
      if negb (ends_with (u "Z") value)
      then Raise (journal_error (u "deletion journal " ++ u field ++ u " is not canonical UTC"))
      else
        match fromisoformat (removelast value ++ u "+00:00") with
        | Raise _ => Raise (journal_error (u "deletion journal " ++ u field ++ u " is invalid"))
        | Ok parsed =>
            if negb (bool_decide (utc_text parsed = value))
            then Raise (journal_error (u "deletion journal " ++ u field ++ u " is not canonical UTC"))
            else Ok parsed
        end
  | _ => Raise (journal_error (u "deletion journal " ++ u field ++ u " is not canonical UTC"))
  end.
(** [_credential_fingerprint]; the key's bytes are kept with it. *)
Definition credential_fingerprint (value : option str) (name : string) : Res (bytes * str) :=
  match value with
  | None => Raise (journal_error (u name ++ u " is unavailable for deletion journal verification"))
  | Some value =>
      let? b := encode value in
      if len b <? 32
      then Raise (journal_error (u name ++ u " is unavailable for deletion journal verification"))
      else Ok (b, sha256_hex b)
  end.

Record DeletionCommitmentJournal : Type := MkJournal
  { root : list str; witness_root : list str; hmac_key : bytes; witness_hmac_key : bytes;
    hmac_fingerprint : str; aead_fingerprint : str; witness_hmac_fingerprint : str;
    settings : LifecycleSettings }.
Definition is_relative_to (path base : list str) : bool := bool_decide (take (length base) path = base).
(** [DeletionCommitmentJournal.__init__] *)
Definition deletion_commitment_journal (settings : LifecycleSettings) : Res DeletionCommitmentJournal :=
  match deletion_journal_path settings, deletion_witness_path settings with
  | None, _ => Raise (journal_error (u "deletion journal path is not configured"))
  | _, None => Raise (journal_error (u "deletion witness path is not configured"))
  | Some root, Some witness =>
      if bool_decide (root = witness) || is_relative_to root witness || is_relative_to witness root
      then Raise (journal_error (u "deletion witness authority is not independent from the journal"))
      else
        let? h := credential_fingerprint (lifecycle_hmac_key settings) "lifecycle HMAC key" in
        let? a := credential_fingerprint (lifecycle_aead_key settings) "lifecycle AEAD key" in
        let? w := credential_fingerprint (deletion_witness_hmac_key settings) "deletion witness HMAC key" in
        Ok (MkJournal root witness h.1 w.1 h.2 a.2 w.2 settings)
  end.
Definition entries_root (j : DeletionCommitmentJournal) : list str := root j ++ [u "entries"].
Definition state_path (j : DeletionCommitmentJournal) : list str := root j ++ [u "state.json"].
Definition lock_path (j : DeletionCommitmentJournal) : list str := root j ++ [u ".lock"].
Definition witness_entries_root (j : DeletionCommitmentJournal) : list str := witness_root j ++ [u "entries"].
Definition witness_lock_path (j : DeletionCommitmentJournal) : list str := witness_root j ++ [u ".lock"].

(** [_mac], [_witness_mac] *)
Definition mac (j : DeletionCommitmentJournal) (label : string) (payload : list (str * pyval)) : str :=
  hex (hmac_sha256 (hmac_key j) (u "connect.md:deletion-journal:v1:" ++ u label ++ u ":" ++ canonical payload)).
Definition witness_mac (j : DeletionCommitmentJournal) (payload : list (str * pyval)) : str :=
  hex (hmac_sha256 (witness_hmac_key j) (u "connect.md:deletion-head-witness:v1:" ++ canonical payload)).

(** ** Locks *)
(** [_authority_locked]: the checks before a lock is held. *)
Definition lock_mode_ok (n : jnode) (label : string) : Res unit :=
  match n with
  | JFile _ _ mode nlink =>
      if negb (mode =? 384) || negb (nlink =? 1)
      then Raise (journal_error (u label ++ u " lock permissions are unsafe")) else Ok tt
  | _ => Raise (journal_error (u label ++ u " lock permissions are unsafe"))
  end.
Definition authority_ok (d : disk) (root lock : list str) (label : string) : Res unit :=
  match d !! root with
  | Some (JDir _) =>
      if is_link d lock then Raise (journal_error (u label ++ u " lock path is unsafe")) else Ok tt
  | _ => Raise (journal_error (u label ++ u " is missing or unsafe"))
  end.
Definition shared_lock (d : disk) (root lock : list str) (label : string) : Res unit :=
  let? _ := authority_ok d root lock label in
  match d !! lock with
  | None => Raise (journal_error (u label ++ u " lock path is unsafe"))
  | Some n => lock_mode_ok n label
  end.
(** Exclusive: the lock file is opened for writing, and created when missing. *)
Definition exclusive_lock (root lock : list str) (label : string) : act machine unit :=
  look (fun d => authority_ok d root lock label) ;;;
  let! n := look (fun d => Ok (d !! lock)) in
  match n with
  | Some (JDir _) => raise (journal_error (u label ++ u " lock path is unsafe"))
  | Some n => lift (lock_mode_ok n label)
  | None =>
      catch (create_excl lock 384)
        (fun e => match e with
                  | OSError | FileExistsError => raise (journal_error (u label ++ u " lock path is unsafe"))
                  | e => raise e
                  end) ;;;
      look (fun d => match d !! lock with Some n => lock_mode_ok n label | None => Raise OSError end)
  end.
Definition exclusively {A : Type} (j : DeletionCommitmentJournal) (body : act machine A) : act machine A :=
  exclusive_lock (root j) (lock_path j) "deletion journal" ;;;
  exclusive_lock (witness_root j) (witness_lock_path j) "deletion witness authority" ;;;
  body.
Definition with_shared_locks {A : Type} (j : DeletionCommitmentJournal) (d : disk) (body : Res A) : Res A :=
  let? _ := shared_lock d (root j) (lock_path j) "deletion journal" in
  let? _ := shared_lock d (witness_root j) (witness_lock_path j) "deletion witness authority" in
  body.
(** [except DeletionJournalError: raise; except OSError: ...] *)
Definition os_error (e : exn) : exn :=
  match e with
  | OSError | FileExistsError => journal_error (u "deletion journal filesystem operation failed")
  | e => e
  end.

(** ** Verification *)
Definition unsafe_entries : exn := journal_error (u "deletion journal entries path is missing or unsafe").
(** A real directory (not a link). *)
Definition real_directory (d : disk) (p : list str) : bool :=
  is_directory d p && negb (is_link d p).
Definition base_name (p : list str) : str := default [] (last p).
Definition state_keys : list string :=
  ["format"; "created_at"; "hmac_key_sha256"; "aead_key_sha256"; "witness_hmac_key_sha256";
   "head_sequence"; "head_digest"; "state_mac"].
Definition entry_keys : list string :=
  ["format"; "sequence"; "deletion_id"; "subject_hmac"; "subject_ciphertext"; "backup_generation_id";
   "backup_generation_created_at"; "committed_at"; "policy_version"; "prior_digest"; "entry_mac"].
Definition witness_keys : list string :=
  ["format"; "sequence"; "journal_head_digest"; "prior_witness_digest"; "observed_at";
   "journal_hmac_key_sha256"; "journal_aead_key_sha256"; "witness_hmac_key_sha256"; "witness_mac"].
(** [d.pop(key)], a MAC over the rest, [d[key] = supplied]: whether they agree. *)
Definition mac_agrees (supplied : option pyval) (valid : str) : Res bool :=
  match supplied with Some (PStr supplied) => compare_digest supplied valid | _ => Ok false end.
(** [state["head_sequence"]], [state["head_digest"]] of a checked state. *)
Definition head_sequence (state : list (str * pyval)) : Z :=
  match dict_get (u "head_sequence") state with Some (PInt n) => n | _ => 0 end.
Definition head_digest (state : list (str * pyval)) : str :=
  match dict_get (u "head_digest") state with Some (PStr s) => s | _ => [] end.

Section journal.
Context (float_text : str -> str).
Context (seal : bytes -> bytes -> bytes -> bytes -> bytes)
  (unseal : bytes -> bytes -> bytes -> bytes -> option bytes).

(** [_read_json] *)
Definition read_json (d : disk) (path : list str) : Res (list (str * pyval)) :=
  match d !! path with
  | Some (JFile _ raw mode nlink) =>
      if negb (mode =? 384) || negb (nlink =? 1)
      then Raise (journal_error (u "deletion journal permissions are unsafe: " ++ base_name path))
      else
        match (if negb (ends_with [10] raw) || (16 * 1024 <? len raw) then None
               else loads_bytes float_text raw) with
        | Some (PDict payload) => Ok payload
        | _ => Raise (journal_error (u "deletion journal record is invalid: " ++ base_name path))
        end
  | _ => Raise (journal_error (u "deletion journal path is missing or unsafe: " ++ base_name path))
  end.

(** The checks on [state.json] in [_verify_locked]. *)
Definition verify_state (j : DeletionCommitmentJournal) (state : list (str * pyval)) : Res unit :=
  if negb (keys_are state_keys state) || negb (is_str (dict_get (u "format") state) _FORMAT)
  then Raise (journal_error (u "deletion journal state schema is invalid"))
  else
    let? _ := parse_utc (dict_get (u "created_at") state) "creation time" in
    if negb (is_str (dict_get (u "hmac_key_sha256") state) (hmac_fingerprint j))
    then Raise (journal_error (u "lifecycle HMAC key does not match pinned journal state"))
    else if negb (is_str (dict_get (u "aead_key_sha256") state) (aead_fingerprint j))
    then Raise (journal_error (u "lifecycle AEAD key does not match pinned journal state"))
    else if negb (is_str (dict_get (u "witness_hmac_key_sha256") state) (witness_hmac_fingerprint j))
    then Raise (journal_error (u "deletion witness HMAC key does not match pinned journal state"))
    else
      let? same := mac_agrees (dict_get (u "state_mac") state)
                     (mac j "state" (dict_pop (u "state_mac") state)) in
      if negb same then Raise (journal_error (u "deletion journal state authentication failed"))
      else
        match dict_get (u "head_sequence") state, dict_get (u "head_digest") state with
        | Some (PInt n), Some (PStr digest) =>
            if (n <? 0) || negb (is_digest digest)
            then Raise (journal_error (u "deletion journal head is invalid")) else Ok tt
        | _, _ => Raise (journal_error (u "deletion journal head is invalid"))
        end.

(** The checks on the values of an entry, and the commitment it makes. *)
Definition entry_values (j : DeletionCommitmentJournal) (sequence : Z) (entry : list (str * pyval))
  (seen_deletions : list str) : Res DeletionCommitment :=
  match dict_get (u "deletion_id") entry, dict_get (u "subject_hmac") entry,
        dict_get (u "subject_ciphertext") entry, dict_get (u "backup_generation_id") entry,
        dict_get (u "policy_version") entry with
  | Some (PStr deletion_id), Some (PStr subject_hmac), Some (PStr subject_ciphertext),
    Some (PStr generation_id), Some (PStr policy_version) =>
      if bool_decide (deletion_id = []) || bool_decide (deletion_id ∈ seen_deletions)
         || negb (is_digest subject_hmac) || negb (starts_with (u "v1.") subject_ciphertext)
         || bool_decide (generation_id = []) || bool_decide (policy_version = [])
      then Raise (journal_error (u "deletion journal entry values are invalid"))
      else
        let? generation_created_at := parse_utc (dict_get (u "backup_generation_created_at") entry)
                                        "backup generation creation time" in
        let? committed_at := parse_utc (dict_get (u "committed_at") entry) "commitment time" in
        match decrypt_subject unseal (settings j) deletion_id subject_ciphertext with
        | Raise _ => Raise (journal_error (u "deletion journal subject ciphertext is invalid"))
        | Ok subject =>
            let? valid := lifecycle_hmac (settings j) (u "subject") subject in
            let? same := compare_digest subject_hmac valid in
            if negb same
            then Raise (journal_error (u "deletion journal subject ciphertext does not match its keyed digest"))
            else Ok (MkCommitment sequence deletion_id subject_hmac subject_ciphertext generation_id
                       generation_created_at committed_at policy_version)
        end
  | _, _, _, _, _ => Raise (journal_error (u "deletion journal entry values are invalid"))
  end.
(** One entry: the commitment and the digest of its canonical line. *)
Definition verify_entry (j : DeletionCommitmentJournal) (d : disk) (sequence : Z) (name : str)
  (prior_digest : str) (seen_deletions : list str) : Res (DeletionCommitment * str) :=
  if negb (bool_decide (entry_sequence name = Some sequence))
  then Raise (journal_error (u "deletion journal sequence is not contiguous"))
  else
    let? entry := read_json d (entries_root j ++ [name]) in
    if negb (keys_are entry_keys entry) || negb (is_str (dict_get (u "format") entry) _FORMAT)
    then Raise (journal_error (u "deletion journal entry schema is invalid"))
    else
      let? same := mac_agrees (dict_get (u "entry_mac") entry)
                     (mac j "entry" (dict_pop (u "entry_mac") entry)) in
      if negb same then Raise (journal_error (u "deletion journal entry authentication failed"))
      else if negb (equals_int (dict_get (u "sequence") entry) sequence)
              || negb (is_str (dict_get (u "prior_digest") entry) prior_digest)
      then Raise (journal_error (u "deletion journal chain is invalid"))
      else
        let? commitment := entry_values j sequence entry seen_deletions in
        Ok (commitment, sha256_hex (canonical entry ++ [10])).
(** The loop over the entries; [sequence] is the number of the first. *)
Fixpoint verify_entries (j : DeletionCommitmentJournal) (d : disk) (sequence : Z) (names : list str)
  (prior_digest : str) (seen_deletions : list str) : Res (list DeletionCommitment * str) :=
  match names with
  | [] => Ok ([], prior_digest)
  | name :: names =>
      let? (commitment, digest) := verify_entry j d sequence name prior_digest seen_deletions in
      let? (commitments, last_digest) :=
        verify_entries j d (sequence + 1) names digest (deletion_id commitment :: seen_deletions) in
      Ok (commitment :: commitments, last_digest)
  end.

(** [_witness_payload] *)
Definition witness_body (j : DeletionCommitmentJournal) (sequence : Z)
  (journal_head_digest prior_witness_digest : str) (observed_at : datetime) : list (str * pyval) :=
  [(u "format", PStr _WITNESS_FORMAT); (u "sequence", PInt sequence);
   (u "journal_head_digest", PStr journal_head_digest);
   (u "prior_witness_digest", PStr prior_witness_digest);
   (u "observed_at", PStr (utc_text observed_at));
   (u "journal_hmac_key_sha256", PStr (hmac_fingerprint j));
   (u "journal_aead_key_sha256", PStr (aead_fingerprint j));
   (u "witness_hmac_key_sha256", PStr (witness_hmac_fingerprint j))].
Definition witness_payload (j : DeletionCommitmentJournal) (sequence : Z)
  (journal_head_digest prior_witness_digest : str) (observed_at : datetime) : list (str * pyval) :=
  let payload := witness_body j sequence journal_head_digest prior_witness_digest observed_at in
  payload ++ [(u "witness_mac", PStr (witness_mac j payload))].

(** One iteration over the witnesses: the digest of the witness's canonical line. *)
Definition verify_witness (j : DeletionCommitmentJournal) (d : disk) (state : list (str * pyval))
  (commitments : list DeletionCommitment) (sequence : Z) (name : str) (prior_witness_digest : str) : Res str :=
  if negb (bool_decide (entry_sequence name = Some sequence))
  then Raise (journal_error (u "deletion witness sequence is not contiguous"))
  else
    let? witness := read_json d (witness_entries_root j ++ [name]) in
    if negb (keys_are witness_keys witness) || negb (is_str (dict_get (u "format") witness) _WITNESS_FORMAT)
    then Raise (journal_error (u "deletion witness schema is invalid"))
    else
      let? same := mac_agrees (dict_get (u "witness_mac") witness)
                     (witness_mac j (dict_pop (u "witness_mac") witness)) in
      if negb same then Raise (journal_error (u "deletion witness authentication failed"))
      else
        let? expected_journal_digest :=
          if sequence =? 0 then Ok _ZERO_DIGEST
          else let? b := read_bytes d (entries_root j ++ [entry_file sequence]) in Ok (sha256_hex b) in
        let? expected_observed_at :=
          if sequence =? 0 then parse_utc (dict_get (u "created_at") state) "creation time"
          else match commitments !! Z.to_nat (sequence - 1) with
               | Some commitment => Ok (committed_at commitment)
               | None => Raise IndexError
               end in
        if negb (equals_int (dict_get (u "sequence") witness) sequence)
           || negb (is_str (dict_get (u "journal_head_digest") witness) expected_journal_digest)
           || negb (is_str (dict_get (u "prior_witness_digest") witness) prior_witness_digest)
           || negb (is_str (dict_get (u "journal_hmac_key_sha256") witness) (hmac_fingerprint j))
           || negb (is_str (dict_get (u "journal_aead_key_sha256") witness) (aead_fingerprint j))
           || negb (is_str (dict_get (u "witness_hmac_key_sha256") witness) (witness_hmac_fingerprint j))
        then Raise (journal_error (u "deletion witness does not match journal history"))
        else
          let? observed_at := parse_utc (dict_get (u "observed_at") witness) "witness observation time" in
          if negb (dt_eqb observed_at expected_observed_at)
          then Raise (journal_error (u "deletion witness does not match journal history"))
          else Ok (sha256_hex (canonical witness ++ [10])).
Fixpoint verify_witnesses (j : DeletionCommitmentJournal) (d : disk) (state : list (str * pyval))
  (commitments : list DeletionCommitment) (sequence : Z) (names : list str) (prior_witness_digest : str) : Res unit :=
  match names with
  | [] => Ok tt
  | name :: names =>
      let? digest := verify_witness j d state commitments sequence name prior_witness_digest in
      verify_witnesses j d state commitments (sequence + 1) names digest
  end.
(** [_verify_witness_locked] *)
Definition verify_witness_locked (j : DeletionCommitmentJournal) (d : disk) (state : list (str * pyval))
  (commitments : list DeletionCommitment) : Res unit :=
  if negb (real_directory d (witness_entries_root j))
  then Raise (journal_error (u "deletion witness entries path is missing or unsafe"))
  else
    let? root_mode := mode_of d (witness_root j) in
    if negb (root_mode =? 448) then Raise (journal_error (u "deletion witness root permissions are unsafe"))
    else
      let? entries_mode := mode_of d (witness_entries_root j) in
      if negb (entries_mode =? 448)
      then Raise (journal_error (u "deletion witness entries permissions are unsafe"))
      else
        let paths := sorted_children d (witness_entries_root j) in
        if negb (len paths =? head_sequence state + 1)
        then Raise (journal_error (u "deletion witness and journal head sequences do not match"))
        else
          let? _ := verify_witnesses j d state commitments 0 paths _ZERO_DIGEST in
          if negb (bool_decide (last paths = Some (entry_file (head_sequence state))))
          then Raise (journal_error (u "deletion witness head is invalid"))
          else
            let? final_witness := read_json d (witness_entries_root j ++ [default [] (last paths)]) in
            if negb (is_str (dict_get (u "journal_head_digest") final_witness) (head_digest state))
            then Raise (journal_error (u "deletion witness and journal head digests do not match"))
            else Ok tt.

(** [_verify_locked] *)
Definition verify_locked (j : DeletionCommitmentJournal) (d : disk) :
  Res (list (str * pyval) * list DeletionCommitment) :=
  if negb (real_directory d (entries_root j)) then Raise unsafe_entries
  else
    let? root_mode := mode_of d (root j) in
    if negb (root_mode =? 448) then Raise (journal_error (u "deletion journal root permissions are unsafe"))
    else
      let? entries_mode := mode_of d (entries_root j) in
      if negb (entries_mode =? 448)
      then Raise (journal_error (u "deletion journal entries permissions are unsafe"))
      else
        let? state := read_json d (state_path j) in
        let? _ := verify_state j state in
        let paths := sorted_children d (entries_root j) in
        if negb (len paths =? head_sequence state)
        then Raise (journal_error (u "deletion journal entry count does not match its head"))
        else
          let? (commitments, last_digest) := verify_entries j d 1 paths _ZERO_DIGEST [] in
          if negb (bool_decide (last_digest = head_digest state))
          then Raise (journal_error (u "deletion journal head digest is invalid"))
          else
            let? _ := verify_witness_locked j d state commitments in
            Ok (state, commitments).
(** [verify] *)
Definition verify (j : DeletionCommitmentJournal) (d : disk) : Res (list DeletionCommitment) :=
  map_exn os_error (with_shared_locks j d (let? r := verify_locked j d in Ok r.2)).
(** [checkpoint] *)
Definition checkpoint (j : DeletionCommitmentJournal) (d : disk) : Res (Z * str) :=
  map_exn os_error (with_shared_locks j d
    (let? r := verify_locked j d in Ok (head_sequence r.1, head_digest r.1))).
(** [assert_checkpoint] *)
Definition assert_checkpoint (j : DeletionCommitmentJournal) (d : disk) (head_sequence : Z) (head_digest : str) :
  Res unit :=
  let? (current_sequence, current_digest) := checkpoint j d in
  if negb (head_sequence =? current_sequence)
  then Raise (journal_error (u "backup generation does not cover the current deletion journal head"))
  else
    let? same := compare_digest head_digest current_digest in
    if negb same
    then Raise (journal_error (u "backup generation does not cover the current deletion journal head"))
    else Ok tt.

(** ** Writing *)
(** [_write_new]; [pid] is [os.getpid()]. *)
Definition temporary (pid : Z) (path : list str) : list str :=
  removelast path ++ [u "." ++ base_name path ++ u "." ++ dec pid ++ u ".tmp"].
Definition write_new (pid : Z) (path : list str) (payload : bytes) : act machine unit :=
  let tmp := temporary pid path in
  finally
    (catch (create_excl tmp 384 ;;; write_file tmp payload ;;; link tmp path)
       (fun e => match e with
                 | FileExistsError =>
                     raise (journal_error (u "refusing to overwrite deletion journal path: " ++ base_name path))
                 | e => raise e
                 end))
    (unlink_if_present tmp).
(** [_replace_state] *)
Definition replace_state (pid : Z) (j : DeletionCommitmentJournal) (payload : bytes) : act machine unit :=
  let tmp := root j ++ [u ".state." ++ dec pid ++ u ".tmp"] in
  create_excl tmp 384 ;;;
  finally (write_file tmp payload ;;; replace tmp (state_path j)) (unlink_if_present tmp).

(** The arguments of [append]. *)
Record Deletion : Type := MkDeletion
  { new_deletion_id : str; new_subject : str; new_subject_hmac : str; new_generation_id : str;
    new_generation_created_at : datetime; new_committed_at : datetime; new_policy_version : str }.
(** Whether a recorded commitment is the one asked for again. *)
Definition replay_matches (j : DeletionCommitmentJournal) (a : Deletion) (existing : DeletionCommitment) : Res bool :=
  if negb (bool_decide (subject_hmac existing = new_subject_hmac a)) then Ok false
  else
    let? subject := decrypt_subject unseal (settings j) (deletion_id existing) (subject_ciphertext existing) in
    let? same := compare_digest subject (new_subject a) in
    Ok (same && bool_decide (backup_generation_id existing = new_generation_id a)
        && dt_eqb (backup_generation_created_at existing) (new_generation_created_at a)
        && bool_decide (policy_version existing = new_policy_version a)).
(** The entry without and with its MAC. *)
Definition entry_body (a : Deletion) (sequence : Z) (ciphertext prior_digest : str) : list (str * pyval) :=
  [(u "format", PStr _FORMAT); (u "sequence", PInt sequence); (u "deletion_id", PStr (new_deletion_id a));
   (u "subject_hmac", PStr (new_subject_hmac a)); (u "subject_ciphertext", PStr ciphertext);
   (u "backup_generation_id", PStr (new_generation_id a));
   (u "backup_generation_created_at", PStr (utc_text (new_generation_created_at a)));
   (u "committed_at", PStr (utc_text (new_committed_at a)));
   (u "policy_version", PStr (new_policy_version a)); (u "prior_digest", PStr prior_digest)].
Definition new_entry (j : DeletionCommitmentJournal) (a : Deletion) (sequence : Z) (ciphertext prior_digest : str) :
  list (str * pyval) :=
  let body := entry_body a sequence ciphertext prior_digest in
  body ++ [(u "entry_mac", PStr (mac j "entry" body))].
(** The state after an entry. *)
Definition new_state (j : DeletionCommitmentJournal) (state : list (str * pyval)) (sequence : Z) (digest : str) :
  list (str * pyval) :=
  let body := dict_set (u "head_digest") (PStr digest)
                (dict_set (u "head_sequence") (PInt sequence) (dict_pop (u "state_mac") state)) in
  dict_set (u "state_mac") (PStr (mac j "state" body)) body.
Definition line (payload : list (str * pyval)) : bytes := canonical payload ++ [10].
(** The three writes of a new commitment, and the verification after them. *)
Definition append_entry (pid : Z) (nonce : bytes) (j : DeletionCommitmentJournal) (a : Deletion)
  (state : list (str * pyval)) : act machine DeletionCommitment :=
  let sequence := head_sequence state + 1 in
  let! ciphertext := lift (encrypt_subject seal (settings j) nonce (new_deletion_id a) (new_subject a)) in
  let encoded_entry := line (new_entry j a sequence ciphertext (head_digest state)) in
  write_new pid (entries_root j ++ [entry_file sequence]) encoded_entry ;;;
  let digest := sha256_hex encoded_entry in
  replace_state pid j (line (new_state j state sequence digest)) ;;;
  let! prior_witness := look (fun d => read_bytes d (witness_entries_root j ++ [entry_file (sequence - 1)])) in
  let witness := witness_payload j sequence digest (sha256_hex prior_witness) (new_committed_at a) in
  write_new pid (witness_entries_root j ++ [entry_file sequence]) (line witness) ;;;
  let! verified := look (verify_locked j) in
  match last verified.2 with Some commitment => ret commitment | None => raise IndexError end.
(** [append] *)
Definition append (pid : Z) (nonce : bytes) (j : DeletionCommitmentJournal) (a : Deletion) :
  act machine DeletionCommitment :=
  let! expected := lift (lifecycle_hmac (settings j) (u "subject") (new_subject a)) in
  let! same := lift (compare_digest (new_subject_hmac a) expected) in
  if negb same then raise (journal_error (u "deletion commitment subject digest does not match"))
  else
    catch
      (exclusively j (
         let! (state, commitments) := look (verify_locked j) in
         match find (fun c => bool_decide (deletion_id c = new_deletion_id a)) commitments with
         | Some existing =>
             let! matches := lift (replay_matches j a existing) in
             if negb matches then raise (journal_error (u "deletion commitment replay does not match"))
             else ret existing
         | None => append_entry pid nonce j a state
         end))
      (fun e => raise (os_error e)).

(** [initialize]: [now] is the clock, [created_at] the argument. *)
Definition fresh_state (j : DeletionCommitmentJournal) (created : datetime) : list (str * pyval) :=
  let body := [(u "format", PStr _FORMAT); (u "created_at", PStr (utc_text created));
               (u "hmac_key_sha256", PStr (hmac_fingerprint j)); (u "aead_key_sha256", PStr (aead_fingerprint j));
               (u "witness_hmac_key_sha256", PStr (witness_hmac_fingerprint j));
               (u "head_sequence", PInt 0); (u "head_digest", PStr _ZERO_DIGEST)] in
  body ++ [(u "state_mac", PStr (mac j "state" body))].
(** [root.mkdir(parents=True, ...)]: missing ancestors get the default mode. *)
Fixpoint mkdir_parents (base : list str) (parts : list str) : act machine unit :=
  match parts with
  | [] => ret tt
  | part :: parts =>
      let! missing := look (fun d => Ok (negb (exists_path d (base ++ [part])))) in
      (if missing : bool then mkdir (base ++ [part]) 493 else ret tt) ;;;
      mkdir_parents (base ++ [part]) parts
  end.
Definition make_root (root : list str) (message : string) : act machine unit :=
  let! unsafe := look (fun d => Ok (exists_path d root && negb (real_directory d root))) in
  if unsafe : bool then raise (journal_error (u message))
  else mkdir_parents [] (removelast root) ;;; mkdir root 448.
Definition initialize_locked (pid : Z) (j : DeletionCommitmentJournal) (created_at : option datetime)
  (now : datetime) : act machine unit :=
  let! present := look (fun d => Ok (exists_path d (state_path j))) in
  if present : bool then look (fun d => let? _ := verify_locked j d in Ok tt)
  else
    let! witness_paths := look (fun d => Ok (sorted_children d (witness_entries_root j))) in
    let! created :=
      match witness_paths with
      | [] => ret (default now created_at)
      | _ =>
          if negb (bool_decide (witness_paths = [entry_file 0]))
          then raise (journal_error (u "deletion witness is partially initialized"))
          else look (fun d =>
                 let? witness_zero := read_json d (witness_entries_root j ++ [entry_file 0]) in
                 parse_utc (dict_get (u "observed_at") witness_zero) "witness observation time")
      end in
    let state := fresh_state j created in
    (if bool_decide (witness_paths = [])
     then write_new pid (witness_entries_root j ++ [entry_file 0])
            (line (witness_payload j 0 _ZERO_DIGEST _ZERO_DIGEST created))
     else ret tt) ;;;
    look (fun d => verify_witness_locked j d state []) ;;;
    write_new pid (state_path j) (line state) ;;;
    look (fun d => let? _ := verify_locked j d in Ok tt).
Definition initialize (pid : Z) (j : DeletionCommitmentJournal) (created_at : option datetime) (now : datetime) :
  act machine unit :=
  catch
    (make_root (root j) "deletion journal root is unsafe" ;;;
     mkdir (entries_root j) 448 ;;;
     make_root (witness_root j) "deletion witness root is unsafe" ;;;
     mkdir (witness_entries_root j) 448 ;;;
     chmod (root j) 448 ;;; chmod (entries_root j) 448 ;;;
     chmod (witness_root j) 448 ;;; chmod (witness_entries_root j) 448 ;;;
     let! linked := look (fun d => Ok (is_link d (entries_root j) || is_link d (witness_entries_root j))) in
     if linked : bool then raise (journal_error (u "deletion journal entries path is unsafe"))
     else exclusively j (initialize_locked pid j created_at now))
    (fun e => raise (os_error e)).

(** [verify_live_deletion_mirror]: the lifecycles past confirmation and the
    denials are the rows of the two queries; their keys are unique. *)
Definition mirrored (commitment : DeletionCommitment) (lifecycle : AccountLifecycle) (deny : AccountAccessDeny) : bool :=
  bool_decide (AccountLifecycle.subject_hmac lifecycle = subject_hmac commitment)
  && negb (eqs (AccountLifecycle.state lifecycle) "confirmation_pending")
  && bool_decide (AccountLifecycle.policy_version lifecycle = policy_version commitment)
  && match AccountLifecycle.confirmed_at lifecycle, AccountLifecycle.concealed_at lifecycle with
     | Some confirmed_at, Some concealed_at =>
         bool_decide (AccountAccessDeny.subject_hmac deny = subject_hmac commitment)
         && dt_eqb confirmed_at (committed_at commitment) && dt_eqb concealed_at (committed_at commitment)
         && dt_eqb (AccountAccessDeny.denied_at deny) (committed_at commitment)
     | _, _ => false
     end.
Definition same_ids (a b : list str) : bool :=
  forallb (fun x => bool_decide (x ∈ b)) a && forallb (fun x => bool_decide (x ∈ a)) b.
Definition verify_live_deletion_mirror (j : DeletionCommitmentJournal) (d : disk)
  (all_lifecycles : list AccountLifecycle) (denies : list AccountAccessDeny) : Res Z :=
  let? commitments := verify j d in
  let lifecycles := filter (fun l => eqs (AccountLifecycle.state l) "confirmation_pending" = false) all_lifecycles in
  if negb (same_ids (map deletion_id commitments) (map AccountLifecycle.id lifecycles)
           && same_ids (map deletion_id commitments) (map AccountAccessDeny.deletion_id denies))
  then Raise (journal_error (u "deletion journal and live database commitment sets do not match"))
  else if forallb (fun c =>
            match find (fun l => bool_decide (AccountLifecycle.id l = deletion_id c)) lifecycles,
                  find (fun n => bool_decide (AccountAccessDeny.deletion_id n = deletion_id c)) denies with
            | Some lifecycle, Some deny => mirrored c lifecycle deny
            | _, _ => false
            end) commitments
  then Ok (len commitments)
  else Raise (journal_error (u "live database has not applied every durable deletion commitment")).
End journal.
