(* ===== verification/DeletionJournalSafety.v ===== *)
(** * Safety of the deletion journal

    The witnesses pin the journal: two trees that verify with the same witness
    files hold the same commitments.  An append is atomic: wherever it stops, the
    tree either fails verification or verifies with the old commitments or with
    one more. *)
From S2P Require Import Prelude PyTime Timestamps Json Sha256 JsonText JsonBytes Lifecycle Disk DeletionJournal.
Local Open Scope Z_scope.

(** ** Names of entries *)
Lemma entry_sequence_some name i : entry_sequence name = Some i <-> 0 <= i < 10 ^ 20 /\ name = entry_file i.
Proof.
  unfold entry_sequence, entry_file. split.
  - destruct ((length name =? 25)%nat && _) eqn:E; [|done]. apply andb_true_iff in E as [_ E]. bool_facts.
    intros H. destruct (digits 20 0 name) as [[v rest]|] eqn:Hd; [|done]. injection H as ->.
    apply digits_inv in Hd as (w & Hw & -> & ->). change (Z.of_nat 20) with 20 in *.
    rewrite Z.mul_0_l, Z.add_0_l. split; [done|]. f_equal.
    rewrite drop_app_length' in E by (by rewrite length_fixed). exact E.
  - intros [Hi ->]. rewrite length_app, length_fixed. change (length (u ".json")) with 5%nat.
    rewrite drop_app_length', bool_decide_true by (done || by rewrite length_fixed).
    cbn [Nat.eqb andb Nat.add]. by rewrite (digits_fixed_small 20).
Qed.
Lemma entry_file_inj i k : 0 <= i < 10 ^ 20 -> 0 <= k < 10 ^ 20 -> entry_file i = entry_file k -> i = k.
Proof.
  intros Hi Hk E. assert (entry_sequence (entry_file i) = Some i) as H by by apply entry_sequence_some.
  assert (entry_sequence (entry_file k) = Some k) as H' by by apply entry_sequence_some. congruence.
Qed.
Lemma str_compare_app a b s : length a = length b ->
  str_compare (a ++ s) (b ++ s) = str_compare a b \/ str_compare a b = Eq.
Proof.
  revert b. induction a as [|x a IH]; intros [|y b] Hl; try done; [by right|]. cbn [app str_compare].
  destruct (x ?= y); auto.
Qed.
Lemma entry_file_le i k : 0 <= i <= k -> k < 10 ^ 20 -> str_le (entry_file i) (entry_file k).
Proof.
  intros Hi Hk. unfold str_le, str_leb, entry_file.
  pose proof (fixed_compare 20 i k) as Hc. change (Z.of_nat 20) with 20 in Hc. rewrite !Z.mod_small in Hc by lia.
  destruct (str_compare_app (fixed 20 i) (fixed 20 k) (u ".json")) as [->|E]; [by rewrite !length_fixed| |].
  - rewrite Hc. destruct (Z.compare_spec i k); done || lia.
  - apply str_compare_eq in E as ->. by rewrite (proj2 (str_compare_eq _ _)).
Qed.
(** The files numbered from [i]. *)
Fixpoint entry_files (i : Z) (n : nat) : list str :=
  match n with O => [] | S n => entry_file i :: entry_files (i + 1) n end.
Lemma length_entry_files i n : length (entry_files i n) = n.
Proof. revert i. induction n as [|n IH]; intros i; [done|]. cbn. by rewrite IH. Qed.
Lemma entry_files_snoc i n : entry_files i (S n) = entry_files i n ++ [entry_file (i + Z.of_nat n)].
Proof.
  revert i. induction n as [|n IH]; intros i; [cbn; by rewrite Z.add_0_r|].
  change (entry_files i (S (S n))) with (entry_file i :: entry_files (i + 1) (S n)). rewrite IH.
  change (entry_files i (S n)) with (entry_file i :: entry_files (i + 1) n). cbn [app]. do 4 f_equal. lia.
Qed.
Lemma elem_of_entry_files name i n : name ∈ entry_files i n <-> exists k, i <= k < i + Z.of_nat n /\ name = entry_file k.
Proof.
  revert i. induction n as [|n IH]; intros i; cbn [entry_files].
  - rewrite elem_of_nil. split; [done|]. intros (k & ? & _). lia.
  - rewrite elem_of_cons, IH. split.
    + intros [->|(k & ? & ->)]; [exists i|exists k]; (split; [lia|done]).
    + intros (k & ? & ->). destruct (decide (k = i)) as [->|]; [by left|right]. exists k. split; [lia|done].
Qed.
Lemma entry_files_sorted i n : 0 <= i -> i + Z.of_nat n <= 10 ^ 20 ->
  NoDup (entry_files i n) /\ StronglySorted str_le (entry_files i n).
Proof.
  revert i. induction n as [|n IH]; intros i Hi Hn; cbn [entry_files]; [by repeat constructor|].
  destruct (IH (i + 1)) as [Hnd Hs]; [lia..|]. split.
  - constructor; [|done]. intros (k & Hk & E)%elem_of_entry_files. apply entry_file_inj in E; lia.
  - constructor; [done|]. apply Forall_forall. intros x (k & Hk & ->)%elem_of_entry_files. apply entry_file_le; lia.
Qed.

(** ** What a verified tree satisfies *)
Section verified.
Context (float_text : str -> str) (unseal : bytes -> bytes -> bytes -> bytes -> option bytes).
Context (j : DeletionCommitmentJournal).
Abbreviation read := (read_json float_text).
Abbreviation verify_entry := (verify_entry float_text unseal j).
Abbreviation verify_entries := (verify_entries float_text unseal j).
Abbreviation verify_witness := (verify_witness float_text j).
Abbreviation verify_witnesses := (verify_witnesses float_text j).
Abbreviation verify_locked := (verify_locked float_text unseal j).

Lemma read_json_ok d path payload : read d path = Ok payload ->
  exists i raw, d !! path = Some (JFile i raw 384 1) /\ loads_bytes float_text raw = Some (PDict payload).
Proof.
  unfold read_json. destruct (d !! path) as [[i raw mode nlink| |]|]; try done.
  destruct (negb (mode =? 384) || negb (nlink =? 1)) eqn:E; [done|]. bool_facts. subst.
  destruct (negb (ends_with [10] raw) || _); [done|]. destruct (loads_bytes _ _) as [[]|] eqn:El; try done.
  intros [= <-]. eauto.
Qed.
(** Equal contents are read as equal records. *)
Lemma read_json_same d d' path path' payload payload' b :
  read d path = Ok payload -> read d' path' = Ok payload' ->
  read_bytes d path = Ok b -> read_bytes d' path' = Ok b -> payload = payload'.
Proof.
  intros (i & raw & Hl & Hp)%read_json_ok (i' & raw' & Hl' & Hp')%read_json_ok. unfold read_bytes.
  rewrite Hl, Hl'. intros [= ->] [= ->]. congruence.
Qed.

Lemma verify_entry_name d i name prior seen r : verify_entry d i name prior seen = Ok r ->
  0 <= i < 10 ^ 20 /\ name = entry_file i.
Proof. unfold DeletionJournal.verify_entry. intros H. inv_step. bool_facts. by apply entry_sequence_some. Qed.
Lemma verify_entries_cons d i name names prior seen cs dg :
  verify_entries d i (name :: names) prior seen = Ok (cs, dg) ->
  exists c digest cs', verify_entry d i name prior seen = Ok (c, digest) /\
    verify_entries d (i + 1) names digest (deletion_id c :: seen) = Ok (cs', dg) /\ cs = c :: cs'.
Proof.
  cbn [DeletionJournal.verify_entries]. intros H. apply res_bind_ok in H as ([c digest] & Hc & H).
  apply res_bind_ok in H as ([cs' dg'] & Hcs & H). injection H as <- <-. eauto 7.
Qed.
Lemma verify_entries_names d i names prior seen cs dg : verify_entries d i names prior seen = Ok (cs, dg) ->
  names = entry_files i (length names) /\ length cs = length names.
Proof.
  revert i prior seen cs. induction names as [|name names IH]; intros i prior seen cs H.
  - injection H as <- <-. done.
  - apply verify_entries_cons in H as (c & digest & cs' & Hc & H & ->).
    apply verify_entry_name in Hc as [_ ->]. apply IH in H as [-> Hl]. cbn [length entry_files].
    rewrite length_entry_files in *. by rewrite Hl.
Qed.
Lemma verify_entry_frame d d' i name prior seen :
  d' !! (entries_root j ++ [name]) = d !! (entries_root j ++ [name]) ->
  verify_entry d' i name prior seen = verify_entry d i name prior seen.
Proof. unfold DeletionJournal.verify_entry, read_json. by intros ->. Qed.
Lemma verify_entries_frame d d' i names prior seen :
  (forall name, name ∈ names -> d' !! (entries_root j ++ [name]) = d !! (entries_root j ++ [name])) ->
  verify_entries d' i names prior seen = verify_entries d i names prior seen.
Proof.
  revert i prior seen. induction names as [|name names IH]; intros i prior seen H; [done|].
  cbn [DeletionJournal.verify_entries]. rewrite (verify_entry_frame d) by (apply H; by left).
  destruct (verify_entry _ _ _ _ _) as [[c dg]|]; [|done]. cbn [res_bind]. rewrite IH; [done|].
  intros n Hn. apply H. by right.
Qed.
(** The ids seen after a list of commitments. *)
Definition ids_seen (cs : list DeletionCommitment) (seen : list str) : list str :=
  fold_left (fun seen c => deletion_id c :: seen) cs seen.
Lemma verify_entries_app d i names names' prior seen :
  verify_entries d i (names ++ names') prior seen =
    let? (cs, dg) := verify_entries d i names prior seen in
    let? (cs', dg') := verify_entries d (i + len names) names' dg (ids_seen cs seen) in
    Ok (cs ++ cs', dg').
Proof.
  revert i prior seen. induction names as [|name names IH]; intros i prior seen.
  - cbn [app DeletionJournal.verify_entries res_bind ids_seen fold_left len length]. rewrite Z.add_0_r.
    by destruct (verify_entries _ _ _ _ _) as [[cs dg]|].
  - cbn [app DeletionJournal.verify_entries]. destruct (verify_entry _ _ _ _ _) as [[c dg]|]; [|done].
    cbn [res_bind]. rewrite IH. replace (i + len (name :: names)) with (i + 1 + len names) by (unfold len; cbn; lia).
    destruct (verify_entries d (i + 1) names _ _) as [[cs dg']|]; [|done]. cbn [res_bind ids_seen fold_left].
    by destruct (verify_entries _ _ _ _ _) as [[cs' dg'']|].
Qed.

Lemma verify_witness_name d st cs i name prior r : verify_witness d st cs i name prior = Ok r ->
  0 <= i < 10 ^ 20 /\ name = entry_file i.
Proof. unfold DeletionJournal.verify_witness. intros H. inv_step. bool_facts. by apply entry_sequence_some. Qed.
Lemma verify_witnesses_names d st cs i names prior : verify_witnesses d st cs i names prior = Ok tt ->
  names = entry_files i (length names).
Proof.
  revert i prior. induction names as [|name names IH]; intros i prior H; [done|].
  cbn [DeletionJournal.verify_witnesses] in H. apply res_bind_ok in H as (dg & Hw & H).
  apply verify_witness_name in Hw as [_ ->]. apply IH in H as E. cbn [length entry_files]. by rewrite <- E.
Qed.
Lemma verify_witnesses_range d st cs i names prior : verify_witnesses d st cs i names prior = Ok tt ->
  forall k, i <= k < i + len names -> 0 <= k < 10 ^ 20.
Proof.
  revert i prior. induction names as [|name names IH]; intros i prior H k Hk; [unfold len in Hk; cbn in Hk; lia|].
  cbn [DeletionJournal.verify_witnesses] in H. apply res_bind_ok in H as (dg & Hw & H).
  apply verify_witness_name in Hw as [Hi _]. destruct (decide (k = i)) as [->|]; [done|].
  apply (IH (i + 1) dg H). unfold len in *. cbn [length] in Hk. lia.
Qed.
(** A witness names the digest of its entry's file. *)
Definition pinned (d : disk) (i : Z) : Prop :=
  exists w b, read d (witness_entries_root j ++ [entry_file i]) = Ok w /\
    read_bytes d (entries_root j ++ [entry_file i]) = Ok b /\
    dict_get (u "journal_head_digest") w = Some (PStr (sha256_hex b)).
Lemma verify_witness_pins d st cs i name prior r : 1 <= i -> verify_witness d st cs i name prior = Ok r -> pinned d i.
Proof.
  intros Hi H. pose proof (verify_witness_name _ _ _ _ _ _ _ H) as [_ ->].
  unfold DeletionJournal.verify_witness in H. inv_step. apply res_bind_ok in H as (w & Hw & H). inv_step.
  apply res_bind_ok in H as (same & _ & H). inv_step. rewrite (proj2 (Z.eqb_neq i 0)) in H by lia.
  apply res_bind_ok in H as (expected & He & H). apply res_bind_ok in He as (b & Hb & [= <-]).
  apply res_bind_ok in H as (observed & _ & H). inv_step. bool_facts.
  exists w, b. split; [done|]. split; [done|].
  match goal with H : is_str (dict_get (u "journal_head_digest") w) _ = true |- _ =>
    by apply is_str_true in H end.
Qed.
Lemma verify_witnesses_pin d st cs i names prior : 0 <= i -> verify_witnesses d st cs i names prior = Ok tt ->
  forall k, 1 <= k -> i <= k < i + len names -> pinned d k.
Proof.
  revert i prior. induction names as [|name names IH]; intros i prior Hi H k Hk1 Hk; [unfold len in Hk; cbn in Hk; lia|].
  cbn [DeletionJournal.verify_witnesses] in H. apply res_bind_ok in H as (dg & Hw & H).
  destruct (decide (k = i)) as [->|]; [by eapply verify_witness_pins|].
  apply (IH (i + 1) dg ltac:(lia) H k Hk1). unfold len in *. cbn [length] in Hk. lia.
Qed.

(** ** Inversion of a verification *)
Record verified (d : disk) (state : list (str * pyval)) (cs : list DeletionCommitment) : Prop := {
  v_entries_dir : real_directory d (entries_root j) = true;
  v_root_mode : mode_of d (root j) = Ok 448;
  v_entries_mode : mode_of d (entries_root j) = Ok 448;
  v_state : read d (state_path j) = Ok state;
  v_state_ok : verify_state j state = Ok tt;
  v_count : len (sorted_children d (entries_root j)) = head_sequence state;
  v_entries : verify_entries d 1 (sorted_children d (entries_root j)) _ZERO_DIGEST [] = Ok (cs, head_digest state);
  v_wentries_dir : real_directory d (witness_entries_root j) = true;
  v_wroot_mode : mode_of d (witness_root j) = Ok 448;
  v_wentries_mode : mode_of d (witness_entries_root j) = Ok 448;
  v_wcount : len (sorted_children d (witness_entries_root j)) = head_sequence state + 1;
  v_witnesses : verify_witnesses d state cs 0 (sorted_children d (witness_entries_root j)) _ZERO_DIGEST = Ok tt;
  v_last : last (sorted_children d (witness_entries_root j)) = Some (entry_file (head_sequence state));
  v_final : exists w, read d (witness_entries_root j ++ [entry_file (head_sequence state)]) = Ok w /\
    dict_get (u "journal_head_digest") w = Some (PStr (head_digest state))
}.
Lemma verify_locked_ok d state cs : verify_locked d = Ok (state, cs) <-> verified d state cs.
Proof.
  split.
  - unfold DeletionJournal.verify_locked, verify_witness_locked. intros H.
    inv_step. apply res_bind_ok in H as (rm & Hrm & H). inv_step. apply res_bind_ok in H as (em & Hem & H). inv_step.
    apply res_bind_ok in H as (st & Hst & H). apply res_bind_ok in H as ([] & Hs & H). inv_step.
    apply res_bind_ok in H as ([cs' dg] & Hes & H). inv_step. apply res_bind_ok in H as ([] & Hw & H).
    injection H as -> ->. inv_step. apply res_bind_ok in Hw as (wm & Hwm & Hw). inv_step.
    apply res_bind_ok in Hw as (wem & Hwem & Hw). inv_step. inv_step. apply res_bind_ok in Hw as ([] & Hws & Hw). inv_step.
    apply res_bind_ok in Hw as (w & Hfw & Hw). inv_step. bool_facts. subst.
    match goal with H : last _ = Some _ |- _ => rewrite H in Hfw; cbn [from_option id] in Hfw end.
    match goal with H : is_str _ _ = true |- _ => apply is_str_true in H end.
    split; try done. eauto.
  - intros []. unfold DeletionJournal.verify_locked, verify_witness_locked.
    destruct v_final0 as (w & Hw & Hd).
    rewrite v_entries_dir0, v_root_mode0. cbn [res_bind negb Z.eqb Pos.eqb].
    rewrite v_entries_mode0. cbn [res_bind negb Z.eqb Pos.eqb]. rewrite v_state0. cbn [res_bind].
    rewrite v_state_ok0. cbn [res_bind]. rewrite v_count0, Z.eqb_refl. cbn [negb]. rewrite v_entries0. cbn [res_bind].
    rewrite bool_decide_true by done. cbn [negb]. rewrite v_wentries_dir0, v_wroot_mode0.
    cbn [res_bind negb Z.eqb Pos.eqb]. rewrite v_wentries_mode0. cbn [res_bind negb Z.eqb Pos.eqb].
    rewrite v_wcount0, Z.eqb_refl. cbn [negb]. rewrite v_witnesses0. cbn [res_bind].
    rewrite v_last0, bool_decide_true by done. cbn [negb].
    match goal with |- context[read d ?p] => replace (read d p) with (Ok w) by (symmetry; exact Hw) end. cbn [res_bind].
    by rewrite (proj2 (is_str_true _ _) Hd).
Qed.

(** ** Witnesses pin the entries *)
(** The entry files under one sequence number differ and yet have the same SHA-256. *)
Definition forged (d d' : disk) (k : Z) : Prop :=
  exists b b' : bytes, read_bytes d (entries_root j ++ [entry_file k]) = Ok b /\
    read_bytes d' (entries_root j ++ [entry_file k]) = Ok b' /\ b <> b' /\ sha256_hex b = sha256_hex b'.
Lemma verify_entries_pinned d d' i n prior seen cs cs' dg dg' :
  verify_entries d i (entry_files i n) prior seen = Ok (cs, dg) ->
  verify_entries d' i (entry_files i n) prior seen = Ok (cs', dg') ->
  (forall k, i <= k < i + Z.of_nat n -> exists b b',
    read_bytes d (entries_root j ++ [entry_file k]) = Ok b /\
    read_bytes d' (entries_root j ++ [entry_file k]) = Ok b' /\ sha256_hex b = sha256_hex b') ->
  (cs, dg) = (cs', dg') \/ exists k, i <= k < i + Z.of_nat n /\ forged d d' k.
Proof.
  revert i prior seen cs cs'. induction n as [|n IH]; intros i prior seen cs cs' H H' Hb.
  - left. cbn in H, H'. congruence.
  - cbn [entry_files] in H, H'. apply verify_entries_cons in H as (c & g & cs1 & Hc & H & ->).
    apply verify_entries_cons in H' as (c' & g' & cs1' & Hc' & H' & ->).
    destruct (Hb i ltac:(lia)) as (b & b' & Hr & Hr' & E).
    destruct (decide (b = b')) as [<-|Hne]; [|right; exists i; split; [lia|by exists b, b']].
    assert ((c, g) = (c', g')) as [= <- <-].
    { unfold DeletionJournal.verify_entry in Hc, Hc'. inv_step.
      apply res_bind_ok in Hc as (e & He & Hc). apply res_bind_ok in Hc' as (e' & He' & Hc').
      rewrite (read_json_same _ _ _ _ _ _ _ He He' Hr Hr') in Hc. rewrite Hc in Hc'. congruence. }
    destruct (IH (i + 1) g (deletion_id c :: seen) cs1 cs1') as [[= -> ->]|(k & Hk & Hf)]; [done|done| |by left|].
    + intros k Hk. apply Hb. lia.
    + right. exists k. split; [lia|done].
Qed.
Lemma pinned_equal d d' i :
  d !! (witness_entries_root j ++ [entry_file i]) = d' !! (witness_entries_root j ++ [entry_file i]) ->
  pinned d i -> pinned d' i -> exists b b',
    read_bytes d (entries_root j ++ [entry_file i]) = Ok b /\
    read_bytes d' (entries_root j ++ [entry_file i]) = Ok b' /\ sha256_hex b = sha256_hex b'.
Proof.
  intros E (w & b & Hw & Hb & Hd) (w' & b' & Hw' & Hb' & Hd'). exists b, b'. split_and!; [done..|].
  assert (w = w') as <- by (unfold read_json in Hw, Hw'; rewrite E in Hw; congruence). congruence.
Qed.
Lemma verified_names d st cs : verified d st cs ->
  sorted_children d (entries_root j) = entry_files 1 (Z.to_nat (head_sequence st)) /\ 0 <= head_sequence st
  /\ len cs = head_sequence st.
Proof.
  intros [_ _ _ _ _ Hc He _ _ _ _ _ _ _]. apply verify_entries_names in He as [He Hl]. rewrite <- Hc.
  unfold len. rewrite Nat2Z.id. split; [done|]. split; lia.
Qed.
Lemma witnessed_same d d' st cs st' cs' : verified d st cs -> verified d' st' cs' ->
  (forall name, d !! (witness_entries_root j ++ [name]) = d' !! (witness_entries_root j ++ [name])) ->
  cs = cs' \/ exists k, 1 <= k <= len cs /\ forged d d' k.
Proof.
  intros V V' Hsame. destruct (verified_names _ _ _ V) as (Hn & H0 & Hl).
  destruct (verified_names _ _ _ V') as (Hn' & H0' & Hl').
  assert (sorted_children d (witness_entries_root j) = sorted_children d' (witness_entries_root j)) as Hch.
  { apply children_eq; [apply NoDup_children|apply sorted_children_sorted|].
    intros name. by rewrite elem_of_children, Hsame. }
  assert (head_sequence st = head_sequence st') as Eh.
  { pose proof (v_wcount _ _ _ V) as H1. pose proof (v_wcount _ _ _ V') as H2. rewrite Hch in H1. lia. }
  pose proof (v_entries _ _ _ V) as He. pose proof (v_entries _ _ _ V') as He'.
  rewrite Hn in He. rewrite Hn', <- Eh in He'.
  destruct (verify_entries_pinned _ _ _ _ _ _ _ _ _ _ He He') as [[= -> _]|(k & Hk & Hf)];
    [|by left|right; exists k; split; [lia|done]].
  intros k Hk. apply pinned_equal; [apply Hsame| |].
  - eapply verify_witnesses_pin; [..|exact (v_witnesses _ _ _ V)|lia|]; [done|]. rewrite (v_wcount _ _ _ V). lia.
  - eapply verify_witnesses_pin; [..|exact (v_witnesses _ _ _ V')|lia|]; [done|]. rewrite (v_wcount _ _ _ V'). lia.
Qed.

(** ** Frames *)
(** Trees that agree on what verification reads. *)
Record agree (d d' : disk) : Prop := {
  agree_root : d' !! root j = d !! root j;
  agree_wroot : d' !! witness_root j = d !! witness_root j;
  agree_entries_root : d' !! entries_root j = d !! entries_root j;
  agree_wentries_root : d' !! witness_entries_root j = d !! witness_entries_root j;
  agree_state : d' !! state_path j = d !! state_path j;
  agree_entries name : d' !! (entries_root j ++ [name]) = d !! (entries_root j ++ [name]);
  agree_wentries name : d' !! (witness_entries_root j ++ [name]) = d !! (witness_entries_root j ++ [name])
}.
Lemma children_same d d' dir : (forall name, d' !! (dir ++ [name]) = d !! (dir ++ [name])) ->
  sorted_children d' dir = sorted_children d dir.
Proof.
  intros H. apply children_eq; [apply NoDup_children|apply sorted_children_sorted|].
  intros name. by rewrite elem_of_children, H.
Qed.
Lemma verify_witness_frame d d' st cs i name prior :
  (forall name, d' !! (entries_root j ++ [name]) = d !! (entries_root j ++ [name])) ->
  d' !! (witness_entries_root j ++ [name]) = d !! (witness_entries_root j ++ [name]) ->
  verify_witness d' st cs i name prior = verify_witness d st cs i name prior.
Proof. intros He Hw. unfold DeletionJournal.verify_witness, read_json, read_bytes. by rewrite Hw, He. Qed.
Lemma verify_witnesses_frame d d' st cs i names prior :
  (forall name, d' !! (entries_root j ++ [name]) = d !! (entries_root j ++ [name])) ->
  (forall name, name ∈ names -> d' !! (witness_entries_root j ++ [name]) = d !! (witness_entries_root j ++ [name])) ->
  verify_witnesses d' st cs i names prior = verify_witnesses d st cs i names prior.
Proof.
  intros He. revert i prior. induction names as [|name names IH]; intros i prior Hw; [done|].
  cbn [DeletionJournal.verify_witnesses]. rewrite (verify_witness_frame d) by (try apply Hw; try left; done).
  destruct (verify_witness _ _ _ _ _ _); [|done]. cbn [res_bind]. apply IH. intros n Hn. apply Hw. by right.
Qed.
Lemma verify_locked_frame d d' : agree d d' -> verify_locked d' = verify_locked d.
Proof.
  intros [H1 H2 H3 H4 H5 H6 H7].
  pose proof (children_same d d' (entries_root j) H6) as Hc. pose proof (children_same d d' (witness_entries_root j) H7) as Hcw.
  unfold DeletionJournal.verify_locked, real_directory, is_directory, is_link, mode_of, read_json. rewrite H1, H3, H5, Hc.
  destruct (negb _); [done|]. destruct (match d !! root j with Some _ => _ | None => _ end) as [rm|]; [|done]. cbn [res_bind].
  destruct (negb _); [done|]. destruct (match d !! entries_root j with Some _ => _ | None => _ end) as [em|]; [|done].
  cbn [res_bind]. destruct (negb _); [done|].
  destruct (match d !! state_path j with Some _ => _ | None => _ end) as [st|]; [|done]. cbn [res_bind].
  destruct (verify_state j st); [|done]. cbn [res_bind]. destruct (negb _); [done|].
  rewrite (verify_entries_frame d) by done. destruct (verify_entries _ _ _ _ _) as [[cs dg]|]; [|done]. cbn [res_bind].
  destruct (negb _); [done|]. assert (verify_witness_locked float_text j d' st cs = verify_witness_locked float_text j d st cs) as ->; [|done].
  unfold verify_witness_locked, real_directory, is_directory, is_link, mode_of, read_json. rewrite H2, H4, Hcw.
  destruct (negb _); [done|]. destruct (match d !! witness_root j with Some _ => _ | None => _ end); [|done]. cbn [res_bind].
  destruct (negb _); [done|]. destruct (match d !! witness_entries_root j with Some _ => _ | None => _ end); [|done]. cbn [res_bind].
  destruct (negb _); [done|]. destruct (negb _); [done|]. rewrite (verify_witnesses_frame d) by done. by rewrite H7.
Qed.
End verified.

(** ** Writing under a temporary name *)
Lemma temporary_eq pid dir name : temporary pid (dir ++ [name]) = dir ++ [u "." ++ name ++ u "." ++ dec pid ++ u ".tmp"].
Proof. unfold temporary, base_name. by rewrite removelast_last, last_snoc. Qed.
Lemma temporary_ne pid dir name : temporary pid (dir ++ [name]) <> dir ++ [name].
Proof.
  rewrite temporary_eq. intros E%app_inv_head.
  assert (length (u "." ++ name ++ u "." ++ dec pid ++ u ".tmp") = length name) as El by congruence.
  rewrite !length_app in El. change (length (u ".")) with 1%nat in El. lia.
Qed.
Lemma parent_insert (d : disk) (p q : list str) n : q <> removelast p -> parent_ok (<[q := n]> d) p = parent_ok d p.
Proof. intros H. unfold parent_ok. by rewrite lookup_insert_ne. Qed.
Lemma snoc_ne {A : Type} (l : list A) x : l ++ [x] <> l.
Proof. intros E%(f_equal length). rewrite length_app in E. cbn in E. lia. Qed.
(** A file under its final name, its link to the temporary name gone. *)
Definition placed (d : disk) (p : list str) (payload : bytes) : disk :=
  <[p := JFile (fresh_inode d) payload 384 1]> d.
Lemma write_new_outcomes (pid : Z) (dir : list str) (name : str) (payload : bytes) (d : disk) (Q : Res unit -> disk -> Prop) :
  let path := dir ++ [name] in let tmp := temporary pid path in
  d !! tmp = None -> d !! path = None -> (exists m, d !! dir = Some (JDir m)) ->
  Q (Raise Halted) d ->
  (forall pl : bytes, Q (Raise Halted) (<[tmp := JFile (fresh_inode d) pl 384 1]> d)) ->
  (forall n n' : jnode, Q (Raise Halted) (<[path := n]> (<[tmp := n']> d))) ->
  Q (Raise Halted) (placed d path payload) -> Q (Ok tt) (placed d path payload) ->
  outcomes (write_new pid path payload) d Q.
Proof.
  intros path tmp Ht Hp [m Hm] Q0 Q1 Q2 Q3 Q4. pose proof (temporary_ne pid dir name) as Hne. fold path tmp in Hne.
  assert (tmp = dir ++ [u "." ++ name ++ u "." ++ dec pid ++ u ".tmp"]) as Etmp by apply temporary_eq.
  assert (parent_ok d tmp = true /\ parent_ok d path = true) as [Hpt Hpp].
  { unfold parent_ok, path. rewrite Etmp, !removelast_last, Hm. done. }
  assert (forall n : jnode, parent_ok (<[tmp := n]> d) path = true) as Hpi.
  { intros n. rewrite parent_insert; [done|]. unfold path. rewrite Etmp, removelast_last. apply snoc_ne. }
  assert (forall (Q : Res unit -> disk -> Prop), Q (Raise Halted) d -> Q (Ok tt) d ->
    outcomes (unlink_if_present tmp) d Q) as U0.
  { intros Q' H H'. apply outcomes_syscall; [done|]. by rewrite Ht. }
  assert (forall (pl : bytes) (Q : Res unit -> disk -> Prop), Q (Raise Halted) (<[tmp := JFile (fresh_inode d) pl 384 1]> d) ->
    Q (Ok tt) d -> outcomes (unlink_if_present tmp) (<[tmp := JFile (fresh_inode d) pl 384 1]> d) Q) as U1.
  { intros pl Q' H H'. apply outcomes_syscall; [done|]. rewrite lookup_insert_eq. by rewrite remove_created. }
  unfold write_new. fold path tmp. apply outcomes_finally, outcomes_catch.
  apply outcomes_bind, outcomes_syscall; [by apply outcomes_raise, U0|]. rewrite Ht, Hpt.
  apply outcomes_bind, outcomes_syscall; [by apply outcomes_raise, U1|]. rewrite lookup_insert_eq, insert_insert_eq.
  apply outcomes_syscall; [by apply outcomes_raise, U1|].
  rewrite lookup_insert_eq, lookup_insert_ne, Hp, Hpi, insert_insert_eq by done.
  apply outcomes_syscall; [apply Q2|]. rewrite lookup_insert_ne, lookup_insert_eq by done.
  rewrite remove_linked; done.
Qed.
Lemma links_ok_fresh (d : disk) (p : list str) pl m : links_ok d -> d !! p = None ->
  links_ok (<[p := JFile (fresh_inode d) pl m 1]> d).
Proof.
  intros Hl Hp a b i pl1 m1 pl2 m2 k. rewrite !lookup_insert.
  destruct (decide (p = a)) as [<-|Ha], (decide (p = b)) as [<-|Hb]; try done.
  - intros [= <- <- <-] H. by destruct (fresh_not_used d b _ _ _ _ H).
  - intros H [= <- <- <-]. by destruct (fresh_not_used d a _ _ _ _ H).
  - apply Hl.
Qed.
Definition state_tmp (pid : Z) (j : DeletionCommitmentJournal) : list str :=
  root j ++ [u ".state." ++ dec pid ++ u ".tmp"].
Lemma state_tmp_ne pid j : state_tmp pid j <> state_path j.
Proof. unfold state_tmp, state_path. intros E%app_inv_head. discriminate E. Qed.
(** Replacing the state changes no other file. *)
Lemma replace_state_outcomes (pid : Z) j (payload : bytes) (d : disk) (Q : Res unit -> disk -> Prop) :
  links_ok d -> (exists i pl, d !! state_path j = Some (JFile i pl 384 1)) ->
  (forall r (d' : disk), (forall p : list str, p <> state_tmp pid j -> p <> state_path j -> d' !! p = d !! p) -> Q r d') ->
  outcomes (replace_state pid j payload) d Q.
Proof.
  intros Hl (i & pl & Hst) HQ. pose proof (state_tmp_ne pid j) as Hne. unfold replace_state. fold (state_tmp pid j).
  set (tmp := state_tmp pid j) in *.
  assert (forall r, Q r d) as Q0 by (intros r; by apply HQ).
  apply outcomes_bind, outcomes_syscall; [done|].
  destruct (d !! tmp) as [n|] eqn:Ht; [done|]. destruct (parent_ok d tmp); [|done].
  assert (forall r (pl : bytes), Q r (<[tmp := JFile (fresh_inode d) pl 384 1]> d)) as Q1.
  { intros r pl'. apply HQ. intros p Hp _. by rewrite lookup_insert_ne. }
  assert (forall r (pl : bytes), outcomes (unlink_if_present tmp) (<[tmp := JFile (fresh_inode d) pl 384 1]> d)
    (fun r' d'' => Q (match r' with Ok _ => r | Raise e => Raise e end) d'')) as U1.
  { intros r pl'. apply outcomes_syscall; [done|]. rewrite lookup_insert_eq. by rewrite remove_created. }
  apply outcomes_finally, outcomes_bind, outcomes_syscall; [by apply U1|]. rewrite lookup_insert_eq, insert_insert_eq.
  apply outcomes_syscall; [by apply U1|]. rewrite lookup_insert_eq, lookup_insert_ne, Hst by done.
  destruct (parent_ok _ _); [|by apply U1].
  rewrite (remove_single _ _ i pl 384); [|by apply links_ok_fresh|by rewrite lookup_insert_ne].
  set (d3 := <[state_path j := _]> _).
  assert (forall r, Q r d3) as Q3.
  { intros r. apply HQ. intros p Hp Hp'. subst d3. rewrite lookup_insert_ne, !lookup_delete_ne, lookup_insert_ne by done. done. }
  apply outcomes_syscall; [done|]. assert (d3 !! tmp = None) as ->; [|done].
  subst d3. by rewrite lookup_insert_ne, lookup_delete_eq by done.
Qed.
Lemma exclusive_lock_outcomes root lock label (d : disk) (Q : Res unit -> disk -> Prop) :
  (forall r (d' : disk), d' = d \/ d !! lock = None /\ d' = <[lock := JFile (fresh_inode d) [] 384 1]> d -> Q r d') ->
  outcomes (exclusive_lock root lock label) d Q.
Proof.
  intros HQ. unfold exclusive_lock. apply outcomes_bind, outcomes_look.
  destruct (authority_ok _ _ _ _) as [[]|]; [|by apply HQ; left]. apply outcomes_bind, outcomes_look.
  destruct (d !! lock) as [[i pl m k|m|t]|] eqn:El.
  - apply outcomes_lift, HQ. by left.
  - apply outcomes_raise, HQ. by left.
  - apply outcomes_lift, HQ. by left.
  - apply outcomes_bind, outcomes_catch, outcomes_syscall; [apply outcomes_raise, HQ; by left|].
    rewrite El. destruct (parent_ok d lock).
    + apply outcomes_look, HQ. by right.
    + apply outcomes_raise, HQ. by left.
Qed.

(** ** Atomicity *)
(** The two roots are independent. *)
Definition independent (j : DeletionCommitmentJournal) : Prop :=
  forall x y : list str, root j ++ x <> witness_root j ++ y.
Lemma constructed_independent settings j : deletion_commitment_journal settings = Ok j -> independent j.
Proof.
  unfold deletion_commitment_journal. destruct (deletion_journal_path settings) as [r|]; [|by destruct (deletion_witness_path settings)].
  destruct (deletion_witness_path settings) as [w|]; [|done]. intros H. inv_step. inv_steps. bool_facts.
  unfold is_relative_to in *. bool_facts. intros a b E. cbn in E.
  destruct (decide (length r <= length w)%nat).
  - apply (f_equal (take (length r))) in E. rewrite take_app_length, take_app_le in E by done. congruence.
  - apply (f_equal (take (length w))) in E. rewrite take_app_le, take_app_length in E by lia. congruence.
Qed.
Section atomic.
Context (float_text : str -> str).
Context (seal : bytes -> bytes -> bytes -> bytes -> bytes)
  (unseal : bytes -> bytes -> bytes -> bytes -> option bytes).
Context (j : DeletionCommitmentJournal) (Hindep : independent j).
Abbreviation verified := (verified float_text unseal j).

Lemma entry_path x : entries_root j ++ [x] = root j ++ [u "entries"; x].
Proof. unfold entries_root. by rewrite <- app_assoc. Qed.
Lemma wentry_path x : witness_entries_root j ++ [x] = witness_root j ++ [u "entries"; x].
Proof. unfold witness_entries_root. by rewrite <- app_assoc. Qed.
(** Different addresses below the two roots are different paths. *)
Lemma independent_sym (x y : list str) : witness_root j ++ x <> root j ++ y.
Proof. intros E. by apply (Hindep y x). Qed.
Lemma below_root (x : list str) : x <> [] -> root j ++ x <> root j.
Proof. intros Hx E. rewrite <- (app_nil_r (root j)) in E at 2. by apply app_inv_head in E. Qed.
Lemma below_wroot (x : list str) : x <> [] -> witness_root j ++ x <> witness_root j.
Proof. intros Hx E. rewrite <- (app_nil_r (witness_root j)) in E at 2. by apply app_inv_head in E. Qed.
Lemma not_wroot (x : list str) : root j ++ x <> witness_root j.
Proof. rewrite <- (app_nil_r (witness_root j)). apply Hindep. Qed.
Lemma not_root (x : list str) : witness_root j ++ x <> root j.
Proof. rewrite <- (app_nil_r (root j)) at 1. intros E. symmetry in E. by apply Hindep in E. Qed.
Lemma dot_name x k : u "." ++ x <> entry_file k.
Proof.
  unfold entry_file. rewrite fixed_S. intros E. injection E as E _.
  pose proof (Z.mod_pos_bound (k / 10 ^ Z.of_nat 19) 10). lia.
Qed.

Lemma verified_children d st cs : verified d st cs ->
  (forall x, is_Some (d !! (entries_root j ++ [x])) <-> exists k, 1 <= k <= len cs /\ x = entry_file k) /\
  (forall x, is_Some (d !! (witness_entries_root j ++ [x])) <-> exists k, 0 <= k <= len cs /\ x = entry_file k) /\
  len cs < 10 ^ 20.
Proof.
  intros V. destruct (verified_names _ _ _ _ _ _ V) as (Hn & H0 & Hl).
  pose proof (verify_witnesses_names _ _ _ _ _ _ _ _ (v_witnesses _ _ _ _ _ _ V)) as Hw.
  pose proof (v_wcount _ _ _ _ _ _ V) as Hc. split; [|split].
  - intros x. rewrite <- elem_of_children, Hn, elem_of_entry_files. setoid_rewrite Hl.
    split; intros (k & Hk & ->); exists k; (split; [lia|done]).
  - intros x. rewrite <- elem_of_children, Hw, elem_of_entry_files. unfold len in Hc. rewrite Hc, Hl.
    split; intros (k & Hk & ->); exists k; (split; [lia|done]).
  - rewrite Hl. apply (verify_witnesses_range _ _ _ _ _ _ _ _ (v_witnesses _ _ _ _ _ _ V)). lia.
Qed.

Context (cs : list DeletionCommitment).
(** A tree that fails verification, or holds the old commitments or one more. *)
Definition good (d : disk) : Prop :=
  forall st cs', verified d st cs' -> cs' = cs \/ exists c, cs' = cs ++ [c].

Lemma good_agree d d' st : verified d st cs -> agree j d d' -> good d'.
Proof.
  intros V Ha st' cs' V'. left. apply verify_locked_ok in V, V'.
  rewrite (verify_locked_frame _ _ _ _ _ Ha) in V'. congruence.
Qed.
Lemma good_stray_entry (d : disk) x : is_Some (d !! (entries_root j ++ [u "." ++ x])) -> good d.
Proof.
  intros Hx st cs' V. destruct (verified_children _ _ _ V) as (He & _ & _).
  apply He in Hx as (k & _ & E). by apply dot_name in E.
Qed.
Lemma good_stray_witness (d : disk) x : is_Some (d !! (witness_entries_root j ++ [u "." ++ x])) -> good d.
Proof.
  intros Hx st cs' V. destruct (verified_children _ _ _ V) as (_ & Hw & _).
  apply Hw in Hx as (k & _ & E). by apply dot_name in E.
Qed.

Section appending.
Context (d0 : disk) (st : list (str * pyval)) (V : verified d0 st cs) (Hlinks : links_ok d0)
  (Hroom : len cs + 1 < 10 ^ 20).
Abbreviation entry := (entries_root j ++ [entry_file (len cs + 1)]).
Abbreviation witness := (witness_entries_root j ++ [entry_file (len cs + 1)]).

(** The entry is there, its witness is not. *)
Lemma good_unwitnessed (d : disk) : is_Some (d !! entry) ->
  (forall x, d !! (witness_entries_root j ++ [x]) = d0 !! (witness_entries_root j ++ [x])) -> good d.
Proof.
  intros He Hw st' cs' V'. exfalso. destruct (verified_children _ _ _ V) as (_ & Hw0 & _).
  destruct (verified_children _ _ _ V') as (He' & Hw' & Hb').
  apply He' in He as (k & Hk & E). apply entry_file_inj in E; [|unfold len in *; lia..].
  assert (is_Some (d !! witness)) as Hs by (apply Hw'; exists k; split; [lia|by rewrite E]).
  rewrite Hw in Hs. apply Hw0 in Hs as (k' & Hk' & E'). apply entry_file_inj in E'; unfold len in *; lia.
Qed.
(** Entry and witness are there: one commitment more. *)
Lemma good_complete (d : disk) : is_Some (d !! entry) -> is_Some (d !! witness) ->
  (forall x, x <> entry_file (len cs + 1) -> d !! (entries_root j ++ [x]) = d0 !! (entries_root j ++ [x])) ->
  (forall x, x <> entry_file (len cs + 1) ->
    d !! (witness_entries_root j ++ [x]) = d0 !! (witness_entries_root j ++ [x])) -> good d.
Proof.
  intros He Hw Hes Hws st' cs' V'. right. destruct (verified_children _ _ _ V) as (_ & Hw0 & Hb).
  destruct (verified_children _ _ _ V') as (_ & Hw' & Hb').
  assert (len cs' = len cs + 1) as Hlen.
  { assert (is_Some (d !! (witness_entries_root j ++ [entry_file (len cs')]))) as Hs.
    { apply Hw'. exists (len cs'). split; [unfold len; lia|done]. }
    apply Hw' in Hw as (k & Hk & E). apply entry_file_inj in E; [|unfold len in *; lia..].
    destruct (decide (entry_file (len cs') = entry_file (len cs + 1))) as [E'|Hne].
    - apply entry_file_inj in E'; unfold len in *; lia.
    - rewrite Hws in Hs by done. apply Hw0 in Hs as (k' & Hk' & E'). apply entry_file_inj in E'; unfold len in *; lia. }
  destruct (verified_names _ _ _ _ _ _ V) as (Hn & _ & Hl). destruct (verified_names _ _ _ _ _ _ V') as (Hn' & _ & Hl').
  pose proof (v_entries _ _ _ _ _ _ V) as E0. pose proof (v_entries _ _ _ _ _ _ V') as E1. rewrite Hn in E0.
  rewrite Hn', <- Hl', Hlen in E1. rewrite <- Hl in E0.
  replace (Z.to_nat (len cs + 1)) with (S (Z.to_nat (len cs))) in E1 by (unfold len; lia).
  rewrite entry_files_snoc, verify_entries_app, (verify_entries_frame _ _ _ d0), E0 in E1.
  - cbn [res_bind] in E1. apply res_bind_ok in E1 as ([cs2 dg2] & E2 & E1). injection E1 as <- _.
    apply verify_entries_names in E2 as [_ E2]. cbn [length] in E2. destruct cs2 as [|c [|]]; try done. by exists c.
  - intros x (k & Hk & ->)%elem_of_entry_files. apply Hes. intros E. apply entry_file_inj in E; unfold len in *; lia.
Qed.

Lemma real_dir (d : disk) p : real_directory d p = true -> exists m, d !! p = Some (JDir m).
Proof.
  unfold real_directory, is_directory, is_link. destruct (d !! p) as [[|m|[[]|]]|]; try done. eauto.
Qed.
Lemma state_file : exists i raw, d0 !! state_path j = Some (JFile i raw 384 1).
Proof. destruct (read_json_ok _ _ _ _ (v_state _ _ _ _ _ _ V)) as (i & raw & H & _). eauto. Qed.
Lemma no_entry x : (forall k, x <> entry_file k) \/ x = entry_file (len cs + 1) -> d0 !! (entries_root j ++ [x]) = None.
Proof.
  intros Hx. apply eq_None_not_Some. intros Hs. destruct (verified_children _ _ _ V) as (He & _ & _).
  apply He in Hs as (k & Hk & E). destruct Hx as [Hx| ->]; [by apply (Hx k)|].
  apply entry_file_inj in E; unfold len in *; lia.
Qed.
Lemma no_witness x : (forall k, x <> entry_file k) \/ x = entry_file (len cs + 1) ->
  d0 !! (witness_entries_root j ++ [x]) = None.
Proof.
  intros Hx. apply eq_None_not_Some. intros Hs. destruct (verified_children _ _ _ V) as (_ & Hw & _).
  apply Hw in Hs as (k & Hk & E). destruct Hx as [Hx| ->]; [by apply (Hx k)|].
  apply entry_file_inj in E; unfold len in *; lia.
Qed.

Lemma append_entry_outcomes (pid : Z) (nonce : bytes) (a : Deletion) :
  outcomes (append_entry float_text seal unseal pid nonce j a st) d0 (fun _ d => good d).
Proof.
  assert (good d0) as Hg0 by (apply (good_agree d0 d0 st V); by split).
  destruct (verified_names _ _ _ _ _ _ V) as (_ & _ & Hlen). unfold append_entry. rewrite <- Hlen.
  apply outcomes_bind, outcomes_lift. destruct (encrypt_subject _ _ _ _ _) as [ct|]; [|done].
  apply outcomes_bind, write_new_outcomes.
  { rewrite temporary_eq. apply no_entry. left. intros k. apply dot_name. }
  { apply no_entry. by right. }
  { apply real_dir, V. }
  { done. }
  { intros pl. rewrite temporary_eq. apply (good_stray_entry _ (entry_file (len cs + 1) ++ u "." ++ dec pid ++ u ".tmp")). rewrite lookup_insert_eq. eauto. }
  { intros n n'. apply (good_stray_entry _ (entry_file (len cs + 1) ++ u "." ++ dec pid ++ u ".tmp")).
    rewrite lookup_insert_ne by (rewrite <- temporary_eq; apply not_eq_sym, temporary_ne).
    rewrite temporary_eq, lookup_insert_eq. eauto. }
  { apply good_unwitnessed; [unfold placed; rewrite lookup_insert_eq; eauto|].
    intros x. unfold placed. rewrite lookup_insert_ne; [done|]. rewrite entry_path, wentry_path. apply Hindep. }
  set (d1 := placed d0 _ _). destruct state_file as (i & raw & Hst).
  apply outcomes_bind, replace_state_outcomes.
  { apply links_ok_fresh; [done|]. apply no_entry. by right. }
  { exists i, raw. subst d1. unfold placed. rewrite lookup_insert_ne; [done|]. rewrite entry_path.
    unfold state_path. by intros E%app_inv_head. }
  intros r d2 Hd2.
  assert (forall x, d2 !! (entries_root j ++ [x]) = d1 !! (entries_root j ++ [x])) as Hde.
  { intros x. rewrite entry_path. apply Hd2; unfold state_tmp, state_path; by intros E%app_inv_head. }
  assert (forall x, d2 !! (witness_root j ++ x) = d0 !! (witness_root j ++ x)) as Hdw.
  { intros x. rewrite Hd2; [|unfold state_tmp, state_path; apply independent_sym..].
    unfold d1, placed. rewrite lookup_insert_ne; [done|]. rewrite entry_path. apply Hindep. }
  assert (is_Some (d2 !! entry)) as Hd2e by (rewrite Hde; unfold d1, placed; rewrite lookup_insert_eq; eauto).
  assert (good d2) as Hg2.
  { apply good_unwitnessed; [done|]. intros x. rewrite wentry_path. apply Hdw. }
  assert (forall payload, good (placed d2 witness payload)) as Hg3.
  { intros payload. unfold placed.
    assert (forall x, entries_root j ++ [x] <> witness) as Hne by (intros x; rewrite entry_path, wentry_path; apply Hindep).
    apply good_complete; [by rewrite lookup_insert_ne by apply not_eq_sym, Hne|rewrite lookup_insert_eq; eauto|..]; intros x Hx.
    - rewrite lookup_insert_ne, Hde by apply not_eq_sym, Hne. unfold d1, placed. rewrite lookup_insert_ne; [done|].
      intros E%app_inv_head. congruence.
    - rewrite lookup_insert_ne by (intros E%app_inv_head; congruence). by rewrite wentry_path, Hdw, <- wentry_path. }
  destruct r as [[]|]; [|done]. apply outcomes_bind, outcomes_look.
  destruct (read_bytes d2 _) as [prior|]; [|done]. apply outcomes_bind, write_new_outcomes.
  { rewrite temporary_eq, wentry_path, Hdw, <- wentry_path. apply no_witness. left. intros k. apply dot_name. }
  { rewrite wentry_path, Hdw, <- wentry_path. apply no_witness. by right. }
  { destruct (real_dir _ _ (v_wentries_dir _ _ _ _ _ _ V)) as [m Hm]. exists m.
    unfold witness_entries_root in *. by rewrite Hdw. }
  { done. }
  { intros pl. rewrite temporary_eq. apply (good_stray_witness _ (entry_file (len cs + 1) ++ u "." ++ dec pid ++ u ".tmp")). rewrite lookup_insert_eq. eauto. }
  { intros n n'. apply (good_stray_witness _ (entry_file (len cs + 1) ++ u "." ++ dec pid ++ u ".tmp")).
    rewrite lookup_insert_ne by (rewrite <- temporary_eq; apply not_eq_sym, temporary_ne).
    rewrite temporary_eq, lookup_insert_eq. eauto. }
  { apply Hg3. }
  apply outcomes_bind, outcomes_look. destruct (verify_locked _ _ _ (placed _ _ _)) as [[st3 cs3]|]; [|apply Hg3].
  cbn [snd]. destruct (last cs3); [apply outcomes_ret|apply outcomes_raise]; apply Hg3.
Qed.
End appending.

Lemma agree_intro (d d' : disk) :
  (forall x : list str, x <> [u ".lock"] -> d' !! (root j ++ x) = d !! (root j ++ x)) ->
  (forall x : list str, x <> [u ".lock"] -> d' !! (witness_root j ++ x) = d !! (witness_root j ++ x)) -> agree j d d'.
Proof.
  intros H Hw. split.
  - rewrite <- (app_nil_r (root j)). by apply H.
  - rewrite <- (app_nil_r (witness_root j)). by apply Hw.
  - by apply H.
  - by apply Hw.
  - by apply H.
  - intros name. rewrite entry_path. by apply H.
  - intros name. rewrite wentry_path. by apply Hw.
Qed.
(** A lock file changes nothing verification reads. *)
Lemma agree_lock (d : disk) lock n : lock = lock_path j \/ lock = witness_lock_path j -> agree j d (<[lock := n]> d).
Proof.
  intros [->| ->]; apply agree_intro; intros x Hx; rewrite lookup_insert_ne; try done;
    unfold lock_path, witness_lock_path;
    first [apply Hindep|apply independent_sym|intros E%app_inv_head; congruence].
Qed.
Lemma agree_trans (d1 d2 d3 : disk) : agree j d1 d2 -> agree j d2 d3 -> agree j d1 d3.
Proof. intros [] []. split; intros; etransitivity; eauto. Qed.
Lemma agree_refl (d : disk) : agree j d d.
Proof. by split. Qed.
Lemma locked_outcomes {A : Type} (body : act machine A) (d : disk) (Q : Res A -> disk -> Prop) :
  links_ok d ->
  (forall d', agree j d d' -> links_ok d' -> outcomes body d' Q) ->
  (forall e d', agree j d d' -> Q (Raise e) d') ->
  outcomes (exclusively j body) d Q.
Proof.
  intros Hl Hbody Hraise. unfold exclusively. apply outcomes_bind, exclusive_lock_outcomes. intros r d1 Hd1.
  assert (agree j d d1 /\ links_ok d1) as [Ha1 Hl1].
  { destruct Hd1 as [->|[Hn ->]]; [split; [apply agree_refl|done]|].
    split; [apply agree_lock; by left|by apply links_ok_fresh]. }
  destruct r as [[]|]; [|by apply Hraise]. apply outcomes_bind, exclusive_lock_outcomes. intros r d2 Hd2.
  assert (agree j d1 d2 /\ links_ok d2) as [Ha2 Hl2].
  { destruct Hd2 as [->|[Hn ->]]; [split; [apply agree_refl|done]|].
    split; [apply agree_lock; by right|by apply links_ok_fresh]. }
  pose proof (agree_trans _ _ _ Ha1 Ha2). destruct r as [[]|]; [by apply Hbody|by apply Hraise].
Qed.
Lemma append_outcomes (d : disk) st (pid : Z) (nonce : bytes) (a : Deletion) :
  verified d st cs -> links_ok d -> len cs + 1 < 10 ^ 20 ->
  outcomes (append float_text seal unseal pid nonce j a) d (fun _ d' => good d').
Proof.
  intros V Hl Hroom. assert (forall d', agree j d d' -> good d') as Hgood by (intros d'; by apply (good_agree _ _ st)).
  pose proof (Hgood d (agree_refl d)) as Hg.
  unfold append. apply outcomes_bind, outcomes_lift. destruct (lifecycle_hmac _ _ _); [|done].
  apply outcomes_bind, outcomes_lift. destruct (compare_digest _ _) as [same|]; [|done].
  destruct (negb same); [by apply outcomes_raise|]. apply outcomes_catch. eapply outcomes_mono; [|apply (locked_outcomes _ _ (fun _ d' => good d'))].
  - intros [c|e] d' H; [done|]. by apply outcomes_raise.
  - done.
  - intros d' Ha Hl'. pose proof (Hgood d' Ha) as Hg'.
    assert (verify_locked float_text unseal j d' = Ok (st, cs)) as Hv.
    { rewrite (verify_locked_frame _ _ _ _ _ Ha). by apply verify_locked_ok. }
    apply outcomes_bind, outcomes_look. rewrite Hv. destruct (find _ cs) as [c|].
    + apply outcomes_bind, outcomes_lift. destruct (replay_matches _ _ _ _) as [[]|];
        [by apply outcomes_ret|by apply outcomes_raise|done].
    + apply append_entry_outcomes; [by apply verify_locked_ok|done|done].
  - intros e d'. apply Hgood.
Qed.
End atomic.

(** ** Theorems *)
Lemma verify_ok float_text unseal j d cs : verify float_text unseal j d = Ok cs ->
  exists st, verified float_text unseal j d st cs.
Proof.
  unfold verify, with_shared_locks. intros H%map_exn_ok. apply res_bind_ok in H as ([] & _ & H).
  apply res_bind_ok in H as ([] & _ & H). apply res_bind_ok in H as ([st cs'] & H & [= <-]).
  exists st. by apply verify_locked_ok.
Qed.

(** An append that stops before its first system call leaves the tree alone. *)
Lemma append_inert float_text seal unseal pid nonce j a :
  inert (append float_text seal unseal pid nonce j a).
Proof.
  unfold append, exclusively, exclusive_lock, append_entry, write_new, replace_state, create_excl, write_file, link,
    replace, unlink_if_present. inert.
Qed.

(** C38: The witnesses pin the journal: two trees that verify with the same witness
    files hold the same commitments, unless the two trees' entry files under one
    sequence number are different texts with the same SHA-256. *)
Theorem witness_pins_journal float_text unseal j (d d' : disk) cs cs'
  (Hverify : verify float_text unseal j d = Ok cs)
  (Hverify' : verify float_text unseal j d' = Ok cs')
  (Hsame : forall name, d !! (witness_entries_root j ++ [name]) = d' !! (witness_entries_root j ++ [name])) :
  cs = cs' \/ exists k b b', 1 <= k <= len cs /\
    read_bytes d (entries_root j ++ [entry_file k]) = Ok b /\
    read_bytes d' (entries_root j ++ [entry_file k]) = Ok b' /\ b <> b' /\ sha256_hex b = sha256_hex b'.
Proof.
  apply verify_ok in Hverify as [st V]. apply verify_ok in Hverify' as [st' V'].
  destruct (witnessed_same _ _ _ _ _ _ _ _ _ V V' Hsame) as [->|(k & Hk & b & b' & H)]; [by left|right; eauto].
Qed.

(** C40: An append is atomic: after any number of its system calls, a tree that
    still verifies holds the commitments from before or exactly one more. *)
Theorem append_atomic float_text seal unseal settings j (pid : Z) (nonce : bytes) (a : Deletion) (d : disk) (power : nat) cs
  (Hj : deletion_commitment_journal settings = Ok j)
  (Hlinks : links_ok d)
  (Hroom : len cs + 1 < 10 ^ 20)
  (Hverify : verify float_text unseal j d = Ok cs) :
  forall cs', verify float_text unseal j
      (files (append float_text seal unseal pid nonce j a (MkMachine d power)).2) = Ok cs' ->
    cs' = cs \/ exists c, cs' = cs ++ [c].
Proof.
  intros cs' [st' V']%verify_ok. apply verify_ok in Hverify as [st V].
  exact (append_outcomes float_text seal unseal j (constructed_independent _ _ Hj) cs d st pid nonce a V Hlinks Hroom
    power st' cs' V').
Qed.

Module JournalDemo.
(** A toy cipher with a keyed tag. *)
Definition tag (key nonce text data : bytes) : bytes := take 16 (hmac_sha256 key (nonce ++ data ++ text)).
Definition seal (key nonce text data : bytes) : bytes := text ++ tag key nonce text data.
Definition unseal (key nonce sealed data : bytes) : option bytes :=
  let text := take (length sealed - 16) sealed in
  if bool_decide (sealed = seal key nonce text data) then Some text else None.
Definition settings : LifecycleSettings :=
  MkLifecycleSettings (Some (u "hmac-key-hmac-key-hmac-key-hmac-key"))
    (Some (u "aead-key-aead-key-aead-key-aead-key")) (Some (u "witness-key-witness-key-witness-key"))
    (Some [u "journal"]) (Some [u "witness"]).
Definition j : DeletionCommitmentJournal :=
  MkJournal [u "journal"] [u "witness"] (u "hmac-key-hmac-key-hmac-key-hmac-key")
    (u "witness-key-witness-key-witness-key") (sha256_hex (u "hmac-key-hmac-key-hmac-key-hmac-key"))
    (sha256_hex (u "aead-key-aead-key-aead-key-aead-key")) (sha256_hex (u "witness-key-witness-key-witness-key"))
    settings.
Definition now : datetime := MkDatetime 1700000000000000 (Some 0).
Definition nonce : bytes := replicate 12 7.
(** What [initialize] leaves. *)
Definition file (inode : Z) (payload : list (str * pyval)) : jnode := JFile inode (line payload) 384 1.
Definition lock (inode : Z) : jnode := JFile inode [] 384 1.
Definition initial : disk :=
  <[ [] := JDir 493 ]> (<[ root j := JDir 448 ]> (<[ entries_root j := JDir 448 ]> (<[ lock_path j := lock 1 ]>
  (<[ witness_root j := JDir 448 ]> (<[ witness_entries_root j := JDir 448 ]> (<[ witness_lock_path j := lock 2 ]>
  (<[ witness_entries_root j ++ [entry_file 0] := file 3 (witness_payload j 0 _ZERO_DIGEST _ZERO_DIGEST now) ]>
  (<[ state_path j := file 4 (fresh_state j now) ]> ∅)))))))).
Definition or_empty (r : Res str) : str := match r with Ok s => s | Raise _ => [] end.
Definition deletion (id : string) : Deletion :=
  MkDeletion (u id) (u "user_1") (or_empty (lifecycle_hmac settings (u "subject") (u "user_1")))
    (u "generation-1") now now (u "policy-1").
Example constructed : deletion_commitment_journal settings = Ok j.
Proof. vm_compute. reflexivity. Qed.
Example starts_empty : verify id unseal j initial = Ok [].
Proof. vm_compute. reflexivity. Qed.
Definition one_name (d : disk) (x : list str * jnode) : bool :=
  match x.2 with
  | JFile i _ _ 1 => forallb (fun y => negb (inode_of y.2 =? i) || bool_decide (y.1 = x.1)
      || match y.2 with JFile _ _ _ _ => false | _ => true end) (map_to_list d)
  | _ => true
  end.
Lemma links_ok_check (d : disk) : forallb (one_name d) (map_to_list d) = true -> links_ok d.
Proof.
  intros H p q i pl m pl' m' k Hp Hq. rewrite forallb_forall in H.
  specialize (H (p, JFile i pl m 1) ltac:(by apply list_elem_of_In, elem_of_map_to_list)).
  cbn in H. rewrite forallb_forall in H.
  specialize (H (q, JFile i pl' m' k) ltac:(by apply list_elem_of_In, elem_of_map_to_list)).
  cbn in H. rewrite Z.eqb_refl, orb_false_r in H. cbn in H. by bool_facts.
Qed.
Lemma initial_links : links_ok initial.
Proof. apply links_ok_check. vm_compute. reflexivity. Qed.
End JournalDemo.

Lemma witness_pins_journal_witness :
  [] = ([] : list DeletionCommitment) \/ exists k (b b' : bytes), 1 <= k <= 0 /\
    read_bytes JournalDemo.initial (entries_root JournalDemo.j ++ [entry_file k]) = Ok b /\
    read_bytes JournalDemo.initial (entries_root JournalDemo.j ++ [entry_file k]) = Ok b' /\
    b <> b' /\ sha256_hex b = sha256_hex b'.
Proof.
  apply (witness_pins_journal id JournalDemo.unseal JournalDemo.j JournalDemo.initial JournalDemo.initial);
    [exact JournalDemo.starts_empty|exact JournalDemo.starts_empty|reflexivity].
Defined.
Lemma append_atomic_witness :
  [] = ([] : list DeletionCommitment) \/ exists c, [] = ([] : list DeletionCommitment) ++ [c].
Proof.
  apply (append_atomic id JournalDemo.seal JournalDemo.unseal JournalDemo.settings JournalDemo.j 7 JournalDemo.nonce
           (JournalDemo.deletion "d1") JournalDemo.initial 0);
    [exact JournalDemo.constructed|exact JournalDemo.initial_links|reflexivity|exact JournalDemo.starts_empty|].
  rewrite append_inert. exact JournalDemo.starts_empty.
Defined.
