(* ===== verification/DeletionJournalProgress.v ===== *)
(** * Progress of the deletion journal

    The journal implements an append-only log.  On an orderly tree, one whose last
    witness is in canonical form and that holds no stale temporary file, an append
    of a recordable deletion always returns: it extends the log by that deletion,
    returns the commitment recorded for the same deletion, or refuses a different
    one under a recorded id; and it leaves an orderly tree. *)
From S2P Require Import Prelude PyTime Timestamps Json Sha256 JsonText Base64 JsonBytes FlatRecords Lifecycle Disk DeletionJournal DeletionJournalSafety.
Local Open Scope Z_scope.

(** ** Texts of a record *)
Lemma short_le n m s : (n <= m)%nat -> short n s -> short m s.
Proof. intros H [Hp Hl]. split; [done|lia]. Qed.
Lemma printable_u s : forallb (fun c => (32 <=? c) && (c <=? 126)) (u s) = true -> printable (u s).
Proof.
  rewrite forallb_forall. intros H. apply Forall_forall. intros c Hc%list_elem_of_In%H. lia.
Qed.
Ltac literal := split; [apply printable_u; vm_compute; reflexivity|vm_compute; repeat constructor].
Lemma digest_short s : is_digest s = true -> short 64 s.
Proof.
  unfold is_digest. rewrite andb_true_iff, Nat.eqb_eq, forallb_forall. intros [Hl H]. split; [|lia].
  apply Forall_forall. intros c Hc%list_elem_of_In%H. unfold is_hex_lower in Hc. lia.
Qed.
Lemma sha256_digest b : is_digest (sha256_hex b) = true.
Proof. unfold is_digest. by rewrite length_sha256_hex, sha256_hex_lower. Qed.
Lemma hmac_digest key msg : is_digest (hex (hmac_sha256 key msg)) = true.
Proof. apply sha256_digest. Qed.
Lemma zero_digest : is_digest _ZERO_DIGEST = true.
Proof. reflexivity. Qed.
Lemma time_short d : short 27 (utc_text d).
Proof.
  unfold utc_text. rewrite isoformat_us_z_eq. split.
  - apply printable_app. split; [eapply Forall_impl; [apply stamp_chars|]; cbn; lia|].
    by apply printable_u.
  - rewrite length_app. unfold stamp. destruct (civil _) as [[y m] dd]. rewrite !length_app, !length_fixed. done.
Qed.
Lemma same_digest a b : printable a -> printable b -> compare_digest a b = Ok (bool_decide (a = b)).
Proof.
  intros Ha Hb. unfold compare_digest. destruct (existsb _ (a ++ b)) eqn:E; [|done].
  apply existsb_exists in E as (c & Hc%list_elem_of_In & H). unfold printable in Ha, Hb.
  rewrite Forall_forall in Ha, Hb. apply elem_of_app in Hc as [Hc%Ha|Hc%Hb]; lia.
Qed.
Lemma same_digest_refl a : printable a -> compare_digest a a = Ok true.
Proof. intros H. by rewrite same_digest, bool_decide_true by done. Qed.
(** A canonical timestamp is read as its instant. *)
Lemma parse_utc_text d field : in_range (instant d) ->
  parse_utc (Some (PStr (utc_text d))) field = Ok (MkDatetime (instant d) (Some 0)).
Proof.
  intros H. unfold parse_utc, utc_text. rewrite isoformat_us_z_eq.
  assert (ends_with (u "Z") (stamp (instant d) ++ u "Z") = true) as ->.
  { unfold ends_with. rewrite rev_app_distr. apply starts_with_app. }
  cbn [negb]. change (u "Z") with [90]. rewrite removelast_last. unfold fromisoformat.
  rewrite parse_stamp by done. rewrite isoformat_us_z_eq.
  assert (instant (MkDatetime (instant d) (Some 0)) = instant d) as -> by (unfold instant at 1; cbn; lia).
  by rewrite bool_decide_true.
Qed.
Lemma parse_utc_short v field t : parse_utc v field = Ok t -> exists s, v = Some (PStr s) /\ short 27 s.
Proof.
  unfold parse_utc. destruct v as [[| | | |s| |]|]; try done. intros H. inv_step.
  destruct (fromisoformat _); [|done]. inv_step. bool_facts. subst. exists (utc_text a). split; [done|apply time_short].
Qed.

(** ** Envelopes of short subjects *)
Lemma urlsafe_length raw : (3 * length (urlsafe_b64encode raw) <= 4 * length raw + 8)%nat.
Proof.
  assert (4 * length raw <= 3 * length (b64_encode raw) <= 4 * length raw + 2)%nat as H.
  { induction raw as [|a|a b|a b c l IH] using bytes_ind; cbn [b64_encode length] in *; lia. }
  assert ((3 * length (b64_encode raw) = 4 * length raw)%nat \/ len (b64_encode raw) mod 4 <> 0) as Hp.
  { clear H. induction raw as [|a|a b|a b c l IH] using bytes_ind; cbn [b64_encode]; [by left|right..|].
    - vm_compute. done.
    - vm_compute. done.
    - destruct IH as [IH|IH]; [left; cbn [length]; lia|right]. unfold len in *. cbn [length]. zlia. }
  unfold urlsafe_b64encode. rewrite length_app, length_replicate. unfold len in *.
  pose proof (Z.mod_pos_bound (- Z.of_nat (length (b64_encode raw))) 4). destruct Hp as [Hp|Hp]; zlia.
Qed.
Lemma urlsafe_printable raw : Forall is_byte raw -> printable (urlsafe_b64encode raw).
Proof.
  intros H%b64_encode_chars. unfold urlsafe_b64encode. apply printable_app. rewrite forallb_forall in H. split.
  - apply Forall_forall. intros c Hc%list_elem_of_In%H. unfold base64url_char, alphanumeric in Hc. lia.
  - apply Forall_forall. intros c [-> _]%elem_of_replicate. lia.
Qed.
Lemma encode_printable s : printable s -> encode s = Ok s.
Proof.
  intros H. unfold encode, utf8_encode.
  assert (forall c, 32 <= c <= 126 -> is_surrogate c = false /\ utf8_char c = [c]) as Hc.
  { intros c Hc. unfold is_surrogate, utf8_char. rewrite (proj2 (Z.ltb_lt c 128)) by lia. split; [lia|done]. }
  assert (existsb is_surrogate s = false /\ flat_map utf8_char s = s) as [-> ->]; [|done].
  induction H as [|c s Hs _ [IH1 IH2]]; [done|]. destruct (Hc c Hs) as [E1 E2]. cbn [existsb flat_map].
  by rewrite E1, E2, IH1, IH2.
Qed.
Lemma printable_text s : printable s -> text s.
Proof. intros H. eapply Forall_impl; [exact H|]. unfold code_point. cbn. lia. Qed.

Section progress.
Context (float_text : str -> str).
Context (seal : bytes -> bytes -> bytes -> bytes -> bytes)
  (unseal : bytes -> bytes -> bytes -> bytes -> option bytes) {aead : Aead seal unseal}.
Context (j : DeletionCommitmentJournal).
Abbreviation read := (read_json float_text).

(** An envelope of a short subject. *)
Lemma encrypt_short key nonce id subject :
  lifecycle_aead (settings j) = Ok key -> length nonce = 12%nat -> Forall is_byte nonce ->
  short 255 id -> short 255 subject -> subject <> [] ->
  exists ct, encrypt_subject seal (settings j) nonce id subject = Ok ct /\ short 400 ct /\
    starts_with (u "v1.") ct = true /\ decrypt_subject unseal (settings j) id ct = Ok subject.
Proof.
  intros Hkey Hn Hb [Hid Hidl] [Hs Hsl] Hne.
  assert (exists context, lifecycle_provider_context id (u "subject") = Ok context) as [context Hctx].
  { eexists. unfold lifecycle_provider_context. apply encode_printable. apply printable_app.
    split; [by apply printable_u|]. rewrite !printable_app. split_and!; [by apply printable_u..|done]. }
  assert (encrypt_subject seal (settings j) nonce id subject =
    Ok (u "v1." ++ urlsafe_b64encode (nonce ++ seal key nonce subject context))) as E.
  { unfold encrypt_subject, encrypt_provider_value. rewrite Hkey, Hctx, encode_printable by done. cbn [res_bind].
    assert ((1 <=? len subject) && (len subject <=? 255) = true) as ->; [|done].
    rewrite andb_true_iff, !Z.leb_le. unfold len. destruct subject; [done|]. cbn [length] in *. lia. }
  eexists. split; [exact E|]. split; [|split; [apply starts_with_app|]].
  - assert (Forall is_byte (nonce ++ seal key nonce subject context)) as Hby by (apply Forall_app; split; [done|apply (seal_bytes seal unseal), (encode_bytes subject); [by apply printable_text|by apply encode_printable]]).
    split; [apply printable_app; split; [by apply printable_u|by apply urlsafe_printable]|].
    pose proof (urlsafe_length (nonce ++ seal key nonce subject context)) as Hl. rewrite length_app in Hl |- *.
    rewrite (seal_length seal unseal key nonce subject context) in Hl. change (length (u "v1.")) with 3%nat. lia.
  - exact (provider_roundtrip seal unseal _ nonce id (u "subject") subject _ Hn Hb (printable_text _ Hs) E).
Qed.

(** ** Lines on disk *)
Lemma canonical_sorted p : flat p -> NoDup p.*1 -> canonical (sort_keys p) = canonical p.
Proof. intros Hp Hnd. symmetry. apply dumps_flat_perm; [by rewrite sort_keys_perm|done|done]. Qed.
Lemma line_size p : flat p -> (length p <= 11)%nat -> len (line p) <= 16384.
Proof.
  intros Hp Hl. destruct (dumps_flat p Hp) as (E & _ & Hw). pose proof (weight_bound p Hp).
  unfold line, canonical. rewrite E. unfold len. rewrite length_app. cbn [length]. lia.
Qed.
Lemma read_line (d : disk) path i p : d !! path = Some (JFile i (line p) 384 1) ->
  flat p -> NoDup p.*1 -> (length p <= 11)%nat -> read d path = Ok (sort_keys p).
Proof.
  intros Hd Hp Hnd Hl. unfold read_json. rewrite Hd. cbn [Z.eqb Pos.eqb negb orb].
  assert (ends_with [10] (line p) = true) as ->.
  { unfold ends_with, line. rewrite rev_app_distr. apply starts_with_app. }
  cbn [negb orb]. pose proof (line_size p Hp Hl) as Hs. rewrite (proj2 (Z.ltb_ge _ _)) by lia.
  unfold line, canonical. by rewrite loads_flat.
Qed.
Lemma mac_sorted label key p : flat p -> NoDup p.*1 ->
  mac j label (dict_pop key (sort_keys p)) = mac j label (dict_pop key p).
Proof. intros Hp Hnd. unfold mac, canonical. by rewrite dumps_pop_sorted. Qed.
Lemma witness_mac_sorted key p : flat p -> NoDup p.*1 ->
  witness_mac j (dict_pop key (sort_keys p)) = witness_mac j (dict_pop key p).
Proof. intros Hp Hnd. unfold witness_mac, canonical. by rewrite dumps_pop_sorted. Qed.
Lemma mac_short label p : short 64 (mac j label p).
Proof. apply digest_short, hmac_digest. Qed.
Lemma witness_mac_short p : short 64 (witness_mac j p).
Proof. apply digest_short, hmac_digest. Qed.

(** ** Entries *)
(** A deletion the journal can record. *)
Record recordable (nonce : bytes) (a : Deletion) : Prop := {
  rec_id : short 255 (new_deletion_id a) /\ new_deletion_id a <> [];
  rec_generation : short 255 (new_generation_id a) /\ new_generation_id a <> [];
  rec_policy : short 255 (new_policy_version a) /\ new_policy_version a <> [];
  rec_subject : short 255 (new_subject a) /\ new_subject a <> [];
  rec_hmac : lifecycle_hmac (settings j) (u "subject") (new_subject a) = Ok (new_subject_hmac a);
  rec_times : in_range (instant (new_generation_created_at a)) /\ in_range (instant (new_committed_at a));
  rec_nonce : length nonce = 12%nat /\ Forall is_byte nonce
}.
Lemma lifecycle_hmac_digest label value h : lifecycle_hmac (settings j) label value = Ok h -> is_digest h = true.
Proof.
  unfold lifecycle_hmac. destruct (lifecycle_hmac_key _); [|done]. intros H.
  apply res_bind_ok in H as (k & _ & H). apply res_bind_ok in H as (m & _ & [= <-]). apply hmac_digest.
Qed.
Definition utc_value (d : datetime) : datetime := MkDatetime (instant d) (Some 0).
(** The commitment made of a recorded deletion. *)
Definition commitment_of (a : Deletion) (sequence : Z) (ciphertext : str) : DeletionCommitment :=
  MkCommitment sequence (new_deletion_id a) (new_subject_hmac a) ciphertext (new_generation_id a)
    (utc_value (new_generation_created_at a)) (utc_value (new_committed_at a)) (new_policy_version a).

Section entry.
Context (nonce : bytes) (a : Deletion) (Ha : recordable nonce a).
Context (sequence : Z) (Hseq : 0 <= sequence < 10 ^ 20).
Context (ct : str) (Hct : short 400 ct) (Hv1 : starts_with (u "v1.") ct = true)
  (Hopen : decrypt_subject unseal (settings j) (new_deletion_id a) ct = Ok (new_subject a)).
Context (prior : str) (Hprior : is_digest prior = true).
Abbreviation entry := (new_entry j a sequence ct prior).

Lemma entry_keys_eq : entry.*1 = map u entry_keys.
Proof. reflexivity. Qed.
Lemma entry_nodup : NoDup entry.*1.
Proof. rewrite entry_keys_eq. apply (bool_decide_unpack _). vm_compute. exact I. Qed.
Lemma entry_flat : flat entry.
Proof.
  destruct Ha as [[Hid _] [Hg _] [Hp _] _ Hh _ _]. apply lifecycle_hmac_digest, digest_short in Hh.
  apply digest_short in Hprior as Hpr. pose proof (mac_short "entry" (entry_body a sequence ct prior)).
  unfold flat, new_entry, entry_body. cbn [app].
  repeat (apply Forall_cons_2; [split; [literal|]|]); [..|apply Forall_nil_2]; cbn [flat_value snd];
    first [done|eapply short_le; [|eassumption]; lia|eapply short_le; [|apply time_short]; lia|literal].
Qed.
Lemma verify_new_entry (d : disk) seen : new_deletion_id a ∉ seen ->
  read d (entries_root j ++ [entry_file sequence]) = Ok (sort_keys entry) ->
  verify_entry float_text unseal j d sequence (entry_file sequence) prior seen
  = Ok (commitment_of a sequence ct, sha256_hex (line entry)).
Proof.
  intros Hseen Hread. pose proof entry_nodup as Hnd. pose proof entry_flat as Hf.
  destruct Ha as [[_ Hid] [_ Hg] [_ Hp] _ Hh [Ht1 Ht2] _].
  unfold verify_entry. rewrite (bool_decide_true _) by (by apply entry_sequence_some). cbn [negb].
  rewrite Hread. cbn [res_bind]. rewrite keys_are_sorted, keys_are_exact by done.
  rewrite !dict_get_sorted by done. rewrite mac_sorted by done.
  change (dict_get (u "format") entry) with (Some (PStr _FORMAT)). cbn [is_str negb orb]. rewrite bool_decide_true by done.
  change (dict_get (u "entry_mac") entry) with (Some (PStr (mac j "entry" (entry_body a sequence ct prior)))).
  assert (dict_pop (u "entry_mac") entry = entry_body a sequence ct prior) as ->.
  { apply pop_appended. apply (bool_decide_unpack _). vm_compute. exact I. }
  cbn [negb mac_agrees]. rewrite same_digest_refl by apply mac_short. cbn [res_bind negb].
  change (dict_get (u "sequence") entry) with (Some (PInt sequence)).
  change (dict_get (u "prior_digest") entry) with (Some (PStr prior)). cbn [equals_int is_str].
  rewrite Z.eqb_refl, bool_decide_true by done. cbn [negb orb]. unfold entry_values. rewrite !dict_get_sorted by done.
  change (dict_get (u "deletion_id") entry) with (Some (PStr (new_deletion_id a))).
  change (dict_get (u "subject_hmac") entry) with (Some (PStr (new_subject_hmac a))).
  change (dict_get (u "subject_ciphertext") entry) with (Some (PStr ct)).
  change (dict_get (u "backup_generation_id") entry) with (Some (PStr (new_generation_id a))).
  change (dict_get (u "policy_version") entry) with (Some (PStr (new_policy_version a))).
  change (dict_get (u "backup_generation_created_at") entry) with (Some (PStr (utc_text (new_generation_created_at a)))).
  change (dict_get (u "committed_at") entry) with (Some (PStr (utc_text (new_committed_at a)))).
  cbv iota. rewrite !bool_decide_false by done. rewrite Hv1, (lifecycle_hmac_digest _ _ _ Hh). cbn [negb orb].
  rewrite !parse_utc_text by done. cbn [res_bind]. rewrite Hopen, Hh. cbn [res_bind].
  rewrite same_digest_refl by (eapply digest_short, lifecycle_hmac_digest, Hh). cbn [res_bind negb].
  by rewrite canonical_sorted.
Qed.
End entry.

(** ** The state *)
Record good_state (st : list (str * pyval)) : Prop := {
  gs_keys : keys_are state_keys st = true;
  gs_format : dict_get (u "format") st = Some (PStr _FORMAT);
  gs_created : exists t, parse_utc (dict_get (u "created_at") st) "creation time" = Ok t;
  gs_hmac : dict_get (u "hmac_key_sha256") st = Some (PStr (hmac_fingerprint j));
  gs_aead : dict_get (u "aead_key_sha256") st = Some (PStr (aead_fingerprint j));
  gs_witness : dict_get (u "witness_hmac_key_sha256") st = Some (PStr (witness_hmac_fingerprint j));
  gs_mac : dict_get (u "state_mac") st = Some (PStr (mac j "state" (dict_pop (u "state_mac") st)));
  gs_sequence : dict_get (u "head_sequence") st = Some (PInt (head_sequence st)) /\ 0 <= head_sequence st;
  gs_digest : dict_get (u "head_digest") st = Some (PStr (head_digest st)) /\ is_digest (head_digest st) = true
}.
Lemma mac_agrees_true supplied valid : mac_agrees supplied valid = Ok true -> supplied = Some (PStr valid).
Proof.
  unfold mac_agrees, compare_digest. destruct supplied as [[]|]; try done. destruct (existsb _ _); [done|].
  intros [= H]. by bool_facts; subst.
Qed.
Lemma verify_state_ok st : verify_state j st = Ok tt <-> good_state st.
Proof.
  split.
  - unfold verify_state. intros H. inv_step. apply res_bind_ok in H as (t & Ht & H). do 3 inv_step.
    apply res_bind_ok in H as (same & Hm & H). inv_step.
    destruct (dict_get (u "head_sequence") st) as [[]|] eqn:En; try done.
    destruct (dict_get (u "head_digest") st) as [[]|] eqn:Ed; try done. inv_step. bool_facts.
    repeat match goal with H : is_str _ _ = true |- _ => apply is_str_true in H end.
    subst same. apply mac_agrees_true in Hm.
    split; unfold head_sequence, head_digest; rewrite ?En, ?Ed; eauto.
  - intros [Hk Hf [t Ht] Hh Ha Hw Hm [Hn Hn0] [Hd Hd0]]. unfold verify_state.
    rewrite Hk, Hf, Ht, Hh, Ha, Hw, Hm, Hn, Hd. cbn [negb orb is_str res_bind mac_agrees].
    rewrite !bool_decide_true, same_digest_refl by (done || apply mac_short). cbn [negb orb res_bind].
    by rewrite Hd0, (proj2 (Z.ltb_ge _ _) Hn0).
Qed.
Context (Hprint : is_digest (hmac_fingerprint j) = true /\ is_digest (aead_fingerprint j) = true
  /\ is_digest (witness_hmac_fingerprint j) = true).

Lemma good_state_flat st : good_state st -> NoDup st.*1 -> head_sequence st < 10 ^ 20 ->
  flat st /\ (length st <= 11)%nat.
Proof.
  intros [Hk Hf [t Ht] Hh Ha Hw Hm [Hn Hn0] [Hd Hd0]] Hnd Hlt. destruct Hprint as (P1 & P2 & P3).
  apply digest_short in P1, P2, P3, Hd0. apply parse_utc_short in Ht as (created & Hc & Hcs).
  split; [|pose proof (keys_are_length _ _ Hnd Hk) as Hl; cbn in Hl; lia].
  apply (flat_by_keys state_keys); [done|done|]. intros k Hin. unfold state_keys in Hin.
  repeat (apply elem_of_cons in Hin as [->|Hin]; [split; [literal|]; eexists; (split; [eassumption|]); cbn [flat_value];
    first [lia|eapply short_le; [|eassumption]; lia|eapply short_le; [|apply mac_short]; lia|literal]|]).
  by apply elem_of_nil in Hin.
Qed.
Lemma good_state_sorted st : flat st -> NoDup st.*1 -> good_state st -> good_state (sort_keys st).
Proof.
  intros Hfl Hnd [Hk Hf Ht Hh Ha Hw Hm Hn Hd]. split; unfold head_sequence, head_digest;
    rewrite ?dict_get_sorted, ?keys_are_sorted, ?mac_sorted by done; try done.
Qed.

Section next_state.
Context (st : list (str * pyval)) (Hst : good_state st) (Hnd : NoDup st.*1).
Context (sequence : Z) (Hseq : 0 <= sequence < 10 ^ 20) (digest : str) (Hdigest : is_digest digest = true).
Abbreviation body := (dict_set (u "head_digest") (PStr digest)
  (dict_set (u "head_sequence") (PInt sequence) (dict_pop (u "state_mac") st))).
Abbreviation next := (new_state j st sequence digest).

Lemma body_nodup : NoDup body.*1.
Proof. by apply dict_set_keys, dict_set_keys, pop_keys. Qed.
Lemma body_no_mac : u "state_mac" ∉ body.*1.
Proof.
  rewrite <- get_some_key, !get_set, get_pop. rewrite (bool_decide_true (u "state_mac" = u "state_mac")) by done.
  rewrite !bool_decide_false by (vm_compute; congruence). by intros [].
Qed.
Lemma next_eq : next = body ++ [(u "state_mac", PStr (mac j "state" body))].
Proof. unfold new_state. apply dict_set_fresh, body_no_mac. Qed.
Lemma next_nodup : NoDup next.*1.
Proof. apply dict_set_keys, body_nodup. Qed.
Lemma next_get k : dict_get k next =
  if bool_decide (k = u "state_mac") then Some (PStr (mac j "state" body))
  else if bool_decide (k = u "head_digest") then Some (PStr digest)
  else if bool_decide (k = u "head_sequence") then Some (PInt sequence) else dict_get k st.
Proof. unfold new_state. rewrite !get_set, get_pop. by destruct (bool_decide (k = u "state_mac")). Qed.
(** The same state, with another head. *)
Lemma next_good : good_state next /\ head_sequence next = sequence /\ head_digest next = digest.
Proof.
  assert (head_sequence next = sequence /\ head_digest next = digest) as [En Ed].
  { unfold head_sequence, head_digest. by rewrite !next_get. }
  split; [|done]. destruct Hst as [Hk Hf Ht Hh Ha Hw Hm Hn Hd]. apply keys_are_spec in Hk as [Hk1 Hk2].
  split; rewrite ?En, ?Ed; rewrite ?next_get; try done.
  - apply keys_are_spec. split.
    + intros k Hin%Hk1. rewrite next_get. repeat (case_match; [by eexists|]). done.
    + intros k Hin. unfold new_state in Hin. apply dict_set_in in Hin as [->|Hin]; [done|].
      apply dict_set_in in Hin as [->|Hin]; [done|]. apply dict_set_in in Hin as [->|Hin]; [done|].
      apply Hk2, get_some_key. apply get_some_key in Hin. rewrite get_pop in Hin. by case_match; [destruct Hin|].
  - rewrite next_eq, pop_appended by apply body_no_mac. done.
  - split; [done|lia].
Qed.
Lemma next_read (d : disk) path i : d !! path = Some (JFile i (line next) 384 1) ->
  read d path = Ok (sort_keys next) /\ good_state (sort_keys next) /\
  head_sequence (sort_keys next) = sequence /\ head_digest (sort_keys next) = digest.
Proof.
  intros Hd. destruct next_good as (Hg & En & Ed). pose proof next_nodup as Hnd'.
  destruct (good_state_flat _ Hg Hnd') as [Hf Hl]; [rewrite En; lia|].
  split; [by apply (read_line d path i)|]. split; [by apply good_state_sorted|].
  unfold head_sequence, head_digest in *. by rewrite !dict_get_sorted.
Qed.
Lemma next_created : dict_get (u "created_at") (sort_keys next) = dict_get (u "created_at") st.
Proof. rewrite dict_get_sorted by apply next_nodup. by rewrite next_get. Qed.
End next_state.

(** ** Witnesses *)
Section witness.
Context (sequence : Z) (Hseq : 0 <= sequence < 10 ^ 20).
Context (digest prior : str) (Hdigest : is_digest digest = true) (Hprior : is_digest prior = true).
Context (observed : datetime) (Htime : in_range (instant observed)).
Abbreviation witness := (witness_payload j sequence digest prior observed).

Lemma witness_nodup : NoDup witness.*1.
Proof. change (witness.*1) with (map u witness_keys). apply (bool_decide_unpack _). vm_compute. exact I. Qed.
Lemma witness_flat : flat witness.
Proof.
  destruct Hprint as (P1 & P2 & P3). apply digest_short in P1, P2, P3.
  apply digest_short in Hdigest as Hd. apply digest_short in Hprior as Hp.
  pose proof (witness_mac_short (witness_body j sequence digest prior observed)).
  unfold flat, witness_payload, witness_body. cbn [app].
  repeat (apply Forall_cons_2; [split; [literal|]|]); [..|apply Forall_nil_2]; cbn [flat_value snd];
    first [lia|eapply short_le; [|eassumption]; lia|eapply short_le; [|apply time_short]; lia|literal].
Qed.
Lemma verify_new_witness (d : disk) st cs b c : 1 <= sequence ->
  read d (witness_entries_root j ++ [entry_file sequence]) = Ok (sort_keys witness) ->
  read_bytes d (entries_root j ++ [entry_file sequence]) = Ok b -> sha256_hex b = digest ->
  cs !! Z.to_nat (sequence - 1) = Some c -> committed_at c = utc_value observed ->
  verify_witness float_text j d st cs sequence (entry_file sequence) prior = Ok (sha256_hex (line witness)).
Proof.
  intros Hone Hread Hb Hsha Hc Hobs. pose proof witness_nodup as Hnd. pose proof witness_flat as Hf.
  unfold verify_witness. rewrite (bool_decide_true _) by (apply entry_sequence_some; split; [lia|done]). cbn [negb].
  rewrite Hread. cbn [res_bind]. rewrite keys_are_sorted, keys_are_exact by done.
  rewrite !dict_get_sorted by done. rewrite witness_mac_sorted by done.
  change (dict_get (u "format") witness) with (Some (PStr _WITNESS_FORMAT)). cbn [is_str negb orb].
  rewrite bool_decide_true by done.
  change (dict_get (u "witness_mac") witness)
    with (Some (PStr (witness_mac j (witness_body j sequence digest prior observed)))).
  assert (dict_pop (u "witness_mac") witness = witness_body j sequence digest prior observed) as ->.
  { apply pop_appended. apply (bool_decide_unpack _). vm_compute. exact I. }
  cbn [negb mac_agrees]. rewrite same_digest_refl by apply witness_mac_short. cbn [res_bind negb].
  rewrite (proj2 (Z.eqb_neq sequence 0)) by lia. rewrite Hb, Hc. cbn [res_bind]. rewrite Hsha.
  change (dict_get (u "sequence") witness) with (Some (PInt sequence)).
  change (dict_get (u "journal_head_digest") witness) with (Some (PStr digest)).
  change (dict_get (u "prior_witness_digest") witness) with (Some (PStr prior)).
  change (dict_get (u "journal_hmac_key_sha256") witness) with (Some (PStr (hmac_fingerprint j))).
  change (dict_get (u "journal_aead_key_sha256") witness) with (Some (PStr (aead_fingerprint j))).
  change (dict_get (u "witness_hmac_key_sha256") witness) with (Some (PStr (witness_hmac_fingerprint j))).
  change (dict_get (u "observed_at") witness) with (Some (PStr (utc_text observed))).
  cbn [equals_int is_str]. rewrite Z.eqb_refl, !bool_decide_true by done. cbn [negb orb].
  rewrite parse_utc_text by done. cbn [res_bind]. rewrite Hobs. unfold utc_value, dt_eqb. rewrite Z.eqb_refl. cbn [negb].
  by rewrite canonical_sorted.
Qed.
End witness.

(** A witness depends on its file, its entry, the creation time and its commitment. *)
Lemma verify_witness_more (d d' : disk) st st' cs cs' i name prior :
  d' !! (witness_entries_root j ++ [name]) = d !! (witness_entries_root j ++ [name]) ->
  d' !! (entries_root j ++ [entry_file i]) = d !! (entries_root j ++ [entry_file i]) ->
  dict_get (u "created_at") st' = dict_get (u "created_at") st ->
  (i <> 0 -> cs' !! Z.to_nat (i - 1) = cs !! Z.to_nat (i - 1)) ->
  verify_witness float_text j d' st' cs' i name prior = verify_witness float_text j d st cs i name prior.
Proof.
  intros Hw He Hc Hcs. unfold verify_witness, read_json, read_bytes. rewrite Hw, He, Hc.
  destruct (Z.eqb_spec i 0) as [->|Hi]; [done|]. by rewrite Hcs.
Qed.
(** Checking one witness after the others: the digest carried over is the last one's. *)
Lemma verify_witnesses_extend (d d' : disk) st st' cs cs' i n prior g g' :
  (forall k, i <= k <= i + Z.of_nat n -> forall p,
    verify_witness float_text j d' st' cs' k (entry_file k) p = verify_witness float_text j d st cs k (entry_file k) p) ->
  verify_witnesses float_text j d st cs i (entry_files i (S n)) prior = Ok tt ->
  (forall p r, verify_witness float_text j d st cs (i + Z.of_nat n) (entry_file (i + Z.of_nat n)) p = Ok r -> r = g) ->
  verify_witness float_text j d' st' cs' (i + Z.of_nat n + 1) (entry_file (i + Z.of_nat n + 1)) g = Ok g' ->
  verify_witnesses float_text j d' st' cs' i (entry_files i (S (S n))) prior = Ok tt.
Proof.
  revert i prior. induction n as [|n IH]; intros i prior Hsame H Hg Hnew.
  - change (entry_files i 1) with [entry_file i] in H. change (entry_files i 2) with [entry_file i; entry_file (i + 1)].
    cbn [verify_witnesses] in H |- *. rewrite Hsame by lia. apply res_bind_ok in H as (dg & Hw & _). rewrite Hw. cbn [res_bind].
    rewrite Z.add_0_r in Hg, Hnew. apply Hg in Hw as ->. by rewrite Hnew.
  - change (entry_files i (S (S n))) with (entry_file i :: entry_files (i + 1) (S n)) in H.
    change (entry_files i (S (S (S n)))) with (entry_file i :: entry_files (i + 1) (S (S n))).
    cbn [verify_witnesses] in H |- *. rewrite Hsame by lia. apply res_bind_ok in H as (dg & Hw & H). rewrite Hw. cbn [res_bind].
    replace (i + Z.of_nat (S n)) with (i + 1 + Z.of_nat n) in * by lia.
    apply (IH (i + 1) dg); [intros k Hk; apply Hsame; lia|done..].
Qed.
Lemma verify_witness_digest (d : disk) st cs i name prior r w :
  read d (witness_entries_root j ++ [name]) = Ok w -> verify_witness float_text j d st cs i name prior = Ok r ->
  r = sha256_hex (canonical w ++ [10]).
Proof.
  intros Hw H. unfold verify_witness in H. inv_step. rewrite Hw in H. cbn [res_bind] in H. inv_step.
  apply res_bind_ok in H as (same & _ & H). inv_step. apply res_bind_ok in H as (x & _ & H).
  apply res_bind_ok in H as (y & _ & H). inv_step. apply res_bind_ok in H as (z & _ & H). inv_step. congruence.
Qed.

(** ** Whole runs *)
Lemma write_new_run (pid : Z) (dir : list str) (name : str) (payload : bytes) (d : disk) (k : nat) :
  d !! temporary pid (dir ++ [name]) = None -> d !! (dir ++ [name]) = None -> (exists m, d !! dir = Some (JDir m)) ->
  write_new pid (dir ++ [name]) payload (MkMachine d (4 + k)) = (Ok tt, MkMachine (placed d (dir ++ [name]) payload) k).
Proof.
  intros Ht Hp [m Hm]. pose proof (temporary_ne pid dir name) as Hne.
  set (path := dir ++ [name]) in *. set (tmp := temporary pid path) in *.
  assert (tmp = dir ++ [u "." ++ name ++ u "." ++ dec pid ++ u ".tmp"]) as Etmp by apply temporary_eq.
  assert (parent_ok d tmp = true /\ parent_ok d path = true) as [Hpt Hpp].
  { unfold parent_ok, path. rewrite Etmp, !removelast_last, Hm. done. }
  assert (forall n : jnode, parent_ok (<[tmp := n]> d) path = true) as Hpi.
  { intros n. rewrite parent_insert; [done|]. unfold path. rewrite Etmp, removelast_last. apply snoc_ne. }
  unfold write_new. fold path tmp. cbn [Nat.add].
  eapply finally_run; [apply catch_run|].
  - rewrite (act_bind_run _ _ _ tt (MkMachine (<[tmp := JFile (fresh_inode d) [] 384 1]> d) (3 + k)))
      by (apply syscall_run; by rewrite Ht, Hpt).
    rewrite (act_bind_run _ _ _ tt (MkMachine (<[tmp := JFile (fresh_inode d) payload 384 1]> d) (2 + k)))
      by (apply syscall_run; by rewrite lookup_insert_eq, insert_insert_eq).
    apply syscall_run. rewrite lookup_insert_eq, lookup_insert_ne, Hp, Hpi, insert_insert_eq by done. reflexivity.
  - apply syscall_run. rewrite lookup_insert_ne, lookup_insert_eq by done.
    by rewrite remove_linked.
Qed.
Lemma links_ok_replaced (d : disk) (src dst : list str) (i : Z) pl m :
  links_ok d -> d !! src = Some (JFile i pl m 1) -> links_ok (<[dst := JFile i pl m 1]> (delete src (delete dst d))).
Proof.
  intros Hl Hs p q i' pl1 m1 pl2 m2 n. rewrite !lookup_insert, !lookup_delete.
  destruct (decide (dst = p)) as [<-|Hp], (decide (dst = q)) as [<-|Hq]; try done.
  - intros [= <- <- <-] H. destruct (decide (src = q)) as [<-|Hsq]; [done|].
    destruct Hsq. exact (Hl _ _ _ _ _ _ _ _ Hs H).
  - intros H [= <- <- <- <-]. destruct (decide (src = p)) as [<-|Hsp]; [done|].
    destruct Hsp. symmetry. exact (Hl _ _ _ _ _ _ _ _ H Hs).
  - destruct (decide (src = p)) as [<-|]; [done|]. destruct (decide (src = q)) as [<-|]; [done|]. apply Hl.
Qed.
(** The state file replaced: nothing else changes. *)
Definition restated (d : disk) (payload : bytes) : disk := <[state_path j := JFile (fresh_inode d) payload 384 1]> d.
Lemma replace_state_run (pid : Z) (payload : bytes) (d : disk) (k : nat) :
  links_ok d -> (exists i pl, d !! state_path j = Some (JFile i pl 384 1)) -> d !! state_tmp pid j = None ->
  (exists m, d !! root j = Some (JDir m)) ->
  replace_state pid j payload (MkMachine d (4 + k)) = (Ok tt, MkMachine (restated d payload) k) /\ links_ok (restated d payload).
Proof.
  intros Hl (i & pl & Hst) Ht [m Hm]. pose proof (state_tmp_ne pid j) as Hne. unfold replace_state. fold (state_tmp pid j).
  set (tmp := state_tmp pid j) in *. set (new := fun pl => JFile (fresh_inode d) pl 384 1).
  assert (parent_ok d tmp = true /\ forall n : jnode, parent_ok (<[tmp := n]> d) (state_path j) = true) as [Hpt Hps].
  { unfold parent_ok, tmp, state_tmp, state_path. rewrite !removelast_last, Hm. split; [done|]. intros n.
    rewrite lookup_insert_ne, Hm by apply snoc_ne. done. }
  assert (links_ok (<[tmp := new payload]> d)) as Hl1 by by apply links_ok_fresh.
  assert (<[state_path j := new payload]> (delete tmp (delete (state_path j) (<[tmp := new payload]> d))) = restated d payload) as E.
  { unfold restated. rewrite delete_insert_ne by done. rewrite delete_insert_id by (by rewrite lookup_delete_ne).
    by rewrite insert_delete_eq. }
  split.
  2: { rewrite <- E. apply links_ok_replaced; [done|]. by rewrite lookup_insert_eq. }
  cbn [Nat.add]. rewrite (act_bind_run _ _ _ tt (MkMachine (<[tmp := new []]> d) (3 + k))) by (apply syscall_run; by rewrite Ht, Hpt).
  eapply finally_run.
  - rewrite (act_bind_run _ _ _ tt (MkMachine (<[tmp := new payload]> d) (2 + k)))
      by (apply syscall_run; unfold new; by rewrite lookup_insert_eq, insert_insert_eq).
    apply syscall_run. unfold new. rewrite lookup_insert_eq, lookup_insert_ne, Hst, Hps by done. cbv iota.
    rewrite (remove_single _ _ i pl 384) by (try done; by rewrite lookup_insert_ne).
    unfold new in E. by rewrite E.
  - apply syscall_run. unfold restated. rewrite lookup_insert_ne by done. by rewrite Ht.
Qed.

(** A usable lock file. *)
Definition good_lock (d : disk) (root lock : list str) : Prop :=
  (exists m, d !! root = Some (JDir m)) /\ exists i pl, d !! lock = Some (JFile i pl 384 1).
Lemma shared_lock_run (d : disk) root lock label : good_lock d root lock -> shared_lock d root lock label = Ok tt.
Proof.
  intros [[m Hm] (i & pl & Hl)]. unfold shared_lock, authority_ok, is_link. rewrite Hm, Hl. reflexivity.
Qed.
Lemma exclusive_lock_run (d : disk) root lock label k : good_lock d root lock ->
  exclusive_lock root lock label (MkMachine d k) = (Ok tt, MkMachine d k).
Proof.
  intros [[m Hm] (i & pl & Hl)]. unfold exclusive_lock.
  rewrite (act_bind_run _ _ _ tt (MkMachine d k))
    by (unfold look, authority_ok, is_link; cbn [files]; by rewrite Hm, Hl).
  rewrite (act_bind_run _ _ _ (Some (JFile i pl 384 1)) (MkMachine d k)) by (unfold look; cbn [files]; by rewrite Hl).
  reflexivity.
Qed.
Record locks_good (d : disk) : Prop := {
  lock_good : good_lock d (root j) (lock_path j);
  wlock_good : good_lock d (witness_root j) (witness_lock_path j)
}.
Lemma exclusively_run {A : Type} (body : act machine A) (d : disk) k : locks_good d ->
  exclusively j body (MkMachine d k) = body (MkMachine d k).
Proof.
  intros []. unfold exclusively. rewrite (act_bind_run _ _ _ tt (MkMachine d k)) by by apply exclusive_lock_run.
  by rewrite (act_bind_run _ _ _ tt (MkMachine d k)) by by apply exclusive_lock_run.
Qed.

(** ** The tree after an append *)
Context (Hindep : independent j).
Abbreviation verified := (verified float_text unseal j).
(** Different names below the roots. *)
Ltac paths :=
  rewrite ?entry_path, ?wentry_path; unfold state_path, state_tmp, lock_path, witness_lock_path, entries_root, witness_entries_root in *;
  first [ by apply Hindep | by apply independent_sym | by apply below_root | by apply below_wroot
        | by apply not_wroot | by apply not_root
        | by apply not_eq_sym, below_root | by apply not_eq_sym, below_wroot
        | by apply not_eq_sym, not_wroot | by apply not_eq_sym, not_root
        | let E := fresh in intros E%app_inv_head; first [congruence|discriminate E] ].

(** A tree as appends leave it. *)
Record orderly (pid : Z) (d : disk) (cs : list DeletionCommitment) : Prop := {
  ord_verified : exists st, verified d st cs;
  ord_links : links_ok d;
  ord_locks : locks_good d;
  ord_last : exists i w, d !! (witness_entries_root j ++ [entry_file (len cs)]) = Some (JFile i (line w) 384 1) /\
    read d (witness_entries_root j ++ [entry_file (len cs)]) = Ok w;
  ord_tmp : d !! state_tmp pid j = None
}.
Lemma orderly_verify pid d cs : orderly pid d cs -> verify float_text unseal j d = Ok cs.
Proof.
  intros [[st V] _ [L1 L2] _ _]. unfold verify, with_shared_locks. rewrite !shared_lock_run by done. cbn [res_bind].
  apply verify_locked_ok in V. by rewrite V.
Qed.
Lemma state_keys_nodup (d : disk) st cs : verified d st cs -> NoDup st.*1.
Proof. intros V. destruct (read_json_ok _ _ _ _ (v_state _ _ _ _ _ _ V)) as (i & raw & _ & H). by eapply loads_bytes_keys. Qed.

Section appended.
Context (pid : Z) (d0 : disk) (cs : list DeletionCommitment) (st : list (str * pyval)) (V : verified d0 st cs).
Context (Hroom : len cs + 1 < 10 ^ 20).
Context (nonce : bytes) (a : Deletion) (Ha : recordable nonce a) (Hfresh : Forall (fun c => deletion_id c <> new_deletion_id a) cs).
Context (ct : str) (Hct : short 400 ct) (Hv1 : starts_with (u "v1.") ct = true)
  (Hopen : decrypt_subject unseal (settings j) (new_deletion_id a) ct = Ok (new_subject a)).
Context (li : Z) (lw : list (str * pyval))
  (Hlast : d0 !! (witness_entries_root j ++ [entry_file (len cs)]) = Some (JFile li (line lw) 384 1))
  (Hlw : read d0 (witness_entries_root j ++ [entry_file (len cs)]) = Ok lw).

Abbreviation sequence := (len cs + 1).
Abbreviation entry := (new_entry j a sequence ct (head_digest st)).
Abbreviation digest := (sha256_hex (line entry)).
Abbreviation next := (new_state j st sequence digest).
Abbreviation witness := (witness_payload j sequence digest (sha256_hex (line lw)) (new_committed_at a)).
Abbreviation entry_at := (entries_root j ++ [entry_file sequence]).
Abbreviation witness_at := (witness_entries_root j ++ [entry_file sequence]).
Definition d1 : disk := placed d0 entry_at (line entry).
Definition d2 : disk := restated d1 (line next).
Definition d3 : disk := placed d2 witness_at (line witness).

Lemma d3_other (p : list str) : p <> entry_at -> p <> state_path j -> p <> witness_at -> d3 !! p = d0 !! p.
Proof. intros H1 H2 H3. unfold d3, d2, d1, placed, restated. by rewrite !lookup_insert_ne by congruence. Qed.
Lemma d3_entry : exists i, d3 !! entry_at = Some (JFile i (line entry) 384 1).
Proof.
  eexists. unfold d3, d2, d1, placed, restated. rewrite !lookup_insert_ne by paths. by rewrite lookup_insert_eq.
Qed.
Lemma d3_state : exists i, d3 !! state_path j = Some (JFile i (line next) 384 1).
Proof. eexists. unfold d3, d2, placed, restated. rewrite lookup_insert_ne by paths. by rewrite lookup_insert_eq. Qed.
Lemma d3_witness : exists i, d3 !! witness_at = Some (JFile i (line witness) 384 1).
Proof. eexists. unfold d3, placed. by rewrite lookup_insert_eq. Qed.

Lemma old_state : good_state st /\ NoDup st.*1 /\ len cs = head_sequence st /\ is_digest (head_digest st) = true.
Proof.
  assert (good_state st) as G by (apply verify_state_ok; apply (v_state_ok _ _ _ _ _ _ V)).
  split; [done|]. split; [by eapply state_keys_nodup|]. split; [apply (verified_names _ _ _ _ _ _ V)|apply G].
Qed.
Lemma sequence_range : 1 <= sequence < 10 ^ 20.
Proof. unfold len in *. lia. Qed.
Lemma entry_readable : flat entry /\ NoDup entry.*1 /\ read d3 entry_at = Ok (sort_keys entry).
Proof.
  destruct old_state as (_ & _ & _ & Hp). pose proof sequence_range.
  assert (flat entry) as Hf by (apply (entry_flat nonce); (done || lia)).
  pose proof (entry_nodup a sequence ct (head_digest st)) as Hnd. split; [done|]. split; [done|].
  destruct d3_entry as [i Hi]. apply (read_line _ _ i); (done || (cbn; lia)).
Qed.
Lemma witness_readable : flat witness /\ NoDup witness.*1 /\ read d3 witness_at = Ok (sort_keys witness).
Proof.
  pose proof sequence_range.
  assert (flat witness) as Hf by (apply witness_flat; [lia|apply sha256_digest..]).
  pose proof (witness_nodup sequence digest (sha256_hex (line lw)) (new_committed_at a)) as Hnd. split; [done|]. split; [done|].
  destruct d3_witness as [i Hi]. apply (read_line _ _ i); (done || (cbn; lia)).
Qed.
Lemma d3_entries_same x : x <> entry_file sequence -> d3 !! (entries_root j ++ [x]) = d0 !! (entries_root j ++ [x]).
Proof. intros Hx. apply d3_other; paths. Qed.
Lemma d3_witnesses_same x : x <> entry_file sequence ->
  d3 !! (witness_entries_root j ++ [x]) = d0 !! (witness_entries_root j ++ [x]).
Proof. intros Hx. apply d3_other; paths. Qed.
Lemma d3_entries : sorted_children d3 (entries_root j) = entry_files 1 (S (length cs)).
Proof.
  destruct (entry_files_sorted 1 (S (length cs))) as [Hnd Hs]; [unfold len in *; lia..|].
  apply children_eq; [done|done|]. intros x. rewrite elem_of_entry_files.
  destruct (verified_children _ _ _ _ _ _ V) as (He & _ & _).
  destruct (decide (x = entry_file sequence)) as [->|Hx].
  - split; [intros _; destruct d3_entry as [i ->]; by eexists|]. intros _. exists sequence. unfold len. split; [lia|done].
  - rewrite d3_entries_same, He by done. unfold len in *. split; intros (k & Hk & ->); exists k; (split; [|done]).
    + destruct (decide (k = Z.of_nat (length cs) + 1)) as [->|]; [done|lia].
    + lia.
Qed.
Lemma d3_witnesses : sorted_children d3 (witness_entries_root j) = entry_files 0 (S (S (length cs))).
Proof.
  destruct (entry_files_sorted 0 (S (S (length cs)))) as [Hnd Hs]; [unfold len in *; lia..|].
  apply children_eq; [done|done|]. intros x. rewrite elem_of_entry_files.
  destruct (verified_children _ _ _ _ _ _ V) as (_ & Hw & _).
  destruct (decide (x = entry_file sequence)) as [->|Hx].
  - split; [intros _; destruct d3_witness as [i ->]; by eexists|]. intros _. exists sequence. unfold len. split; [lia|done].
  - rewrite d3_witnesses_same, Hw by done. unfold len in *. split; intros (k & Hk & ->); exists k; (split; [|done]).
    + destruct (decide (k = Z.of_nat (length cs) + 1)) as [->|]; [done|lia].
    + lia.
Qed.
Lemma elem_of_ids_seen x l seen : x ∈ ids_seen l seen -> x ∈ seen \/ exists c, c ∈ l /\ deletion_id c = x.
Proof.
  revert seen. induction l as [|c l IH]; intros seen; [by left|]. cbn [ids_seen fold_left]. intros H%IH.
  rewrite elem_of_cons in H. destruct H as [[->|H]|(c' & Hc & H)]; [right; exists c; split; [by left|done]|by left|].
  right. exists c'. split; [by right|done].
Qed.
(** The entries now make one commitment more. *)
Lemma d3_verify_entries :
  verify_entries float_text unseal j d3 1 (entry_files 1 (S (length cs))) _ZERO_DIGEST []
  = Ok (cs ++ [commitment_of a sequence ct], digest).
Proof.
  destruct old_state as (_ & _ & Hlen & Hp). pose proof sequence_range as Hseq.
  destruct (verified_names _ _ _ _ _ _ V) as (Hn & _ & _). pose proof (v_entries _ _ _ _ _ _ V) as He.
  rewrite Hn, <- Hlen in He. unfold len in He at 1. rewrite Nat2Z.id in He.
  rewrite entry_files_snoc, verify_entries_app, (verify_entries_frame _ _ _ d0), He.
  2: { intros x (k & Hk & ->)%elem_of_entry_files. apply d3_entries_same. intros E. unfold len in *.
       apply entry_file_inj in E; lia. }
  cbn [res_bind]. assert (1 + len (entry_files 1 (length cs)) = sequence) as ->
    by (unfold len; rewrite length_entry_files; lia).
  replace (1 + Z.of_nat (length cs)) with sequence by (unfold len; lia). cbn [verify_entries].
  rewrite (verify_new_entry nonce a Ha sequence ltac:(lia) ct Hct Hv1 Hopen (head_digest st) Hp).
  - reflexivity.
  - intros [Hin|(c & Hc & E)]%elem_of_ids_seen; [by apply elem_of_nil in Hin|]. rewrite Forall_forall in Hfresh.
    by apply (Hfresh c Hc).
  - apply entry_readable.
Qed.
Lemma d3_state_read : read d3 (state_path j) = Ok (sort_keys next) /\ good_state (sort_keys next) /\
  head_sequence (sort_keys next) = sequence /\ head_digest (sort_keys next) = digest.
Proof.
  destruct old_state as (Hg & Hnd & _ & _). pose proof sequence_range. destruct d3_state as [i Hi].
  apply (next_read st Hg Hnd sequence ltac:(lia) digest (sha256_digest _) d3 _ i Hi).
Qed.
(** The witnesses now reach the new head. *)
Lemma d3_verify_witnesses :
  verify_witnesses float_text j d3 (sort_keys next) (cs ++ [commitment_of a sequence ct]) 0
    (entry_files 0 (S (S (length cs)))) _ZERO_DIGEST = Ok tt.
Proof.
  destruct old_state as (Hg & Hnd & Hlen & _). pose proof sequence_range as Hseq.
  pose proof (verify_witnesses_names _ _ _ _ _ _ _ _ (v_witnesses _ _ _ _ _ _ V)) as Hn.
  pose proof (v_wcount _ _ _ _ _ _ V) as Hc. pose proof (v_witnesses _ _ _ _ _ _ V) as Hw.
  assert (length (sorted_children d0 (witness_entries_root j)) = S (length cs)) as E by (unfold len in *; lia).
  rewrite Hn, E in Hw.
  apply (verify_witnesses_extend d0 d3 st (sort_keys next) cs _ 0 (length cs) _ (sha256_hex (line lw)) (sha256_hex (line witness))).
  - intros k Hk p. apply verify_witness_more.
    + apply d3_witnesses_same. intros F. unfold len in *. apply entry_file_inj in F; lia.
    + apply d3_entries_same. intros F. unfold len in *. apply entry_file_inj in F; lia.
    + by apply next_created.
    + intros Hk0. apply lookup_app_l. lia.
  - exact Hw.
  - intros p r Hr. exact (verify_witness_digest d0 _ _ _ _ _ _ _ Hlw Hr).
  - destruct d3_entry as [i Hi].
    apply (verify_new_witness sequence ltac:(lia) digest (sha256_hex (line lw)) (sha256_digest _) (sha256_digest _)
      (new_committed_at a) (proj2 (rec_times _ _ Ha)) d3 _ _ (line entry) (commitment_of a sequence ct) ltac:(lia)).
    + apply witness_readable.
    + unfold read_bytes. by rewrite Hi.
    + done.
    + unfold len. replace (Z.to_nat (Z.of_nat (length cs) + 1 - 1)) with (length cs) by lia.
      by rewrite list_lookup_middle.
    + done.
Qed.
Lemma d3_directories :
  d3 !! root j = d0 !! root j /\ d3 !! entries_root j = d0 !! entries_root j /\
  d3 !! witness_root j = d0 !! witness_root j /\ d3 !! witness_entries_root j = d0 !! witness_entries_root j /\
  d3 !! lock_path j = d0 !! lock_path j /\ d3 !! witness_lock_path j = d0 !! witness_lock_path j /\
  d3 !! state_tmp pid j = d0 !! state_tmp pid j.
Proof. split_and!; apply d3_other; paths. Qed.
Lemma d3_verified : verified d3 (sort_keys next) (cs ++ [commitment_of a sequence ct]).
Proof.
  destruct d3_directories as (E1 & E2 & E3 & E4 & _). destruct d3_state_read as (Hr & Hg & Hs & Hd).
  pose proof d3_verify_entries as He. pose proof d3_verify_witnesses as Hw. destruct V.
  split; rewrite ?d3_entries, ?d3_witnesses, ?Hs, ?Hd; try done.
  all: unfold real_directory, is_directory, is_link, mode_of; rewrite ?E1, ?E2, ?E3, ?E4; try done.
  - by apply verify_state_ok.
  - unfold len. rewrite length_entry_files. lia.
  - unfold len. rewrite length_entry_files. lia.
  - rewrite entry_files_snoc, last_snoc. do 2 f_equal. unfold len. lia.
  - exists (sort_keys witness). destruct witness_readable as (_ & Hnd & Hwr). split; [exact Hwr|].
    by rewrite dict_get_sorted.
Qed.
Context (Hlinks : links_ok d0) (Hlocks : locks_good d0) (Htmp : d0 !! state_tmp pid j = None).
Lemma d1_links : links_ok d1.
Proof. apply links_ok_fresh; [done|]. eapply no_entry; [exact V|exact Hroom|by right]. Qed.
Lemma d1_replaced k : replace_state pid j (line next) (MkMachine d1 (4 + k)) = (Ok tt, MkMachine d2 k) /\ links_ok d2.
Proof.
  apply replace_state_run; [apply d1_links|..]; unfold d1, placed; rewrite ?lookup_insert_ne by paths.
  - by eapply state_file.
  - done.
  - apply Hlocks.
Qed.
Lemma witness_free x : (forall k, x <> entry_file k) \/ x = entry_file sequence ->
  d2 !! (witness_entries_root j ++ [x]) = None.
Proof.
  intros Hx. unfold d2, restated, d1, placed. rewrite !lookup_insert_ne by paths. eapply no_witness; [exact V|exact Hroom|exact Hx].
Qed.
Lemma append_entry_run k : encrypt_subject seal (settings j) nonce (new_deletion_id a) (new_subject a) = Ok ct ->
  append_entry float_text seal unseal pid nonce j a st (MkMachine d0 (12 + k))
  = (Ok (commitment_of a sequence ct), MkMachine d3 k).
Proof.
  intros Henc. destruct old_state as (_ & _ & Hlen & _). unfold append_entry. rewrite <- Hlen.
  rewrite (act_bind_run _ _ _ ct (MkMachine d0 (12 + k))) by (unfold lift; by rewrite Henc).
  rewrite (act_bind_run _ _ _ tt (MkMachine d1 (8 + k))).
  2: { apply (write_new_run pid (entries_root j) (entry_file sequence) _ d0 (8 + k)).
       - rewrite temporary_eq. eapply no_entry; [exact V|exact Hroom|]. left. intros n. apply dot_name.
       - eapply no_entry; [exact V|exact Hroom|by right].
       - eapply real_dir, V. }
  rewrite (act_bind_run _ _ _ tt (MkMachine d2 (4 + k))) by apply (d1_replaced (4 + k)).
  rewrite (act_bind_run _ _ _ (line lw) (MkMachine d2 (4 + k))).
  2: { unfold look. cbn [files]. f_equal. replace (sequence - 1) with (len cs) by lia. unfold read_bytes, d2, restated, d1, placed.
       rewrite !lookup_insert_ne by paths. by rewrite Hlast. }
  rewrite (act_bind_run _ _ _ tt (MkMachine d3 k)).
  2: { apply (write_new_run pid (witness_entries_root j) (entry_file sequence) _ d2 k).
       - rewrite temporary_eq. apply witness_free. left. intros n. apply dot_name.
       - apply witness_free. by right.
       - unfold d2, restated, d1, placed. rewrite !lookup_insert_ne by paths. eapply real_dir, V. }
  rewrite (act_bind_run _ _ _ (sort_keys next, cs ++ [commitment_of a sequence ct]) (MkMachine d3 k)).
  2: { unfold look. cbn [files]. f_equal. apply verify_locked_ok, d3_verified. }
  cbn [snd]. by rewrite last_snoc.
Qed.
Lemma d3_orderly : orderly pid d3 (cs ++ [commitment_of a sequence ct]).
Proof.
  destruct d3_directories as (E1 & _ & E3 & _ & E5 & E6 & E7).
  destruct witness_readable as (Hf & Hnd & Hr).
  assert (len (cs ++ [commitment_of a sequence ct]) = sequence) as El by (unfold len; rewrite length_app; cbn; lia).
  split; rewrite ?El.
  - eexists. apply d3_verified.
  - apply links_ok_fresh; [apply (d1_replaced 0)|]. apply witness_free. by right.
  - destruct Hlocks. split; unfold good_lock; by rewrite ?E1, ?E3, ?E5, ?E6.
  - destruct d3_witness as [i Hi]. exists i, (sort_keys witness). split; [|exact Hr].
    unfold line. by rewrite canonical_sorted.
  - by rewrite E7.
Qed.
End appended.

(** ** The abstract log *)
(** A commitment records a deletion: same keyed digest, same sealed subject, same
    generation and policy. *)
Definition describes (c : DeletionCommitment) (a : Deletion) : Prop :=
  subject_hmac c = new_subject_hmac a /\
  decrypt_subject unseal (settings j) (deletion_id c) (subject_ciphertext c) = Ok (new_subject a) /\
  backup_generation_id c = new_generation_id a /\
  dt_eqb (backup_generation_created_at c) (new_generation_created_at a) = true /\
  policy_version c = new_policy_version a.
(** What an append may do to the log: extend it, or answer from it. *)
Inductive log_append (cs : list DeletionCommitment) (a : Deletion) :
  Res DeletionCommitment -> list DeletionCommitment -> Prop :=
| log_extended c :
    Forall (fun c => deletion_id c <> new_deletion_id a) cs ->
    sequence c = len cs + 1 -> deletion_id c = new_deletion_id a -> describes c a ->
    committed_at c = utc_value (new_committed_at a) ->
    log_append cs a (Ok c) (cs ++ [c])
| log_replayed c :
    c ∈ cs -> deletion_id c = new_deletion_id a -> describes c a -> log_append cs a (Ok c) cs
| log_refused c e :
    c ∈ cs -> deletion_id c = new_deletion_id a -> ~ describes c a -> log_append cs a (Raise e) cs.

Lemma replay_matches_true a c : printable (new_subject a) ->
  replay_matches unseal j a c = Ok true <-> describes c a.
Proof.
  intros Hs. unfold replay_matches, describes. split.
  - intros H. destruct (negb _) eqn:E; [done|]. bool_facts. apply res_bind_ok in H as (subject & Hd & H).
    apply res_bind_ok in H as (same & Hc & H). injection H as H. bool_facts. subst same.
    unfold compare_digest in Hc. destruct (existsb _ _); [done|]. injection Hc as Hc. bool_facts. by subst.
  - intros (-> & -> & -> & -> & ->). rewrite !bool_decide_true by done. cbn [negb res_bind].
    rewrite same_digest_refl by done. done.
Qed.
Lemma find_commitment id cs :
  match find (fun c => bool_decide (deletion_id c = id)) cs with
  | Some c => c ∈ cs /\ deletion_id c = id
  | None => Forall (fun c => deletion_id c <> id) cs
  end.
Proof.
  destruct (find _ cs) as [c|] eqn:E.
  - apply find_some in E as [Hin E]. bool_facts. split; [by apply list_elem_of_In|done].
  - apply Forall_forall. intros c Hc%list_elem_of_In Hid. apply (find_none _ _ E) in Hc. by rewrite bool_decide_true in Hc.
Qed.
Lemma append_run pid nonce a (d : disk) cs k key :
  lifecycle_aead (settings j) = Ok key -> orderly pid d cs -> recordable nonce a -> len cs + 1 < 10 ^ 20 ->
  exists r cs' s', append float_text seal unseal pid nonce j a (MkMachine d (12 + k)) = (r, s') /\
    log_append cs a r cs' /\ orderly pid (files s') cs'.
Proof.
  intros Hkey Ho Ha Hroom. pose proof Ho as [[st V] Hl Hlocks (li & lw & Hlast & Hlw) Htmp].
  pose proof (rec_hmac _ _ Ha) as Hh. pose proof (lifecycle_hmac_digest _ _ _ Hh) as Hdig.
  unfold append. rewrite (act_bind_run _ _ _ (new_subject_hmac a) (MkMachine d (12 + k))) by (unfold lift; by rewrite Hh).
  rewrite (act_bind_run _ _ _ true (MkMachine d (12 + k)))
    by (unfold lift; by rewrite same_digest_refl by apply (digest_short _ Hdig)).
  cbn [negb]. unfold catch. rewrite exclusively_run by done.
  rewrite (act_bind_run _ _ _ (st, cs) (MkMachine d (12 + k))) by (unfold look; f_equal; by apply verify_locked_ok).
  pose proof (find_commitment (new_deletion_id a) cs) as Hfind.
  destruct (find _ cs) as [c|].
  - destruct Hfind as [Hc Hid]. pose proof (replay_matches_true a c (proj1 (proj1 (rec_subject _ _ Ha)))) as Hm.
    destruct (replay_matches unseal j a c) as [[]|e] eqn:E; cbn; eexists _, cs, (MkMachine d (12 + k)); (split; [reflexivity|]);
      (split; [|done]); [apply (log_replayed _ _ c); [done|done|by apply Hm]|apply (log_refused _ _ c); [done|done|]..];
      rewrite <- Hm; done.
  - destruct (rec_nonce _ _ Ha) as [Hn Hb].
    destruct (encrypt_short key nonce (new_deletion_id a) (new_subject a) Hkey Hn Hb (proj1 (rec_id _ _ Ha))
      (proj1 (rec_subject _ _ Ha)) (proj2 (rec_subject _ _ Ha))) as (ct & Henc & Hct & Hv1 & Hopen).
    rewrite (append_entry_run pid d cs st V Hroom nonce a Ha Hfind ct Hct Hv1 Hopen li lw Hlast Hlw Hl Hlocks Htmp k Henc).
    eexists _, _, _. split; [reflexivity|]. split.
    + apply (log_extended _ _ (commitment_of a (len cs + 1) ct)); try done.
      unfold describes, commitment_of. cbn. split_and!; try done. unfold dt_eqb, utc_value, instant. cbn. apply Z.eqb_eq. lia.
    + cbn [files]. by eapply d3_orderly.
Qed.
End progress.

(** What the constructor guarantees. *)
Lemma fingerprint_digest value name b f : credential_fingerprint value name = Ok (b, f) ->
  is_digest f = true /\ exists v, value = Some v /\ encode v = Ok b.
Proof.
  unfold credential_fingerprint. destruct value as [v|]; [|done]. intros H.
  apply res_bind_ok in H as (x & Hx & H). inv_step. injection H as <- <-. split; [apply sha256_digest|]. eauto.
Qed.
Lemma constructed_facts settings j : deletion_commitment_journal settings = Ok j ->
  (is_digest (hmac_fingerprint j) = true /\ is_digest (aead_fingerprint j) = true
    /\ is_digest (witness_hmac_fingerprint j) = true) /\
  exists key, lifecycle_aead (DeletionJournal.settings j) = Ok key.
Proof.
  unfold deletion_commitment_journal. destruct (deletion_journal_path settings) as [r|]; [|by destruct (deletion_witness_path settings)].
  destruct (deletion_witness_path settings) as [w|]; [|done]. intros H. inv_step.
  apply res_bind_ok in H as ([hb hf] & Hh & H). apply res_bind_ok in H as ([ab af] & Hf & H).
  apply res_bind_ok in H as ([wb wf] & Hw & H). injection H as <-. cbn.
  apply fingerprint_digest in Hh as [? _], Hw as [? _], Hf as [? (v & Hv & He)]. split; [done|].
  unfold lifecycle_aead. rewrite Hv, He. cbn [res_bind]. eauto.
Qed.

(** C39: The journal implements an append-only log: on an orderly tree an append of a
    recordable deletion always returns, its answer and the verified commitments
    afterwards are those of the abstract log, and the tree stays orderly. *)
Theorem append_refines float_text seal unseal settings j (pid : Z) (nonce : bytes) (a : Deletion) (d : disk)
  (power : nat) cs (Haead : Aead seal unseal)
  (Hj : deletion_commitment_journal settings = Ok j)
  (Hd : orderly float_text unseal j pid d cs)
  (Ha : recordable j nonce a) (Hroom : len cs + 1 < 10 ^ 20) (Hpower : (12 <= power)%nat) :
  exists r cs' s, append float_text seal unseal pid nonce j a (MkMachine d power) = (r, s) /\
    log_append unseal j cs a r cs' /\
    verify float_text unseal j (files s) = Ok cs' /\ orderly float_text unseal j pid (files s) cs'.
Proof.
  destruct (constructed_facts _ _ Hj) as [Hprint [key Hkey]]. pose proof (constructed_independent _ _ Hj) as Hindep.
  replace power with (12 + (power - 12))%nat by lia.
  destruct (append_run float_text seal unseal j Hprint Hindep pid nonce a d cs (power - 12) key Hkey Hd Ha Hroom)
    as (r & cs' & s & E & Hlog & Ho).
  exists r, cs', s. split; [exact E|]. split; [exact Hlog|]. split; [by eapply orderly_verify|exact Ho].
Qed.

Module ProgressDemo.
Import JournalDemo.
Lemma tag_length key nonce text data : length (tag key nonce text data) = 16%nat.
Proof. unfold tag, hmac_sha256. by rewrite length_take, length_sha256. Qed.
Lemma toy_aead : Aead seal unseal.
Proof.
  unfold seal, unseal. split.
  - intros key nonce text data Ht. apply Forall_app. split; [done|]. apply Forall_take, sha256_byte.
  - intros key nonce text data. by rewrite length_app, tag_length.
  - intros key nonce text data _. rewrite length_app, tag_length, Nat.add_sub, take_app_length. by rewrite bool_decide_true.
Qed.
Lemma recordable_deletion : recordable j nonce (deletion "d1").
Proof.
  assert (exists h, lifecycle_hmac settings (u "subject") (u "user_1") = Ok h) as [h Hh] by (eexists; reflexivity).
  split; unfold deletion; cbn [new_deletion_id new_subject new_subject_hmac new_generation_id new_policy_version
    new_generation_created_at new_committed_at].
  1-4: split; [literal|discriminate].
  - change (DeletionJournal.settings j) with settings. by rewrite Hh.
  - change (instant now) with 1700000000000000. unfold in_range. lia.
  - split; [done|]. apply Forall_forall. intros x [-> _]%elem_of_replicate. unfold is_byte. lia.
Qed.
Lemma orderly_initial : orderly id unseal j 7 initial [].
Proof.
  split.
  - exact (verify_ok _ _ _ _ _ starts_empty).
  - exact initial_links.
  - split; (split; [eexists; reflexivity|eexists _, _; reflexivity]).
  - destruct (constructed_facts _ _ constructed) as [Hp _].
    pose proof (witness_flat j Hp 0 ltac:(lia) _ZERO_DIGEST _ZERO_DIGEST zero_digest zero_digest now) as Hf.
    pose proof (witness_nodup j 0 _ZERO_DIGEST _ZERO_DIGEST now) as Hnd.
    assert (initial !! (witness_entries_root j ++ [entry_file (len (@nil DeletionCommitment))])
      = Some (JFile 3 (line (witness_payload j 0 _ZERO_DIGEST _ZERO_DIGEST now)) 384 1)) as Hi by reflexivity.
    exists 3, (sort_keys (witness_payload j 0 _ZERO_DIGEST _ZERO_DIGEST now)). split.
    + unfold line at 1. rewrite canonical_sorted by done. exact Hi.
    + apply (read_line _ _ _ 3); [exact Hi|done|done|cbn; lia].
  - reflexivity.
Qed.
End ProgressDemo.

Lemma append_refines_witness :
  exists r cs' s, append id JournalDemo.seal JournalDemo.unseal 7 JournalDemo.nonce JournalDemo.j
      (JournalDemo.deletion "d1") (MkMachine JournalDemo.initial 12) = (r, s) /\
    log_append JournalDemo.unseal JournalDemo.j [] (JournalDemo.deletion "d1") r cs' /\
    verify id JournalDemo.unseal JournalDemo.j (files s) = Ok cs' /\
    orderly id JournalDemo.unseal JournalDemo.j 7 (files s) cs'.
Proof.
  apply (append_refines id JournalDemo.seal JournalDemo.unseal JournalDemo.settings);
    [exact ProgressDemo.toy_aead|exact JournalDemo.constructed|exact ProgressDemo.orderly_initial
    |exact ProgressDemo.recordable_deletion|reflexivity|lia].
Defined.
