(* ===== verification/Storage.v ===== *)
(** * The version store (src/apps/api/app/services/storage.py)

    A file system is a finite map from absolute paths (lists of component names)
    to nodes.  The operations of [VersionStore] are computations over it; what
    they write before an exception stays written.  Every operation sees a
    quiescent file system: concurrent writers between two system calls, and
    device errors, are not modelled.  The staged artifacts are in
    [ArtifactStaging]. *)
From stdpp Require Import pretty.
From S2P Require Import Prelude PyTime Sha256.
Local Open Scope Z_scope.

(** ** Paths and file systems *)
Notation path := (list str) (only parsing).
Inductive node : Type :=
| NReg (payload : bytes)
| NDir
| NLnk (target : str).
Global Instance node_eq_dec : EqDecision node.
Proof. solve_decision. Defined.
Notation fs := (gmap (list str) node).

Definition slash : Z := 47.
Definition backslash : Z := 92.
(** [PurePosixPath(s).parts] of a relative path, and [is_absolute()]. *)
Definition posix_parts (s : str) : path :=
  filter (fun w => w <> [] /\ w <> u ".") (split_on slash s).
Definition posix_is_absolute (s : str) : bool := starts_with [slash] s.
(** [path.relative_to(root).as_posix()] for the parts below [root]. *)
Definition as_posix (parts : path) : str := match parts with [] => u "." | _ => join [slash] parts end.

(** [lstat]: the root of the file system is a directory. *)
Definition lstat (f : fs) (p : path) : option node :=
  match p with [] => Some NDir | _ => f !! p end.
(** [Path.resolve()]: symbolic links are followed component by component; more
    than [fuel] steps is a link loop. *)
Fixpoint resolve_from (fuel : nat) (f : fs) (acc : path) (rest : path) : option path :=
  match rest with
  | [] => Some acc
  | c :: rest' =>
      match fuel with
      | O => None
      | S fuel' =>
          if eqs c ".." then resolve_from fuel' f (removelast acc) rest'
          else match f !! (acc ++ [c]) with
               | Some (NLnk target) =>
                   if posix_is_absolute target
                   then resolve_from fuel' f [] (posix_parts target ++ rest')
                   else resolve_from fuel' f acc (posix_parts target ++ rest')
               | _ => resolve_from fuel' f (acc ++ [c]) rest'
               end
      end
  end.
Definition resolve_fuel : nat := 4096.
Definition resolve (f : fs) (p : path) : option path := resolve_from resolve_fuel f [] p.
(** [path.exists()] follows links. *)
Definition exists_ (f : fs) (p : path) : bool :=
  match resolve f p with
  | Some q => match lstat f q with Some _ => true | None => false end
  | None => false
  end.
(** [root in target.parents] *)
Definition strictly_below (root target : path) : bool :=
  bool_decide (take (length root) target = root) && (len root <? len target).

Definition is_dir (f : fs) (p : path) : bool :=
  match lstat f p with Some NDir => true | _ => false end.

(** ** Locating a target *)
Record VersionStore : Type := MkVersionStore { root : path }.

Definition mkdir_one (p : path) : act fs unit := fun f =>
  match lstat f p with
  | Some _ => (Ok tt, f)
  | None => if is_dir f (removelast p) then (Ok tt, <[p := NDir]> f) else (Raise OSError, f)
  end.
Definition unlink (p : path) : act fs unit := modify (delete p).

(** [VersionStore.relative_path] *)
Definition relative_path (kind : str) (document_id : str) (version : Z) : Res str :=
  if negb (one_of kind ["profile"; "resume"; "post"]) || (version <? 1)
  then Raise (ValueError (u "invalid version store target"))
  else
    let directory := if eqs kind "profile" then u "profiles"
                     else if eqs kind "resume" then u "resumes" else u "posts" in
    Ok (directory ++ u "/" ++ document_id ++ u "/versions/" ++ zfill 6 (dec version) ++ u ".md").

(** [UUID(value)] succeeds: [urn:] and [uuid:] are dropped, braces stripped,
    hyphens removed, and the 32 characters left must be read by [int(_, 16)]:
    surrounding blanks, a sign, a [0x] prefix and single underscores between
    digits are part of that grammar (decimal digits outside ASCII, which it also
    reads, are not). *)
Definition is_hex_digit (c : Z) : bool :=
  (48 <=? c) && (c <=? 57) || (97 <=? c) && (c <=? 102) || (65 <=? c) && (c <=? 70).
Fixpoint hex_digits_ok (s : str) : bool :=
  match s with
  | [] => false
  | [c] => is_hex_digit c
  | c :: ((c' :: t') as t) =>
      is_hex_digit c && (if c' =? 95 then hex_digits_ok t' else hex_digits_ok t)
  end.
Definition int16_parses (s : str) : bool :=
  let s := strip s in
  let s := match s with 43 :: t => t | _ => s end in
  let s := if starts_with (u "0x") s || starts_with (u "0X") s
           then match drop 2 s with 95 :: t => t | t => t end else s in
  hex_digits_ok s.
Fixpoint remove_all (p : str) (fuel : nat) (s : str) : str :=
  match fuel with
  | O => s
  | S fuel' =>
      match s with
      | [] => []
      | c :: s' => if starts_with p s then remove_all p fuel' (drop (length p) s)
                   else c :: remove_all p fuel' s'
      end
  end.
Definition uuid_hex (value : str) : str :=
  let s := remove_all (u "urn:") (length value) value in
  let s := remove_all (u "uuid:") (length s) s in
  let s := strip_by (fun c => (c =? 123) || (c =? 125)) s in
  filter (fun c => c <> 45) s.
Definition uuid_parses (value : str) : bool :=
  (len (uuid_hex value) =? 32) && int16_parses (uuid_hex value).

(** [VersionStore.application_snapshot_relative_path] *)
Definition application_snapshot_relative_path (application_id : str) : Res str :=
  if uuid_parses application_id
  then Ok (u "applications/" ++ application_id ++ u "/snapshot.md")
  else Raise (ValueError (u "invalid application snapshot target")).

(** [VersionStore._absolute] *)
Definition absolute_target (st : VersionStore) (relative : str) (f : fs) : Res path :=
  let start := if posix_is_absolute relative then [] else root st in
  match resolve_from resolve_fuel f start (posix_parts relative) with
  | None => Raise RuntimeError
  | Some target =>
      if strictly_below (root st) target then Ok target
      else Raise (StorageIntegrityError (u "invalid version storage path"))
  end.

Definition unavailable : exn := StorageIntegrityError (u "stored artifact is unavailable").

(** [VersionStore._verified_byte_target] *)
Definition verified_byte_target (st : VersionStore) (relative : str) : Res (path * path) :=
  if bool_decide (relative = []) || bool_decide (backslash ∈ relative) then Raise unavailable
  else
    let parts := posix_parts relative in
    if posix_is_absolute relative || existsb (fun part => one_of part [""; "."; ".."]) parts
    then Raise unavailable
    else if negb (bool_decide (as_posix parts = relative)) then Raise unavailable
    else Ok (parts, root st ++ parts).

(** [VersionStore._validate_byte_expectations] *)
Definition validate_byte_expectations (expected_sha256 : str)
  (expected_size_bytes max_size_bytes : Z) : Res unit :=
  if negb (len expected_sha256 =? 64)
     || existsb (fun c => negb (is_hex_lower c)) expected_sha256
     || (expected_size_bytes <? 0)
     || (max_size_bytes <? 0)
     || (max_size_bytes <? expected_size_bytes)
  then Raise unavailable else Ok tt.

(** ** Verified reads *)

(** The [while remaining] loop of [_read_bounded_descriptor]: [os.read] returns
    at most 65536 bytes at a time and nothing at end of file. *)
Fixpoint read_loop (fuel : nat) (content : bytes) (remaining : nat) : bytes :=
  match fuel with
  | O => []
  | S fuel' =>
      match remaining with
      | O => []
      | _ =>
          let chunk := take (Nat.min (Z.to_nat 65536) remaining) content in
          match chunk with
          | [] => []
          | _ => chunk ++ read_loop fuel' (drop (length chunk) content) (remaining - length chunk)
          end
      end
  end.
(** [VersionStore._read_bounded_descriptor] on an open node. *)
Definition read_bounded_descriptor (n : node) (expected_size_bytes max_size_bytes : Z) : Res bytes :=
  match n with
  | NReg content =>
      if negb (len content =? expected_size_bytes) || (max_size_bytes <? len content)
      then Raise unavailable
      else
        let payload := read_loop (S (length content)) content (Z.to_nat (max_size_bytes + 1)) in
        if negb (len payload =? expected_size_bytes) || (max_size_bytes <? len payload)
        then Raise unavailable else Ok payload
  | _ => Raise unavailable
  end.

(** [os.open(part, O_DIRECTORY | O_NOFOLLOW, dir_fd=...)] along [parts]. *)
Fixpoint open_chain (f : fs) (cur : path) (parts : path) : Res path :=
  match parts with
  | [] => Ok cur
  | part :: parts' => if is_dir f (cur ++ [part]) then open_chain f (cur ++ [part]) parts'
                      else Raise OSError
  end.
(** [VersionStore._read_verified_bytes_posix] *)
Definition read_verified_bytes_posix (st : VersionStore) (parts : path)
  (expected_size_bytes max_size_bytes : Z) (f : fs) : Res bytes :=
  if negb (is_dir f (root st)) then Raise OSError
  else
    let? dir := open_chain f (root st) (removelast parts) in
    match last parts with
    | None => Raise IndexError
    | Some name =>
        match f !! (dir ++ [name]) with
        | None | Some (NLnk _) => Raise OSError
        | Some n => read_bounded_descriptor n expected_size_bytes max_size_bytes
        end
    end.

(** [except StorageIntegrityError: raise / except (OSError, TypeError, ValueError)] *)
Definition wrap_os_error (message : string) (e : exn) : exn :=
  match e with
  | OSError | FileExistsError => StorageIntegrityError (u message)
  | _ => e
  end.
Definition wrap_read_error (e : exn) : exn :=
  match e with
  | OSError | FileExistsError | TypeError | ValueError _ | UnicodeEncodeError => unavailable
  | _ => e
  end.

(** [VersionStore.read_verified_bytes] on POSIX *)
Definition read_verified_bytes (st : VersionStore) (relative : str) (expected_sha256 : str)
  (expected_size_bytes max_size_bytes : Z) (f : fs) : Res bytes :=
  map_exn wrap_read_error
    (let? (parts, _) := verified_byte_target st relative in
     let? _ := validate_byte_expectations expected_sha256 expected_size_bytes max_size_bytes in
     let? payload := read_verified_bytes_posix st parts expected_size_bytes max_size_bytes f in
     if bool_decide (sha256_hex payload = expected_sha256) then Ok payload else Raise unavailable).

(** [VersionStore.read_verified] *)
Definition read_verified (st : VersionStore) (relative : str) (expected_sha256 : str) (f : fs) :
  Res str :=
  let? target := absolute_target st relative f in
  match lstat f target with
  | Some (NReg payload) =>
      if negb (bool_decide (sha256_hex payload = expected_sha256))
      then Raise (StorageIntegrityError (u "version Markdown hash does not match the ledger"))
      else match utf8_decode payload with
           | None => Raise (StorageIntegrityError (u "version Markdown is not valid UTF-8"))
           | Some decoded =>
               if bool_decide (13 ∈ decoded)
               then Raise (StorageIntegrityError
                             (u "stored Markdown does not use LF line endings"))
               else Ok decoded
           end
  | _ => Raise (StorageIntegrityError (u "version Markdown file is unavailable"))
  end.

(** ** Deletion *)

(** [VersionStore.delete_verified_exact] *)
Definition delete_verified_exact (st : VersionStore) (relative : str) (expected_sha256 : str)
  (expected_size_bytes max_size_bytes : Z) : act fs unit := fun f =>
  match verified_byte_target st relative with
  | Raise e => (Raise e, f)
  | Ok (_, target) =>
      if negb (exists_ f target) then (Ok tt, f)
      else
        match map_exn (wrap_os_error "exact artifact deletion is unavailable")
                (read_verified_bytes st relative expected_sha256
                   expected_size_bytes max_size_bytes f) with
        | Raise e => (Raise e, f)
        | Ok _ => unlink target f
        end
  end.

(** The prefixes of [parts] below [base], shortest first. *)
Fixpoint prefixes (base : path) (parts : path) : list path :=
  match parts with
  | [] => []
  | p :: ps => (base ++ [p]) :: prefixes (base ++ [p]) ps
  end.
Definition is_symlink (f : fs) (p : path) : bool :=
  match lstat f p with Some (NLnk _) => true | _ => false end.

(** [VersionStore.delete_exact] *)
Definition delete_exact (st : VersionStore) (relative : str) : act fs unit := fun f =>
  let bad := StorageIntegrityError (u "storage deletion path is not canonical") in
  if bool_decide (relative = []) || bool_decide (backslash ∈ relative) then (Raise bad, f)
  else
    let parts := posix_parts relative in
    if posix_is_absolute relative || existsb (fun part => one_of part [""; "."; ".."]) parts
    then (Raise bad, f)
    else
      match absolute_target st relative f with
      | Raise e => (Raise e, f)
      | Ok target =>
          if negb (bool_decide (as_posix (drop (length (root st)) target) = relative))
          then (Raise bad, f)
          else if existsb (is_symlink f) (prefixes (root st) parts)
          then (Raise (StorageIntegrityError (u "storage deletion path contains a symlink")), f)
          else match lstat f target with
               | None => (Ok tt, f)
               | Some (NReg _) => unlink target f
               | Some _ =>
                   (Raise (StorageIntegrityError
                             (u "storage deletion target is not a regular file")), f)
               end
      end.

(** [VersionStore.remove_new_file]: an [OSError] (a directory target) is ignored. *)
Definition remove_new_file (st : VersionStore) (relative : str) : act fs unit := fun f =>
  match absolute_target st relative f with
  | Raise e => (Raise e, f)
  | Ok target => match lstat f target with
                 | Some NDir => (Ok tt, f)
                 | _ => unlink target f
                 end
  end.

(** ** Stale pending files *)

(** [_PENDING_FILE.fullmatch(name)]: [.<base>.pending-<19 digits>-<uuid4>]; the
    value is the [created_ns] group. *)
Definition is_digit (c : Z) : bool := (48 <=? c) && (c <=? 57).
Definition hexes (n : nat) (s : str) : bool := (length s =? n)%nat && forallb is_hex_lower s.
Definition uuid4_shape (s : str) : bool :=
  match split_on 45 s with
  | [a; b; c; d; e] =>
      hexes 8 a && hexes 4 b
      && match c with 52 :: c' => hexes 3 c' | _ => false end
      && match d with
         | d0 :: d' => ((d0 =? 56) || (d0 =? 57) || (d0 =? 97) || (d0 =? 98)) && hexes 3 d'
         | [] => false
         end
      && hexes 12 e
  | _ => false
  end.
Definition decimal (s : str) : Z := fold_left (fun acc c => acc * 10 + (c - 48)) s 0.
Definition pending_suffix_length : nat := 65.
Definition pending_created_ns (name : str) : option Z :=
  let k := (length name - pending_suffix_length)%nat in
  let head := take k name in
  let tail := drop k name in
  let created := take 19 (drop 9 tail) in
  match head with
  | 46 :: ((_ :: _) as base) =>
      if forallb (fun c => negb (c =? slash) && negb (c =? backslash)) base
         && (length tail =? pending_suffix_length)%nat
         && starts_with (u ".pending-") tail
         && forallb is_digit created
         && starts_with (u "-") (drop 28 tail)
         && uuid4_shape (drop 29 tail)
      then Some (decimal created) else None
  | _ => None
  end.

Definition pending_grace_ns : Z := 60 * 60 * 1000000000.
Definition pending_cleanup_max_entries : Z := 100000.
Definition cleanup_unavailable : exn :=
  StorageIntegrityError (u "storage pending cleanup is unavailable").

(** Names of a directory's entries, in no specified order. *)
Definition entries (f : fs) (dir : path) : list str :=
  omap (fun kv => match kv.1 with
                  | [] => None
                  | _ => if bool_decide (removelast kv.1 = dir) then last kv.1 else None
                  end) (map_to_list f).

(** [VersionStore._assert_contained_without_symlinks(..., require_directory=True)] *)
Definition assert_contained_without_symlinks (st : VersionStore) (target : path) (f : fs) : Res unit :=
  if negb (bool_decide (take (length (root st)) target = root st)) then Raise cleanup_unavailable
  else
    let comps := prefixes (root st) (drop (length (root st)) target) in
    if existsb (fun p => match lstat f p with None => true | _ => false end) comps
    then Raise OSError
    else if existsb (is_symlink f) comps || negb (is_dir f target)
    then Raise cleanup_unavailable else Ok tt.

(** The [for entry in entries] body of [_cleanup_stale_pending_files] over one
    directory; returns the subdirectories to visit and the running count. *)
Fixpoint cleanup_entries (st : VersionStore) (dir : path) (oldest_owned_ns : Z) (recursive : bool)
  (names : list str) (seen : Z) : act fs (list path * Z) :=
  match names with
  | [] => ret ([], seen)
  | name :: names' =>
      if bool_decide (dir = root st) && eqs name ".connectmd-artifact-staging"
      then cleanup_entries st dir oldest_owned_ns recursive names' seen
      else if (pending_cleanup_max_entries <? seen + 1) then raise cleanup_unavailable
      else fun f =>
        match f !! (dir ++ [name]) with
        | None => (Raise OSError, f)
        | Some (NLnk _) => cleanup_entries st dir oldest_owned_ns recursive names' (seen + 1) f
        | Some NDir =>
            (let! (subdirs, n) := cleanup_entries st dir oldest_owned_ns recursive names' (seen + 1) in
             ret (if recursive then ((dir ++ [name]) :: subdirs, n) else (subdirs, n))) f
        | Some (NReg _) =>
            match pending_created_ns name with
            | Some created_ns =>
                if oldest_owned_ns <? created_ns
                then cleanup_entries st dir oldest_owned_ns recursive names' (seen + 1) f
                else
                  (lift (assert_contained_without_symlinks st dir f) ;;;
                   unlink (dir ++ [name]) ;;;
                   cleanup_entries st dir oldest_owned_ns recursive names' (seen + 1)) f
            | None => cleanup_entries st dir oldest_owned_ns recursive names' (seen + 1) f
            end
        end
  end.

(** The [while pending_directories] loop; the head of [dirs] is popped next. *)
Fixpoint cleanup_directories (fuel : nat) (st : VersionStore) (oldest_owned_ns : Z)
  (recursive : bool) (dirs : list path) (seen : Z) : act fs unit :=
  match dirs with
  | [] => ret tt
  | dir :: dirs' =>
      match fuel with
      | O => ret tt
      | S fuel' => fun f =>
          (let! (subdirs, n) :=
             cleanup_entries st dir oldest_owned_ns recursive (entries f dir) seen in
           cleanup_directories fuel' st oldest_owned_ns recursive (rev subdirs ++ dirs') n) f
      end
  end.

(** The [try] body of [_cleanup_stale_pending_files] below its root checks. *)
Definition cleanup_run (st : VersionStore) (cleanup_root : path) (recursive : bool) (now_ns : Z)
  (contained : Res unit) (fuel : nat) : act fs unit :=
  catch (lift contained ;;;
         cleanup_directories fuel st (now_ns - pending_grace_ns) recursive [cleanup_root] 0)
    (fun e => raise (match e with
                     | OSError | TypeError | ValueError _ => cleanup_unavailable
                     | _ => e
                     end)).
(** [VersionStore._cleanup_stale_pending_files] at clock reading [now_ns] *)
Definition cleanup_stale_pending_files (st : VersionStore) (directory : option path)
  (recursive : bool) (now_ns : Z) : act fs unit := fun f =>
  let cleanup_root := default (root st) directory in
  if negb (exists_ f (root st)) then (Ok tt, f)
  else if negb (is_dir f (root st)) then (Raise cleanup_unavailable, f)
  else cleanup_run st cleanup_root recursive now_ns
         (assert_contained_without_symlinks st cleanup_root f) (S (size f)) f.

(** ** Immutable writes *)

(** [VersionStore._mkdir_parents_durable]: the missing directories, outermost first. *)
Fixpoint mkdir_parents (todo : list path) : act fs unit :=
  match todo with
  | [] => ret tt
  | p :: todo' => mkdir_one p ;;; mkdir_parents todo'
  end.
Definition mkdir_parents_durable (directory : path) : act fs unit := fun f =>
  mkdir_parents (filter (fun p => exists_ f p = false) (prefixes [] directory)) f.

(** [open("xb")], [write], [fsync] *)
Definition create_exclusive (p : path) (payload : bytes) : act fs unit := fun f =>
  match lstat f p with
  | Some _ => (Raise FileExistsError, f)
  | None => if is_dir f (removelast p) then (Ok tt, <[p := NReg payload]> f) else (Raise OSError, f)
  end.

(** [os.link(pending, target)]; on [FileExistsError] the bytes must agree. *)
Definition link_or_same (target : path) (payload : bytes) : act fs unit := fun f =>
  match lstat f target with
  | None => (Ok tt, <[target := NReg payload]> f)
  | Some (NReg existing) =>
      if bool_decide (existing = payload) then (Ok tt, f)
      else (Raise (StorageIntegrityError (u "immutable version path contains different bytes")), f)
  | Some _ => (Raise OSError, f)
  end.

(** [f".{target.name}.pending-{time.time_ns():019d}-{uuid4()}"] *)
Definition pending_path (target : path) (now_ns : Z) (nonce : str) : path :=
  removelast target
  ++ [u "." ++ default [] (last target) ++ u ".pending-" ++ zfill 19 (dec now_ns) ++ u "-" ++ nonce].

(** [pending.unlink(missing_ok=True)], an [OSError] (a directory) ignored. *)
Definition unlink_pending (p : path) (f : fs) : fs := if is_dir f p then f else delete p f.

(** [VersionStore.write_immutable_bytes], with the clock reading and the random
    name it draws; the pending file is unlinked on every exit. *)
Definition write_immutable_bytes (st : VersionStore) (relative : str) (payload : bytes)
  (now_ns : Z) (nonce : str) : act fs str := fun f =>
  match absolute_target st relative f with
  | Raise e => (Raise e, f)
  | Ok target =>
      let pending := pending_path target now_ns nonce in
      let before := mkdir_parents_durable (removelast target) ;;;
                    cleanup_stale_pending_files st (Some (removelast target)) false now_ns in
      let write := create_exclusive pending payload ;;; link_or_same target payload in
      let finally r := match r with (x, f') => (x, unlink_pending pending f') end in
      let result :=
        match before f with
        | (Raise e, f') => (Raise e, f')
        | (Ok _, f') => finally (write f')
        end in
      match result with
      | (Raise FileExistsError, f') =>
          (Raise (StorageIntegrityError (u "immutable version file already exists")), f')
      | (Raise OSError, f') =>
          (Raise (StorageIntegrityError (u "immutable version file could not be written")), f')
      | (Raise e, f') => (Raise e, f')
      | (Ok _, f') => (Ok (sha256_hex payload), f')
      end
  end.

(** [VersionStore.write_immutable] *)
Definition write_immutable (st : VersionStore) (relative markdown : str) (now_ns : Z) (nonce : str) :
  act fs str :=
  match utf8_encode markdown with
  | None => raise UnicodeEncodeError
  | Some payload => write_immutable_bytes st relative payload now_ns nonce
  end.

(** ** Lemmas *)

(** [read_loop] reads the content up to the bound. *)
Lemma read_loop_take fuel content remaining :
  (length content < fuel)%nat -> read_loop fuel content remaining = take remaining content.
Proof.
  revert content remaining. induction fuel as [|fuel IH]; intros content remaining Hf; [lia|].
  cbn [read_loop]. destruct remaining as [|r]; [done|].
  remember (Nat.min (Z.to_nat 65536) (S r)) as k eqn:Hk.
  assert (1 <= k <= S r)%nat as Hkr by lia. clear Hk.
  destruct (take k content) as [|x t] eqn:Ht.
  - destruct content; [done|]. destruct k; [lia|done].
  - assert (0 < length content)%nat by (destruct content; [destruct k|]; simpl in *; [done|done|lia]).
    rewrite <- Ht. rewrite IH by (rewrite length_drop, length_take; lia).
    rewrite length_take. destruct (decide (k <= length content)%nat).
    + rewrite Nat.min_l by lia. rewrite <- (take_drop k (take (S r) content)).
      rewrite take_take, Nat.min_l by lia. f_equal. by rewrite skipn_firstn_comm.
    + rewrite Nat.min_r by lia.
      rewrite drop_ge, take_nil, app_nil_r by lia.
      rewrite !take_ge by lia. reflexivity.
Qed.

Lemma read_bounded_ok n size max b :
  read_bounded_descriptor n size max = Ok b <->
  n = NReg b /\ len b = size /\ len b <= max.
Proof.
  unfold read_bounded_descriptor. destruct n as [content| |]; [|naive_solver|naive_solver].
  destruct (negb (len content =? size) || (max <? len content)) eqn:E.
  - split; [done|]. intros ([= ->] & <- & H). lia.
  - bool_facts.
    rewrite read_loop_take by lia. rewrite take_ge by (unfold len in *; lia).
    destruct (negb (len content =? size) || (max <? len content)) eqn:E'; [lia|].
    split; [intros [= <-]; done|naive_solver].
Qed.


Lemma verified_byte_target_ok st rel parts target :
  verified_byte_target st rel = Ok (parts, target) ->
  parts = posix_parts rel /\ target = root st ++ parts /\ as_posix parts = rel /\
  (forall p, p ∈ parts -> p <> [] /\ p <> u "." /\ p <> u ".." /\ slash ∉ p).
Proof.
  unfold verified_byte_target. repeat (case_match; try done). intros [= <- <-].
  bool_facts. split; [done|]. split; [done|]. split; [done|].
  intros p Hp. assert (one_of p [""; "."; ".."] = false) as Hno.
  { match goal with H : existsb _ _ = false |- _ => rename H into Hex end.
    destruct (one_of p _) eqn:E; [|done]. rewrite <- Hex. symmetry.
    apply existsb_exists. exists p. by rewrite <- list_elem_of_In. }
  unfold posix_parts in Hp. apply list_elem_of_filter in Hp as [_ Hp].
  repeat split; try (intros ->; vm_compute in Hno; discriminate).
  by eapply split_on_no_sep.
Qed.

Lemma open_chain_ok f cur parts dir :
  open_chain f cur parts = Ok dir <->
  dir = cur ++ parts /\ forall p, p ∈ prefixes cur parts -> is_dir f p = true.
Proof.
  revert cur. induction parts as [|c cs IH]; intros cur; simpl.
  - rewrite app_nil_r. split; [intros [= <-]; split; [done|]; intros p Hp; by apply elem_of_nil in Hp|].
    by intros [-> _].
  - destruct (is_dir f (cur ++ [c])) eqn:E.
    + rewrite IH, <- app_assoc. simpl. setoid_rewrite elem_of_cons. naive_solver.
    + split; [done|]. intros [_ H]. rewrite (H (cur ++ [c])) in E; [done|left].
Qed.

Lemma read_posix_ok st parts size max f b :
  read_verified_bytes_posix st parts size max f = Ok b ->
  parts <> [] /\ (forall p, p ∈ prefixes (root st) (removelast parts) -> is_dir f p = true) /\
  f !! (root st ++ parts) = Some (NReg b) /\ len b = size /\ len b <= max.
Proof.
  unfold read_verified_bytes_posix. intros Hb. destruct (negb _) eqn:Hroot; [done|].
  apply res_bind_ok in Hb as (dir & Hdir & Hb). apply open_chain_ok in Hdir as [-> Hdirs].
  destruct (last parts) as [name|] eqn:Hl; [|done].
  apply last_Some in Hl as [init ->]. rewrite removelast_last in *.
  split; [by destruct init|]. split; [done|]. rewrite app_assoc.
  destruct (f !! ((root st ++ init) ++ [name])) as [[]|]; try done;
    apply read_bounded_ok in Hb; naive_solver.
Qed.
(** A verified read succeeds exactly on a regular file reached through real
    directories, with the expected size and digest. *)
Lemma read_verified_bytes_ok st rel sha size max f b :
  read_verified_bytes st rel sha size max f = Ok b ->
  exists parts, verified_byte_target st rel = Ok (parts, root st ++ parts) /\
    parts <> [] /\
    (forall p, p ∈ prefixes (root st) (removelast parts) -> is_dir f p = true) /\
    f !! (root st ++ parts) = Some (NReg b) /\
    sha256_hex b = sha /\ len b = size /\ len b <= max.
Proof.
  unfold read_verified_bytes. rewrite map_exn_ok. intros H.
  apply res_bind_ok in H as ([parts target] & Ht & H).
  destruct (verified_byte_target_ok _ _ _ _ Ht) as (_ & -> & _ & _).
  apply res_bind_ok in H as ([] & Hv & H). apply res_bind_ok in H as (b' & Hb & H).
  destruct (bool_decide _) eqn:Hs; [|done]. injection H as ->. bool_facts.
  apply read_posix_ok in Hb as (Hne & Hdirs & Hb & Hlen & Hmax). exists parts. done.
Qed.

(** ** Links and resolution *)

(** Resolution only looks at symbolic links. *)
Definition same_links (f f' : fs) : Prop :=
  forall p t, f !! p = Some (NLnk t) <-> f' !! p = Some (NLnk t).
Lemma same_links_refl f : same_links f f.
Proof. done. Qed.
Lemma same_links_trans f g h : same_links f g -> same_links g h -> same_links f h.
Proof. intros H1 H2 p t. by rewrite (H1 p t), (H2 p t). Qed.
Definition not_link (o : option node) : Prop := forall t, o <> Some (NLnk t).
Lemma same_links_insert f p n :
  not_link (f !! p) -> not_link (Some n) -> same_links f (<[p:=n]> f).
Proof.
  intros H1 H2 q t. rewrite lookup_insert. case_decide; subst; [|done].
  split; intros E; exfalso; [by apply (H1 t)|by apply (H2 t)].
Qed.
Lemma same_links_delete f p : not_link (f !! p) -> same_links f (delete p f).
Proof.
  intros H1 q t. rewrite lookup_delete. case_decide; subst; [|done].
  split; intros E; exfalso; [by apply (H1 t)|done].
Qed.

Lemma resolve_from_links f f' fuel acc rest :
  same_links f f' -> resolve_from fuel f acc rest = resolve_from fuel f' acc rest.
Proof.
  intros H. revert acc rest. induction fuel as [|fuel IH]; intros acc [|c rest]; simpl; try done.
  destruct (eqs c ".."); [apply IH|].
  destruct (f !! (acc ++ [c])) as [[b| |t]|] eqn:E.
  1,2,4: destruct (f' !! (acc ++ [c])) as [[b'| |t']|] eqn:E'; try apply IH;
    apply H in E'; congruence.
  apply H in E. rewrite E. destruct (posix_is_absolute t); apply IH.
Qed.
Lemma absolute_target_links st rel f f' :
  same_links f f' -> absolute_target st rel f = absolute_target st rel f'.
Proof. intros H. unfold absolute_target. by rewrite (resolve_from_links f f'). Qed.

(** What a computation changes: links stay, and so does every path outside [D]. *)
Definition touches {A} (D : path -> Prop) (m : act fs A) : Prop :=
  forall f r f', m f = (r, f') -> same_links f f' /\ (forall p, ~ D p -> f' !! p = f !! p).

Lemma touches_bind {A B : Type} (D : path -> Prop) (m : act fs A) (k : A -> act fs B) :
  touches D m -> (forall a, touches D (k a)) -> touches D (act_bind m k).
Proof.
  intros Hm Hk f r f' H. unfold act_bind in H. destruct (m f) as [[a|e] f1] eqn:E.
  - destruct (Hm _ _ _ E) as [L1 N1], (Hk a _ _ _ H) as [L2 N2].
    split; [by eapply same_links_trans|]. intros p Hp. by rewrite N2, N1.
  - injection H as <- <-. by apply (Hm _ _ _ E).
Qed.
Lemma touches_ret {A} (D : path -> Prop) (a : A) : touches D (ret a).
Proof. intros f r f' [= <- <-]. done. Qed.
Lemma touches_raise {A} (D : path -> Prop) e : touches D (raise e : act fs A).
Proof. intros f r f' [= <- <-]. done. Qed.
Lemma touches_lift {A} (D : path -> Prop) (m : Res A) : touches D (lift m).
Proof. intros f r f' [= <- <-]. done. Qed.
Lemma touches_catch {A} (D : path -> Prop) (m : act fs A) h :
  touches D m -> (forall e, touches D (h e)) -> touches D (catch m h).
Proof.
  intros Hm Hh f r f' H. unfold catch in H. destruct (m f) as [[a|e] f1] eqn:E.
  - injection H as <- <-. by apply (Hm _ _ _ E).
  - destruct (Hm _ _ _ E) as [L1 N1], (Hh e _ _ _ H) as [L2 N2].
    split; [by eapply same_links_trans|]. intros p Hp. by rewrite N2, N1.
Qed.
Create HintDb storage.
#[export] Hint Resolve touches_bind touches_ret touches_raise touches_lift touches_catch : storage.

(** Paths whose last component has the shape of a pending file. *)
Definition pending_named (p : path) : Prop :=
  exists name, last p = Some name /\ pending_created_ns name <> None.

Lemma cleanup_entries_touches st dir ns rec names seen :
  touches pending_named (cleanup_entries st dir ns rec names seen).
Proof.
  revert seen. induction names as [|name names IH]; intros seen; cbn [cleanup_entries];
    [auto with storage|].
  destruct (_ && _); [done|]. destruct (_ <? _); [auto with storage|].
  intros f r f'. destruct (f !! (dir ++ [name])) as [[b| |t]|] eqn:E.
  - destruct (pending_created_ns name) as [created|] eqn:Hp; [|apply IH].
    destruct (ns <? created); [apply IH|]. intros H.
    unfold act_bind, lift in H. destruct (assert_contained_without_symlinks _ _ _);
      [|by injection H as <- <-]. simpl in H. apply IH in H as [L N].
    split.
    + eapply same_links_trans; [|done]. apply same_links_delete. intros t Ht. congruence.
    + intros p Hnp. rewrite N by done. apply lookup_delete_ne. intros <-. apply Hnp.
      exists name. rewrite last_snoc. naive_solver.
  - apply touches_bind; [done|]. intros [? ?]. destruct rec; auto with storage.
  - apply IH.
  - intros [= <- <-]. done.
Qed.

Lemma cleanup_directories_touches fuel st ns rec dirs seen :
  touches pending_named (cleanup_directories fuel st ns rec dirs seen).
Proof.
  revert dirs seen. induction fuel as [|fuel IH]; intros [|dir dirs] seen;
    cbn [cleanup_directories]; auto with storage.
  intros f r f' H. refine (touches_bind _ _ _ _ _ f r f' H).
  - apply cleanup_entries_touches.
  - intros [subdirs n]. apply IH.
Qed.

Lemma cleanup_run_touches st dir rec ns contained fuel :
  touches pending_named (cleanup_run st dir rec ns contained fuel).
Proof.
  unfold cleanup_run. apply touches_catch; [|auto with storage].
  apply touches_bind; [auto with storage|]. intros _. apply cleanup_directories_touches.
Qed.
Lemma cleanup_touches st dir rec ns :
  touches pending_named (cleanup_stale_pending_files st dir rec ns).
Proof.
  intros f r f'. unfold cleanup_stale_pending_files. cbv zeta.
  destruct (negb (exists_ f (root st))); [by intros [= <- <-]|].
  destruct (negb (is_dir f (root st))); [by intros [= <- <-]|].
  apply cleanup_run_touches.
Qed.

(** Creating directories only adds directories where nothing was. *)
Lemma mkdir_one_step p f r f' :
  mkdir_one p f = (r, f') -> same_links f f' /\ (forall q n, f !! q = Some n -> f' !! q = Some n).
Proof.
  unfold mkdir_one. destruct (lstat f p) as [n|] eqn:E; [by intros [= <- <-]|].
  assert (f !! p = None) as Hp by (destruct p; done).
  destruct (is_dir f _); intros [= <- <-]; [|done]. split.
  - apply same_links_insert; [rewrite Hp|]; by intros t.
  - intros q n Hq. rewrite lookup_insert_ne; [done|]. intros ->. congruence.
Qed.
Lemma mkdir_parents_step todo f r f' :
  mkdir_parents todo f = (r, f') ->
  same_links f f' /\ (forall q n, f !! q = Some n -> f' !! q = Some n).
Proof.
  revert f. induction todo as [|p todo IH]; intros f; cbn [mkdir_parents].
  - by intros [= <- <-].
  - unfold act_bind. destruct (mkdir_one p f) as [[a|e] f1] eqn:E; intros H;
      apply mkdir_one_step in E as [L1 N1].
    + apply IH in H as [L2 N2]. split; [by eapply same_links_trans|auto].
    + injection H as <- <-. done.
Qed.

Lemma strictly_below_nonempty r target : strictly_below r target = true -> target <> [].
Proof. unfold strictly_below, len. intros H ->. simpl in H. bool_facts. lia. Qed.
Lemma absolute_target_below st rel f target :
  absolute_target st rel f = Ok target -> strictly_below (root st) target = true.
Proof.
  unfold absolute_target. destruct (resolve_from _ _ _ _); [|done].
  destruct (strictly_below _ _) eqn:E; [|done]. by intros [= <-].
Qed.
Lemma lstat_nonempty f p : p <> [] -> lstat f p = f !! p.
Proof. by destruct p. Qed.

Lemma pending_path_ne target ns nonce : target <> [] -> pending_path target ns nonce <> target.
Proof.
  intros Hne E. unfold pending_path in E.
  destruct target as [|x target _] using rev_ind; [done|].
  rewrite removelast_last, last_snoc in E. simpl in E. apply app_inj_2 in E as [_ E]; [|done].
  injection E as E. apply (f_equal length) in E. simpl in E. rewrite !length_app in E. lia.
Qed.
Lemma pending_path_nonempty target ns nonce : pending_path target ns nonce <> [].
Proof. unfold pending_path. by destruct (removelast target). Qed.

(** The steps before the pending file is created. *)
Lemma before_write st dir ns f r f' :
  (mkdir_parents_durable dir ;;; cleanup_stale_pending_files st (Some dir) false ns) f = (r, f') ->
  same_links f f' /\ (forall p n, f !! p = Some n -> ~ pending_named p -> f' !! p = Some n).
Proof.
  unfold act_bind, mkdir_parents_durable. destruct (mkdir_parents _ f) as [[a|e] f1] eqn:E; intros H;
    apply mkdir_parents_step in E as [L1 N1].
  - apply cleanup_touches in H as [L2 N2]. split; [by eapply same_links_trans|].
    intros p n Hp Hnp. rewrite N2 by done. auto.
  - injection H as <- <-. auto.
Qed.

Lemma create_exclusive_inv p payload f r f' :
  p <> [] -> create_exclusive p payload f = (r, f') ->
  (r = Ok tt /\ f !! p = None /\ f' = <[p := NReg payload]> f) \/
  (f' = f /\ (r = Raise FileExistsError \/ r = Raise OSError)).
Proof.
  intros Hp. unfold create_exclusive. rewrite lstat_nonempty by done.
  destruct (f !! p) eqn:E; [naive_solver|]. destruct (is_dir _ _); naive_solver.
Qed.
Lemma link_or_same_inv target payload f r f' :
  target <> [] -> link_or_same target payload f = (r, f') ->
  (r = Ok tt /\ f' !! target = Some (NReg payload) /\
     (f' = f \/ f !! target = None /\ f' = <[target := NReg payload]> f)) \/
  (f' = f /\ exists e, r = Raise e).
Proof.
  intros Hp. unfold link_or_same. rewrite lstat_nonempty by done.
  destruct (f !! target) as [[b| |t]|] eqn:E; try (intros [= <- <-]; naive_solver).
  - case_bool_decide; intros [= <- <-]; naive_solver.
  - intros [= <- <-]. left. rewrite lookup_insert_eq. auto.
Qed.

Lemma unlink_pending_ne p q f : q <> p -> unlink_pending p f !! q = f !! q.
Proof. intros H. unfold unlink_pending. destruct (is_dir f p); [done|]. by rewrite lookup_delete_ne. Qed.
Lemma unlink_pending_reg p b f : f !! p = Some (NReg b) -> p <> [] -> unlink_pending p f = delete p f.
Proof. intros H Hp. unfold unlink_pending, is_dir. by rewrite lstat_nonempty, H by done. Qed.

(** [write] followed by the unlink of the pending file. *)
Lemma write_step target pending payload f r f' :
  target <> [] -> pending <> [] -> pending <> target ->
  (create_exclusive pending payload ;;; link_or_same target payload) f = (r, f') ->
  (forall p n, f !! p = Some n -> p <> pending -> unlink_pending pending f' !! p = Some n) /\
  (r = Ok tt -> unlink_pending pending f' !! target = Some (NReg payload) /\
                same_links f (unlink_pending pending f')).
Proof.
  intros Ht Hp Hne. unfold act_bind.
  destruct (create_exclusive pending payload f) as [[a|e] f1] eqn:E; intros H;
    apply create_exclusive_inv in E as [(E1 & E2 & E3)|(E1 & E2)]; try done; try naive_solver.
  - subst f1. apply link_or_same_inv in H as [(-> & Hf' & H)|(-> & e & ->)]; [| |done].
    + split.
      * intros p n Hpn Hpp. rewrite unlink_pending_ne by done.
        destruct H as [->|[Hnone ->]]; [by rewrite lookup_insert_ne|].
        rewrite lookup_insert_ne, lookup_insert_ne; [done|done|].
        intros <-. rewrite lookup_insert_ne in Hnone by done. congruence.
      * intros _. split; [by rewrite unlink_pending_ne|].
        rewrite (unlink_pending_reg _ payload); [|destruct H as [->|[_ ->]];
          rewrite ?lookup_insert_ne by done; apply lookup_insert_eq|done].
        intros p t. rewrite lookup_delete. case_decide as Hpp; subst.
        { split; intros ?; exfalso; congruence. }
        destruct H as [->|[Hnone ->]]; rewrite ?lookup_insert_ne by done; [done|].
        rewrite lookup_insert. case_decide; subst; [|by rewrite lookup_insert_ne].
        rewrite lookup_insert_ne in Hnone by done. split; intros ?; congruence.
    + split; [|done]. intros p n Hpn Hpp. by rewrite unlink_pending_ne, lookup_insert_ne.
  - injection H as <- <-. subst. split; [|done].
    intros p n Hpn Hpp. by rewrite unlink_pending_ne.
Qed.

Lemma write_immutable_bytes_inv st rel payload ns nonce f r f' :
  write_immutable_bytes st rel payload ns nonce f = (r, f') ->
  (exists target, absolute_target st rel f = Ok target /\
     (forall p n, f !! p = Some n -> ~ pending_named p -> p <> pending_path target ns nonce ->
        f' !! p = Some n) /\
     (forall digest, r = Ok digest ->
        digest = sha256_hex payload /\ f' !! target = Some (NReg payload) /\ same_links f f')) \/
  (f' = f /\ exists e, absolute_target st rel f = Raise e /\ r = Raise e).
Proof.
  unfold write_immutable_bytes. destruct (absolute_target st rel f) as [target|e] eqn:Ht;
    [|by intros [= <- <-]; right; eauto].
  pose proof (strictly_below_nonempty _ _ (absolute_target_below _ _ _ _ Ht)) as Hne.
  cbv zeta. set (pending := pending_path target ns nonce).
  destruct ((mkdir_parents_durable _ ;;; _) f) as [rb f1] eqn:Hb. apply before_write in Hb as [L1 N1].
  intros H. left. exists target. split; [done|].
  destruct rb as [a|e].
  - destruct ((create_exclusive pending payload ;;; _) f1) as [rw f2] eqn:Hw.
    apply write_step in Hw as [N2 O2]; [|done|apply pending_path_nonempty|by apply pending_path_ne].
    assert (f' = unlink_pending pending f2) as -> by (destruct rw as [|[]]; by injection H).
    split; [naive_solver|]. intros digest ->. destruct rw as [[]|[]]; try done.
    injection H as <-. destruct O2 as [O2 L2]; [done|].
    split; [done|]. split; [done|]. by eapply same_links_trans.
  - assert (f' = f1) as -> by (destruct e; by injection H).
    split; [naive_solver|]. intros digest ->. by destruct e.
Qed.

(** ** Properties *)

(** What [write_immutable] returns is the digest under which [read_verified]
    gives the same Markdown back. *)
Theorem write_then_read st rel markdown ns nonce f digest f' :
  Forall code_point markdown -> 13 ∉ markdown ->
  write_immutable st rel markdown ns nonce f = (Ok digest, f') ->
  read_verified st rel digest f' = Ok markdown.
Proof.
  intros Hcp Hcr H. unfold write_immutable in H.
  destruct (utf8_encode markdown) as [payload|] eqn:Hu; [|done].
  apply write_immutable_bytes_inv in H as [(target & Ht & _ & H)|(_ & e & _ & ?)]; [|done].
  destruct (H _ eq_refl) as (-> & Hf & L). unfold read_verified.
  rewrite <- (absolute_target_links st rel _ _ L), Ht. cbn [res_bind].
  rewrite lstat_nonempty, Hf
    by exact (strictly_below_nonempty _ _ (absolute_target_below _ _ _ _ Ht)).
  rewrite bool_decide_true by done. cbn [negb]. rewrite (utf8_roundtrip markdown) by done.
  by rewrite bool_decide_false.
Qed.

(** C29: A write, successful or not, keeps every node that exists: only files in the
    pending namespace and the write's own pending file can disappear. *)
Theorem write_never_overwrites st rel payload ns nonce f r f' p n :
  write_immutable_bytes st rel payload ns nonce f = (r, f') ->
  f !! p = Some n -> ~ pending_named p ->
  (forall target, absolute_target st rel f = Ok target -> p <> pending_path target ns nonce) ->
  f' !! p = Some n.
Proof.
  intros H Hp Hnp Hne. apply write_immutable_bytes_inv in H as [(target & Ht & N & _)|(-> & _)];
    [|done]. apply N; auto.
Qed.

(** [delete_verified_exact] removes exactly one regular file, at the canonical
    path, with the named digest and size, or changes nothing. *)
Theorem delete_verified_exact_spec st rel sha size max f r f' :
  delete_verified_exact st rel sha size max f = (r, f') ->
  match r with
  | Ok _ => exists parts, verified_byte_target st rel = Ok (parts, root st ++ parts) /\
      (exists_ f (root st ++ parts) = false /\ f' = f \/
       exists b, f !! (root st ++ parts) = Some (NReg b) /\ sha256_hex b = sha /\
         len b = size /\ size <= max /\ f' = delete (root st ++ parts) f)
  | Raise _ => f' = f
  end.
Proof.
  unfold delete_verified_exact.
  destruct (verified_byte_target st rel) as [[parts target]|e] eqn:Ht; [|by intros [= <- <-]].
  destruct (verified_byte_target_ok _ _ _ _ Ht) as (_ & -> & _ & _).
  destruct (exists_ f _) eqn:Hex; simpl; [|by intros [= <- <-]; eauto].
  destruct (map_exn _ _) as [b|e] eqn:Hr; [|by intros [= <- <-]].
  apply map_exn_ok, read_verified_bytes_ok in Hr
    as (parts' & Ht' & _ & _ & Hb & Hs & Hl & Hm).
  rewrite Ht in Ht'. injection Ht' as <-.
  intros [= <- <-]. exists parts. split; [done|]. right. exists b. by subst.
Qed.

(** ** A concrete store: one version written under its root *)
Module StoreDemo.
Definition store : VersionStore := MkVersionStore [u "data"].
Definition files : fs := {[ [u "data"] := NDir ]}.
Definition rel : str := u "documents/d/1.md".
Definition markdown : str := u "# Title".
Definition nonce : str := u "0b0e7a64-0000-4000-8000-000000000000".
Definition written : fs := (write_immutable store rel markdown 0 nonce files).2.
Definition digest : str := sha256_hex markdown.
Definition other_write : fs :=
  (write_immutable_bytes store rel (u "other") 5 nonce written).2.
Definition deleted : fs := (delete_verified_exact store rel digest 7 100 written).2.
Lemma run_snd {A : Type} (m : act fs A) f r : (m f).1 = r -> m f = (r, (m f).2).
Proof. intros <-. by destruct (m f). Qed.
Lemma wrote : write_immutable store rel markdown 0 nonce files = (Ok digest, written).
Proof. apply run_snd. vm_compute. reflexivity. Qed.
Lemma refused : write_immutable_bytes store rel (u "other") 5 nonce written
  = (Raise (StorageIntegrityError (u "immutable version path contains different bytes")),
     other_write).
Proof. apply run_snd. vm_compute. reflexivity. Qed.
Lemma removed : delete_verified_exact store rel digest 7 100 written = (Ok tt, deleted).
Proof. apply run_snd. vm_compute. reflexivity. Qed.
Definition target : path := [u "data"; u "documents"; u "d"; u "1.md"].
Lemma stored : written !! target = Some (NReg markdown).
Proof. vm_compute. reflexivity. Qed.
Lemma not_pending : ~ pending_named target.
Proof. intros (name & H & Hne). injection H as <-. apply Hne. vm_compute. reflexivity. Qed.
Lemma resolved : absolute_target store rel written = Ok target.
Proof. vm_compute. reflexivity. Qed.
End StoreDemo.
#[local] Opaque StoreDemo.written StoreDemo.other_write StoreDemo.deleted StoreDemo.digest.

Lemma write_then_read_witness :
  read_verified StoreDemo.store StoreDemo.rel StoreDemo.digest StoreDemo.written
  = Ok StoreDemo.markdown.
Proof.
  apply (write_then_read StoreDemo.store StoreDemo.rel StoreDemo.markdown 0 StoreDemo.nonce
    StoreDemo.files).
  - repeat constructor; vm_compute; discriminate.
  - apply (bool_decide_unpack (_ ∉ _)). vm_compute. exact I.
  - exact StoreDemo.wrote.
Defined.
Lemma write_never_overwrites_witness :
  StoreDemo.other_write !! StoreDemo.target = Some (NReg StoreDemo.markdown).
Proof.
  apply (write_never_overwrites _ _ _ _ _ _ _ _ _ _ StoreDemo.refused StoreDemo.stored
    StoreDemo.not_pending).
  intros target. rewrite StoreDemo.resolved. intros H. injection H as <-. vm_compute. discriminate.
Defined.
Lemma delete_verified_exact_spec_witness :
  exists parts, verified_byte_target StoreDemo.store StoreDemo.rel
    = Ok (parts, root StoreDemo.store ++ parts).
Proof.
  destruct (delete_verified_exact_spec _ _ _ _ _ _ _ _ StoreDemo.removed) as (parts & H & _).
  exists parts. exact H.
Defined.
