(* ===== verification/World.v ===== *)
(** * The state a service call runs on

    A [world] is the database and the file store.  [transaction] is an
    [async with session_factory() as session] block: an exception that leaves
    the block rolls the database back, but never the files. *)
From S2P Require Import Prelude PyTime Models Database Sha256 Storage.

Record world : Type := MkWorld { wdb : db; wfs : fs }.
Definition set_db (d : db) (w : world) : world := MkWorld d (wfs w).

Definition on_db {A} (m : act db A) : act world A := fun w =>
  let '(r, d) := m (wdb w) in (r, MkWorld d (wfs w)).
Definition on_fs {A} (m : act fs A) : act world A := fun w =>
  let '(r, f) := m (wfs w) in (r, MkWorld (wdb w) f).
Definition query {A} (q : db -> A) : act world A := gets (fun w => q (wdb w)).
Definition write_db (f : db -> db) : act world unit := modify (fun w => set_db (f (wdb w)) w).

(** [session.get(T, id)], [session.delete(row)], an attribute write flushed. *)
Definition session_get (t : table) (i : str) : act world (option (row t)) :=
  query (fun d => tbl d t !! i).
Definition session_delete (t : table) (i : str) : act world unit := write_db (del t i).
Definition session_put (t : table) (r : row t) : act world unit :=
  write_db (put t (row_id t r) r).

Definition transaction {A} (m : act world A) : act world A := fun w =>
  match m w with
  | (Ok a, w') => (Ok a, w')
  | (Raise e, w') => (Raise e, MkWorld (wdb w) (wfs w'))
  end.

Lemma deleted_lookup t i d w : tbl (wdb (set_db (del t i d) w)) t !! i = None.
Proof.
  change (wdb (set_db (del t i d) w)) with (del t i d).
  rewrite tbl_del_eq. apply lookup_delete_eq.
Qed.
Lemma put_lookup t i r d w : tbl (wdb (set_db (put t i r d) w)) t !! i = Some r.
Proof.
  change (wdb (set_db (put t i r d) w)) with (put t i r d).
  rewrite tbl_put_eq. apply lookup_insert_eq.
Qed.
Lemma query_bind {A B : Type} (q : db -> A) (k : A -> act world B) w :
  act_bind (query q) k w = k (q (wdb w)) w.
Proof. done. Qed.

Lemma transaction_ok {A} (m : act world A) w a w' :
  transaction m w = (Ok a, w') <-> m w = (Ok a, w').
Proof. unfold transaction. destruct (m w) as [[]]; naive_solver. Qed.
Lemma transaction_raise {A} (m : act world A) w e w' :
  transaction m w = (Raise e, w') -> wdb w' = wdb w.
Proof. unfold transaction. destruct (m w) as [[]]; naive_solver. Qed.

(** A flushed attribute write whose new row breaks a CHECK constraint or a
    column width is an [IntegrityError]. *)
Definition session_save (t : table) (r : row t) : act db unit := fun d =>
  if row_ok t r then (Ok tt, put t (row_id t r) r d) else (Raise IntegrityError, d).
Lemma session_save_spec t r d res d' :
  session_save t r d = (res, d') ->
  res = Ok tt /\ row_ok t r = true /\ d' = put t (row_id t r) r d \/
  res = Raise IntegrityError /\ d' = d.
Proof. unfold session_save. destruct (row_ok t r) eqn:E; naive_solver. Qed.
Lemma session_add_spec t r d res d' :
  session_add t r d = (res, d') ->
  res = Ok tt /\ can_insert t r d = true /\ d' = put t (row_id t r) r d \/
  res = Raise IntegrityError /\ d' = d.
Proof. unfold session_add. destruct (can_insert t r d) eqn:E; naive_solver. Qed.

(** ** Relational reasoning on computations

    [keeps R m]: on every exit, exceptional or not, [m] relates the state it
    started from to the state it leaves by [R]. *)
Definition keeps {S A : Type} (R : S -> S -> Prop) (m : act S A) : Prop :=
  forall s r s', m s = (r, s') -> R s s'.

Section keeps.
Context {S : Type} (R : S -> S -> Prop) {HR : PreOrder R}.
Lemma keeps_ret {A : Type} (a : A) : keeps R (ret a).
Proof. intros s r s' [= <- <-]. done. Qed.
Lemma keeps_raise {A : Type} e : keeps R (raise e : act S A).
Proof. intros s r s' [= <- <-]. done. Qed.
Lemma keeps_gets {A : Type} (f : S -> A) : keeps R (gets f).
Proof. intros s r s' [= <- <-]. done. Qed.
Lemma keeps_lift {A : Type} (m : Res A) : keeps R (lift m).
Proof. intros s r s' [= <- <-]. done. Qed.
Lemma keeps_bind {A B : Type} (m : act S A) (k : A -> act S B) :
  keeps R m -> (forall a, keeps R (k a)) -> keeps R (act_bind m k).
Proof.
  intros Hm Hk s r s'. unfold act_bind. destruct (m s) as [[a|e] s1] eqn:E; intros H.
  - etransitivity; [by eapply Hm|by eapply Hk].
  - injection H as <- <-. by eapply Hm.
Qed.
Lemma keeps_catch {A : Type} (m : act S A) h :
  keeps R m -> (forall e, keeps R (h e)) -> keeps R (catch m h).
Proof.
  intros Hm Hh s r s'. unfold catch. destruct (m s) as [[a|e] s1] eqn:E; intros H.
  - injection H as <- <-. by eapply Hm.
  - etransitivity; [by eapply Hm|by eapply Hh].
Qed.
End keeps.

(** A world relation that only constrains the database. *)
Definition on_wdb (R : db -> db -> Prop) (w w' : world) : Prop := R (wdb w) (wdb w').
#[export] Instance on_wdb_preorder R : PreOrder R -> PreOrder (on_wdb R).
Proof.
  intros [Hr Ht]. unfold on_wdb. split; [intros w; apply Hr|].
  intros w1 w2 w3 H1 H2. by apply Ht with (wdb w2).
Qed.

Section keeps_db.
Context (R : db -> db -> Prop) {HR : PreOrder R}.
Lemma keeps_query {A : Type} (q : db -> A) : keeps (on_wdb R) (query q).
Proof. apply keeps_gets. apply _. Qed.
Lemma keeps_on_fs {A : Type} (m : act fs A) : keeps (on_wdb R) (on_fs m).
Proof. intros w r w'. unfold on_fs. destruct (m (wfs w)). intros [= <- <-]. unfold on_wdb. done. Qed.
Lemma keeps_on_db {A : Type} (m : act db A) : keeps R m -> keeps (on_wdb R) (on_db m).
Proof.
  intros Hm w r w'. unfold on_db. destruct (m (wdb w)) as [r1 d1] eqn:E. intros [= <- <-].
  by eapply Hm.
Qed.
Lemma keeps_write_db f : (forall d, R d (f d)) -> keeps (on_wdb R) (write_db f).
Proof. intros Hf w r w' [= <- <-]. apply Hf. Qed.
Lemma keeps_transaction {A : Type} (m : act world A) :
  keeps (on_wdb R) m -> keeps (on_wdb R) (transaction m).
Proof.
  intros Hm w r w'. unfold transaction. destruct (m w) as [[a|e] w1] eqn:E; intros [= <- <-].
  - by eapply Hm.
  - unfold on_wdb. done.
Qed.
Lemma keeps_session_save t r :
  (forall d, row_ok t r = true -> R d (put t (row_id t r) r d)) ->
  keeps R (session_save t r).
Proof. intros H d x d' [(-> & Hr & ->)|(-> & ->)]%session_save_spec; [by apply H|done]. Qed.
End keeps_db.
Create HintDb keeps.
#[export] Hint Resolve keeps_ret keeps_raise keeps_gets keeps_lift keeps_query keeps_on_fs : keeps.
(** Follow the shape of a computation down to its writes. *)
Ltac keeps_step :=
  first
    [ solve [eauto with keeps typeclass_instances]
    | apply keeps_bind; [try typeclasses eauto|..| intros ?]
    | apply keeps_transaction; [typeclasses eauto|]
    | apply keeps_catch; [typeclasses eauto|..|intros ?]
    | case_match ].

(** [raises_in P m]: every exception [m] lets escape satisfies [P]. *)
Definition raises_in {S A : Type} (P : exn -> Prop) (m : act S A) : Prop :=
  forall s e s', m s = (Raise e, s') -> P e.
Section raises.
Context {S : Type} (P : exn -> Prop).
Lemma raises_ret {A : Type} (a : A) : raises_in P (ret a : act S A).
Proof. intros s e s'. done. Qed.
Lemma raises_gets {A : Type} (f : S -> A) : raises_in P (gets f).
Proof. intros s e s'. done. Qed.
Lemma raises_raise {A : Type} e : P e -> raises_in P (raise e : act S A).
Proof. by intros H s e' s' [= <- _]. Qed.
Lemma raises_lift {A : Type} (m : Res A) :
  (forall e, m = Raise e -> P e) -> raises_in P (lift m : act S A).
Proof. intros H s e s' [= E _]. by apply H. Qed.
Lemma raises_bind {A B : Type} (m : act S A) (k : A -> act S B) :
  raises_in P m -> (forall a, raises_in P (k a)) -> raises_in P (act_bind m k).
Proof.
  intros Hm Hk s e s'. unfold act_bind. destruct (m s) as [[a|e'] s1] eqn:E; intros H.
  - by eapply Hk.
  - injection H as -> ->. by eapply Hm.
Qed.
End raises.
Lemma raises_query {A : Type} (P : exn -> Prop) (q : db -> A) : raises_in P (query q).
Proof. apply raises_gets. Qed.
Lemma raises_write_db (P : exn -> Prop) f : raises_in P (write_db f).
Proof. intros w e w'. done. Qed.
Lemma raises_on_fs {A : Type} (P : exn -> Prop) (m : act fs A) : raises_in P m -> raises_in P (on_fs m).
Proof.
  intros Hm w e w'. unfold on_fs. destruct (m (wfs w)) eqn:E. intros [= -> _]. by eapply Hm.
Qed.
Lemma raises_session_add (P : exn -> Prop) t r :
  P IntegrityError -> raises_in P (on_db (session_add t r)).
Proof.
  intros H w e w'. unfold on_db. destruct (session_add t r (wdb w)) eqn:E.
  apply session_add_spec in E as [(-> & _)|(-> & _)]; [done|]. by intros [= <- _].
Qed.
Create HintDb raises.
#[export] Hint Resolve raises_ret raises_gets raises_query raises_write_db : raises.
Ltac raises_step :=
  first
    [ solve [eauto with raises]
    | apply raises_bind; [|intros ?]
    | case_match ].
