(* ===== verification/BackupAuthority.v ===== *)
(** * Backup generations (src/apps/api/app/services/backup_authority.py)

    The operator's registration and retirement of backup generations.  Each call
    is one transaction on the database; it ends with an exit status and the lines
    it prints.  The timestamp parser is an argument, as in the source; the check of
    the database role is the parameter [role_check]. *)
From S2P Require Import Prelude PyTime Models Database ForeignKeys Sha256 World.
Local Open Scope Z_scope.

(** [_HEX_DIGEST], [_GENERATION_ID] *)
Definition hex_digest (value : str) : bool := (length value =? 64)%nat && forallb is_hex_lower value.
Definition is_alnum (c : Z) : bool :=
  (48 <=? c) && (c <=? 57) || (65 <=? c) && (c <=? 90) || (97 <=? c) && (c <=? 122).
Definition generation_char (c : Z) : bool := is_alnum c || existsb (Z.eqb c) (u "._:-").
Definition is_generation_id (value : str) : bool :=
  match value with
  | [] => false
  | c :: rest => is_alnum c && forallb generation_char rest && (len rest <=? 127)
  end.

(** The exit status and the lines printed. *)
Record exit : Type := MkExit { status : Z; printed : list str }.
(** [argparse.Namespace] of the two commands. *)
Record RegisterArgs : Type := MkRegisterArgs
  { generation_id : str; created_at : str; expires_at : str; db_manifest_digest : str;
    markdown_manifest_digest : str }.
Record TransitionArgs : Type := MkTransitionArgs
  { t_generation_id : str; proof_digest : str; backup_action : str }.

(** [_backup_digest] *)
Definition backup_digest (value : str) (field : string) : option str * list str :=
  if hex_digest value then (Some value, [])
  else (None, [u field ++ u " must be a lowercase SHA-256 hex digest"]).

(** A transaction that does not commit leaves the database as it was. *)
Definition atomically {A : Type} (m : act db A) : act db A := fun d =>
  match m d with (Ok a, d') => (Ok a, d') | (Raise e, _) => (Raise e, d) end.
(** [return] before the commit: the session rolls back. *)
Definition abandon (start : db) (e : exit) : act db exit := modify (fun _ => start) ;;; ret e.

Definition get_row (t : table) (i : str) : act db (option (row t)) := gets (fun d => tbl d t !! i).
(** [select(AccountBackupManifest).where(generation_id == ...)]: at most one. *)
Definition manifest_of (generation : str) (d : db) : option AccountBackupManifest :=
  head (select TAccountBackupManifest
    (fun m => bool_decide (AccountBackupManifest.generation_id m = generation)) d).

(** The comparison of a registered generation with the arguments. *)
Definition immutable_match (existing : AccountBackupManifest) (created expires : datetime)
  (db_digest markdown_digest : str) : bool :=
  dt_eqb (utc (AccountBackupManifest.created_at existing)) created
  && dt_eqb (utc (AccountBackupManifest.expires_at existing)) expires
  && bool_decide (AccountBackupManifest.db_manifest_digest existing = db_digest)
  && bool_decide (AccountBackupManifest.markdown_manifest_digest existing = markdown_digest).
Definition already_registered (args : RegisterArgs) (existing : AccountBackupManifest)
  (created expires : datetime) (authority : option AccountBackupAuthority) : exit :=
  if negb (immutable_match existing created expires (db_manifest_digest args) (markdown_manifest_digest args))
  then MkExit 1 [u "backup generation is already registered with different immutable evidence"]
  else match authority with
       | None => MkExit 1 [u "backup generation authority is missing; register a new generation"]
       | Some _ => MkExit 0 [u "backup generation " ++ generation_id args ++ u " is already registered"]
       end.

(** [AccountBackupManifest(...)] and the authority row, created or moved on. *)
Definition new_manifest (i : str) (args : RegisterArgs) (created expires : datetime) : AccountBackupManifest :=
  AccountBackupManifest.Mk i (generation_id args) created expires (u "active")
    (db_manifest_digest args) (markdown_manifest_digest args) None None None None.
Definition save_authority (authority : option AccountBackupAuthority) (generation : str) (now : datetime) :
  act db unit :=
  match authority with
  | None => session_add TAccountBackupAuthority
      (AccountBackupAuthority.Mk ACCOUNT_BACKUP_AUTHORITY_ID generation now now)
  | Some a => session_save TAccountBackupAuthority
      (a <| AccountBackupAuthority.current_generation_id := generation |>
         <| AccountBackupAuthority.updated_at := now |>)
  end.

(** An account whose live data was erased at or after the capture. *)
Definition erased_after_capture (created : datetime) (l : AccountLifecycle) : bool :=
  eqs (AccountLifecycle.state l) "fully_erased"
  && match AccountLifecycle.live_erased_at l with Some t => dt_leb created t | None => false end.
(** A confirmed deletion that has not ended. *)
Definition open_lifecycle (l : AccountLifecycle) : bool :=
  not_null (AccountLifecycle.confirmed_at l) && negb (eqs (AccountLifecycle.state l) "fully_erased").
Definition new_obligation (i : str) (l : AccountLifecycle) (m : AccountBackupManifest) :
  AccountBackupObligation :=
  AccountBackupObligation.Mk i (AccountLifecycle.id l) (AccountBackupManifest.generation_id m)
    (Some (AccountBackupManifest.created_at m)) (Some (AccountBackupManifest.expires_at m))
    (Some (AccountBackupManifest.db_manifest_digest m))
    (Some (AccountBackupManifest.markdown_manifest_digest m)) (u "pending") None None.
Definition new_backup_item (i : str) (l : AccountLifecycle) (m : AccountBackupManifest) (now : datetime) :
  AccountErasureItem :=
  AccountErasureItem.Mk i (AccountLifecycle.id l) (u "backup_manifest") (AccountBackupManifest.id m)
    (u "backup") (u "hold") (u "queued") 0 (Some now) None None None None None None None now now None.
(** The loop over the open lifecycles; each draws two row ids. *)
Fixpoint attach (new_ids : nat -> str) (m : AccountBackupManifest) (now : datetime)
  (lifecycles : list AccountLifecycle) : act db unit :=
  match lifecycles with
  | [] => ret tt
  | l :: rest =>
      session_add TAccountBackupObligation (new_obligation (new_ids 0%nat) l m) ;;;
      session_add TAccountErasureItem (new_backup_item (new_ids 1%nat) l m now) ;;;
      attach (fun k => new_ids (2 + k)%nat) m now rest
  end.

Section commands.
Context (parse_timestamp : str -> str -> option datetime) (role_check : Res unit).

(** The transaction of [register_backup_generation]. *)
Definition register_transaction (args : RegisterArgs) (created expires now : datetime) (new_ids : nat -> str) :
  act db exit :=
  let! start := gets id in
  lift role_check ;;;
  let! authority := get_row TAccountBackupAuthority ACCOUNT_BACKUP_AUTHORITY_ID in
  let! existing := gets (manifest_of (generation_id args)) in
  match existing with
  | Some existing => ret (already_registered args existing created expires authority)
  | None =>
      let manifest := new_manifest (new_ids 0%nat) args created expires in
      session_add TAccountBackupManifest manifest ;;;
      save_authority authority (generation_id args) now ;;;
      let! live := gets (select TAccountLifecycle (erased_after_capture created)) in
      match live with
      | _ :: _ => abandon start (MkExit 1 [u "backup registration violates a live-erasure capture invariant"])
      | [] =>
          let! lifecycles := gets (select TAccountLifecycle open_lifecycle) in
          attach (fun k => new_ids (S k)) manifest now lifecycles ;;;
          ret (MkExit 0 [u "backup generation " ++ generation_id args ++ u " registered; attached="
                         ++ dec (Z.of_nat (length lifecycles))])
      end
  end.
(** [register_backup_generation] *)
Definition register_backup_generation (args : RegisterArgs) (now : datetime) (new_ids : nat -> str) :
  act db exit :=
  let created := parse_timestamp (created_at args) (u "created-at") in
  let expires := parse_timestamp (expires_at args) (u "expires-at") in
  let '(db_digest, lines) := backup_digest (db_manifest_digest args) "db-manifest-digest" in
  let '(markdown_digest, lines') := backup_digest (markdown_manifest_digest args) "markdown-manifest-digest" in
  match created, expires, db_digest, markdown_digest with
  | Some created, Some expires, Some _, Some _ =>
      if negb (is_generation_id (generation_id args)) || dt_leb expires created
      then ret (MkExit 2 [u "generation id must be a printable identifier and timestamps must increase"])
      else atomically (register_transaction args created expires now new_ids)
  | _, _, _, _ => ret (MkExit 2 (lines ++ lines'))
  end.

(** The retired manifest. *)
Definition retired (args : TransitionArgs) (now : datetime) (m : AccountBackupManifest) : AccountBackupManifest :=
  if eqs (backup_action args) "expire"
  then m <| AccountBackupManifest.state := u "expired" |>
         <| AccountBackupManifest.expired_proof_digest := Some (proof_digest args) |>
         <| AccountBackupManifest.expired_at := Some now |>
  else m <| AccountBackupManifest.state := u "crypto_destroyed" |>
         <| AccountBackupManifest.crypto_destroyed_proof_digest := Some (proof_digest args) |>
         <| AccountBackupManifest.crypto_destroyed_at := Some now |>.
Definition transition_transaction (args : TransitionArgs) (now : datetime) : act db exit :=
  lift role_check ;;;
  let! authority := get_row TAccountBackupAuthority ACCOUNT_BACKUP_AUTHORITY_ID in
  let! manifest := gets (manifest_of (t_generation_id args)) in
  let missing := ret (MkExit 1 [u "active backup generation was not found"]) in
  match authority, manifest with
  | Some authority, Some manifest =>
      if negb (eqs (AccountBackupManifest.state manifest) "active") then missing
      else if bool_decide (AccountBackupAuthority.current_generation_id authority
                           = AccountBackupManifest.generation_id manifest)
      then ret (MkExit 1 [u "register a replacement backup generation before retiring the current generation"])
      else if dt_ltb now (utc (AccountBackupManifest.expires_at manifest))
      then ret (MkExit 1 [u "backup generation has not reached its registered expiry"])
      else
        session_save TAccountBackupManifest (retired args now manifest) ;;;
        ret (MkExit 0 [u "backup generation " ++ t_generation_id args ++ u " marked " ++ backup_action args])
  | _, _ => missing
  end.
(** [transition_backup_generation] *)
Definition transition_backup_generation (args : TransitionArgs) (now : datetime) : act db exit :=
  match backup_digest (proof_digest args) "proof-digest" with
  | (None, lines) => ret (MkExit 2 lines)
  | (Some _, _) => atomically (transition_transaction args now)
  end.
End commands.
