(* ===== verification/BackupAuthorityFacts.v ===== *)
(** * What registering and retiring backup generations guarantees

    Registration is atomic and idempotent and attaches every open deletion to the
    new generation; the current generation always names an active manifest; a
    generation is retired once, after its expiry, and never while it is current. *)
From S2P Require Import Prelude PyTime Models Database ForeignKeys Sha256 World BackupAuthority.
Local Open Scope Z_scope.

(** ** The tables of deletions and backups *)

Definition protected : list table :=
  [TAccountErasureItem; TAccountLifecycle; TAccountBackupManifest; TAccountBackupObligation;
   TAccountBackupAuthority; TAccountLifecycleTombstone; TRetentionHold].
Ltac in_protected := apply (bool_decide_unpack _); vm_compute; exact I.
(** Their rows sit under their keys. *)
Definition protected_keys (d : db) : Prop :=
  forall t k r, t ∈ protected -> tbl d t !! k = Some r -> row_id t r = k.
Lemma protected_keys_put t k r d : protected_keys d -> row_id t r = k -> protected_keys (put t k r d).
Proof.
  intros H Hr t' k' r' Hin. destruct (decide (t = t')) as [<-|Hne].
  - rewrite tbl_put_eq, lookup_insert. case_decide; [naive_solver|by apply H].
  - rewrite tbl_put_ne by done. by apply H.
Qed.

(** Properties of all rows of a table, decided on concrete databases. *)
Definition all_entries (t : table) (p : str -> row t -> bool) (d : db) : bool :=
  forallb (fun kr => p kr.1 kr.2) (map_to_list (tbl d t)).
Lemma all_entries_true t p d k r : all_entries t p d = true -> tbl d t !! k = Some r -> p k r = true.
Proof.
  unfold all_entries. intros H Hk. rewrite forallb_forall in H.
  apply (H (k, r)), list_elem_of_In, elem_of_map_to_list, Hk.
Qed.
Definition keys_check (d : db) : bool :=
  forallb (fun t => all_entries t (fun k r => bool_decide (row_id t r = k)) d) protected.
Lemma keys_check_true d : keys_check d = true -> protected_keys d.
Proof.
  unfold keys_check. rewrite forallb_forall. intros H t k r Ht Hr.
  apply list_elem_of_In, H in Ht. pose proof (all_entries_true _ _ _ _ _ Ht Hr) as E. cbv beta in E.
  by apply bool_decide_eq_true in E.
Qed.

(** ** Inserts *)
Ltac not_in := rewrite ?not_elem_of_cons; split_and?; try done; apply not_elem_of_nil.

(** [d'] is [d] with more rows, in the tables [ts] only. *)
Definition grows (ts : list table) (d d' : db) : Prop :=
  only_fewer d' d /\ forall t, t ∉ ts -> tbl d' t = tbl d t.
Global Instance grows_preorder ts : PreOrder (grows ts).
Proof.
  split; [by intros d; split|]. intros a b c [H1 H2] [H3 H4]. split; [by transitivity b|].
  intros t Ht. by rewrite H4, H2.
Qed.
Lemma grows_weaken ts ts' d d' : grows ts d d' -> (forall t, t ∈ ts -> t ∈ ts') -> grows ts' d d'.
Proof. intros [H1 H2] H. split; [done|]. intros t Ht. apply H2. by intros ?%H. Qed.
Lemma session_add_ok t r d d' : session_add t r d = (Ok tt, d') ->
  row_ok t r = true /\ tbl d t !! row_id t r = None
  /\ (forall k r', tbl d t !! k = Some r' -> row_conflict t r r' = false)
  /\ d' = put t (row_id t r) r d.
Proof.
  intros [(_ & H & ->)|[? _]]%session_add_spec; [|done]. unfold can_insert in H. bool_facts. split_and!; auto.
Qed.
Lemma session_add_grows t r d d' : session_add t r d = (Ok tt, d') ->
  grows [t] d d' /\ tbl d' t !! row_id t r = Some r.
Proof.
  intros (_ & Hn & _ & ->)%session_add_ok. split; [split|].
  - intros t' k r' H. destruct (decide (t = t')) as [<-|]; [|by rewrite tbl_put_ne].
    rewrite tbl_put_eq, lookup_insert_ne; [done|]. intros <-. congruence.
  - intros t' Ht. apply tbl_put_ne. intros ->. apply Ht. left.
  - rewrite tbl_put_eq. apply lookup_insert_eq.
Qed.

(** The rows of [d'] that are not in [d] belong to the lifecycles [P]. *)
Definition attached_only (P : AccountLifecycle -> Prop) (m : AccountBackupManifest) (now : datetime) (d d' : db) : Prop :=
  (forall k o, tbl d' TAccountBackupObligation !! k = Some o -> tbl d TAccountBackupObligation !! k = Some o
     \/ exists l, P l /\ o = new_obligation k l m) /\
  (forall k i, tbl d' TAccountErasureItem !! k = Some i -> tbl d TAccountErasureItem !! k = Some i
     \/ exists l, P l /\ i = new_backup_item k l m now).
Lemma attach_step k1 k2 l m now d d1 d2 :
  session_add TAccountBackupObligation (new_obligation k1 l m) d = (Ok tt, d1) ->
  session_add TAccountErasureItem (new_backup_item k2 l m now) d1 = (Ok tt, d2) ->
  attached_only (eq l) m now d d2.
Proof.
  intros (_ & _ & _ & ->)%session_add_ok (_ & _ & _ & ->)%session_add_ok. cbn [row_id]. split.
  - intros k o. rewrite tbl_put_ne, tbl_put_eq by done. intros [[<- <-]|[_ H]]%lookup_insert_Some; [right; by exists l|by left].
  - intros k i. rewrite tbl_put_eq, tbl_put_ne by done. intros [[<- <-]|[_ H]]%lookup_insert_Some; [right; by exists l|by left].
Qed.
Lemma attached_weaken (P Q : AccountLifecycle -> Prop) m now d d' :
  (forall l, P l -> Q l) -> attached_only P m now d d' -> attached_only Q m now d d'.
Proof.
  intros HPQ [H1 H2]. split; intros k x Hx.
  - destruct (H1 _ _ Hx) as [|(l & ? & ?)]; [by left|right; exists l; auto].
  - destruct (H2 _ _ Hx) as [|(l & ? & ?)]; [by left|right; exists l; auto].
Qed.
Lemma attached_trans P m now d d1 d2 :
  attached_only P m now d d1 -> attached_only P m now d1 d2 -> attached_only P m now d d2.
Proof.
  intros [H1 H2] [H3 H4]. split; intros k x Hx.
  - destruct (H3 _ _ Hx) as [Hx1|]; [by apply H1|by right].
  - destruct (H4 _ _ Hx) as [Hx1|]; [by apply H2|by right].
Qed.
Lemma attach_ok new_ids m now ls d d' : attach new_ids m now ls d = (Ok tt, d') ->
  grows [TAccountBackupObligation; TAccountErasureItem] d d' /\
  attached_only (fun l => l ∈ ls) m now d d' /\
  forall l, l ∈ ls ->
    (exists k, tbl d' TAccountBackupObligation !! k = Some (new_obligation k l m)) /\
    (exists k, tbl d' TAccountErasureItem !! k = Some (new_backup_item k l m now)).
Proof.
  revert new_ids d. induction ls as [|l ls IH]; intros new_ids d; cbn [attach].
  - intros [= ->]. split_and!; [done|split; auto|]. by intros l ?%elem_of_nil.
  - intros ([] & d1 & H1 & ([] & d2 & H2 & H3)%act_bind_ok)%act_bind_ok.
    pose proof (attach_step _ _ _ _ _ _ _ _ H1 H2) as Ha.
    apply session_add_grows in H1 as [G1 L1], H2 as [G2 L2]. apply IH in H3 as (G3 & A3 & L3).
    cbn [row_id new_obligation AccountBackupObligation.id] in L1.
    cbn [row_id new_backup_item AccountErasureItem.id] in L2.
    assert (forall t : table, t ∈ [TAccountBackupObligation] \/ t ∈ [TAccountErasureItem] ->
      t ∈ [TAccountBackupObligation; TAccountErasureItem]) as Hw
      by (intros t; rewrite !elem_of_cons, elem_of_nil; naive_solver).
    split_and!.
    + transitivity d1; [eapply grows_weaken; [done|]; intros t ?; apply Hw; tauto|].
      transitivity d2; [eapply grows_weaken; [done|]; intros t ?; apply Hw; tauto|done].
    + eapply attached_trans; (eapply attached_weaken; [|eassumption]); [intros x <-; left|intros x ?; by right].
    + intros x [->|Hx]%elem_of_cons; [|by apply L3]. split.
      * exists (new_ids 0%nat). exact (proj1 G3 TAccountBackupObligation _ _ (proj1 G2 TAccountBackupObligation _ _ L1)).
      * exists (new_ids 1%nat). exact (proj1 G3 TAccountErasureItem _ _ L2).
Qed.

Lemma dt_eqb_utc x : dt_eqb (utc x) x = true.
Proof. unfold dt_eqb, utc, instant. destruct (tzoffset x) eqn:E; cbn; rewrite ?E; cbn; lia. Qed.

(** ** Registration *)
Section registration.
Context (parse_timestamp : str -> str -> option datetime) (role_check : Res unit).

(** The database after a registration took effect. *)
Record registered (args : RegisterArgs) (now : datetime) (m : AccountBackupManifest) (d d' : db) : Prop := {
  reg_new : manifest_of (generation_id args) d = None;
  reg_manifest : tbl d' TAccountBackupManifest = <[AccountBackupManifest.id m := m]> (tbl d TAccountBackupManifest);
  reg_fresh : tbl d TAccountBackupManifest !! AccountBackupManifest.id m = None;
  reg_authority : exists a, tbl d' TAccountBackupAuthority !! ACCOUNT_BACKUP_AUTHORITY_ID = Some a
    /\ AccountBackupAuthority.current_generation_id a = generation_id args;
  reg_no_erased : forall k l, tbl d TAccountLifecycle !! k = Some l ->
    erased_after_capture (AccountBackupManifest.created_at m) l = false;
  reg_obligations : forall k l, tbl d TAccountLifecycle !! k = Some l -> open_lifecycle l = true ->
    (exists i, tbl d' TAccountBackupObligation !! i = Some (new_obligation i l m)) /\
    (exists i, tbl d' TAccountErasureItem !! i = Some (new_backup_item i l m now));
  reg_attached : attached_only (fun l => open_lifecycle l = true /\ exists k, tbl d TAccountLifecycle !! k = Some l)
    m now d d';
  reg_kept : forall t k r, t <> TAccountBackupAuthority -> tbl d t !! k = Some r -> tbl d' t !! k = Some r;
  reg_other : forall t, t ∉ [TAccountBackupManifest; TAccountBackupAuthority; TAccountBackupObligation;
    TAccountErasureItem] -> tbl d' t = tbl d t
}.

Lemma save_authority_ok a generation now d d' : tbl d TAccountBackupAuthority !! ACCOUNT_BACKUP_AUTHORITY_ID = a ->
  protected_keys d -> save_authority a generation now d = (Ok tt, d') ->
  (exists a', tbl d' TAccountBackupAuthority !! ACCOUNT_BACKUP_AUTHORITY_ID = Some a'
    /\ AccountBackupAuthority.current_generation_id a' = generation)
  /\ forall t, t <> TAccountBackupAuthority -> tbl d' t = tbl d t.
Proof.
  intros Ha Hk. destruct a as [a|]; cbn [save_authority]; intros H.
  - apply session_save_spec in H as [(_ & _ & ->)|[? _]]; [|done]. split.
    + eexists. split.
      * rewrite tbl_put_eq.
        replace (row_id TAccountBackupAuthority _) with ACCOUNT_BACKUP_AUTHORITY_ID; [apply lookup_insert_eq|].
        symmetry. refine (Hk TAccountBackupAuthority _ a _ Ha). in_protected.
      * done.
    + intros t Ht. by apply tbl_put_ne.
  - apply session_add_ok in H as (_ & _ & _ & ->). split.
    + eexists. split; [rewrite tbl_put_eq; apply lookup_insert_eq|done].
    + intros t Ht. by apply tbl_put_ne.
Qed.

Lemma register_transaction_ok args created expires now new_ids d e d' : protected_keys d ->
  register_transaction role_check args created expires now new_ids d = (Ok e, d') ->
  (manifest_of (generation_id args) d = None -> status e = 1) /\ d' = d
  \/ registered args now (new_manifest (new_ids 0%nat) args created expires) d d' /\ status e = 0.
Proof.
  intros Hk H. unfold register_transaction in H.
  apply act_bind_ok in H as (d0 & d1 & [= <- <-] & H). cbn [id] in H.
  apply act_bind_ok in H as ([] & d1 & [= _ <-] & H).
  apply act_bind_ok in H as (a & d1 & [= Ha <-] & H). apply act_bind_ok in H as (ex & d1 & [= Hex <-] & H).
  destruct ex as [ex|]; [left; injection H as <- <-; by rewrite Hex|].
  set (m := new_manifest _ _ _ _) in *. apply act_bind_ok in H as ([] & d1 & Hm & H).
  apply act_bind_ok in H as ([] & d2 & Hau & H). apply act_bind_ok in H as (live & d3 & [= Hl <-] & H).
  destruct live as [|l0 live]; [|left; by injection H as <- <-]. right.
  apply act_bind_ok in H as (ls & d3 & [= Hls <-] & H). apply act_bind_ok in H as ([] & d3 & Hat & [= <- <-]).
  split; [|done]. pose proof (session_add_grows _ _ _ _ Hm) as [Hg1 _].
  apply session_add_ok in Hm as (_ & Hfresh & _ & ->).
  apply save_authority_ok in Hau as [Hau Hau'];
    [|rewrite tbl_put_ne by done; exact Ha|by apply protected_keys_put].
  apply attach_ok in Hat as ([Hf Ho] & Hao & Hat).
  assert (tbl d2 TAccountLifecycle = tbl d TAccountLifecycle) as El by (rewrite Hau', tbl_put_ne; done).
  split.
  - done.
  - rewrite Ho, Hau' by not_in. apply tbl_put_eq.
  - done.
  - rewrite Ho by not_in. exact Hau.
  - intros k l Hl'. destruct (erased_after_capture (AccountBackupManifest.created_at m) l) eqn:E; [|done].
    rewrite <-El in Hl'. pose proof (in_select TAccountLifecycle (erased_after_capture created) _ _ _ Hl' E) as Hin.
    rewrite Hl in Hin. by apply elem_of_nil in Hin.
  - intros k l Hl' Hopen. apply Hat. rewrite <-Hls, <-El in *. by eapply (in_select TAccountLifecycle).
  - destruct Hao as [Hao Hai]. rewrite <-El. subst ls. split.
    + intros k o Ho'. destruct (Hao _ _ Ho') as [Hx|(l & Hx & ->)]; [left; by rewrite Hau', tbl_put_ne in Hx|right].
      exists l. split; [|done]. destruct (proj1 (elem_of_select TAccountLifecycle _ _ _) Hx) as [? ?]. auto.
    + intros k i Hi'. destruct (Hai _ _ Hi') as [Hx|(l & Hx & ->)]; [left; by rewrite Hau', tbl_put_ne in Hx|right].
      exists l. split; [|done]. destruct (proj1 (elem_of_select TAccountLifecycle _ _ _) Hx) as [? ?]. auto.
  - intros t k r Ht Hr. apply Hf. rewrite Hau' by done. by apply (proj1 Hg1).
  - intros t Ht. rewrite !not_elem_of_cons in Ht. destruct Ht as (? & ? & ? & ? & _).
    rewrite Ho, Hau', tbl_put_ne by (done || not_in). done.
Qed.

Lemma manifest_of_none generation d k m : manifest_of generation d = None ->
  tbl d TAccountBackupManifest !! k = Some m -> AccountBackupManifest.generation_id m <> generation.
Proof.
  unfold manifest_of. intros Hn Hm E.
  pose proof (in_select TAccountBackupManifest (fun m => bool_decide (AccountBackupManifest.generation_id m = generation))
    _ _ _ Hm (bool_decide_eq_true_2 _ E)) as Hin.
  destruct (select _ _ _); [by apply elem_of_nil in Hin|done].
Qed.
Lemma manifest_of_some generation d m : manifest_of generation d = Some m ->
  (exists k, tbl d TAccountBackupManifest !! k = Some m) /\ AccountBackupManifest.generation_id m = generation.
Proof.
  unfold manifest_of. intros H%head_Some_elem_of. destruct (proj1 (elem_of_select TAccountBackupManifest _ _ _) H) as [Hk Hp].
  by apply bool_decide_eq_true in Hp.
Qed.
Lemma manifest_of_registered args now m d d' : registered args now m d d' ->
  AccountBackupManifest.generation_id m = generation_id args -> manifest_of (generation_id args) d' = Some m.
Proof.
  intros [Hn Hm Hf _ _ _ _ _] Hg. destruct (manifest_of (generation_id args) d') as [m'|] eqn:E.
  - apply manifest_of_some in E as [[k Hk] Hg']. rewrite Hm in Hk.
    apply lookup_insert_Some in Hk as [[_ <-]|[_ Hk]]; [done|].
    by destruct (manifest_of_none _ _ _ _ Hn Hk).
  - intros. destruct (manifest_of_none _ _ (AccountBackupManifest.id m) m E); [|done].
    rewrite Hm. apply lookup_insert_eq.
Qed.

Notation register := (register_backup_generation parse_timestamp role_check).
(** The commands past their argument checks. *)
Lemma register_cases args now new_ids d r d' : register args now new_ids d = (r, d') ->
  (exists lines, r = Ok (MkExit 2 lines)) /\ d' = d \/
  exists created expires, parse_timestamp (created_at args) (u "created-at") = Some created
    /\ parse_timestamp (expires_at args) (u "expires-at") = Some expires
    /\ dt_ltb created expires = true
    /\ (forall now new_ids d, register args now new_ids d
        = atomically (register_transaction role_check args created expires now new_ids) d).
Proof.
  unfold register_backup_generation, backup_digest.
  destruct (hex_digest (db_manifest_digest args)), (hex_digest (markdown_manifest_digest args)),
    (parse_timestamp (created_at args) (u "created-at")) as [created|],
    (parse_timestamp (expires_at args) (u "expires-at")) as [expires|]; try (intros [= <- <-]; left; by eauto).
  destruct (negb (is_generation_id (generation_id args)) || dt_leb expires created) eqn:E;
    [intros [= <- <-]; left; by eauto|].
  intros _. right. exists created, expires. split_and!; [done..| |done].
  apply orb_false_iff in E as [_ E]. unfold dt_leb, dt_ltb in *. lia.
Qed.

(** A registration takes effect completely or not at all. *)
Lemma register_effect args now new_ids d r d' : protected_keys d -> register args now new_ids d = (r, d') ->
  d' = d \/ exists m lines, r = Ok (MkExit 0 lines) /\ registered args now m d d'
    /\ AccountBackupManifest.state m = u "active" /\ AccountBackupManifest.generation_id m = generation_id args.
Proof.
  intros Hk H. apply register_cases in H as H'. destruct H' as [[_ ->]|(created & expires & _ & _ & _ & E)]; [by left|].
  rewrite E in H. unfold atomically in H.
  destruct (register_transaction role_check args created expires now new_ids d) as [[e|x] d1] eqn:Ht;
    injection H as <- <-; [|by left].
  apply register_transaction_ok in Ht as [[_ ->]|[Hr Hs]]; [by left| |done]. right.
  destruct e as [s lines]. cbn in Hs. subst s. by eexists _, lines.
Qed.

(** C24: registration takes effect completely or not at all.  When a new
    generation is registered its manifest is active and current, every confirmed
    deletion that has not ended gets a pending obligation and a queued item for it,
    no account was erased at or after the capture, and nothing else changes; with
    any other exit status, or an exception, the database is unchanged. *)
Theorem registration_atomic args now new_ids d r d' : protected_keys d -> register args now new_ids d = (r, d') ->
  d' = d \/ exists m lines, r = Ok (MkExit 0 lines) /\ registered args now m d d'
    /\ AccountBackupManifest.state m = u "active" /\ AccountBackupManifest.generation_id m = generation_id args.
Proof. apply register_effect. Qed.

(** Registering again with the same arguments, at any time, succeeds and
    changes nothing. *)
Theorem registration_idempotent args now new_ids d lines d' now' new_ids' : protected_keys d ->
  register args now new_ids d = (Ok (MkExit 0 lines), d') ->
  exists lines', register args now' new_ids' d' = (Ok (MkExit 0 lines'), d').
Proof.
  intros Hk H. apply register_cases in H as H'.
  destruct H' as [[[l E] _]|(created & expires & _ & _ & _ & E)]; [congruence|]. rewrite E in *.
  unfold atomically in *.
  destruct (register_transaction role_check args created expires now new_ids d) as [[e|x] d1] eqn:Ht; [|done].
  injection H as -> ->. assert (role_check = Ok tt) as Hrole.
  { unfold register_transaction in Ht. cbn in Ht. destruct role_check as [[]|]; done. }
  apply register_transaction_ok in Ht as Hreg; [|done]. destruct Hreg as [[Hm ->]|[Hreg _]].
  - unfold register_transaction in *. cbn in Ht |- *. rewrite Hrole in *. cbn in Ht |- *.
    destruct (manifest_of (generation_id args) d) as [ex|] eqn:Hex; [injection Ht as ->; by eexists|].
    by specialize (Hm eq_refl).
  - apply manifest_of_registered in Hreg as Hm; [|done]. destruct Hreg as [_ _ _ (a & Ha & _) _ _ _ _].
    unfold register_transaction. cbn. rewrite Hrole. cbn. rewrite Hm. cbn.
    unfold already_registered, immutable_match. cbn.
    rewrite !dt_eqb_utc, !bool_decide_eq_true_2 by done. cbn.
    match goal with |- context [tbl d' ?t !! ?i] => replace (tbl d' t !! i) with (Some a) by done end. by eexists.
Qed.

(** ** Retirement *)
Lemma instant_utc x : instant (utc x) = instant x.
Proof. pose proof (dt_eqb_utc x) as H. unfold dt_eqb in H. lia. Qed.
Lemma row_id_retired args now m :
  row_id TAccountBackupManifest (retired args now m) = AccountBackupManifest.id m.
Proof. unfold retired. by destruct (eqs _ _). Qed.
Lemma generation_retired args now m :
  AccountBackupManifest.generation_id (retired args now m) = AccountBackupManifest.generation_id m.
Proof. unfold retired. by destruct (eqs _ _). Qed.
Notation transition := (transition_backup_generation role_check).
(** A generation is retired only when it is active, past its registered expiry
    and not the current one; only its manifest row changes, to the retired state
    with the operator's proof and the time.  Otherwise the database is unchanged. *)
Lemma retire_effect args now d r d' : transition args now d = (r, d') ->
  d' = d \/ exists a m k lines, r = Ok (MkExit 0 lines)
    /\ tbl d TAccountBackupAuthority !! ACCOUNT_BACKUP_AUTHORITY_ID = Some a
    /\ tbl d TAccountBackupManifest !! k = Some m
    /\ AccountBackupManifest.generation_id m = t_generation_id args
    /\ AccountBackupManifest.state m = u "active"
    /\ AccountBackupAuthority.current_generation_id a <> AccountBackupManifest.generation_id m
    /\ instant (AccountBackupManifest.expires_at m) <= instant now
    /\ AccountBackupManifest.AccountBackupManifest_ok (retired args now m) = true
    /\ d' = put TAccountBackupManifest (AccountBackupManifest.id m) (retired args now m) d.
Proof.
  unfold transition_backup_generation. destruct (backup_digest _ _) as [[g|] ls]; [|intros [= <- <-]; by left].
  unfold atomically. destruct (transition_transaction role_check args now d) as [[e|x] d1] eqn:H;
    intros [= <- <-]; [|by left].
  unfold transition_transaction in H. apply act_bind_ok in H as ([] & d2 & [= _ <-] & H).
  apply act_bind_ok in H as (a & d2 & [= Ha <-] & H). apply act_bind_ok in H as (m & d2 & [= Hm <-] & H).
  destruct a as [a|], m as [m|]; try (injection H as <- <-; by left).
  destruct (negb _) eqn:Hs; [injection H as <- <-; by left|].
  destruct (bool_decide _) eqn:Hc; [injection H as <- <-; by left|].
  destruct (dt_ltb _ _) eqn:Hx; [injection H as <- <-; by left|].
  apply act_bind_ok in H as ([] & d2 & H & [= <- <-]). right.
  apply session_save_spec in H as [(_ & Hok & ->)|[? _]]; [|done].
  apply manifest_of_some in Hm as [[k Hk] Hg]. bool_facts. exists a, m, k.
  eexists. split_and!; [done..| | |].
  - rewrite <-(instant_utc (AccountBackupManifest.expires_at m)). unfold dt_ltb in Hx. lia.
  - done.
  - by rewrite row_id_retired.
Qed.

(** ** The current generation *)

(** Rows sit under their keys, generations have one manifest each, and the
    authority, if there is one, names an active manifest. *)
Record backups_ok (d : db) : Prop := {
  backups_keys : protected_keys d;
  backups_unique : forall k k' m m', tbl d TAccountBackupManifest !! k = Some m ->
    tbl d TAccountBackupManifest !! k' = Some m' ->
    AccountBackupManifest.generation_id m = AccountBackupManifest.generation_id m' -> k = k';
  backups_current : forall a, tbl d TAccountBackupAuthority !! ACCOUNT_BACKUP_AUTHORITY_ID = Some a ->
    exists k m, tbl d TAccountBackupManifest !! k = Some m
      /\ AccountBackupManifest.generation_id m = AccountBackupAuthority.current_generation_id a
      /\ AccountBackupManifest.state m = u "active"
}.
Inductive operator_step (d d' : db) : Prop :=
| operator_registers args now new_ids r : register args now new_ids d = (r, d') -> operator_step d d'
| operator_retires args now r : transition args now d = (r, d') -> operator_step d d'.

(** Rows stay under their keys. *)
Definition keys_kept (d d' : db) : Prop := protected_keys d -> protected_keys d'.
Global Instance keys_kept_preorder : PreOrder keys_kept.
Proof. split; [by intros d H|]. intros a b c H1 H2 H. by apply H2, H1. Qed.
Lemma session_add_keys t r : keeps keys_kept (session_add t r).
Proof.
  intros d x d' [(-> & _ & ->)|(-> & ->)]%session_add_spec H; [by apply protected_keys_put|done].
Qed.
Lemma session_save_keys t r : keeps keys_kept (session_save t r).
Proof.
  intros d x d' [(-> & _ & ->)|(-> & ->)]%session_save_spec H; [by apply protected_keys_put|done].
Qed.
Lemma attach_keys new_ids m now ls : keeps keys_kept (attach new_ids m now ls).
Proof.
  revert new_ids. induction ls as [|l ls IH]; intros new_ids; cbn [attach]; [apply keeps_ret, _|].
  repeat (apply keeps_bind; [apply _|apply session_add_keys|intros _]). apply IH.
Qed.
Lemma register_keys args now new_ids d r d' : register args now new_ids d = (r, d') -> keys_kept d d'.
Proof.
  intros H Hk. apply register_cases in H as H'. destruct H' as [[_ ->]|(created & expires & _ & _ & _ & E)]; [done|].
  rewrite E in H. unfold atomically in H.
  destruct (register_transaction role_check args created expires now new_ids d) as [[e|x] d1] eqn:Ht;
    injection H as <- <-; [|done].
  unfold register_transaction in Ht. apply act_bind_ok in Ht as (d0 & d2 & [= <- <-] & Ht). cbn [id] in Ht.
  apply act_bind_ok in Ht as ([] & d2 & [= _ <-] & Ht).
  apply act_bind_ok in Ht as (a & d2 & [= Ha <-] & Ht). apply act_bind_ok in Ht as (ex & d2 & [= Hex <-] & Ht).
  destruct ex; [by injection Ht as _ <-|].
  apply act_bind_ok in Ht as ([] & d2 & Hm & Ht).
  pose proof (session_add_keys _ _ _ _ _ Hm Hk) as H2.
  apply act_bind_ok in Ht as ([] & d3 & Hau & Ht).
  assert (protected_keys d3) as H3.
  { destruct a; [exact (session_save_keys _ _ _ _ _ Hau H2)|exact (session_add_keys _ _ _ _ _ Hau H2)]. }
  apply act_bind_ok in Ht as (live & d4 & [= Hl <-] & Ht). destruct live; [|by injection Ht as _ <-].
  apply act_bind_ok in Ht as (ls & d4 & [= Hls <-] & Ht). apply act_bind_ok in Ht as ([] & d4 & Hat & [= _ <-]).
  exact (attach_keys _ _ _ _ _ _ _ Hat H3).
Qed.
Lemma registered_backups_ok args now m d d' : protected_keys d' -> registered args now m d d' ->
  AccountBackupManifest.generation_id m = generation_id args -> AccountBackupManifest.state m = u "active" ->
  backups_ok d -> backups_ok d'.
Proof.
  intros Hk' [Hn Hm Hf (a & Ha & Hag) _ _ _ _] Hg Hs [Hk Hu Hc]. split; [done| |].
  - intros k k' x x'. rewrite Hm, !lookup_insert_Some.
    intros [[<- <-]|[_ Hx]] [[<- <-]|[_ Hx']] E; [done| | |by eapply Hu].
    + apply (manifest_of_none _ _ _ _ Hn) in Hx'. congruence.
    + apply (manifest_of_none _ _ _ _ Hn) in Hx. congruence.
  - intros a'. rewrite Ha. intros [= <-]. exists (AccountBackupManifest.id m), m.
    rewrite Hm, lookup_insert_eq, Hag. done.
Qed.
Lemma retired_backups_ok args now a k m d : tbl d TAccountBackupAuthority !! ACCOUNT_BACKUP_AUTHORITY_ID = Some a ->
  tbl d TAccountBackupManifest !! k = Some m ->
  AccountBackupAuthority.current_generation_id a <> AccountBackupManifest.generation_id m ->
  backups_ok d -> backups_ok (put TAccountBackupManifest (AccountBackupManifest.id m) (retired args now m) d).
Proof.
  intros Ha Hm Hne [Hk Hu Hc]. assert (AccountBackupManifest.id m = k) as <- by (apply (Hk TAccountBackupManifest); [in_protected|done]). cbn [row_id] in *. split.
  - apply protected_keys_put; [done|]. apply row_id_retired.
  - intros k k' x x'. rewrite tbl_put_eq, !lookup_insert_Some.
    intros [[<- <-]|[_ Hx]] [[<- <-]|[_ Hx']]; rewrite ?generation_retired; intros E; [done|by eapply Hu..].
  - intros a'. rewrite tbl_put_ne by done. rewrite Ha. intros [= <-].
    destruct (Hc _ Ha) as (k0 & m0 & Hm0 & Hg0 & Hs0). exists k0, m0. rewrite tbl_put_eq, lookup_insert_ne; [done|].
    intros <-. rewrite Hm in Hm0. injection Hm0 as <-. congruence.
Qed.
Lemma backups_step d d' : operator_step d d' -> backups_ok d -> backups_ok d'.
Proof.
  intros [args now new_ids r H|args now r H] Hok.
  - pose proof (register_keys _ _ _ _ _ _ H (backups_keys _ Hok)) as Hk'.
    apply register_effect in H as [->|(m & ls & _ & Hreg & Ha & Hg)]; [done| |by destruct Hok].
    by eapply registered_backups_ok.
  - apply retire_effect in H as [->|(a & m & k & ls & _ & Ha & Hm & _ & _ & Hne & _ & _ & ->)]; [done|].
    by eapply retired_backups_ok.
Qed.
(** No command leaves the authority naming a generation that is not active. *)
Theorem current_generation_active d d' : operator_step d d' -> backups_ok d -> backups_ok d'.
Proof. apply backups_step. Qed.
End registration.

(** ** Two registrations around one open deletion *)
Definition backups_check (d : db) : bool :=
  keys_check d
  && all_entries TAccountBackupManifest (fun k m => all_entries TAccountBackupManifest (fun k' m' =>
       bool_decide (k = k')
       || negb (bool_decide (AccountBackupManifest.generation_id m = AccountBackupManifest.generation_id m'))) d) d
  && match tbl d TAccountBackupAuthority !! ACCOUNT_BACKUP_AUTHORITY_ID with
     | None => true
     | Some a => match manifest_of (AccountBackupAuthority.current_generation_id a) d with
                 | Some m => eqs (AccountBackupManifest.state m) "active"
                 | None => false
                 end
     end.
Lemma backups_check_true d : backups_check d = true -> backups_ok d.
Proof.
  unfold backups_check. rewrite !andb_true_iff. intros [[Hk Hu] Hc]. split; [by apply keys_check_true|..].
  - intros k k' m m' Hm Hm' E. pose proof (all_entries_true _ _ _ _ _ Hu Hm) as H. cbv beta in H.
    pose proof (all_entries_true _ _ _ _ _ H Hm') as H'. cbv beta in H'.
    apply orb_true_iff in H' as [H'|H']; [by apply bool_decide_eq_true in H'|].
    apply negb_true_iff, bool_decide_eq_false in H'. congruence.
  - intros a Ha. rewrite Ha in Hc. destruct (manifest_of _ d) as [m|] eqn:Hm; [|done].
    apply manifest_of_some in Hm as [[k Hk'] Hg]. apply eqs_true in Hc. by exists k, m.
Qed.
Module BackupDemo.
Definition noon : datetime := MkDatetime 1000 (Some 0).
Definition dusk : datetime := MkDatetime 2000 (Some 0).
Definition lifecycle : AccountLifecycle :=
  AccountLifecycle.Mk (u "d") (u "s") None None None None None None None (u "erasing") (u "pending")
    (u "expiry_pending") (u "v1") noon (Some noon) (Some noon) None None None.
Definition d0 : db := put TAccountLifecycle (u "d") lifecycle empty_db.
Definition digest : str := concat (replicate 4 (u "0123456789abcdef")).
Definition parse (value label : str) : option datetime := if eqs label "created-at" then Some noon else Some dusk.
Definition args (generation : str) : RegisterArgs := MkRegisterArgs generation (u "noon") (u "dusk") digest digest.
Definition register (generation : str) (base : Z) : act db exit :=
  register_backup_generation parse (Ok tt) (args generation) noon (fun k => [base; Z.of_nat k]).
Definition d1 : db := (register (u "g1") 1 d0).2.
Definition d2 : db := (register (u "g2") 2 d1).2.
Definition retire : act db exit :=
  transition_backup_generation (Ok tt) (MkTransitionArgs (u "g1") digest (u "expire")) dusk.
End BackupDemo.
Lemma registration_atomic_witness :
  map AccountBackupObligation.generation_id (select TAccountBackupObligation (fun _ => true) BackupDemo.d1) = [u "g1"]
  /\ (BackupDemo.d1 = BackupDemo.d0 \/ exists m lines,
        (BackupDemo.register (u "g1") 1 BackupDemo.d0).1 = Ok (MkExit 0 lines)
        /\ registered (BackupDemo.args (u "g1")) BackupDemo.noon m BackupDemo.d0 BackupDemo.d1
        /\ AccountBackupManifest.state m = u "active" /\ AccountBackupManifest.generation_id m = u "g1").
Proof.
  split; [vm_compute; reflexivity|].
  apply (registration_atomic BackupDemo.parse (Ok tt) (BackupDemo.args (u "g1")) BackupDemo.noon
    (fun k => [1; Z.of_nat k])); [apply keys_check_true; vm_compute; reflexivity|apply surjective_pairing].
Defined.
Lemma current_generation_active_witness :
  (BackupDemo.retire BackupDemo.d1).1
  = Ok (MkExit 1 [u "register a replacement backup generation before retiring the current generation"])
  /\ backups_ok BackupDemo.d2.
Proof.
  split; [vm_compute; reflexivity|].
  apply (current_generation_active BackupDemo.parse (Ok tt) BackupDemo.d1).
  - eapply operator_registers, (surjective_pairing (BackupDemo.register (u "g2") 2 BackupDemo.d1)).
  - apply backups_check_true. vm_compute. reflexivity.
Defined.
