(* ===== verification/Frontmatter.v ===== *)
(** * Canonical frontmatter of profiles and resumes

    What the validator of markdown.py returns for a document, in the shape the
    JSON Schemas of packages/markdown-schemas give it, and its two readings: the
    taxonomy entries of services/taxonomy.py and the search fields of
    services/search.py. *)
From S2P Require Import Prelude PyTime Json Database.
Local Open Scope Z_scope.

(** ** Data *)

(** A reference to a vocabulary; the last five members belong to languages,
    organizations and locations. *)
Record Reference : Type := MkReference
  { scheme : str; ref_id : str; label : str; ref_version : option str;
    proficiency : option str; relationship : option str;
    country_code : option str; region : option str; city : option str }.
Record FrontmatterV2 : Type := MkFrontmatterV2
  { occupations : list Reference; industries : list Reference; location : Reference;
    skills : list Reference; languages : list Reference; seniority : Reference;
    work_modes : list str; availability_status : str; available_from : option str;
    open_to : list Reference; organizations : list Reference;
    representation_status : str; representative : option Reference; contact_disclosure : str }.
(** The members the two schema versions do not share. *)
Inductive Discovery : Type := V1 (location : str) (skills : list str) | V2 (f : FrontmatterV2).
Record Frontmatter : Type := MkFrontmatter
  { fm_name : str; fm_headline : str; fm_title : option str; fm_updated_at : str; fm_fields : Discovery }.

(** The validator, as the document services rely on it: it returns the frontmatter
    and the body, and fails with [MarkdownValidationError] only. *)
Class DocumentMarkdown : Type := {
  validate_document : str -> str -> Res (Frontmatter * str);
  validate_document_error kind markdown e :
    validate_document kind markdown = Raise e -> exists message, e = MarkdownValidationError message
}.

(** ** Taxonomy entries *)
Definition WORK_MODE_LABELS : list (string * string) :=
  [("on_site", "On-site"); ("hybrid", "Hybrid"); ("remote", "Remote")]%string.
Definition WORK_MODE_SCHEME : str := u "connect.md".
Definition work_mode_label (value : str) : option str :=
  (fun kv => u kv.2) <$> head (filter (fun kv => eqs value kv.1 = true) WORK_MODE_LABELS).

(** The dict [_reference_entries] builds for a reference. *)
Record Entry : Type := MkEntry
  { e_taxonomy : str; e_scheme : str; e_external_id : str; e_label : str;
    e_vocabulary_version : option str; e_field_name : str; e_source_ordinal : Z;
    e_language_proficiency : option str; e_organization_relationship : option str;
    e_location_country_code : option str; e_location_region : option str; e_location_city : option str }.
(** [add_reference] *)
Definition add_reference (taxonomy field_name : string) (r : Reference) (source_ordinal : Z) : Entry :=
  MkEntry (u taxonomy) (scheme r) (ref_id r) (label r) (ref_version r) (u field_name) source_ordinal
    (proficiency r) (relationship r) (country_code r) (region r) (city r).
Definition add_references (taxonomy field_name : string) (l : list Reference) : list Entry :=
  imap (fun k r => add_reference taxonomy field_name r (Z.of_nat k)) l.
Fixpoint work_mode_entries (ordinal : Z) (values : list str) : Res (list Entry) :=
  match values with
  | [] => Ok []
  | value :: values =>
      match work_mode_label value with
      | None => Raise (TaxonomyProjectionError (u "canonical work mode is outside the schema contract"))
      | Some label =>
          let? rest := work_mode_entries (ordinal + 1) values in
          Ok (MkEntry (u "work_mode") WORK_MODE_SCHEME value label None (u "work_modes") ordinal
                None None None None None :: rest)
      end
  end.
(** [_reference_entries] *)
Definition _reference_entries (f : Frontmatter) : Res (list Entry) :=
  match fm_fields f with
  | V1 _ _ => Ok []
  | V2 f =>
      let? modes := work_mode_entries 0 (work_modes f) in
      Ok (add_references "occupation" "occupation_ids" (occupations f)
          ++ add_references "industry" "industry_ids" (industries f)
          ++ [add_reference "location" "location_id" (location f) 0]
          ++ add_references "skill" "skill_ids" (skills f)
          ++ add_references "language" "language_ids" (languages f)
          ++ [add_reference "seniority" "seniority_ids" (seniority f) 0]
          ++ add_references "open_to" "open_to_ids" (open_to f)
          ++ add_references "organization" "organization_ids" (organizations f)
          ++ match representative f with
             | Some r => [add_reference "representative" "representative_ids" r 0]
             | None => []
             end
          ++ modes)
  end.

(** ** Search fields *)
Definition _reference_id (r : Reference) : str := scheme r ++ u ":" ++ ref_id r.
Definition _reference_version (r : Reference) : option str :=
  (fun version => scheme r ++ u "@" ++ version) <$> ref_version r.

Definition text (s : str) : pyval := PStr s.
Definition opt_text (s : option str) : pyval := match s with Some s => PStr s | None => PNone end.
Definition texts (l : list str) : pyval := PList (map PStr l).
(** [reference["proficiency"] for reference in languages] *)
Fixpoint proficiencies (l : list Reference) : Res (list str) :=
  match l with
  | [] => Ok []
  | r :: l =>
      match proficiency r with
      | None => Raise KeyError
      | Some p => let? rest := proficiencies l in Ok (p :: rest)
      end
  end.
Definition taxonomy_references (f : FrontmatterV2) : list Reference :=
  occupations f ++ industries f ++ [location f] ++ skills f ++ languages f ++ [seniority f] ++ open_to f
  ++ organizations f.
(** The sorted set of versions. *)
Definition taxonomy_versions (f : FrontmatterV2) : list str :=
  sorted_strs (remove_dups (omap _reference_version (taxonomy_references f))).

(** [_project_frontmatter]: the members in order. *)
Definition project_v1 (location : str) (skills : list str) : list (string * pyval) :=
  [("schema_version", PInt 1); ("occupations", texts []); ("occupation_ids", texts []);
   ("industries", texts []); ("industry_ids", texts []); ("location", text location);
   ("location_id", PNone); ("location_country_code", PNone); ("location_region", PNone);
   ("location_city", PNone); ("skills", texts skills); ("skill_ids", texts []);
   ("languages", texts []); ("language_ids", texts []); ("language_proficiencies", texts []);
   ("seniority", PNone); ("seniority_id", PNone); ("work_modes", texts []);
   ("availability_status", PNone); ("availability_from", PNone); ("open_to", texts []);
   ("open_to_ids", texts []); ("organizations", texts []); ("organization_ids", texts []);
   ("representation_status", PNone); ("representative", PNone); ("representative_id", PNone);
   ("contact_disclosure", PNone); ("taxonomy_versions", texts [])]%string.
Definition labels (l : list Reference) : pyval := texts (map label l).
Definition ids (l : list Reference) : pyval := texts (map _reference_id l).
Definition project_v2 (f : FrontmatterV2) (proficiencies : list str) : list (string * pyval) :=
  [("schema_version", PInt 2); ("occupations", labels (occupations f)); ("occupation_ids", ids (occupations f));
   ("industries", labels (industries f)); ("industry_ids", ids (industries f));
   ("location", text (label (location f))); ("location_id", text (_reference_id (location f)));
   ("location_country_code", opt_text (country_code (location f)));
   ("location_region", opt_text (region (location f))); ("location_city", opt_text (city (location f)));
   ("skills", labels (skills f)); ("skill_ids", ids (skills f));
   ("languages", labels (languages f)); ("language_ids", ids (languages f));
   ("language_proficiencies", texts proficiencies);
   ("seniority", text (label (seniority f))); ("seniority_id", text (_reference_id (seniority f)));
   ("work_modes", texts (work_modes f)); ("availability_status", text (availability_status f));
   ("availability_from", opt_text (available_from f));
   ("open_to", labels (open_to f)); ("open_to_ids", ids (open_to f));
   ("organizations", labels (organizations f)); ("organization_ids", ids (organizations f));
   ("representation_status", text (representation_status f));
   ("representative", opt_text (label <$> representative f));
   ("representative_id", opt_text (_reference_id <$> representative f));
   ("contact_disclosure", text (contact_disclosure f)); ("taxonomy_versions", texts (taxonomy_versions f))]%string.
Definition _project_frontmatter (f : Frontmatter) : Res (list (string * pyval)) :=
  match fm_fields f with
  | V1 location skills => Ok (project_v1 location skills)
  | V2 f => let? p := proficiencies (languages f) in Ok (project_v2 f p)
  end.
