(* ===== verification/Projections.v ===== *)
(** * Search projections in the database

    The public taxonomy projection (src/apps/api/app/services/taxonomy.py) and the
    withdrawal of a document from the exact-search projection
    (services/exact_search.py), on a database where both are installed. *)
From S2P Require Import Prelude PyTime Models Database ForeignKeys Sha256 JsonText World Frontmatter.
Local Open Scope Z_scope.

(** [TAXONOMY_TYPES], [TAXONOMY_CONTRACT_DIGEST] *)
Definition TAXONOMY_TYPES : list str :=
  map u ["occupation"; "industry"; "location"; "skill"; "language"; "seniority"; "open_to";
         "organization"; "representative"; "work_mode"]%string.
Definition TAXONOMY_CONTRACT_DIGEST : str :=
  hex (sha256 (u "connect.md:public-taxonomy:v1:current-public-v2")).

(** [taxonomy_filter_value], [canonical_id] *)
Definition taxonomy_filter_value (taxonomy scheme external_id : str) : Res str :=
  let? preimage := encode (u "connect.md:taxonomy-filter:v1" ++ [0] ++ taxonomy ++ [0] ++ scheme ++ [0] ++ external_id) in
  Ok (u "tx1_" ++ hex (sha256 preimage)).
Definition canonical_id (scheme external_id : str) : str := scheme ++ u ":" ++ external_id.

(** [_states]: the state rows of the given taxonomies. *)
Definition state_of (d : db) (taxonomy : str) : option PublicTaxonomyProjectionState :=
  tbl d TPublicTaxonomyProjectionState !! taxonomy.
(** [_require_ready(session, TAXONOMY_TYPES)] *)
Definition require_ready (d : db) : Res unit :=
  if forallb (fun name =>
       match state_of d name with
       | Some s => eqs (PublicTaxonomyProjectionState.status s) "ready"
                   && bool_decide (PublicTaxonomyProjectionState.contract_digest s = TAXONOMY_CONTRACT_DIGEST)
       | None => false
       end) TAXONOMY_TYPES
  then Ok tt
  else Raise (TaxonomyUnavailable (u "public taxonomy projection is not ready")).

(** The memberships of a term, in the order of [source_ordinal] and [id]. *)
Definition membership_before (a b : PublicTaxonomyMembership) : bool :=
  (PublicTaxonomyMembership.source_ordinal a <? PublicTaxonomyMembership.source_ordinal b)
  || (PublicTaxonomyMembership.source_ordinal a =? PublicTaxonomyMembership.source_ordinal b)
     && str_leb (PublicTaxonomyMembership.id a) (PublicTaxonomyMembership.id b).
Definition memberships_of (d : db) (term_id : str) : list PublicTaxonomyMembership :=
  sort_by membership_before (select TPublicTaxonomyMembership
    (fun m => bool_decide (PublicTaxonomyMembership.term_id m = term_id)) d).

(** What a term displays, from its memberships: [(label, label_conflict)] and
    [(vocabulary_version, version_conflict)]. *)
Definition label_of (rows : list PublicTaxonomyMembership) : option str * bool :=
  let labels := remove_dups (map PublicTaxonomyMembership.label_assertion rows) in
  if (length labels =? 1)%nat then (head (map PublicTaxonomyMembership.label_assertion rows), false) else (None, true).
Definition version_of (rows : list PublicTaxonomyMembership) : option str * bool :=
  let versions := map PublicTaxonomyMembership.vocabulary_version rows in
  let non_null_versions := remove_dups (omap id versions) in
  match non_null_versions with
  | [] => (None, false)
  | v :: _ =>
      if (length non_null_versions =? 1)%nat && (length non_null_versions =? length versions)%nat
      then (Some v, false) else (None, true)
  end.

(** [_term_aggregate_states]: [None] where the term is missing or unused. *)
Notation TermAggregate := (str * (option str * bool) * (option str * bool))%type (only parsing).
Definition term_aggregate (d : db) (term_id : str) : option TermAggregate :=
  match tbl d TPublicTaxonomyTerm !! term_id with
  | None => None
  | Some term =>
      match memberships_of d term_id with
      | [] => None
      | rows => Some (PublicTaxonomyTerm.taxonomy term, label_of rows, version_of rows)
      end
  end.

(** [_recalculate_terms]: an unused term is deleted, a used one recomputed. *)
Definition recalculated (term : PublicTaxonomyTerm) (rows : list PublicTaxonomyMembership) : PublicTaxonomyTerm :=
  term <| PublicTaxonomyTerm.label_conflict := (label_of rows).2 |>
       <| PublicTaxonomyTerm.label := (label_of rows).1 |>
       <| PublicTaxonomyTerm.vocabulary_version := (version_of rows).1 |>
       <| PublicTaxonomyTerm.version_conflict := (version_of rows).2 |>.
Definition recalculate_term (term_id : str) : act db unit :=
  let! term := gets (fun d => tbl d TPublicTaxonomyTerm !! term_id) in
  let! rows := gets (fun d => memberships_of d term_id) in
  match term, rows with
  | None, _ => ret tt
  | Some _, [] => delete_row TPublicTaxonomyTerm term_id
  | Some term, rows => session_save TPublicTaxonomyTerm (recalculated term rows)
  end.
Definition recalculate_terms (term_ids : list str) : act db unit :=
  for_each (remove_dups term_ids) recalculate_term.

(** [_get_or_create_term]: the id of the term; [new_id] is the candidate's. *)
Definition term_identity (e : Entry) (t : PublicTaxonomyTerm) : bool :=
  bool_decide (PublicTaxonomyTerm.taxonomy t = e_taxonomy e)
  && bool_decide (PublicTaxonomyTerm.scheme t = e_scheme e)
  && bool_decide (PublicTaxonomyTerm.external_id t = e_external_id e).
Definition collision : exn := TaxonomyProjectionError (u "taxonomy filter identity collision").
Definition get_or_create_term (new_id : str) (e : Entry) : act db PublicTaxonomyTerm :=
  let! expected := lift (taxonomy_filter_value (e_taxonomy e) (e_scheme e) (e_external_id e)) in
  let checked t := if bool_decide (PublicTaxonomyTerm.filter_value t = expected) then ret t else raise collision in
  let! row := gets (fun d => head (select TPublicTaxonomyTerm (term_identity e) d)) in
  match row with
  | Some t => checked t
  | None =>
      let candidate := PublicTaxonomyTerm.Mk new_id (e_taxonomy e) (e_scheme e) (e_external_id e)
        (canonical_id (e_scheme e) (e_external_id e)) expected None false None false in
      catch (session_add TPublicTaxonomyTerm candidate ;;; ret candidate) (fun x =>
        match x with
        | IntegrityError =>
            let! row := gets (fun d => head (select TPublicTaxonomyTerm (term_identity e) d)) in
            match row with
            | Some t => checked t
            | None =>
                let! taken := gets (select TPublicTaxonomyTerm
                  (fun t => bool_decide (PublicTaxonomyTerm.filter_value t = expected))) in
                match taken with
                | _ :: _ => raise collision
                | [] => raise (TaxonomyProjectionError (u "taxonomy identity insert failed"))
                end
            end
        | x => raise x
        end)
  end.

(** [replace_document_projection] *)
Definition old_memberships (d : db) (document_id : str) : list PublicTaxonomyMembership :=
  filter (fun m => not_null (tbl d TPublicTaxonomyTerm !! PublicTaxonomyMembership.term_id m) = true)
    (select TPublicTaxonomyMembership
       (fun m => bool_decide (PublicTaxonomyMembership.document_id m = document_id)) d).
Definition old_taxonomies (d : db) (rows : list PublicTaxonomyMembership) : list str :=
  remove_dups (omap (fun m =>
    PublicTaxonomyTerm.taxonomy <$> (tbl d TPublicTaxonomyTerm !! PublicTaxonomyMembership.term_id m)) rows).
Definition withdraw_snapshot (document_id : str) : act db unit :=
  let! snapshot := gets (fun d => tbl d TPublicTaxonomyDocumentSnapshot !! document_id) in
  match snapshot with
  | None => ret tt
  | Some _ =>
      modify (delete_where TPublicTaxonomyMembership
        (fun m => bool_decide (PublicTaxonomyMembership.document_id m = document_id))) ;;;
      delete_row TPublicTaxonomyDocumentSnapshot document_id
  end.
Definition new_membership (i document_id : str) (term : PublicTaxonomyTerm) (e : Entry) : PublicTaxonomyMembership :=
  PublicTaxonomyMembership.Mk i document_id (PublicTaxonomyTerm.id term) (e_field_name e) (e_source_ordinal e)
    (e_label e) (e_vocabulary_version e) (e_language_proficiency e) (e_organization_relationship e)
    (e_location_country_code e) (e_location_region e) (e_location_city e).
(** The loop over the new entries; each draws two row ids.  The value is the list
    of the terms' ids. *)
Fixpoint add_entries (new_ids : nat -> str) (document_id : str) (entries : list Entry) : act db (list str) :=
  match entries with
  | [] => ret []
  | e :: entries =>
      let! term := get_or_create_term (new_ids 0%nat) e in
      session_add TPublicTaxonomyMembership (new_membership (new_ids 1%nat) document_id term e) ;;;
      let! ids := add_entries (fun k => new_ids (2 + k)%nat) document_id entries in
      ret (PublicTaxonomyTerm.id term :: ids)
  end.
(** [updated_at] is a text: [_utc] parses it. *)
Definition add_projection (new_ids : nat -> str) (document_id : str) (version : Z) (updated_at : str)
  (f : FrontmatterV2) (entries : list Entry) : act db (list str) :=
  let! updated := lift (fromisoformat (replace_char 90 (u "+00:00") updated_at)) in
  session_add TPublicTaxonomyDocumentSnapshot
    (PublicTaxonomyDocumentSnapshot.Mk document_id version 2 (availability_status f) (available_from f)
       (representation_status f) (contact_disclosure f) (utc updated)) ;;;
  add_entries new_ids document_id entries.

(** The aggregates of the given terms in one taxonomy, sorted by term. *)
Definition taxonomy_state (values : list (str * TermAggregate)) (taxonomy : str) : list (str * TermAggregate) :=
  sort_by (fun a b => str_leb a.1 b.1) (filter (fun v => v.2.1.1 = taxonomy) values).
Definition aggregates (d : db) (term_ids : list str) : list (str * TermAggregate) :=
  omap (fun i => (fun a => (i, a)) <$> term_aggregate d i) (remove_dups term_ids).
Definition bump_revision (before after : list (str * TermAggregate)) (now : datetime) (taxonomy : str) :
  act db unit :=
  if bool_decide (taxonomy_state before taxonomy = taxonomy_state after taxonomy) then ret tt
  else
    let! state := gets (fun d => state_of d taxonomy) in
    match state with
    | Some s =>
        if eqs (PublicTaxonomyProjectionState.status s) "ready"
        then session_save TPublicTaxonomyProjectionState
               (s <| PublicTaxonomyProjectionState.revision := PublicTaxonomyProjectionState.revision s + 1 |>
                  <| PublicTaxonomyProjectionState.updated_at := now |>)
        else ret tt
    | None => ret tt
    end.
(** The v2 members of a frontmatter. *)
Definition as_v2 (frontmatter : option Frontmatter) : option (str * FrontmatterV2) :=
  match frontmatter with
  | Some f => match fm_fields f with V2 f2 => Some (fm_updated_at f, f2) | V1 _ _ => None end
  | None => None
  end.
Definition new_entries (frontmatter : option Frontmatter) : Res (list Entry) :=
  match frontmatter with Some f => _reference_entries f | None => Ok [] end.
Definition replace_document_projection (document : Document) (frontmatter : option Frontmatter)
  (document_version : Z) (bump_revisions : bool) (new_ids : nat -> str) (now : datetime) : act db unit :=
  let public_v2 := if eqs (Document.visibility document) "public" then as_v2 frontmatter else None in
  let! start := gets id in
  (if not_null public_v2 && bump_revisions then lift (require_ready start) else ret tt) ;;;
  let rows := old_memberships start (Document.id document) in
  let old_term_ids := map PublicTaxonomyMembership.term_id rows in
  let! entries := lift (new_entries frontmatter) in
  let affected := remove_dups (old_taxonomies start rows ++ map e_taxonomy entries) in
  withdraw_snapshot (Document.id document) ;;;
  let! new_term_ids :=
    match public_v2 with
    | Some (updated_at, f) => add_projection new_ids (Document.id document) document_version updated_at f entries
    | None => ret []
    end in
  recalculate_terms (old_term_ids ++ new_term_ids) ;;;
  if negb bump_revisions then ret tt
  else
    let! after := gets (fun d => aggregates d (old_term_ids ++ new_term_ids)) in
    for_each affected (bump_revision (aggregates start old_term_ids) after now).
(** [remove_document_projection] *)
Definition remove_document_projection (document_id : str) (now : datetime) : act db unit :=
  let! document := gets (fun d => tbl d TDocument !! document_id) in
  match document with
  | None => ret tt
  | Some document =>
      replace_document_projection document None (Document.current_version document) true (fun _ => []) now
  end.

(** [ExactSearchService.remove_document] on an installed projection. *)
Definition EXACT_SEARCH_SCOPE : str := u "documents".
Definition exact_remove_document (document_id : str) (now : datetime) : act db unit :=
  let! state := gets (fun d => tbl d TPublicExactSearchProjectionState !! EXACT_SEARCH_SCOPE) in
  match state with
  | None => raise (ExactSearchUnavailable (u "exact search projection state is missing"))
  | Some state =>
      let! snapshot := gets (fun d => tbl d TPublicExactSearchDocumentSnapshot !! document_id) in
      match snapshot with
      | None => ret tt
      | Some _ =>
          modify (delete_where TPublicExactSearchCompactValue
            (fun v => bool_decide (PublicExactSearchCompactValue.document_id v = document_id))) ;;;
          delete_row TPublicExactSearchDocumentSnapshot document_id ;;;
          session_save TPublicExactSearchProjectionState
            (state <| PublicExactSearchProjectionState.revision :=
                        PublicExactSearchProjectionState.revision state + 1 |>
                   <| PublicExactSearchProjectionState.updated_at := now |>)
      end
  end.
