(* ===== verification/TaxonomyFacts.v ===== *)
(** * The public taxonomy stays consistent

    Replacing or removing the projection of a document leaves every term with at
    least one membership, and with the label and the version its memberships
    determine. *)
From S2P Require Import Prelude PyTime Models Database Sorting ForeignKeys Sha256 JsonText World Frontmatter Projections.
Local Open Scope Z_scope.

(** ** Consistency *)
Record taxonomy_ok (d : db) : Prop := {
  terms_keyed : forall k t, tbl d TPublicTaxonomyTerm !! k = Some t -> PublicTaxonomyTerm.id t = k;
  memberships_keyed : forall k m, tbl d TPublicTaxonomyMembership !! k = Some m -> PublicTaxonomyMembership.id m = k;
  memberships_snapshot : forall k m, tbl d TPublicTaxonomyMembership !! k = Some m ->
    is_Some (tbl d TPublicTaxonomyDocumentSnapshot !! PublicTaxonomyMembership.document_id m);
  memberships_term : forall k m, tbl d TPublicTaxonomyMembership !! k = Some m ->
    is_Some (tbl d TPublicTaxonomyTerm !! PublicTaxonomyMembership.term_id m);
  terms_current : forall k t, tbl d TPublicTaxonomyTerm !! k = Some t ->
    memberships_of d k <> [] /\ t = recalculated t (memberships_of d k)
}.

(** The list of a term's memberships depends on the set of them only. *)
Lemma membership_before_total a b : membership_before a b = true \/ membership_before b a = true.
Proof.
  unfold membership_before.
  destruct (str_leb_total (PublicTaxonomyMembership.id a) (PublicTaxonomyMembership.id b)) as [E|E]; rewrite E; lia.
Qed.
Lemma membership_before_trans a b c :
  membership_before a b = true -> membership_before b c = true -> membership_before a c = true.
Proof.
  unfold membership_before.
  pose proof (str_leb_trans (PublicTaxonomyMembership.id a) (PublicTaxonomyMembership.id b) (PublicTaxonomyMembership.id c)).
  destruct (str_leb (PublicTaxonomyMembership.id a) (PublicTaxonomyMembership.id b)),
    (str_leb (PublicTaxonomyMembership.id b) (PublicTaxonomyMembership.id c)),
    (str_leb (PublicTaxonomyMembership.id a) (PublicTaxonomyMembership.id c)); lia.
Qed.
Lemma membership_before_antisym a b : membership_before a b = true -> membership_before b a = true ->
  PublicTaxonomyMembership.id a = PublicTaxonomyMembership.id b.
Proof.
  unfold membership_before. intros H1 H2. apply str_leb_antisym;
    destruct (str_leb (PublicTaxonomyMembership.id a) (PublicTaxonomyMembership.id b)),
      (str_leb (PublicTaxonomyMembership.id b) (PublicTaxonomyMembership.id a)); lia.
Qed.
Definition keyed (d : db) : Prop :=
  forall k m, tbl d TPublicTaxonomyMembership !! k = Some m -> PublicTaxonomyMembership.id m = k.
Lemma in_memberships d i m : m ∈ memberships_of d i <->
  (exists k, tbl d TPublicTaxonomyMembership !! k = Some m) /\ PublicTaxonomyMembership.term_id m = i.
Proof.
  unfold memberships_of. rewrite sort_by_perm. split.
  - intros H. destruct (proj1 (elem_of_select TPublicTaxonomyMembership _ _ _) H) as [? Hp].
    by apply bool_decide_eq_true in Hp.
  - intros [[k Hk] Hp]. apply (in_select TPublicTaxonomyMembership _ _ _ _ Hk). by apply bool_decide_eq_true_2.
Qed.
Lemma select_nodup (t : table) p d : (forall k r, tbl d t !! k = Some r -> row_id t r = k) -> NoDup (select t p d).
Proof.
  intros Hk. unfold select. apply NoDup_filter, (NoDup_fmap_1 (row_id t)).
  rewrite <-list_fmap_compose.
  assert ((row_id t ∘ snd) <$> map_to_list (tbl d t) = (map_to_list (tbl d t)).*1) as ->;
    [|apply NoDup_fst_map_to_list].
  apply list_fmap_ext. intros i [k r] Hi. apply list_elem_of_lookup_2, elem_of_map_to_list in Hi. cbn. by apply Hk.
Qed.
Lemma memberships_same d d' i : keyed d -> keyed d' ->
  (forall k m, PublicTaxonomyMembership.term_id m = i ->
     tbl d TPublicTaxonomyMembership !! k = Some m <-> tbl d' TPublicTaxonomyMembership !! k = Some m) ->
  memberships_of d i = memberships_of d' i.
Proof.
  intros Hk Hk' H. unfold memberships_of.
  apply sort_by_unique; [apply membership_before_total|apply membership_before_trans|..].
  - intros x y Hx Hy H1 H2. pose proof (membership_before_antisym _ _ H1 H2) as E.
    destruct (proj1 (elem_of_select TPublicTaxonomyMembership _ _ _) Hx) as [[kx Lx] _],
      (proj1 (elem_of_select TPublicTaxonomyMembership _ _ _) Hy) as [[ky Ly] _].
    rewrite (Hk _ _ Lx), (Hk _ _ Ly) in E. subst ky. by pose proof (eq_trans (eq_sym Lx) Ly) as [= <-].
  - apply NoDup_Permutation; [by apply (select_nodup TPublicTaxonomyMembership)..|]. intros m.
    rewrite !(elem_of_select TPublicTaxonomyMembership). split; intros [[k Hm] Hp]; (split; [|done]);
      exists k; apply bool_decide_eq_true in Hp; by apply H.
Qed.

(** ** The steps of a replacement *)

(** Withdrawing the snapshot removes exactly the document's memberships. *)
Lemma snapshot_row_deleted i d d' : (forall k m, tbl d TPublicTaxonomyMembership !! k = Some m ->
    PublicTaxonomyMembership.document_id m <> i) ->
  delete_row TPublicTaxonomyDocumentSnapshot i d = (Ok tt, d') -> d' = del TPublicTaxonomyDocumentSnapshot i d.
Proof.
  intros Hn. unfold delete_row. cbn [delete_rows references existsb restricts action
    PublicTaxonomyMembership_document_id orb].
  intros H. apply act_bind_ok in H as (d0 & d1 & [= <- <-] & H). cbn [id] in H.
  apply act_bind_ok in H as ([] & d1 & H & [= <-]). f_equal.
  cbn [for_each] in H. apply act_bind_ok in H as ([] & d2 & H & [= <-]).
  replace (referring PublicTaxonomyMembership_document_id i d) with (@nil PublicTaxonomyMembership) in H; [by injection H|].
  symmetry. apply elem_of_nil_inv. intros m Hm.
  destruct (proj1 (elem_of_select TPublicTaxonomyMembership _ _ _) Hm) as [[k Hk] Hp%bool_decide_eq_true].
  injection Hp as Hp. by destruct (Hn _ _ Hk).
Qed.
Definition withdrawn (i : str) (d d' : db) : Prop :=
  (forall k m, tbl d' TPublicTaxonomyMembership !! k = Some m <->
     tbl d TPublicTaxonomyMembership !! k = Some m /\ PublicTaxonomyMembership.document_id m <> i)
  /\ (forall k, k <> i -> tbl d' TPublicTaxonomyDocumentSnapshot !! k = tbl d TPublicTaxonomyDocumentSnapshot !! k)
  /\ tbl d' TPublicTaxonomyTerm = tbl d TPublicTaxonomyTerm.
Lemma withdraw_ok i d d' : taxonomy_ok d -> withdraw_snapshot i d = (Ok tt, d') -> withdrawn i d d'.
Proof.
  intros Hok H. unfold withdraw_snapshot in H. apply act_bind_ok in H as (s & d1 & [= Hs <-] & H).
  destruct s as [s|].
  - apply act_bind_ok in H as ([] & d1 & [= <-] & H). set (d1 := delete_where _ _ d) in *.
    assert (forall k m, tbl d1 TPublicTaxonomyMembership !! k = Some m <->
      tbl d TPublicTaxonomyMembership !! k = Some m /\ PublicTaxonomyMembership.document_id m <> i) as Hm.
    { intros k m. unfold d1. rewrite tbl_delete_where_eq, map_lookup_filter_Some. cbn [snd].
      by rewrite bool_decide_eq_false. }
    apply snapshot_row_deleted in H as ->; [|intros k m Hk; by apply Hm in Hk as [_ ?]].
    split; [|split].
    + intros k m. rewrite tbl_del_ne by done. apply Hm.
    + intros k Hne. rewrite tbl_del_eq, lookup_delete_ne by done. unfold d1. by rewrite tbl_delete_where_ne.
    + rewrite tbl_del_ne by done. unfold d1. by rewrite tbl_delete_where_ne.
  - injection H as <-. split; [|done]. intros k m. split; [|by intros [? _]]. intros Hm. split; [done|]. intros <-.
    destruct (memberships_snapshot _ Hok _ _ Hm) as [x Hx]. exact (eq_None_ne_Some_1 _ _ Hs Hx).
Qed.

(** New entries add memberships and terms for the listed terms only. *)
Record grown (ids : list str) (d d' : db) : Prop := {
  grown_memberships : forall k m, tbl d TPublicTaxonomyMembership !! k = Some m -> tbl d' TPublicTaxonomyMembership !! k = Some m;
  grown_new : forall k m, tbl d' TPublicTaxonomyMembership !! k = Some m -> tbl d TPublicTaxonomyMembership !! k = Some m
    \/ PublicTaxonomyMembership.id m = k /\ PublicTaxonomyMembership.term_id m ∈ ids
       /\ is_Some (tbl d' TPublicTaxonomyTerm !! PublicTaxonomyMembership.term_id m)
       /\ is_Some (tbl d' TPublicTaxonomyDocumentSnapshot !! PublicTaxonomyMembership.document_id m);
  grown_terms : forall k t, tbl d TPublicTaxonomyTerm !! k = Some t -> tbl d' TPublicTaxonomyTerm !! k = Some t;
  grown_term : forall k t, tbl d' TPublicTaxonomyTerm !! k = Some t -> tbl d TPublicTaxonomyTerm !! k = Some t
    \/ PublicTaxonomyTerm.id t = k /\ k ∈ ids;
  grown_snapshots : forall k s, tbl d TPublicTaxonomyDocumentSnapshot !! k = Some s ->
    is_Some (tbl d' TPublicTaxonomyDocumentSnapshot !! k)
}.
Lemma grown_refl d : grown [] d d.
Proof. split; eauto. Qed.
Lemma grown_weaken ids ids' d d' : grown ids d d' -> (forall i, i ∈ ids -> i ∈ ids') -> grown ids' d d'.
Proof.
  intros [M N T U S] H. split; [done| |done| |done].
  - intros k m Hm. destruct (N _ _ Hm) as [|(? & ? & ?)]; [by left|right; auto].
  - intros k t Ht. destruct (U _ _ Ht) as [|[? ?]]; [by left|right; auto].
Qed.
Lemma grown_trans ids ids' a b c : grown ids a b -> grown ids' b c -> grown (ids ++ ids') a c.
Proof.
  intros [M1 N1 T1 U1 S1] [M2 N2 T2 U2 S2]. split; [by auto| |by auto| |].
  - intros k m Hm. destruct (N2 _ _ Hm) as [Hb|(? & ? & ? & ?)]; [|right; split_and!; auto; apply elem_of_app; by right].
    destruct (N1 _ _ Hb) as [|(Hid & Hin & [t Ht] & [s Hs])]; [by left|right]. split_and!; [done|apply elem_of_app; by left|..].
    + apply T2 in Ht. by eexists.
    + by apply S2 in Hs.
  - intros k t Ht. destruct (U2 _ _ Ht) as [Hb|[? ?]]; [|right; split; [done|apply elem_of_app; by right]].
    destruct (U1 _ _ Hb) as [|[? ?]]; [by left|right; split; [done|apply elem_of_app; by left]].
  - intros k s Hs. apply S1 in Hs as [s' Hs']. by apply S2 in Hs'.
Qed.

Lemma get_term_ok new_id e d t d' : (forall k t, tbl d TPublicTaxonomyTerm !! k = Some t -> PublicTaxonomyTerm.id t = k) ->
  get_or_create_term new_id e d = (Ok t, d') ->
  grown [PublicTaxonomyTerm.id t] d d' /\ tbl d' TPublicTaxonomyTerm !! PublicTaxonomyTerm.id t = Some t
  /\ tbl d' TPublicTaxonomyMembership = tbl d TPublicTaxonomyMembership
  /\ tbl d' TPublicTaxonomyDocumentSnapshot = tbl d TPublicTaxonomyDocumentSnapshot.
Proof.
  intros Hk H. unfold get_or_create_term in H. apply act_bind_ok in H as (expected & d1 & [= _ <-] & H).
  apply act_bind_ok in H as (found & d1 & [= Hf <-] & H).
  assert (forall x d1, (if bool_decide (PublicTaxonomyTerm.filter_value x = expected) then ret x else raise collision) d1
    = (Ok t, d') -> x = t /\ d' = d1) as Hchecked by (intros x d1; by destruct (bool_decide _); intros [= <- <-]).
  assert (forall x, head (select TPublicTaxonomyTerm (term_identity e) d) = Some x ->
    tbl d TPublicTaxonomyTerm !! PublicTaxonomyTerm.id x = Some x) as Hfound.
  { intros x Hx%head_Some_elem_of. destruct (proj1 (elem_of_select TPublicTaxonomyTerm _ _ _) Hx) as [[k Hx'] _].
    by rewrite (Hk _ _ Hx'). }
  assert (grown [PublicTaxonomyTerm.id t] d d) as Hrefl by (split; eauto).
  destruct found as [x|]; [apply Hchecked in H as [-> ->]; by auto|].
  unfold catch in H. destruct ((session_add TPublicTaxonomyTerm _ ;;; ret _) d) as [[x|x] d1] eqn:Ha.
  - injection H as -> ->. apply act_bind_ok in Ha as ([] & d2 & Ha & [= <- <-]).
    apply session_add_spec in Ha as [(_ & Hc & ->)|[? _]]; [|done]. unfold can_insert in Hc. bool_facts.
    cbn [row_id PublicTaxonomyTerm.id] in *. rewrite tbl_put_eq, lookup_insert_eq, !tbl_put_ne by done.
    split_and!; [|done..]. split.
    + intros k m. by rewrite tbl_put_ne.
    + intros k m. rewrite tbl_put_ne by done. auto.
    + intros k t Ht. rewrite tbl_put_eq, lookup_insert_ne; [done|]. intros <-. congruence.
    + intros k t. rewrite tbl_put_eq. intros [[<- <-]|[_ ?]]%lookup_insert_Some; [right; split; [done|left]|by left].
    + intros k s. rewrite tbl_put_ne by done. eauto.
  - assert (d1 = d) as ->.
    { unfold act_bind in Ha. destruct (session_add _ _ d) as [y d2] eqn:E.
      apply session_add_spec in E as [(-> & _ & ->)|(-> & ->)]; [done|]. by injection Ha as _ <-. }
    destruct x; try done. apply act_bind_ok in H as (again & d1 & [= Hr <-] & H).
    destruct again as [x|]; [destruct (eq_None_ne_Some_1 _ _ Hf Hr)|].
    apply act_bind_ok in H as (taken & d1 & [= _ <-] & H). by destruct taken.
Qed.
Definition terms_keyed_in (d : db) : Prop :=
  forall k t, tbl d TPublicTaxonomyTerm !! k = Some t -> PublicTaxonomyTerm.id t = k.
Lemma grown_keyed ids d d' : grown ids d d' -> terms_keyed_in d -> terms_keyed_in d'.
Proof. intros Hg Hk k t Ht. destruct (grown_term _ _ _ Hg _ _ Ht) as [|[? _]]; [by apply Hk|done]. Qed.
Lemma add_membership_ok i document_id t e d d' :
  tbl d TPublicTaxonomyTerm !! PublicTaxonomyTerm.id t = Some t ->
  is_Some (tbl d TPublicTaxonomyDocumentSnapshot !! document_id) ->
  session_add TPublicTaxonomyMembership (new_membership i document_id t e) d = (Ok tt, d') ->
  grown [PublicTaxonomyTerm.id t] d d'.
Proof.
  intros Ht [s Hs] [(_ & Hc & ->)|[? _]]%session_add_spec; [|done]. unfold can_insert in Hc. bool_facts.
  cbn [row_id new_membership PublicTaxonomyMembership.id] in *. split.
  - intros k m Hm. rewrite tbl_put_eq, lookup_insert_ne; [done|]. intros <-. congruence.
  - intros k m. rewrite tbl_put_eq, !tbl_put_ne by done.
    intros [[<- <-]|[_ ?]]%lookup_insert_Some; [right|by left]. split_and!; [done|left|by eexists..].
  - intros k x. by rewrite tbl_put_ne.
  - intros k x. rewrite tbl_put_ne by done. auto.
  - intros k x. rewrite tbl_put_ne by done. eauto.
Qed.
Lemma add_entries_ok new_ids document_id es d ids d' : terms_keyed_in d ->
  is_Some (tbl d TPublicTaxonomyDocumentSnapshot !! document_id) ->
  add_entries new_ids document_id es d = (Ok ids, d') -> grown ids d d'.
Proof.
  revert new_ids d ids. induction es as [|e es IH]; intros new_ids d ids Hk Hs; cbn [add_entries].
  - intros [= <- <-]. apply grown_refl.
  - intros H. apply act_bind_ok in H as (t & d1 & Ht & H). apply get_term_ok in Ht as (G1 & L1 & _ & S1); [|done].
    apply act_bind_ok in H as ([] & d2 & Hm & H).
    apply add_membership_ok in Hm as G2; [|done|by rewrite S1].
    apply act_bind_ok in H as (rest & d3 & Hrest & [= <- <-]).
    pose proof (grown_trans _ _ _ _ _ G1 G2) as G12.
    apply IH in Hrest as G3; [|by eapply grown_keyed|destruct Hs as [s Hs]; by apply (grown_snapshots _ _ _ G12) in Hs].
    eapply grown_weaken; [exact (grown_trans _ _ _ _ _ G12 G3)|]. intros i Hi. rewrite !elem_of_app, !elem_of_cons in Hi.
    apply elem_of_cons. rewrite elem_of_nil in Hi. tauto.
Qed.
Lemma add_projection_ok new_ids document_id version updated f entries d ids d' : terms_keyed_in d ->
  add_projection new_ids document_id version updated f entries d = (Ok ids, d') -> grown ids d d'.
Proof.
  intros Hk H. unfold add_projection in H. apply act_bind_ok in H as (since & d0 & [= _ <-] & H).
  apply act_bind_ok in H as ([] & d1 & Hs & H).
  apply session_add_spec in Hs as [(_ & Hc & ->)|[? _]]; [|done]. unfold can_insert in Hc. bool_facts.
  cbn [row_id PublicTaxonomyDocumentSnapshot.document_id] in *.
  apply add_entries_ok in H as G; [|intros k t; rewrite tbl_put_ne by done; apply Hk
    |rewrite tbl_put_eq, lookup_insert_eq; by eexists].
  destruct G as [M N T U S]. split.
  - intros k m Hm. apply M. by rewrite tbl_put_ne.
  - intros k m Hm. destruct (N _ _ Hm) as [Hin|]; [rewrite tbl_put_ne in Hin by done; by left|by right].
  - intros k t Ht. apply T. by rewrite tbl_put_ne.
  - intros k t Ht. destruct (U _ _ Ht) as [Hin|]; [rewrite tbl_put_ne in Hin by done; by left|by right].
  - intros k s Hs. apply (S k s). rewrite tbl_put_eq, lookup_insert_ne; [done|]. intros <-. congruence.
Qed.

(** ** Recalculation *)
Definition term_settled (i : str) (d : db) : Prop := forall t, tbl d TPublicTaxonomyTerm !! i = Some t ->
  memberships_of d i <> [] /\ t = recalculated t (memberships_of d i).
(** Recalculating changes the listed terms only; one that is used stays. *)
Record recomputed (ids : list str) (d d' : db) : Prop := {
  recomputed_memberships : tbl d' TPublicTaxonomyMembership = tbl d TPublicTaxonomyMembership;
  recomputed_snapshots : tbl d' TPublicTaxonomyDocumentSnapshot = tbl d TPublicTaxonomyDocumentSnapshot;
  recomputed_others : forall i, i ∉ ids -> tbl d' TPublicTaxonomyTerm !! i = tbl d TPublicTaxonomyTerm !! i;
  recomputed_keyed : terms_keyed_in d';
  recomputed_used : forall i, memberships_of d i <> [] -> is_Some (tbl d TPublicTaxonomyTerm !! i) ->
    is_Some (tbl d' TPublicTaxonomyTerm !! i)
}.
Lemma memberships_of_tbl d d' i : tbl d' TPublicTaxonomyMembership = tbl d TPublicTaxonomyMembership ->
  memberships_of d' i = memberships_of d i.
Proof. intros H. unfold memberships_of, select. by rewrite H. Qed.
Lemma term_row_deleted i d d' : memberships_of d i = [] ->
  delete_row TPublicTaxonomyTerm i d = (Ok tt, d') -> d' = del TPublicTaxonomyTerm i d.
Proof.
  intros Hn. unfold delete_row. cbn [delete_rows references existsb restricts action PublicTaxonomyMembership_term_id orb].
  intros H. apply act_bind_ok in H as (d0 & d1 & [= <- <-] & H). cbn [id] in H.
  apply act_bind_ok in H as ([] & d1 & H & [= <-]). f_equal.
  cbn [for_each] in H. apply act_bind_ok in H as ([] & d2 & H & [= <-]).
  replace (referring PublicTaxonomyMembership_term_id i d) with (@nil PublicTaxonomyMembership) in H; [by injection H|].
  symmetry. apply elem_of_nil_inv. intros m Hm.
  destruct (proj1 (elem_of_select TPublicTaxonomyMembership _ _ _) Hm) as [Hk Hp%bool_decide_eq_true].
  injection Hp as Hp. assert (m ∈ memberships_of d i) as Hin by (by apply in_memberships).
  rewrite Hn in Hin. by apply elem_of_nil in Hin.
Qed.
Lemma recalculate_term_ok i d d' : terms_keyed_in d -> recalculate_term i d = (Ok tt, d') ->
  recomputed [i] d d' /\ term_settled i d'.
Proof.
  intros Hk H. unfold recalculate_term in H. apply act_bind_ok in H as (t & d1 & [= Ht <-] & H).
  apply act_bind_ok in H as (rows & d1 & [= Hr <-] & H).
  destruct t as [t|].
  2:{ injection H as <-. split; [split; auto|]. intros t Hx. destruct (eq_None_ne_Some_1 _ _ Ht Hx). }
  pose proof (Hk _ _ Ht) as <-. destruct rows as [|m rows].
  - apply term_row_deleted in H as ->; [|done]. split; [split|].
    + by rewrite tbl_del_ne.
    + by rewrite tbl_del_ne.
    + intros j Hj. rewrite tbl_del_eq, lookup_delete_ne; [done|]. intros <-. apply Hj. left.
    + intros k x. rewrite tbl_del_eq. intros [_ Hx]%lookup_delete_Some. by apply Hk.
    + intros j Hj Hs. rewrite tbl_del_eq, lookup_delete_ne; [done|]. by intros <-.
    + intros x. rewrite tbl_del_eq, lookup_delete_eq. done.
  - apply session_save_spec in H as [(_ & _ & ->)|[? _]]; [|done].
    change (row_id TPublicTaxonomyTerm (recalculated t (m :: rows))) with (PublicTaxonomyTerm.id t). split; [split|].
    + by rewrite tbl_put_ne.
    + by rewrite tbl_put_ne.
    + intros j Hj. rewrite tbl_put_eq, lookup_insert_ne; [done|]. intros <-. apply Hj. left.
    + intros k x. rewrite tbl_put_eq. intros [[<- <-]|[_ Hx]]%lookup_insert_Some; [done|by apply Hk].
    + intros j Hj Hs. rewrite tbl_put_eq, lookup_insert. by case_decide.
    + intros x. rewrite tbl_put_eq, lookup_insert_eq. intros [= <-].
      rewrite (memberships_of_tbl d) by (by rewrite tbl_put_ne). rewrite Hr. split; [done|]. by destruct t.
Qed.
Lemma recomputed_trans ids ids' a b c : recomputed ids a b -> recomputed ids' b c -> recomputed (ids ++ ids') a c.
Proof.
  intros [M1 S1 O1 K1 U1] [M2 S2 O2 K2 U2]. split; [by rewrite M2|by rewrite S2| |done|].
  - intros i Hi. rewrite O2, O1; [done|..]; intros ?; apply Hi, elem_of_app; auto.
  - intros i Hi Hs. apply U2; [by rewrite (memberships_of_tbl a)|by apply U1].
Qed.
Lemma recalculate_each_ok l d d' : terms_keyed_in d -> NoDup l -> for_each l recalculate_term d = (Ok tt, d') ->
  recomputed l d d' /\ forall i, i ∈ l -> term_settled i d'.
Proof.
  revert d. induction l as [|i l IH]; intros d Hk Hn; cbn [for_each].
  - intros [= <-]. split; [split; auto|]. by intros i ?%elem_of_nil.
  - intros H. apply act_bind_ok in H as ([] & d1 & H1 & H). apply NoDup_cons in Hn as [Hi Hn].
    apply recalculate_term_ok in H1 as [R1 T1]; [|done]. apply IH in H as [R2 T2]; [|apply R1|done].
    split; [exact (recomputed_trans [i] l _ _ _ R1 R2)|]. intros j [->|Hj]%elem_of_cons; [|by apply T2].
    intros t. rewrite (recomputed_others _ _ _ R2) by done. rewrite (memberships_of_tbl d1) by apply R2. apply T1.
Qed.

(** ** Replacement *)
Section replacement.
Context (i : str) (new : list str) (d d1 d2 d3 : db).
Notation old := (map PublicTaxonomyMembership.term_id (old_memberships d i)).
Context (Hok : taxonomy_ok d) (Hw : withdrawn i d d1) (Hg : grown new d1 d2)
  (Hr : recomputed (remove_dups (old ++ new)) d2 d3)
  (Hs : forall k, k ∈ remove_dups (old ++ new) -> term_settled k d3).
Lemma old_listed k m : tbl d TPublicTaxonomyMembership !! k = Some m -> PublicTaxonomyMembership.document_id m = i ->
  PublicTaxonomyMembership.term_id m ∈ old.
Proof using Hok.
  intros Hm Hi. apply list_elem_of_In, in_map, list_elem_of_In. unfold old_memberships.
  apply list_elem_of_filter. split.
  - destruct (memberships_term _ Hok _ _ Hm) as [t Ht]. rewrite Ht. done.
  - apply (in_select TPublicTaxonomyMembership _ _ _ _ Hm). by apply bool_decide_eq_true_2.
Qed.
(** A membership of [d2] is new or an old one of another document. *)
Lemma membership_origin k m : tbl d2 TPublicTaxonomyMembership !! k = Some m ->
  tbl d TPublicTaxonomyMembership !! k = Some m /\ PublicTaxonomyMembership.document_id m <> i
  \/ PublicTaxonomyMembership.id m = k /\ PublicTaxonomyMembership.term_id m ∈ new
     /\ is_Some (tbl d2 TPublicTaxonomyTerm !! PublicTaxonomyMembership.term_id m)
     /\ is_Some (tbl d2 TPublicTaxonomyDocumentSnapshot !! PublicTaxonomyMembership.document_id m).
Proof using Hw Hg. intros Hm. destruct (grown_new _ _ _ Hg _ _ Hm) as [H|H]; [left; by apply Hw|by right]. Qed.
Lemma keyed_d2 : keyed d2.
Proof using Hok Hw Hg.
  intros k m [[H _]|[H _]]%membership_origin; [by apply (memberships_keyed _ Hok)|done].
Qed.
Lemma untouched_memberships k : k ∉ old ++ new -> memberships_of d3 k = memberships_of d k.
Proof using Hok Hw Hg Hr.
  intros Hk. rewrite (memberships_of_tbl d2) by apply Hr.
  apply memberships_same; [exact keyed_d2|exact (memberships_keyed _ Hok)|].
  intros j m <-. split.
  - intros [[H _]|(_ & H & _)]%membership_origin; [done|]. destruct Hk. apply elem_of_app. by right.
  - intros Hm. apply (grown_memberships _ _ _ Hg), Hw. split; [done|]. intros Hi. apply Hk, elem_of_app. left.
    by eapply old_listed.
Qed.
Lemma replaced_ok : taxonomy_ok d3.
Proof using Hok Hw Hg Hr Hs.
  destruct Hw as (_ & Hsnap & Hterm). split.
  - apply Hr.
  - intros k m. rewrite (recomputed_memberships _ _ _ Hr). apply keyed_d2.
  - intros k m. rewrite (recomputed_memberships _ _ _ Hr), (recomputed_snapshots _ _ _ Hr).
    intros [[Hm Hi]|(_ & _ & _ & H)]%membership_origin; [|done].
    destruct (memberships_snapshot _ Hok _ _ Hm) as [s Hsm]. rewrite <-Hsnap in Hsm by done.
    by apply (grown_snapshots _ _ _ Hg) in Hsm.
  - intros k m. rewrite (recomputed_memberships _ _ _ Hr). intros Hm. apply (recomputed_used _ _ _ Hr).
    + intros E. assert (m ∈ memberships_of d2 (PublicTaxonomyMembership.term_id m)) as Hin
        by (apply in_memberships; eauto). rewrite E in Hin. by apply elem_of_nil in Hin.
    + destruct (membership_origin _ _ Hm) as [[Hd _]|(_ & _ & H & _)]; [|done].
      destruct (memberships_term _ Hok _ _ Hd) as [t Ht]. rewrite <-Hterm in Ht. apply (grown_terms _ _ _ Hg) in Ht. by eexists.
  - intros k t Ht. destruct (decide (k ∈ remove_dups (old ++ new))) as [Hin|Hout]; [by apply Hs|].
    rewrite (recomputed_others _ _ _ Hr) in Ht by done. rewrite elem_of_remove_dups in Hout.
    rewrite untouched_memberships by done. apply (terms_current _ Hok).
    destruct (grown_term _ _ _ Hg _ _ Ht) as [H|[_ H]]; [by rewrite Hterm in H|].
    destruct Hout. apply elem_of_app. by right.
Qed.
End replacement.

Definition taxonomy_tables : list table :=
  [TPublicTaxonomyTerm; TPublicTaxonomyMembership; TPublicTaxonomyDocumentSnapshot].
Lemma taxonomy_same d d' : same_on taxonomy_tables d d' -> taxonomy_ok d -> taxonomy_ok d'.
Proof.
  intros H [Hk Hm Hs Ht Hc].
  assert (tbl d' TPublicTaxonomyTerm = tbl d TPublicTaxonomyTerm) as E1 by (apply H; left).
  assert (tbl d' TPublicTaxonomyMembership = tbl d TPublicTaxonomyMembership) as E2 by (apply H; right; left).
  assert (tbl d' TPublicTaxonomyDocumentSnapshot = tbl d TPublicTaxonomyDocumentSnapshot) as E3
    by (apply H; right; right; left).
  split; intros k x.
  - rewrite E1. apply Hk.
  - rewrite E2. apply Hm.
  - rewrite E2, E3. apply Hs.
  - rewrite E2, E1. apply Ht.
  - rewrite E1, (memberships_of_tbl d) by done. apply Hc.
Qed.
Lemma bump_same before after now taxonomy : keeps (same_on taxonomy_tables) (bump_revision before after now taxonomy).
Proof.
  unfold bump_revision. destruct (bool_decide _); [apply keeps_ret, _|].
  apply keeps_bind; [apply _|apply keeps_gets, _|intros [s|]]; [|apply keeps_ret, _].
  destruct (eqs _ _); [|apply keeps_ret, _]. apply keeps_session_save; [apply _|]. intros d _. apply same_on_put.
  apply (bool_decide_unpack _). vm_compute. exact I.
Qed.
Lemma replace_ok document frontmatter version bump new_ids now d d' : taxonomy_ok d ->
  replace_document_projection document frontmatter version bump new_ids now d = (Ok tt, d') -> taxonomy_ok d'.
Proof.
  intros Hok H. unfold replace_document_projection in H. apply act_bind_ok in H as (s & d0 & [= <- <-] & H). cbn [id] in H.
  apply act_bind_ok in H as ([] & d0 & Hready & H).
  assert (d0 = d) as -> by (revert Hready; destruct (_ && bump); [by intros [= _ <-]|by intros [= <-]]). clear Hready.
  apply act_bind_ok in H as (entries & d0 & [= _ <-] & H).
  apply act_bind_ok in H as ([] & d1 & Hw & H). apply withdraw_ok in Hw as Hw'; [|done].
  apply act_bind_ok in H as (new & d2 & Hnew & H).
  assert (grown new d1 d2) as Hg.
  { assert (terms_keyed_in d1) as Hk by (intros k t; rewrite (proj2 (proj2 Hw')); apply (terms_keyed _ Hok)).
    destruct (if eqs _ _ then _ else _) as [[updated f]|]; [by eapply add_projection_ok|].
    injection Hnew as <- <-. apply grown_refl. }
  apply act_bind_ok in H as ([] & d3 & Hr & H). unfold recalculate_terms in Hr.
  apply recalculate_each_ok in Hr as [Hr Hs]; [|eapply grown_keyed; [done|]|apply NoDup_remove_dups].
  2:{ intros k t. rewrite (proj2 (proj2 Hw')). apply (terms_keyed _ Hok). }
  pose proof (replaced_ok _ _ _ _ _ _ Hok Hw' Hg Hr Hs) as Hok3.
  destruct (negb bump); [by injection H as <-|]. apply act_bind_ok in H as (after & d4 & [= _ <-] & H).
  eapply taxonomy_same; [|exact Hok3]. eapply for_each_same; [|exact H]. intros x a r b _ E. by eapply bump_same.
Qed.
(** C26: replacing or removing a document's projection keeps the taxonomy
    consistent: every membership belongs to an existing snapshot and term, no term is
    without memberships, and each term shows exactly what its memberships
    determine. *)
Theorem replacement_keeps_taxonomy document frontmatter version bump new_ids now d d' : taxonomy_ok d ->
  replace_document_projection document frontmatter version bump new_ids now d = (Ok tt, d') -> taxonomy_ok d'.
Proof. apply replace_ok. Qed.

(** memberships that agree on a label and on a version nevertheless conflict:
    with at least two of them the term shows the label, but no version and a version
    conflict. *)
Theorem agreeing_versions_conflict d term_id term label version :
  tbl d TPublicTaxonomyTerm !! term_id = Some term -> (2 <= length (memberships_of d term_id))%nat ->
  (forall m, m ∈ memberships_of d term_id -> PublicTaxonomyMembership.label_assertion m = label
     /\ PublicTaxonomyMembership.vocabulary_version m = Some version) ->
  term_aggregate d term_id = Some (PublicTaxonomyTerm.taxonomy term, (Some label, false), (None, true)).
Proof.
  intros Ht Hl H. unfold term_aggregate. rewrite Ht.
  assert (forall (A : Type) (dec : EqDecision A) (x : A) (l : list A), l <> [] -> (forall y, y ∈ l -> y = x) ->
    remove_dups l = [x]) as Hdups.
  { intros A dec x l Hn Hall. apply Permutation_singleton_r, NoDup_Permutation; [apply NoDup_remove_dups|apply NoDup_singleton|].
    intros y. rewrite elem_of_remove_dups, list_elem_of_singleton. split; [apply Hall|]. intros ->.
    destruct l as [|z l]; [done|]. rewrite <-(Hall z) by left. left. }
  destruct (memberships_of d term_id) as [|m rows] eqn:Hrows; [cbn in Hl; lia|].
  unfold label_of, version_of. rewrite (Hdups _ _ label).
  - assert (omap id (map PublicTaxonomyMembership.vocabulary_version (m :: rows)) = map (fun _ => version) (m :: rows)) as ->.
    { clear Hrows Hl. induction (m :: rows) as [|x l IH]; [done|]. cbn [map omap list_omap].
      destruct (H x) as [_ ->]; [left|]. cbn [id]. f_equal. apply IH. intros y Hy. apply H. by right. }
    rewrite (Hdups _ _ version).
    + cbn [length Nat.eqb andb head map]. rewrite length_map. destruct (H m) as [-> _]; [left|].
      destruct rows; [cbn in Hl; lia|done].
    + done.
    + intros y Hy. apply list_elem_of_In, in_map_iff in Hy as (x & <- & _). done.
  - done.
  - intros y Hy. apply list_elem_of_In, in_map_iff in Hy as (x & <- & Hx%list_elem_of_In). by apply H.
Qed.

(** ** Two documents with the same skill *)
Module TaxonomyDemo.
Definition noon : datetime := MkDatetime 1000 (Some 0).
Definition document (i : string) : Document :=
  Document.Mk (u i) (u "profile") (u "user") (u i) (u "public") (Some 2) 1 noon noon.
Definition term_of (i label : string) (version : option str) : Reference :=
  MkReference (u "esco") (u i) (u label) version None None None None None.
Definition skill : Reference := term_of "S1" "Proofs" (Some (u "1.2")).
Definition frontmatter : Frontmatter :=
  MkFrontmatter (u "Ada") (u "Engineer") None (u "2024-01-02T03:04:05Z")
    (V2 (MkFrontmatterV2 [term_of "O1" "Engineer" None] [] (term_of "L1" "London" None) [skill] []
           (term_of "E1" "Senior" None) [u "remote"] (u "available_now") None [] [] (u "self") None (u "none"))).
Definition publish (i : string) (base : Z) : act db unit :=
  replace_document_projection (document i) (Some frontmatter) 1 false (fun k => [base; Z.of_nat k]) noon.
Definition d1 : db := (publish "a" 1 empty_db).2.
Definition d2 : db := (publish "b" 2 d1).2.
Lemma empty_taxonomy_ok : taxonomy_ok empty_db.
Proof. split; intros k x H; exfalso; exact (eq_None_ne_Some_1 _ _ (lookup_empty k) H). Qed.
Definition term : option PublicTaxonomyTerm := tbl d2 TPublicTaxonomyTerm !! [1; 4].
End TaxonomyDemo.
Lemma replacement_keeps_taxonomy_witness :
  length (select TPublicTaxonomyMembership (fun _ => true) TaxonomyDemo.d1) = 5%nat /\ taxonomy_ok TaxonomyDemo.d1.
Proof.
  split; [vm_compute; reflexivity|].
  assert ((TaxonomyDemo.publish "a" 1 empty_db).1 = Ok tt) as E by (vm_compute; reflexivity).
  apply (replacement_keeps_taxonomy (TaxonomyDemo.document "a") (Some TaxonomyDemo.frontmatter) 1 false
    (fun k => [1; Z.of_nat k]) TaxonomyDemo.noon empty_db).
  - exact TaxonomyDemo.empty_taxonomy_ok.
  - rewrite <-E. apply (surjective_pairing (TaxonomyDemo.publish "a" 1 empty_db)).
Defined.
Lemma agreeing_versions_conflict_witness :
  exists term, tbl TaxonomyDemo.d2 TPublicTaxonomyTerm !! [1; 4] = Some term
  /\ term_aggregate TaxonomyDemo.d2 [1; 4]
     = Some (PublicTaxonomyTerm.taxonomy term, (Some (u "Proofs"), false), (None, true)).
Proof.
  destruct TaxonomyDemo.term as [term|] eqn:Ht; [|vm_compute in Ht; discriminate Ht]. exists term. split; [exact Ht|].
  apply (agreeing_versions_conflict TaxonomyDemo.d2 [1; 4] term (u "Proofs") (u "1.2")).
  - exact Ht.
  - apply Nat.leb_le. vm_compute. reflexivity.
  - intros m Hm%list_elem_of_In.
    assert (forallb (fun m => bool_decide (PublicTaxonomyMembership.label_assertion m = u "Proofs")
      && bool_decide (PublicTaxonomyMembership.vocabulary_version m = Some (u "1.2")))
      (memberships_of TaxonomyDemo.d2 [1; 4]) = true) as H by (vm_compute; reflexivity).
    rewrite forallb_forall in H. apply H, andb_prop in Hm as [H1 H2].
    apply bool_decide_eq_true in H1, H2. split; [exact H1|exact H2].
Defined.
