(* ===== verification/AccountErasure.v ===== *)
(** * Account erasure (src/apps/api/app/services/account_erasure.py)

    The executor of confirmed account deletions.  It leases the items of an
    erasure inventory one at a time, withholds those under a hold, runs each in a
    transaction and reconciles the account's lifecycle.  Answers of the provider
    and of the search index, random tokens, row ids and clock readings are drawn
    from an environment; the deletion journal is the directory tree of [Disk]. *)
From S2P Require Import Prelude PyTime Json Models Database ForeignKeys HoldLineage Sha256 JsonText Lifecycle.
From S2P Require Import Disk Storage World Projections.
From S2P Require DeletionJournal.
Local Open Scope Z_scope.

(** ** Data *)
Inductive ProviderOutcome : Set := Deleted | AlreadyAbsent | Retryable | PermanentUnsupported.
(** [SearchDeleteAttestation] *)
Record SearchDeleteAttestation : Type := MkAttestation { configured : bool; attested : str }.
Record AccountErasureRunResult : Type := MkErasureResult
  { r_claimed : Z; r_completed : Z; r_held : Z; r_retried : Z; r_dead_lettered : Z }.
Record _Claim : Type := MkErasureClaim
  { k_id : str; k_deletion_id : str; k_resource_type : str; k_resource_id : str; k_phase : str;
    k_claim_token : str; k_attempts : Z }.
Record AccountErasureExecutor : Type := MkErasureExecutor
  { x_store : VersionStore; x_settings : LifecycleSettings; x_enabled : bool; x_worker_id : str;
    x_max_attempts : Z; x_lease_seconds : Z }.
(** What one iteration draws from outside the process. *)
Record Draws : Type := MkErasureDraws
  { d_locked : gset str; d_token : str; d_ids : nat -> str; d_clock : datetime;
    d_search : Res SearchDeleteAttestation; d_revoke : Res ProviderOutcome; d_delete : Res ProviderOutcome }.

(** A parent row waits for the rows of these types. *)
Definition _CHILD_TYPES (resource_type : str) : list string :=
  if eqs resource_type "agent_mandate" then ["agent_grant"]
  else if eqs resource_type "agent_identity" then ["agent_grant"; "agent_mandate"]
  else if eqs resource_type "document" then ["document_version"; "post"; "agent_identity"]
  else if eqs resource_type "post" then
    ["post_version"; "post_report"; "moderation_case"; "moderation_decision"; "moderation_appeal";
     "moderation_audit_event"; "post_moderation_event"]
  else if eqs resource_type "conversation" then ["message"]
  else if eqs resource_type "connection" then ["conversation"]
  else if eqs resource_type "connection_request" then ["connection"]
  else if eqs resource_type "organization_verification" then
    ["organization_verification_evidence"; "organization_verification_event"]
  else if eqs resource_type "job" then ["application"]
  else if eqs resource_type "organization" then ["job"; "organization_membership"; "organization_verification"]
  else [].

(** [AccountErasureFailure(code, retryable=...)] *)
Definition failure (code : string) (retryable : bool) : exn := AccountErasureFailure (u code) retryable None.
Definition moment (t : datetime) : Z * option Z := (wall t, tzoffset t).
Definition of_moment (m : Z * option Z) : datetime := MkDatetime m.1 m.2.

(** ** Queries *)
Definition save_item (item : AccountErasureItem) : act world unit := on_db (session_save TAccountErasureItem item).
Definition save_lifecycle (l : AccountLifecycle) : act world unit := on_db (session_save TAccountLifecycle l).
Definition items_of (deletion_id : str) (d : db) : list AccountErasureItem :=
  select TAccountErasureItem (fun i => bool_decide (AccountErasureItem.deletion_id i = deletion_id)) d.

(** [_incomplete_items]: an item of the deletion that is not completed and
    satisfies the further conditions. *)
Definition _incomplete_items (d : db) (deletion_id : str) (p : AccountErasureItem -> bool) : bool :=
  existsb (fun i => negb (eqs (AccountErasureItem.state i) "completed") && p i) (items_of deletion_id d).
Definition of_type (ty : string) (i : AccountErasureItem) : bool := eqs (AccountErasureItem.resource_type i) ty.
Definition in_phases (ps : list string) (i : AccountErasureItem) : bool := one_of (AccountErasureItem.phase i) ps.
Definition same_resource (item i : AccountErasureItem) : bool :=
  bool_decide (AccountErasureItem.resource_type i = AccountErasureItem.resource_type item)
  && bool_decide (AccountErasureItem.resource_id i = AccountErasureItem.resource_id item).

(** [_prerequisites_complete] *)
Definition _prerequisites_complete (d : db) (item : AccountErasureItem) : bool :=
  let incomplete := _incomplete_items d (AccountErasureItem.deletion_id item) in
  let session_open := incomplete (fun i => of_type "provider_session" i && in_phases ["provider"] i) in
  let ty := AccountErasureItem.resource_type item in
  if in_phases ["backup"] item then true
  else if of_type "provider_session" item then true
  else if session_open then false
  else if in_phases ["postcheck"] item then
    negb (incomplete (fun i => negb (in_phases ["postcheck"; "provider"; "backup"] i)
                               && negb (of_type "provider_subject_ciphertext" i)))
  else if in_phases ["provider"] item then
    if incomplete (in_phases ["postcheck"]) then false else negb session_open
  else if of_type "provider_subject_ciphertext" item then
    match tbl d TAccountLifecycle !! AccountErasureItem.deletion_id item with
    | None => false
    | Some l =>
        if negb (eqs (AccountLifecycle.provider_state l) "verified") then false
        else negb (incomplete (fun i => of_type "provider_user" i && in_phases ["provider"] i))
    end
  else if in_phases ["delete_row"] item then
    if one_of ty ["document_version"; "post_version"; "organization_verification_evidence"; "application"]
       && incomplete (fun i => same_resource item i && in_phases ["delete_file"] i) then false
    else if one_of ty ["document"; "post"]
            && incomplete (fun i => same_resource item i && in_phases ["unindex"] i) then false
    else match _CHILD_TYPES ty with
         | [] => true
         | children => negb (incomplete (fun i => one_of (AccountErasureItem.resource_type i) children))
         end
  else true.

(** [_active_hold]: an unreleased hold on the resource, else on an ancestor. *)
Definition unreleased_hold (d : db) (r : Resource) : option RetentionHold :=
  head (select TRetentionHold (fun h =>
    bool_decide ((RetentionHold.resource_type h, RetentionHold.resource_id h) = r)
    && bool_decide (RetentionHold.released_at h = None)) d).
Definition resource_of (item : AccountErasureItem) : Resource :=
  (AccountErasureItem.resource_type item, AccountErasureItem.resource_id item).
Definition _active_hold (d : db) (item : AccountErasureItem) : option RetentionHold :=
  head (omap (unreleased_hold d) (resource_of item :: elements (hold_ancestors d (resource_of item)))).
(** [_hold_covers_item] *)
Definition _hold_covers_item (d : db) (hold : RetentionHold) (item : AccountErasureItem) : bool :=
  let r := (RetentionHold.resource_type hold, RetentionHold.resource_id hold) in
  bool_decide (r = resource_of item) || bool_decide (r ∈ hold_ancestors d (resource_of item)).
(** [_active_policy_ancestor] *)
Definition _active_policy_ancestor (d : db) (item : AccountErasureItem) : bool :=
  existsb (fun r =>
    existsb (fun i => bool_decide (resource_of i = r) && in_phases ["delete_row"] i
                      && eqs (AccountErasureItem.state i) "held"
                      && bool_decide (AccountErasureItem.hold_kind i = Some (u "policy")))
      (items_of (AccountErasureItem.deletion_id item) d))
    (elements (hold_ancestors d (resource_of item))).

(** [_leased_item] *)
Definition _leased_item (claim : _Claim) (d : db) : option AccountErasureItem :=
  match tbl d TAccountErasureItem !! k_id claim with
  | Some i =>
      if eqs (AccountErasureItem.state i) "leased"
         && bool_decide (AccountErasureItem.claim_token i = Some (k_claim_token claim))
      then Some i else None
  | None => None
  end.

(** ** Item updates *)

(** The lease columns cleared. *)
Definition unleased (i : AccountErasureItem) : AccountErasureItem :=
  i <| AccountErasureItem.lease_expires_at := None |> <| AccountErasureItem.claimed_by := None |>
    <| AccountErasureItem.claim_token := None |>.
(** The shared part of [_mark_held] and [_mark_policy_held]. *)
Definition withheld (kind code : string) (hold : option str) (review : option datetime) (now : datetime)
  (i : AccountErasureItem) : AccountErasureItem :=
  unleased i <| AccountErasureItem.state := u "held" |> <| AccountErasureItem.disposition := u "hold" |>
    <| AccountErasureItem.hold_kind := Some (u kind) |> <| AccountErasureItem.hold_id := hold |>
    <| AccountErasureItem.hold_review_at := review |> <| AccountErasureItem.available_at := None |>
    <| AccountErasureItem.last_error_code := Some (u code) |> <| AccountErasureItem.updated_at := now |>.
Definition mark_held (hold : RetentionHold) (now : datetime) : AccountErasureItem -> AccountErasureItem :=
  withheld "retention" "retention_hold_active" (Some (RetentionHold.id hold))
    (Some (RetentionHold.review_at hold)) now.
Definition mark_policy_held (now : datetime) : AccountErasureItem -> AccountErasureItem :=
  withheld "policy" "policy_parent_held" None None now.
(** [_complete] *)
Definition mark_complete (code : option str) (now : datetime) (i : AccountErasureItem) : AccountErasureItem :=
  unleased i <| AccountErasureItem.state := u "completed" |> <| AccountErasureItem.available_at := None |>
    <| AccountErasureItem.hold_kind := None |> <| AccountErasureItem.hold_id := None |>
    <| AccountErasureItem.hold_review_at := None |> <| AccountErasureItem.last_error_code := code |>
    <| AccountErasureItem.completed_at := Some now |> <| AccountErasureItem.updated_at := now |>.
(** The guarded update of [_claim_one]. *)
Definition mark_leased (ex : AccountErasureExecutor) (token : str) (now : datetime) (i : AccountErasureItem) :
  AccountErasureItem :=
  i <| AccountErasureItem.state := u "leased" |>
    <| AccountErasureItem.attempts := AccountErasureItem.attempts i + 1 |>
    <| AccountErasureItem.lease_expires_at := Some (dt_add now (seconds (x_lease_seconds ex))) |>
    <| AccountErasureItem.claimed_by := Some (x_worker_id ex) |>
    <| AccountErasureItem.claim_token := Some token |> <| AccountErasureItem.updated_at := now |>.

(** [_acquire_hold_guard]: its [update] sets [updated_at] to itself. *)
Definition hold_guard : act world unit :=
  let! authority := session_get TAccountBackupAuthority ACCOUNT_BACKUP_AUTHORITY_ID in
  match authority with
  | None => raise (failure "backup_authority_missing" true)
  | Some _ => ret tt
  end.

(** ** Released holds *)

(** [_requeue_explicitly_released_retention_holds] *)
Definition hold_reference_invalid (now : datetime) (i : AccountErasureItem) : AccountErasureItem :=
  i <| AccountErasureItem.state := u "dead_letter" |>
    <| AccountErasureItem.last_error_code := Some (u "retention_hold_reference_invalid") |>
    <| AccountErasureItem.updated_at := now |>.
Definition hold_released (now : datetime) (i : AccountErasureItem) : AccountErasureItem :=
  unleased i <| AccountErasureItem.state := u "queued" |> <| AccountErasureItem.disposition := u "delete" |>
    <| AccountErasureItem.hold_kind := None |> <| AccountErasureItem.hold_id := None |>
    <| AccountErasureItem.hold_review_at := None |> <| AccountErasureItem.available_at := Some now |>
    <| AccountErasureItem.last_error_code := Some (u "retention_hold_released") |>
    <| AccountErasureItem.updated_at := now |>.
Definition retention_held (i : AccountErasureItem) : bool :=
  eqs (AccountErasureItem.state i) "held" && bool_decide (AccountErasureItem.hold_kind i = Some (u "retention")).
Definition requeue_item (now : datetime) (item : AccountErasureItem) : act world unit :=
  let! d := query id in
  match AccountErasureItem.hold_id item with
  | None => save_item (hold_reference_invalid now item)
  | Some hold_id =>
      match tbl d TRetentionHold !! hold_id with
      | None => save_item (hold_reference_invalid now item)
      | Some hold =>
          if negb (_hold_covers_item d hold item) then save_item (hold_reference_invalid now item)
          else if not_null (RetentionHold.released_at hold) then save_item (hold_released now item)
          else ret tt
      end
  end.
Definition requeue_released_holds (now : datetime) : act world unit :=
  transaction
    (let! items := query (select TAccountErasureItem retention_held) in
     for_each items (requeue_item now)).

(** ** The postcondition registry *)

(** A text column of a table, or of the change events. *)
Inductive checked_column : Type :=
| Column (t : table) (value : row t -> option str)
| ChangeEvents (value : ChangeEvent -> option str).
Definition _POSTCHECK_IDENTITY_COLUMNS : list checked_column :=
  [Column TDocument (fun r => Some (Document.owner_id r));
   Column TDocumentVersion (fun r => Some (DocumentVersion.actor_id r));
   Column TPost (fun r => Some (Post.owner_id r));
   Column TPostRateBucket (fun r => Some (PostRateBucket.owner_id r));
   Column TFollowRateBucket (fun r => Some (FollowRateBucket.owner_id r));
   Column TProfileFollow (fun r => Some (ProfileFollow.follower_owner_id r));
   Column TProfileFollow (fun r => Some (ProfileFollow.followed_owner_id r));
   Column TPostGraphPairLock (fun r => Some (PostGraphPairLock.pair_owner_low r));
   Column TPostGraphPairLock (fun r => Some (PostGraphPairLock.pair_owner_high r));
   Column TPostContentBlock (fun r => Some (PostContentBlock.blocker_owner_id r));
   Column TPostContentBlock (fun r => Some (PostContentBlock.blocked_owner_id r));
   Column TPostReport (fun r => Some (PostReport.reporter_owner_id r));
   Column TPostReportRateBucket (fun r => Some (PostReportRateBucket.owner_id r));
   Column TModerationCase (fun r => Some (ModerationCase.subject_owner_id r));
   Column TModerationDecision (fun r => Some (ModerationDecision.moderator_id r));
   Column TModerationAppeal (fun r => Some (ModerationAppeal.subject_owner_id r));
   Column TModerationAppeal (ModerationAppeal.appeal_reviewer_id);
   Column TModerationAuditEvent (fun r => Some (ModerationAuditEvent.actor_id r));
   Column TPostModerationEvent (fun r => Some (PostModerationEvent.actor_id r));
   Column TApiKey (fun r => Some (ApiKey.owner_id r));
   Column TAgentIdentity (fun r => Some (AgentIdentity.owner_id r));
   Column TAgentGrant (fun r => Some (AgentGrant.owner_id r));
   Column TAgentMandate (fun r => Some (AgentMandate.owner_id r));
   Column TIdempotencyRecord (fun r => Some (IdempotencyRecord.owner_id r));
   ChangeEvents (fun r => Some (ChangeEvent.owner_id r));
   ChangeEvents (fun r => Some (ChangeEvent.actor_id r));
   Column TContactPolicy (fun r => Some (ContactPolicy.owner_id r));
   Column TContactBlock (fun r => Some (ContactBlock.blocker_owner_id r));
   Column TContactBlock (fun r => Some (ContactBlock.blocked_owner_id r));
   Column TContactRequest (fun r => Some (ContactRequest.sender_owner_id r));
   Column TContactRequest (fun r => Some (ContactRequest.recipient_owner_id r));
   Column TContactRequest (fun r => Some (ContactRequest.sender_actor_id r));
   Column TContactRequest (ContactRequest.decision_actor_id);
   Column TContactRateBucket (fun r => Some (ContactRateBucket.sender_owner_id r));
   Column TAgentOutreachRecipientRateBucket (fun r => Some (AgentOutreachRecipientRateBucket.recipient_owner_id r));
   Column TOrganization (fun r => Some (Organization.owner_id r));
   Column TOrganizationMembership (fun r => Some (OrganizationMembership.member_owner_id r));
   Column TOrganizationMembership (fun r => Some (OrganizationMembership.invited_by_owner_id r));
   Column TOrganizationVerification (fun r => Some (OrganizationVerification.submitted_by_owner_id r));
   Column TOrganizationVerificationEvent (fun r => Some (OrganizationVerificationEvent.actor_id r));
   Column TApplication (fun r => Some (Application.applicant_owner_id r));
   Column TApplication (fun r => Some (Application.applicant_actor_id r));
   Column TApplication (fun r => Some (Application.confirmed_by_owner_id r));
   Column TApplication (Application.decision_actor_id);
   Column TApplicationRateBucket (fun r => Some (ApplicationRateBucket.applicant_owner_id r));
   Column TConnectionBlock (fun r => Some (ConnectionBlock.blocker_owner_id r));
   Column TConnectionBlock (fun r => Some (ConnectionBlock.blocked_owner_id r));
   Column TConnectionRequest (fun r => Some (ConnectionRequest.pair_owner_low r));
   Column TConnectionRequest (fun r => Some (ConnectionRequest.pair_owner_high r));
   Column TConnectionRequest (fun r => Some (ConnectionRequest.requester_owner_id r));
   Column TConnectionRequest (fun r => Some (ConnectionRequest.recipient_owner_id r));
   Column TConnectionRequest (fun r => Some (ConnectionRequest.requester_actor_id r));
   Column TConnectionRequest (ConnectionRequest.decision_actor_id);
   Column TConnectionRequestRateBucket (fun r => Some (ConnectionRequestRateBucket.requester_owner_id r));
   Column TConnection (fun r => Some (Connection.pair_owner_low r));
   Column TConnection (fun r => Some (Connection.pair_owner_high r));
   Column TConnection (fun r => Some (Connection.requester_owner_id r));
   Column TConnection (fun r => Some (Connection.recipient_owner_id r));
   Column TConnection (Connection.ended_by_owner_id);
   Column TConversation (fun r => Some (Conversation.pair_owner_low r));
   Column TConversation (fun r => Some (Conversation.pair_owner_high r));
   Column TConversation (fun r => Some (Conversation.created_by_owner_id r));
   Column TMessage (fun r => Some (Message.sender_owner_id r));
   Column TMessage (fun r => Some (Message.sender_actor_id r));
   Column TMessageRateBucket (fun r => Some (MessageRateBucket.sender_owner_id r));
   Column TNotification (fun r => Some (Notification.recipient_owner_id r));
   Column TNotification (Notification.actor_owner_id);
   Column TAgentProposal (fun r => Some (AgentProposal.owner_id r));
   Column TAgentProposal (fun r => Some (AgentProposal.submitter_actor_id r));
   Column TAgentProposal (AgentProposal.decision_actor_id);
   Column TRetentionHold (fun r => Some (RetentionHold.authority r));
   Column TRetentionHold (RetentionHold.released_by_authority)].
Definition _POSTCHECK_CONTENT_COLUMNS : list checked_column :=
  [ChangeEvents (fun r => Some (ChangeEvent.payload r));
   Column TIdempotencyRecord (fun r => Some (IdempotencyRecord.response_body r));
   Column TIdempotencyRecord (fun r => Some (IdempotencyRecord.response_headers r));
   Column TMessage (fun r => Some (Message.markdown r));
   Column TAgentProposal (fun r => Some (AgentProposal.markdown r));
   Column TContactRequest (fun r => Some (ContactRequest.purpose r));
   Column TContactRequest (fun r => Some (ContactRequest.message r));
   Column TContactRequest (ContactRequest.report_reason);
   Column TPostReport (PostReport.narrative);
   Column TModerationDecision (fun r => Some (ModerationDecision.subject_explanation r));
   Column TModerationDecision (ModerationDecision.internal_rationale);
   Column TModerationDecision (ModerationDecision.evidence);
   Column TModerationAppeal (ModerationAppeal.rationale);
   Column TModerationAppeal (ModerationAppeal.subject_explanation);
   Column TModerationAppeal (ModerationAppeal.internal_rationale);
   Column TModerationAuditEvent (fun r => Some (ModerationAuditEvent.safe_metadata r));
   Column TOrganization (Organization.description);
   Column TOrganizationVerificationEvidence (fun r => Some (OrganizationVerificationEvidence.metadata_json r));
   Column TJob (fun r => Some (Job.description r));
   Column TApplication (fun r => Some (Application.message r))].
(** [text] occurs in [value]. *)
Fixpoint contains (text value : str) : bool :=
  starts_with text value || match value with [] => false | _ :: value => contains text value end.
(** Some row of the column satisfies [p]; NULL never does. *)
Definition holds_value (p : str -> bool) (v : option str) : bool := match v with Some s => p s | None => false end.
Definition residue (p : str -> bool) (d : db) (c : checked_column) : bool :=
  match c with
  | Column t value => negb (bool_decide (select t (fun r => holds_value p (value r)) d = []))
  | ChangeEvents value => existsb (fun e => holds_value p (value e)) (map_to_list (change_events d)).*2
  end.

(** ** Reconciliation *)
Section erasure.
Context (casefold : str -> str) (float_text : str -> str)
  (unseal : bytes -> bytes -> bytes -> bytes -> option bytes)
  (ex : AccountErasureExecutor) (journal : disk).

(** The exceptions [_scrub_expired_terminal_markers] reads as uncertainty. *)
Definition uncertain (e : exn) : Res bool :=
  match e with
  | DeletionJournalError _ | OSError | FileExistsError | ValueError _ | UnicodeEncodeError
  | AuthenticationUnavailable _ => Ok false
  | e => Raise e
  end.
Definition mirror_attested (d : db) : Res bool :=
  match DeletionJournal.deletion_commitment_journal (x_settings ex) with
  | Raise e => uncertain e
  | Ok j =>
      match DeletionJournal.verify_live_deletion_mirror float_text unseal j journal
              (select TAccountLifecycle (fun _ => true) d) (select TAccountAccessDeny (fun _ => true) d) with
      | Raise e => uncertain e
      | Ok n => Ok (1 <=? n)
      end
  end.
Definition is_sha256_hmac (marker : option str) : bool :=
  match marker with Some v => hexes 64 v | None => true end.
(** The digest of the terminal tombstone. *)
Definition terminal_digest (deletion_id policy_version : str) (t : datetime) : Res str :=
  let? b := encode (u "connect.md:lifecycle:terminal:v1:" ++ deletion_id ++ u ":" ++ policy_version
                    ++ u ":" ++ isoformat_utc t) in
  Ok (hex (sha256 b)).
Definition tombstone_for (deletion_id : str) (d : db) : option AccountLifecycleTombstone :=
  head (select TAccountLifecycleTombstone
    (fun t => bool_decide (AccountLifecycleTombstone.deletion_id t = deletion_id)) d).
(** The markers a terminal lifecycle no longer needs. *)
Definition markers (l : AccountLifecycle) : list (option str) :=
  [AccountLifecycle.request_idempotency_hmac l; AccountLifecycle.confirmation_idempotency_hmac l;
   AccountLifecycle.receipt_hmac l; AccountLifecycle.receipt_recovery_idempotency_hmac l].
Definition scrubbed (l : AccountLifecycle) : AccountLifecycle :=
  l <| AccountLifecycle.request_idempotency_hmac := None |>
    <| AccountLifecycle.confirmation_idempotency_hmac := None |>
    <| AccountLifecycle.receipt_hmac := None |>
    <| AccountLifecycle.receipt_recovery_idempotency_hmac := None |>.
(** The tombstone is the one this lifecycle's terminal values determine. *)
Definition terminal_proof (l : AccountLifecycle) (terminal_at : datetime) (t : AccountLifecycleTombstone) : Res bool :=
  let? expected := terminal_digest (AccountLifecycle.id l) (AccountLifecycle.policy_version l) terminal_at in
  Ok (eqs (AccountLifecycle.state l) "fully_erased"
      && eqs (AccountLifecycleTombstone.phase t) "fully_erased"
      && bool_decide (AccountLifecycleTombstone.policy_version t = AccountLifecycle.policy_version l)
      && dt_eqb (AccountLifecycleTombstone.occurred_at t) terminal_at
      && bool_decide (AccountLifecycleTombstone.result_digest t = expected)).
(** [_scrub_expired_terminal_markers] *)
Definition scrub_expired_terminal_markers (l : AccountLifecycle) (now : datetime) : act world unit :=
  match AccountLifecycle.terminal_at l with
  | None => ret tt
  | Some terminal_at =>
      if dt_ltb now (dt_add (utc terminal_at) (days 30)) then ret tt
      else
        let! tombstone := query (tombstone_for (AccountLifecycle.id l)) in
        match tombstone with
        | None => ret tt
        | Some tombstone =>
            let! proven := lift (terminal_proof l (utc terminal_at) tombstone) in
            if negb proven then ret tt
            else if negb (not_null (deletion_journal_path (x_settings ex))) then ret tt
            else
              let! d := query id in
              let! mirrored := lift (mirror_attested d) in
              if negb (mirrored && forallb is_sha256_hmac (markers l)) then ret tt
              else
                write_db (delete_where TAccountLifecycleReceiptRateLimit
                  (fun r => bool_decide (AccountLifecycleReceiptRateLimit.deletion_id r = AccountLifecycle.id l))) ;;;
                save_lifecycle (scrubbed l)
        end
  end.

(** The states [_reconcile] assigns. *)
Definition in_state (state : string) (code : option string) (l : AccountLifecycle) : AccountLifecycle :=
  l <| AccountLifecycle.state := u state |>
    <| AccountLifecycle.safe_failure_code := (fun c => u c) <$> code |>.
Definition live_erased (now : datetime) (l : AccountLifecycle) : AccountLifecycle :=
  match AccountLifecycle.live_erased_at l with
  | None => l <| AccountLifecycle.live_erased_at := Some now |>
  | Some _ => l
  end.
Definition awaiting_backups (l : AccountLifecycle) : AccountLifecycle :=
  l <| AccountLifecycle.backup_state := u "expiry_pending" |>
    <| AccountLifecycle.state := u "backup_expiry_pending" |>.
Definition fully_erased (now : datetime) (l : AccountLifecycle) : AccountLifecycle :=
  in_state "fully_erased" None
    (l <| AccountLifecycle.backup_state := u "verified" |> <| AccountLifecycle.terminal_at := Some now |>).
(** The provider is gone and its ciphertexts are erased. *)
Definition provider_erased (l : AccountLifecycle) : bool :=
  eqs (AccountLifecycle.provider_state l) "verified"
  && negb (not_null (AccountLifecycle.provider_subject_ciphertext l))
  && negb (not_null (AccountLifecycle.provider_session_ciphertext l)).
Definition projection_states (items : list AccountErasureItem) (d : db) : list str :=
  let erased := map AccountErasureItem.resource_id (filter (fun i => of_type "document" i = true) items) in
  map SearchProjectionTask.state
    (select TSearchProjectionTask (fun t => bool_decide (SearchProjectionTask.document_id t ∈ erased)) d).
Definition obligations_of (deletion_id : str) (d : db) : list AccountBackupObligation :=
  select TAccountBackupObligation
    (fun o => bool_decide (AccountBackupObligation.deletion_id o = deletion_id)) d.
Definition obligation_verified (o : AccountBackupObligation) : bool :=
  eqs (AccountBackupObligation.state o) "verified" && not_null (AccountBackupObligation.proof_digest o).
Definition item_is (state : string) (i : AccountErasureItem) : bool := eqs (AccountErasureItem.state i) state.
(** The last branch of [_reconcile]. *)
Definition finish (l : AccountLifecycle) (now : datetime) (new_id : str) : act world unit :=
  save_lifecycle (fully_erased now l) ;;;
  let! existing := query (tombstone_for (AccountLifecycle.id l)) in
  match existing with
  | Some _ => ret tt
  | None =>
      let! digest := lift (terminal_digest (AccountLifecycle.id l) (AccountLifecycle.policy_version l) now) in
      on_db (session_add TAccountLifecycleTombstone
        (AccountLifecycleTombstone.Mk new_id (AccountLifecycle.id l) (AccountLifecycle.policy_version l)
           (u "fully_erased") digest now))
  end.
Definition reconcile_open (l : AccountLifecycle) (now : datetime) (new_id : str) : act world unit :=
  let! items := query (items_of (AccountLifecycle.id l)) in
  if existsb (item_is "dead_letter") items then save_lifecycle (in_state "failed" (Some "erasure_dead_letter"%string) l)
  else if existsb (item_is "held") items then save_lifecycle (in_state "held" (Some "erasure_hold_active"%string) l)
  else if existsb (fun i => negb (in_phases ["backup"] i) && negb (item_is "completed" i)) items
  then save_lifecycle (in_state "erasing" None l)
  else if negb (provider_erased l) then save_lifecycle (in_state "erasing" None l)
  else
    let! states := query (projection_states items) in
    if existsb (fun s => eqs s "dead_letter") states
    then save_lifecycle (in_state "failed" (Some "search_projection_dead_letter"%string) l)
    else match states with
         | _ :: _ => save_lifecycle (in_state "erasing" None l)
         | [] =>
             let! obligations := query (obligations_of (AccountLifecycle.id l)) in
             if existsb (fun i => in_phases ["backup"] i && negb (item_is "completed" i)) items
                || existsb (fun o => negb (obligation_verified o)) obligations
             then save_lifecycle (awaiting_backups (live_erased now l))
             else finish (live_erased now l) now new_id
         end.
(** [_reconcile] *)
Definition _reconcile (deletion_id : str) (now : datetime) (new_id : str) : act world unit :=
  transaction
    (let! authority := session_get TAccountBackupAuthority ACCOUNT_BACKUP_AUTHORITY_ID in
     match authority with
     | None => ret tt
     | Some _ =>
         let! lifecycle := session_get TAccountLifecycle deletion_id in
         match lifecycle with
         | None => ret tt
         | Some l =>
             if eqs (AccountLifecycle.state l) "confirmation_pending" then ret tt
             else if eqs (AccountLifecycle.state l) "fully_erased" then scrub_expired_terminal_markers l now
             else reconcile_open l now new_id
         end
     end).
(** [_reconcile_all] *)
Fixpoint reconcile_each (ids : list str) (now : datetime) (new_ids : nat -> str) : act world unit :=
  match ids with
  | [] => ret tt
  | i :: ids => _reconcile i now (new_ids 0%nat) ;;; reconcile_each ids now (fun k => new_ids (S k))
  end.
Definition _reconcile_all (now : datetime) (new_ids : nat -> str) : act world unit :=
  let! ids := query (fun d => map AccountLifecycle.id (select TAccountLifecycle (fun _ => true) d)) in
  reconcile_each ids now new_ids.

(** ** Claims *)

(** Items due for work, in the order of [available_at], [created_at] and [id];
    a missing [available_at] sorts last. *)
Definition due (now : datetime) (i : AccountErasureItem) : bool :=
  item_is "queued" i && match AccountErasureItem.available_at i with Some t => dt_leb t now | None => false end
  || item_is "leased" i && match AccountErasureItem.lease_expires_at i with Some t => dt_leb t now | None => false end.
Definition item_before (a b : AccountErasureItem) : bool :=
  let later := dt_id_before (AccountErasureItem.created_at a, AccountErasureItem.id a)
                 (AccountErasureItem.created_at b, AccountErasureItem.id b) in
  match AccountErasureItem.available_at a, AccountErasureItem.available_at b with
  | Some s, Some t => dt_ltb s t || dt_eqb s t && later
  | Some _, None => true
  | None, Some _ => false
  | None, None => later
  end.
(** At most one hundred rows, passing over those other transactions lock. *)
Definition claim_window : nat := 100.
Definition candidate_items (locked : gset str) (now : datetime) (d : db) : list AccountErasureItem :=
  take claim_window (sort_by item_before (select TAccountErasureItem
    (fun i => due now i && negb (bool_decide (AccountErasureItem.id i ∈ locked))) d)).

(** What the scan decides about a row: nothing, or the first of the three. *)
Inductive decision : Type :=
| Withhold (hold : RetentionHold) | WithholdPolicy | Lease.
Definition decide_item (d : db) (item : AccountErasureItem) : option decision :=
  match tbl d TAccountLifecycle !! AccountErasureItem.deletion_id item with
  | None => None
  | Some l =>
      if eqs (AccountLifecycle.state l) "fully_erased" then None
      else
        let unindex := in_phases ["unindex"] item in
        match (if unindex then None else _active_hold d item) with
        | Some hold => Some (Withhold hold)
        | None =>
            if negb unindex && _active_policy_ancestor d item then Some WithholdPolicy
            else if _prerequisites_complete d item then Some Lease else None
        end
  end.
Fixpoint scan (d : db) (items : list AccountErasureItem) : option (AccountErasureItem * decision) :=
  match items with
  | [] => None
  | item :: items => match decide_item d item with Some x => Some (item, x) | None => scan d items end
  end.
Definition claim_of (token : str) (item : AccountErasureItem) : _Claim :=
  MkErasureClaim (AccountErasureItem.id item) (AccountErasureItem.deletion_id item)
    (AccountErasureItem.resource_type item) (AccountErasureItem.resource_id item)
    (AccountErasureItem.phase item) token (AccountErasureItem.attempts item + 1).
(** The transaction of [_claim_one], and the deletion to reconcile after it; the
    row lock makes the guarded update hit the scanned row. *)
Definition claim_transaction (now : datetime) (dr : Draws) : act world (option _Claim * option str) :=
  transaction
    (let! d := query id in
     match scan d (candidate_items (d_locked dr) now d) with
     | None => ret (None, None)
     | Some (item, Withhold hold) =>
         save_item (mark_held hold now item) ;;; ret (None, Some (AccountErasureItem.deletion_id item))
     | Some (item, WithholdPolicy) =>
         save_item (mark_policy_held now item) ;;; ret (None, Some (AccountErasureItem.deletion_id item))
     | Some (item, Lease) =>
         save_item (mark_leased ex (d_token dr) now item) ;;; ret (Some (claim_of (d_token dr) item), None)
     end).
(** [_claim_one]: the claim and the number of items withheld. *)
Definition _claim_one (now : datetime) (dr : Draws) : act world (option _Claim * Z) :=
  let! outcome := claim_transaction now dr in
  match outcome with
  | (claim, None) => ret (claim, 0)
  | (_, Some deletion_id) => _reconcile deletion_id now (d_ids dr 0%nat) ;;; ret (None, 1)
  end.

(** ** Execution of an item *)

Definition decrypt_provider_subject (l : AccountLifecycle) (deletion_id : str) : Res str :=
  match AccountLifecycle.provider_subject_ciphertext l with
  | None => Raise (failure "provider_ciphertext_unavailable" false)
  | Some c => decrypt_subject unseal (x_settings ex) deletion_id c
  end.

(** What [_delete_file] reads from the row: the expected path, the stored one and,
    for verified deletions, the digest, the size and its bound. *)
Record FilePlan : Type := MkFilePlan
  { p_expected : str; p_stored : option str; p_verified : option (str * option Z * Z) }.
(** [None]: the row is gone and there is nothing to delete. *)
Definition file_plan (d : db) (item : AccountErasureItem) : Res (option FilePlan) :=
  let i := AccountErasureItem.resource_id item in
  let parent_missing := Raise (failure "storage_parent_missing" false) in
  if of_type "document_version" item then
    match tbl d TDocumentVersion !! i with
    | None => Ok None
    | Some row =>
        match tbl d TDocument !! DocumentVersion.document_id row with
        | None => parent_missing
        | Some document =>
            let? expected := relative_path (Document.kind document) (Document.id document) (DocumentVersion.version row) in
            Ok (Some (MkFilePlan expected (Some (DocumentVersion.storage_path row)) None))
        end
    end
  else if of_type "post_version" item then
    match tbl d TPostVersion !! i with
    | None => Ok None
    | Some row =>
        let? expected := relative_path (u "post") (PostVersion.post_id row) (PostVersion.version row) in
        Ok (Some (MkFilePlan expected (Some (PostVersion.storage_path row)) None))
    end
  else if of_type "organization_verification_evidence" item then
    match tbl d TOrganizationVerificationEvidence !! i with
    | None => Ok None
    | Some row =>
        match tbl d TOrganizationVerification !! OrganizationVerificationEvidence.verification_id row with
        | None => parent_missing
        | Some v =>
            let digest := OrganizationVerificationEvidence.artifact_sha256 row in
            Ok (Some (MkFilePlan
              (u "verification-evidence/" ++ OrganizationVerification.organization_id v ++ u "/"
               ++ OrganizationVerification.id v ++ u "/" ++ digest ++ u ".bin")
              (Some (OrganizationVerificationEvidence.storage_path row))
              (Some (digest, Some (OrganizationVerificationEvidence.artifact_size_bytes row), 262144))))
        end
    end
  else if of_type "application" item then
    match tbl d TApplication !! i with
    | None => Ok None
    | Some row =>
        let? expected := application_snapshot_relative_path (Application.id row) in
        Ok (Some (MkFilePlan expected (Application.snapshot_storage_path row)
          (Some (Application.snapshot_sha256 row, Application.snapshot_size_bytes row, 131072))))
    end
  else Raise (failure "erasure_file_plan_unsupported" false).
Definition stored_file (relative : str) (f : fs) : Res bool :=
  let? target := absolute_target (x_store ex) relative f in Ok (exists_ f target).
Definition file_proof (item : AccountErasureItem) (d : db) : option AccountErasureFileProof :=
  head (select TAccountErasureFileProof (fun p =>
    bool_decide (AccountErasureFileProof.deletion_id p = AccountErasureItem.deletion_id item)
    && bool_decide (AccountErasureFileProof.resource_type p = AccountErasureItem.resource_type item)
    && bool_decide (AccountErasureFileProof.resource_id p = AccountErasureItem.resource_id item)) d).
Definition delete_planned (plan : FilePlan) : act fs unit :=
  match p_verified plan with
  | None => delete_exact (x_store ex) (p_expected plan)
  | Some (digest, size, bound) =>
      match digest, size with
      | [], _ | _, None => raise (failure "storage_metadata_invalid" false)
      | _, Some size => delete_verified_exact (x_store ex) (p_expected plan) digest size bound
      end
  end.
(** [_delete_file] *)
Definition _delete_file (item : AccountErasureItem) (now : datetime) (new_id : str) : act world unit :=
  let! d := query id in
  let! plan := lift (file_plan d item) in
  match plan with
  | None => ret tt
  | Some plan =>
      if negb (bool_decide (p_stored plan = Some (p_expected plan))) then raise (failure "storage_path_mismatch" false)
      else
        on_fs (delete_planned plan) ;;;
        let! w := gets id in
        let! remains := lift (stored_file (p_expected plan) (wfs w)) in
        if remains then raise (failure "storage_absence_unconfirmed" true)
        else
          let! proof := query (file_proof item) in
          match proof with
          | Some _ => ret tt
          | None => on_db (session_add TAccountErasureFileProof
              (AccountErasureFileProof.Mk new_id (AccountErasureItem.deletion_id item)
                 (AccountErasureItem.resource_type item) (AccountErasureItem.resource_id item)
                 (p_expected plan) now))
          end
  end.

(** The namespace and identifier of a row whose name stays reserved. *)
Definition reserved_name (t : table) : row t -> option (str * str) :=
  match t with
  | TDocument => fun r => Some (u "document:" ++ Document.kind r, Document.public_identifier r)
  | TAgentIdentity => fun r => Some (u "agent_identity", AgentIdentity.handle r)
  | TOrganization => fun r => Some (u "organization", Organization.slug r)
  | TJob => fun r => Some (u "job:" ++ Job.organization_id r, Job.slug r)
  | _ => fun _ => None
  end.
(** [normalize_identifier], [identifier_reservation_hmac] of services/reservations.py *)
Definition normalize_identifier (value : str) : Res str :=
  match casefold (strip value) with
  | [] => Raise (ValueError (u "identifier is invalid"))
  | normalized => Ok normalized
  end.
Definition identifier_reservation_hmac (namespace identifier : str) : Res str :=
  let? normalized := normalize_identifier identifier in
  lifecycle_hmac (x_settings ex) (u "identifier-reservation") (namespace ++ u ":" ++ normalized).
Definition reservation (namespace digest : str) (d : db) : option IdentifierReservation :=
  head (select TIdentifierReservation (fun r =>
    bool_decide (IdentifierReservation.namespace r = namespace)
    && bool_decide (IdentifierReservation.identifier_hmac r = digest)) d).
(** [identifier_is_reserved] *)
Definition identifier_is_reserved (namespace identifier : str) (d : db) : Res bool :=
  match lifecycle_hmac_key (x_settings ex) with
  | None => Ok (negb (bool_decide (select TIdentifierReservation (fun _ => true) d = [])))
  | Some _ =>
      let? digest := identifier_reservation_hmac namespace identifier in
      Ok (not_null (reservation namespace digest d))
  end.
(** [_reserve_identifier] *)
Definition _reserve_identifier (deletion_id : str) (t : table) (r : row t) (now : datetime) (new_id : str) :
  act world unit :=
  match reserved_name t r with
  | None => ret tt
  | Some (namespace, identifier) =>
      let! digest := lift (identifier_reservation_hmac namespace identifier) in
      let! existing := query (reservation namespace digest) in
      match existing with
      | Some _ => ret tt
      | None => on_db (session_add TIdentifierReservation
          (IdentifierReservation.Mk new_id namespace digest deletion_id now))
      end
  end.

(** The tombstone of the search projection, new or re-armed. *)
Definition armed_task (document : Document) (now : datetime) : SearchProjectionTask :=
  SearchProjectionTask.Mk (Document.id document) (Document.current_version document) (u "pending") 0 now
    None None None None None now now.
Definition rearmed (now : datetime) (t : SearchProjectionTask) : SearchProjectionTask :=
  t <| SearchProjectionTask.state := u "pending" |> <| SearchProjectionTask.attempts := 0 |>
    <| SearchProjectionTask.available_at := now |> <| SearchProjectionTask.lease_expires_at := None |>
    <| SearchProjectionTask.claimed_by := None |> <| SearchProjectionTask.claim_token := None |>
    <| SearchProjectionTask.last_error_code := None |> <| SearchProjectionTask.dead_lettered_at := None |>
    <| SearchProjectionTask.updated_at := now |>.
Definition arm_projection (document : Document) (now clock : datetime) : act world unit :=
  let! task := session_get TSearchProjectionTask
    (pair_key (Document.id document) [Document.current_version document]) in
  on_db (match task with
         | None => session_add TSearchProjectionTask (armed_task document now)
         | Some t => session_save TSearchProjectionTask (rearmed now t)
         end) ;;;
  on_db (remove_document_projection (Document.id document) clock) ;;;
  on_db (exact_remove_document (Document.id document) clock).

(** The model of a [delete_row] item. *)
Definition row_table (resource_type : str) : option table :=
  if eqs resource_type "document" then Some TDocument
  else if eqs resource_type "document_version" then Some TDocumentVersion
  else if eqs resource_type "post" then Some TPost
  else if eqs resource_type "post_version" then Some TPostVersion
  else if eqs resource_type "api_key" then Some TApiKey
  else if eqs resource_type "agent_grant" then Some TAgentGrant
  else if eqs resource_type "agent_mandate" then Some TAgentMandate
  else if eqs resource_type "agent_identity" then Some TAgentIdentity
  else if eqs resource_type "connection_request" then Some TConnectionRequest
  else if eqs resource_type "connection" then Some TConnection
  else if eqs resource_type "conversation" then Some TConversation
  else if eqs resource_type "message" then Some TMessage
  else if eqs resource_type "organization" then Some TOrganization
  else if eqs resource_type "job" then Some TJob
  else if eqs resource_type "application" then Some TApplication
  else if eqs resource_type "organization_membership" then Some TOrganizationMembership
  else if eqs resource_type "agent_proposal" then Some TAgentProposal
  else None.
Definition arm_if_document (t : table) : row t -> datetime -> datetime -> act world unit :=
  match t with TDocument => arm_projection | _ => fun _ _ _ => ret tt end.
Definition remove_row (deletion_id : str) (t : table) (i : str) (now : datetime) (dr : Draws) : act world unit :=
  let! row := session_get t i in
  match row with
  | None => ret tt
  | Some r =>
      _reserve_identifier deletion_id t r now (d_ids dr 1%nat) ;;;
      arm_if_document t r now (d_clock dr) ;;;
      on_db (delete_row t i)
  end.
(** [_delete_row] *)
Definition _delete_row (item : AccountErasureItem) (now : datetime) (dr : Draws) : act world unit :=
  let deletion_id := AccountErasureItem.deletion_id item in
  if of_type "contact_policy" item then
    let! lifecycle := session_get TAccountLifecycle deletion_id in
    match lifecycle with
    | None => raise (failure "provider_ciphertext_unavailable" false)
    | Some l =>
        let! subject := lift (decrypt_provider_subject l (AccountLifecycle.id l)) in
        remove_row deletion_id TContactPolicy subject now dr
    end
  else match row_table (AccountErasureItem.resource_type item) with
       | None => raise (failure "erasure_row_plan_unsupported" false)
       | Some t => remove_row deletion_id t (AccountErasureItem.resource_id item) now dr
       end.

(** [json.dumps(snapshot, sort_keys=True)] of a flat dict of strings. *)
Definition dumps_flat (d : list (str * str)) : str :=
  u "{" ++ join (u ", ") (map (fun kv => quote true kv.1 ++ u ": " ++ quote true kv.2) (sort_keys d)) ++ u "}".
(** The times, digests and reason a backup proof binds. *)
Definition backup_snapshot (deletion_id generation_id : str) (created expires : datetime)
  (db_digest markdown_digest reason : str) (proof_time : datetime) (operator_proof : str) : str :=
  dumps_flat
    [(u "deletion_id", deletion_id); (u "generation_id", generation_id);
     (u "created_at", isoformat_utc created); (u "expires_at", isoformat_utc expires);
     (u "db_manifest_digest", db_digest); (u "markdown_manifest_digest", markdown_digest);
     (u "reason", reason); (u "proof_time", isoformat_utc proof_time); (u "operator_proof", operator_proof)].
(** The reason, time and operator's proof of a retired generation. *)
Definition retirement (m : AccountBackupManifest) (expires now : datetime) : option (str * datetime * str) :=
  let past t := dt_leb (utc t) now in
  let expired :=
    match AccountBackupManifest.expired_proof_digest m, AccountBackupManifest.expired_at m with
    | Some p, Some t =>
        if eqs (AccountBackupManifest.state m) "expired" && past t && dt_leb expires now
        then Some (u "expired", utc t, p) else None
    | _, _ => None
    end in
  let destroyed :=
    match AccountBackupManifest.crypto_destroyed_proof_digest m, AccountBackupManifest.crypto_destroyed_at m with
    | Some p, Some t =>
        if eqs (AccountBackupManifest.state m) "crypto_destroyed" && past t
        then Some (u "crypto_destroyed", utc t, p) else None
    | _, _ => None
    end in
  match expired with Some x => Some x | None => destroyed end.
Definition obligation_for (item : AccountErasureItem) (m : AccountBackupManifest) (d : db) :
  option AccountBackupObligation :=
  head (select TAccountBackupObligation (fun o =>
    bool_decide (AccountBackupObligation.deletion_id o = AccountErasureItem.deletion_id item)
    && bool_decide (AccountBackupObligation.generation_id o = AccountBackupManifest.generation_id m)) d).
Definition verified_obligation (digest : str) (now : datetime) (o : AccountBackupObligation) : AccountBackupObligation :=
  o <| AccountBackupObligation.proof_digest := Some digest |>
    <| AccountBackupObligation.verified_at := Some now |>
    <| AccountBackupObligation.state := u "verified" |>.
Definition expiry_pending (expires now : datetime) : exn :=
  AccountErasureFailure (u "backup_expiry_pending") true
    (Some (moment (dt_max (dt_add now (seconds 30)) expires))).
(** [_verify_backup] *)
Definition _verify_backup (item : AccountErasureItem) (now : datetime) : act world (option str) :=
  let! manifest := session_get TAccountBackupManifest (AccountErasureItem.resource_id item) in
  match manifest with
  | None => raise (failure "backup_manifest_missing" false)
  | Some m =>
      let missing := raise (failure "backup_snapshot_missing" false) in
      let! obligation := query (obligation_for item m) in
      match obligation with
      | None => missing
      | Some o =>
          match AccountBackupObligation.generation_created_at o, AccountBackupObligation.generation_expires_at o,
                AccountBackupObligation.db_manifest_digest o, AccountBackupObligation.markdown_manifest_digest o with
          | Some created, Some expires, Some db_digest, Some markdown_digest =>
              if negb (dt_eqb (AccountBackupManifest.created_at m) created
                       && dt_eqb (AccountBackupManifest.expires_at m) expires
                       && bool_decide (AccountBackupManifest.db_manifest_digest m = db_digest)
                       && bool_decide (AccountBackupManifest.markdown_manifest_digest m = markdown_digest))
              then raise (failure "backup_snapshot_mismatch" false)
              else match retirement m (utc expires) now with
                   | None => raise (expiry_pending (utc expires) now)
                   | Some (reason, proof_time, operator_proof) =>
                       let! text := lift (encode (backup_snapshot (AccountErasureItem.deletion_id item)
                         (AccountBackupObligation.generation_id o) (utc created) (utc expires) db_digest
                         markdown_digest reason proof_time operator_proof)) in
                       on_db (session_save TAccountBackupObligation
                         (verified_obligation (hex (sha256 text)) now o)) ;;;
                       ret (Some (u "backup_proof_attested"))
                   end
          | _, _, _, _ => missing
          end
      end
  end.

(** [_postcheck] *)
Definition file_residue (d : db) (f : fs) (item : AccountErasureItem) : Res bool :=
  match file_proof item d with
  | None => Ok true
  | Some proof => stored_file (AccountErasureFileProof.relative_path proof) f
  end.
Fixpoint check_files (d : db) (f : fs) (items : list AccountErasureItem) : Res unit :=
  match items with
  | [] => Ok tt
  | item :: items =>
      let? remains := file_residue d f item in
      if remains then Raise (failure "postcheck_file_absence_unconfirmed" false) else check_files d f items
  end.
Definition postcheck_result (deletion_id : str) (d : db) (f : fs) : Res unit :=
  match tbl d TAccountLifecycle !! deletion_id with
  | None => Raise (failure "provider_ciphertext_unavailable" false)
  | Some l =>
      let? subject := decrypt_provider_subject l deletion_id in
      if existsb (residue (fun v => bool_decide (v = subject)) d) _POSTCHECK_IDENTITY_COLUMNS
      then Raise (failure "postcheck_identity_residue" false)
      else if existsb (residue (contains subject) d) _POSTCHECK_CONTENT_COLUMNS
      then Raise (failure "postcheck_content_residue" false)
      else
        let files := filter (fun i => in_phases ["delete_file"] i = true) (items_of deletion_id d) in
        if existsb (fun i => negb (item_is "completed" i)) files
        then Raise (failure "postcheck_file_absence_unconfirmed" true)
        else check_files d f files
  end.
Definition _postcheck (deletion_id : str) : act world unit :=
  let! w := gets id in lift (postcheck_result deletion_id (wdb w) (wfs w)).

(** [_execute] *)
Definition erase_ciphertexts (l : AccountLifecycle) : AccountLifecycle :=
  l <| AccountLifecycle.provider_subject_ciphertext := None |>
    <| AccountLifecycle.provider_session_ciphertext := None |>.
Definition _execute (item : AccountErasureItem) (now : datetime) (dr : Draws) : act world (option str) :=
  if in_phases ["delete_file"] item then
    _delete_file item now (d_ids dr 1%nat) ;;; ret (Some (u "file_absence_attested"))
  else if of_type "provider_subject_ciphertext" item && in_phases ["delete_row"] item then
    let! lifecycle := session_get TAccountLifecycle (AccountErasureItem.deletion_id item) in
    match lifecycle with
    | None => raise (failure "provider_not_verified" true)
    | Some l =>
        if negb (eqs (AccountLifecycle.provider_state l) "verified") then raise (failure "provider_not_verified" true)
        else save_lifecycle (erase_ciphertexts l) ;;; ret (Some (u "provider_ciphertext_erased"))
    end
  else if in_phases ["delete_row"] item then _delete_row item now dr ;;; ret None
  else if in_phases ["postcheck"] item then
    _postcheck (AccountErasureItem.deletion_id item) ;;; ret (Some (u "postcheck_attested"))
  else if in_phases ["backup"] item then _verify_backup item now
  else raise (failure "erasure_plan_unsupported" false).

(** ** Processing a claim *)
Inductive erasure_outcome : Set := Completed | Retried | DeadLettered.

(** The transactions of a claim start alike: the guard, the leased item and its
    hold.  [k] runs on a free item; otherwise the value is [stopped] or, for an
    item now withheld, [held]. *)
Definition on_free_item {A : Type} (claim : _Claim) (now : datetime) (stopped : A) (held : AccountErasureItem -> A)
  (k : AccountErasureItem -> act world A) : act world A :=
  transaction
    (hold_guard ;;;
     let! item := query (_leased_item claim) in
     match item with
     | None => ret stopped
     | Some item =>
         let! hold := query (fun d => if in_phases ["unindex"] item then None else _active_hold d item) in
         match hold with
         | Some hold => save_item (mark_held hold now item) ;;; ret (held item)
         | None => k item
         end
     end).
(** The transaction of [_process]: whether the item was executed. *)
Definition execute_item (now : datetime) (dr : Draws) (item : AccountErasureItem) : act world bool :=
  let! blocked := query (fun d => negb (in_phases ["unindex"] item) && _active_policy_ancestor d item) in
  if blocked then save_item (mark_policy_held now item) ;;; ret false
  else
    let! attestation := _execute item now dr in
    save_item (mark_complete attestation now item) ;;; ret true.
Definition process_transaction (claim : _Claim) (now : datetime) (dr : Draws) : act world bool :=
  on_free_item claim now false (fun _ => false) (execute_item now dr).

(** *** Provider and search items *)

(** What the first transaction of [_process_network_action] decides. *)
Inductive network_step : Type :=
| NetStop | NetHeld (item : AccountErasureItem) | NetSearch | NetSession (subject session_id : str)
| NetUser (subject : str).
Definition network_plan (claim : _Claim) (d : db) : Res network_step :=
  if negb (eqs (k_phase claim) "provider") then Ok NetSearch
  else
    match tbl d TAccountLifecycle !! k_deletion_id claim with
    | None => Raise (failure "provider_ciphertext_unavailable" false)
    | Some l =>
        let? subject := decrypt_provider_subject l (k_deletion_id claim) in
        if eqs (k_resource_type claim) "provider_session" then
          match AccountLifecycle.provider_session_ciphertext l with
          | None => Raise (failure "provider_session_ciphertext_unavailable" false)
          | Some c =>
              let? session_id := decrypt_provider_value unseal (x_settings ex) (k_deletion_id claim) (u "session") c in
              Ok (NetSession subject session_id)
          end
        else if eqs (k_resource_type claim) "provider_user" then Ok (NetUser subject)
        else Raise (failure "provider_plan_unsupported" false)
    end.
Definition network_prepare (claim : _Claim) (now : datetime) : act world network_step :=
  on_free_item claim now NetStop NetHeld (fun _ => let! d := query id in lift (network_plan claim d)).
(** The call outside any transaction: the completion code and the provider's answer. *)
Definition network_call (dr : Draws) (step : network_step) : Res (string * option ProviderOutcome) :=
  match step with
  | NetSession _ _ => let? o := d_revoke dr in Ok ("provider_sessions_revoked", Some o)
  | NetUser _ => let? o := d_delete dr in Ok ("provider_absence_attested", Some o)
  | _ =>
      let? a := d_search dr in
      if negb (configured a) || negb (one_of (attested a) ["deleted"; "absent"])
      then Raise (failure "erasure_dependency_unavailable" true)
      else Ok ("search_absence_attested", None)
  end%string.
Definition with_provider_state (state : string) (l : AccountLifecycle) : AccountLifecycle :=
  l <| AccountLifecycle.provider_state := u state |>.
(** A failed answer: the write of "unsupported" is made in the transaction that
    the exception then leaves. *)
Definition provider_failed (claim : _Claim) (outcome : ProviderOutcome) : act world unit :=
  (if eqs (k_resource_type claim) "provider_user" then
     let! lifecycle := session_get TAccountLifecycle (k_deletion_id claim) in
     match lifecycle, outcome with
     | Some l, PermanentUnsupported => save_lifecycle (with_provider_state "unsupported" l)
     | _, _ => ret tt
     end
   else ret tt) ;;;
  raise (match outcome with
         | PermanentUnsupported => failure "provider_unsupported" false
         | _ => failure "provider_retryable" true
         end).
Definition provider_answered (claim : _Claim) (outcome : ProviderOutcome) : act world unit :=
  match outcome with
  | Deleted | AlreadyAbsent =>
      if eqs (k_resource_type claim) "provider_user" then
        let! lifecycle := session_get TAccountLifecycle (k_deletion_id claim) in
        match lifecycle with
        | None => raise (failure "erasure_lifecycle_missing" false)
        | Some l => save_lifecycle (with_provider_state "verified" l)
        end
      else ret tt
  | Retryable | PermanentUnsupported => provider_failed claim outcome
  end.
Definition network_finish (claim : _Claim) (now : datetime) (code : string) (outcome : option ProviderOutcome) :
  act world network_step :=
  on_free_item claim now NetStop NetHeld (fun item =>
    match outcome with Some o => provider_answered claim o | None => ret tt end ;;;
    save_item (mark_complete (Some (u code)) now item) ;;; ret NetSearch).
(** The [try] body of [_process_network_action]. *)
Definition network_action (claim : _Claim) (now : datetime) (dr : Draws) : act world erasure_outcome :=
  let held item := _reconcile (AccountErasureItem.deletion_id item) now (d_ids dr 2%nat) ;;; ret Retried in
  let! step := network_prepare claim now in
  match step with
  | NetStop => ret Retried
  | NetHeld item => held item
  | step =>
      let! (code, outcome) := lift (network_call dr step) in
      let! result := network_finish claim now code outcome in
      match result with
      | NetStop => ret Retried
      | NetHeld item => held item
      | _ => _reconcile (k_deletion_id claim) now (d_ids dr 2%nat) ;;; ret Completed
      end
  end.

(** ** Failures *)

(** [_fail]: what becomes of the item, and the outcome. *)
Definition backoff_seconds (attempts : Z) : Z := 2 ^ Z.min attempts 6.
Definition failed_item (code : str) (retryable : bool) (retry_at : option datetime) (now : datetime)
  (i : AccountErasureItem) : AccountErasureItem * erasure_outcome :=
  let i := unleased i <| AccountErasureItem.last_error_code := Some code |> <| AccountErasureItem.updated_at := now |> in
  let queued := i <| AccountErasureItem.state := u "queued" |> in
  if eqs code "backup_expiry_pending" then
    (queued <| AccountErasureItem.attempts := Z.max 0 (AccountErasureItem.attempts i - 1) |>
            <| AccountErasureItem.available_at := Some (default (dt_add now (seconds 30)) retry_at) |>, Retried)
  else if negb retryable || (x_max_attempts ex <=? AccountErasureItem.attempts i) then
    (i <| AccountErasureItem.state := u "dead_letter" |> <| AccountErasureItem.available_at := None |>, DeadLettered)
  else
    (queued <| AccountErasureItem.available_at :=
                 Some (dt_add now (seconds (backoff_seconds (AccountErasureItem.attempts i)))) |>, Retried).
Definition _fail (claim : _Claim) (code : str) (retryable : bool) (retry_at : option datetime) (now : datetime)
  (dr : Draws) : act world erasure_outcome :=
  let! result := transaction
    (let! item := query (_leased_item claim) in
     match item with
     | None => ret None
     | Some item =>
         let '(i, outcome) := failed_item code retryable retry_at now item in
         save_item i ;;; ret (Some (AccountErasureItem.deletion_id item, outcome))
     end) in
  match result with
  | None => ret Retried
  | Some (deletion_id, outcome) => _reconcile deletion_id now (d_ids dr 3%nat) ;;; ret outcome
  end.

(** The [except] clauses of [_process] and [_process_network_action]; a cancellation is
    not an [Exception] and escapes them. *)
Definition retry_as (claim : _Claim) (code : string) (now : datetime) (dr : Draws) : act world erasure_outcome :=
  _fail claim (u code) true None now dr.
Definition process_failed (network : bool) (claim : _Claim) (now : datetime) (dr : Draws) (e : exn) :
  act world erasure_outcome :=
  match e with
  | Halted | CancelledError => raise e
  | AccountErasureFailure code retryable retry_at => _fail claim code retryable (of_moment <$> retry_at) now dr
  | SearchUnavailable _ | AuthenticationUnavailable _ => retry_as claim "erasure_dependency_unavailable" now dr
  | StorageIntegrityError _ | ExactSearchUnavailable _ =>
      retry_as claim (if network then "erasure_execution_failed" else "erasure_dependency_unavailable") now dr
  | IntegrityError | OSError | FileExistsError | ValueError _ | UnicodeEncodeError =>
      retry_as claim (if network then "erasure_execution_failed" else "erasure_persistence_conflict") now dr
  | _ => retry_as claim "erasure_execution_failed" now dr
  end%string.
(** [_process] *)
Definition process_local (claim : _Claim) (now : datetime) (dr : Draws) : act world erasure_outcome :=
  let! executed := process_transaction claim now dr in
  if executed then _reconcile (k_deletion_id claim) now (d_ids dr 2%nat) ;;; ret Completed else ret Retried.
Definition _process (claim : _Claim) (now : datetime) (dr : Draws) : act world erasure_outcome :=
  if eqs (k_phase claim) "unindex" || eqs (k_phase claim) "provider"
  then catch (network_action claim now dr) (process_failed true claim now dr)
  else catch (process_local claim now dr) (process_failed false claim now dr).

(** ** One run *)
Definition count_outcome (o : erasure_outcome) (r : AccountErasureRunResult) : AccountErasureRunResult :=
  let hit x := if match x, o with
                 | Completed, Completed | Retried, Retried | DeadLettered, DeadLettered => true
                 | _, _ => false
                 end then 1 else 0 in
  MkErasureResult (r_claimed r + 1) (r_completed r + hit Completed) (r_held r) (r_retried r + hit Retried)
    (r_dead_lettered r + hit DeadLettered).
Definition add_held (n : Z) (r : AccountErasureRunResult) : AccountErasureRunResult :=
  MkErasureResult (r_claimed r) (r_completed r) (r_held r + n) (r_retried r) (r_dead_lettered r).
Fixpoint run_items (now : datetime) (env : nat -> Draws) (n : nat) (result : AccountErasureRunResult) :
  act world AccountErasureRunResult :=
  match n with
  | O => ret result
  | S n =>
      let! (claim, held) := _claim_one now (env 0%nat) in
      let result := add_held held result in
      match claim with
      | None => if held =? 0 then ret result else run_items now (fun k => env (S k)) n result
      | Some claim =>
          let! outcome := _process claim now (env 0%nat) in
          run_items now (fun k => env (S k)) n (count_outcome outcome result)
      end
  end.
(** [run_once]; [env k] is what iteration [k] draws and [new_ids] what the last
    reconciliation does. *)
Definition run_once (limit : Z) (now : datetime) (env : nat -> Draws) (new_ids : nat -> str) :
  act world AccountErasureRunResult :=
  if negb (x_enabled ex) then raise RuntimeError
  else if (limit <? 1) || (1000 <? limit)
  then raise (ValueError (u "account erasure limit must be between 1 and 1000"))
  else
    let current := utc now in
    requeue_released_holds current ;;;
    let! result := run_items current env (Z.to_nat limit) (MkErasureResult 0 0 0 0 0) in
    _reconcile_all current new_ids ;;;
    ret result.
End erasure.
