(* ===== verification/AccountErasureSteps.v ===== *)
(** * Account erasure as a transition system

    The abstract machine behind the erasure executor: its steps move one item,
    one lifecycle or one backup obligation, or change tables it does not look at.
    Every run of the executor, with whatever the provider and the search index
    answer and whatever fails, is a sequence of these steps.  The machine bounds what
    runs may do, to prove invariants of them by; it allows more than they do (the
    causes of a completion or a failure are in AccountErasureItems). *)
From S2P Require Import Prelude PyTime Json Models Database ForeignKeys HoldLineage Sha256 JsonText Lifecycle.
From S2P Require Import Disk Storage World BackupAuthorityFacts Projections AccountErasure.
Local Open Scope Z_scope.

(** ** Framing: what leaves some tables alone *)
Definition outside (ts : list table) (t : table) : bool := bool_decide (t ∉ ts).
Section framing.
Context (ts : list table).
Notation quiet := (keeps (same_on ts)).
Lemma quiet_add t r : outside ts t = true -> quiet (session_add t r).
Proof.
  intros Ht%bool_decide_eq_true d x d' [(-> & _ & ->)|(-> & ->)]%session_add_spec; [by apply same_on_put|done].
Qed.
Lemma quiet_save t r : outside ts t = true -> quiet (session_save t r).
Proof. intros Ht%bool_decide_eq_true. apply keeps_session_save; [apply _|]. intros d _. by apply same_on_put. Qed.
Lemma quiet_delete_where t p : outside ts t = true -> quiet (modify (delete_where t p)).
Proof. intros Ht%bool_decide_eq_true d x d' [= <- <-]. by apply same_on_delete_where. Qed.
Lemma quiet_delete_row t i : forallb (outside ts) (below 3 t) = true -> quiet (delete_row t i).
Proof.
  intros Ht d x d'. apply delete_rows_same. intros t' Hin.
  rewrite forallb_forall in Ht. by apply list_elem_of_In, Ht, bool_decide_eq_true in Hin.
Qed.
Lemma quiet_for_each {A : Type} (l : list A) (f : A -> act db unit) :
  (forall x, quiet (f x)) -> quiet (for_each l f).
Proof. intros Hf d r d'. apply for_each_same. intros x a b c _. apply Hf. Qed.
End framing.
Create HintDb quiet.
#[export] Hint Resolve quiet_add quiet_save quiet_delete_where quiet_delete_row quiet_for_each : quiet.
Ltac quiet_step :=
  first [ discriminate | solve [apply keeps_ret, _ | apply keeps_raise, _ | apply keeps_gets, _ | apply keeps_lift, _]
        | apply quiet_add; reflexivity | apply quiet_save; reflexivity | apply quiet_delete_where; reflexivity
        | apply quiet_delete_row; reflexivity | apply quiet_for_each; intros ?
        | apply keeps_bind; [apply _|..|intros ?] | case_match ].

(** Executing an item leaves these tables to its other parts, and the withdrawal of
    a document from the projections leaves two more. *)
Definition kept : list table := TIdentifierReservation :: protected.
Definition untouched : list table := TDocument :: TSearchProjectionTask :: kept.
Notation unprotected := (outside kept).
Lemma quiet_remove_projection i now : keeps (same_on untouched) (remove_document_projection i now).
Proof.
  unfold remove_document_projection, replace_document_projection, withdraw_snapshot, recalculate_terms,
    recalculate_term, bump_revision.
  cbn [not_null andb as_v2 new_entries]. repeat quiet_step.
Qed.
Lemma quiet_exact_remove i now : keeps (same_on untouched) (exact_remove_document i now).
Proof. unfold exact_remove_document. repeat quiet_step. Qed.
Lemma keeps_fewer {A : Type} ts ts' (m : act db A) : (forall t, t ∈ ts' -> t ∈ ts) -> keeps (same_on ts) m -> keeps (same_on ts') m.
Proof. intros Hts Hm d r d' E t Ht. by apply (Hm _ _ _ E), Hts. Qed.
Lemma untouched_kept t : t ∈ kept -> t ∈ untouched.
Proof. intros H. by do 2 right. Qed.

(** ** The machine *)
Section machine.
Context (ex : AccountErasureExecutor).

(** The moves of an item. *)
Inductive item_step (d : db) (i : AccountErasureItem) : AccountErasureItem -> Prop :=
| item_withheld hold now : item_is "queued" i || item_is "leased" i = true -> in_phases ["unindex"] i = false ->
    _active_hold d i = Some hold -> item_step d i (mark_held hold now i)
| item_policy_withheld now : item_is "queued" i || item_is "leased" i = true -> in_phases ["unindex"] i = false ->
    _active_policy_ancestor d i = true -> item_step d i (mark_policy_held now i)
| item_leased token now : due now i = true -> decide_item d i = Some Lease ->
    item_step d i (mark_leased ex token now i)
| item_completed code now : item_is "leased" i = true -> item_step d i (mark_complete code now i)
| item_failed code retryable retry_at now : item_is "leased" i = true ->
    item_step d i (failed_item ex code retryable retry_at now i).1
| item_released hold_id hold now : retention_held i = true -> AccountErasureItem.hold_id i = Some hold_id ->
    tbl d TRetentionHold !! hold_id = Some hold -> RetentionHold.released_at hold <> None ->
    item_step d i (hold_released now i)
| item_invalid now : retention_held i = true ->
    (forall hold_id hold, AccountErasureItem.hold_id i = Some hold_id -> tbl d TRetentionHold !! hold_id = Some hold ->
       _hold_covers_item d hold i = false) ->
    item_step d i (hold_reference_invalid now i).

(** A lifecycle the executor may still move. *)
Definition running (l : AccountLifecycle) : bool :=
  negb (eqs (AccountLifecycle.state l) "confirmation_pending")
  && negb (eqs (AccountLifecycle.state l) "fully_erased").
Notation work_of d l := (items_of (AccountLifecycle.id l) d).
(** What is reported of an account whose erasure is not at its end, and why. *)
Inductive report (d : db) (l : AccountLifecycle) : string -> option string -> Prop :=
| report_dead : existsb (item_is "dead_letter") (work_of d l) = true -> report d l "failed" (Some "erasure_dead_letter"%string)
| report_held : existsb (item_is "dead_letter") (work_of d l) = false -> existsb (item_is "held") (work_of d l) = true ->
    report d l "held" (Some "erasure_hold_active"%string)
| report_unprojected : existsb (item_is "dead_letter") (work_of d l) = false -> existsb (item_is "held") (work_of d l) = false ->
    existsb (fun s => eqs s "dead_letter") (projection_states (work_of d l) d) = true ->
    report d l "failed" (Some "search_projection_dead_letter"%string)
| report_working : existsb (item_is "dead_letter") (work_of d l) = false -> existsb (item_is "held") (work_of d l) = false ->
    (exists i, i ∈ work_of d l /\ in_phases ["backup"] i = false /\ item_is "completed" i = false) \/
      provider_erased l = false \/ projection_states (work_of d l) d <> [] ->
    report d l "erasing" None.
(** The moves of a lifecycle short of its end. *)
Inductive lifecycle_step (d : db) (l : AccountLifecycle) : AccountLifecycle -> Prop :=
| lifecycle_reports state code : running l = true -> report d l state code -> lifecycle_step d l (in_state state code l)
| lifecycle_awaits now : running l = true ->
    (forall i, i ∈ work_of d l -> in_phases ["backup"] i = false -> item_is "completed" i = true) ->
    provider_erased l = true -> projection_states (work_of d l) d = [] ->
    lifecycle_step d l (awaiting_backups (live_erased now l))
| lifecycle_verified i : tbl d TAccountErasureItem !! AccountErasureItem.id i = Some i -> item_is "leased" i = true ->
    lifecycle_step d l (with_provider_state "verified" l)
| lifecycle_sealed : AccountLifecycle.provider_state l = u "verified" -> lifecycle_step d l (erase_ciphertexts l)
| lifecycle_scrubbed : AccountLifecycle.state l = u "fully_erased" -> lifecycle_step d l (scrubbed l).

(** Everything an account needs before it is reported erased. *)
Record erasure_done (d : db) (l : AccountLifecycle) : Prop := {
  done_items : forall i, i ∈ items_of (AccountLifecycle.id l) d -> AccountErasureItem.state i = u "completed";
  done_provider : provider_erased l = true;
  done_projections : projection_states (items_of (AccountLifecycle.id l) d) d = [];
  done_obligations : forall o, o ∈ obligations_of (AccountLifecycle.id l) d -> obligation_verified o = true
}.
(** A change the machine does not look into, which takes no reserved name back. *)
Definition aside (d d' : db) : Prop :=
  same_on protected d d' /\ tbl d TIdentifierReservation ⊆ tbl d' TIdentifierReservation.
Global Instance aside_preorder : PreOrder aside.
Proof. split; [by split|]. intros a b c [H1 H2] [H3 H4]. split; by etrans. Qed.
Lemma kept_aside d d' : same_on kept d d' -> aside d d'.
Proof. intros H. split; [intros t Ht; apply H; by right|]. rewrite (H TIdentifierReservation); [done|by left]. Qed.
(** A database and its successor. *)
Inductive erasure_step (d : db) : db -> Prop :=
| step_item i i' : tbl d TAccountErasureItem !! AccountErasureItem.id i = Some i -> item_step d i i' ->
    erasure_step d (put TAccountErasureItem (AccountErasureItem.id i) i' d)
| step_lifecycle l l' : tbl d TAccountLifecycle !! AccountLifecycle.id l = Some l -> lifecycle_step d l l' ->
    erasure_step d (put TAccountLifecycle (AccountLifecycle.id l) l' d)
| step_obligation m o digest expires now : tbl d TAccountBackupManifest !! AccountBackupManifest.id m = Some m ->
    tbl d TAccountBackupObligation !! AccountBackupObligation.id o = Some o ->
    AccountBackupObligation.generation_id o = AccountBackupManifest.generation_id m ->
    retirement m expires now <> None ->
    erasure_step d (put TAccountBackupObligation (AccountBackupObligation.id o) (verified_obligation digest now o) d)
| step_finish l now d' : tbl d TAccountLifecycle !! AccountLifecycle.id l = Some l -> running l = true ->
    erasure_done d l ->
    let d1 := put TAccountLifecycle (AccountLifecycle.id l) (fully_erased now (live_erased now l)) d in
    (d' = d1 /\ tombstone_for (AccountLifecycle.id l) d <> None \/
     exists i digest, terminal_digest (AccountLifecycle.id l) (AccountLifecycle.policy_version l) now = Ok digest
       /\ tbl d TAccountLifecycleTombstone !! i = None
       /\ d' = put TAccountLifecycleTombstone i (AccountLifecycleTombstone.Mk i (AccountLifecycle.id l)
                 (AccountLifecycle.policy_version l) (u "fully_erased") digest now) d1) ->
    erasure_step d d'
| step_other d' : aside d d' -> erasure_step d d'.

Lemma item_step_id d i i' : item_step d i i' -> AccountErasureItem.id i' = AccountErasureItem.id i.
Proof. destruct 1; try done. unfold failed_item. by repeat case_match. Qed.
Lemma id_live_erased now l : AccountLifecycle.id (live_erased now l) = AccountLifecycle.id l.
Proof. unfold live_erased. by destruct (AccountLifecycle.live_erased_at l). Qed.
Lemma lifecycle_step_id d l l' : lifecycle_step d l l' -> AccountLifecycle.id l' = AccountLifecycle.id l.
Proof. destruct 1; try done. apply id_live_erased. Qed.
Lemma erasure_step_keys d d' : erasure_step d d' -> protected_keys d -> protected_keys d'.
Proof.
  intros [i i' Hi Hs|l l' Hl Hs|m o digest e now _ Ho _ _|l now d2 Hl _ _ d1 Hd|d2 Hd] H.
  - apply protected_keys_put; [done|]. by eapply item_step_id.
  - apply protected_keys_put; [done|]. by eapply lifecycle_step_id.
  - by apply protected_keys_put.
  - assert (protected_keys d1) as H1 by (apply protected_keys_put; [done|apply id_live_erased]).
    destruct Hd as [[-> _]|(i & digest & _ & _ & ->)]; [done|]. by apply protected_keys_put.
  - intros t k r Ht. rewrite (proj1 Hd) by done. by apply H.
Qed.

(** [d] leads to [d'] in some number of steps. *)
Definition erases (d d' : db) : Prop := protected_keys d -> rtc erasure_step d d'.
Lemma erases_keys d d' : erases d d' -> protected_keys d -> protected_keys d'.
Proof. intros H Hk. specialize (H Hk). induction H as [|a b c Hs _ IH]; [done|]. apply IH. by eapply erasure_step_keys. Qed.
Global Instance erases_preorder : PreOrder erases.
Proof.
  split; [by intros d _|]. intros a b c H1 H2 Hk. etransitivity; [by apply H1|]. apply H2. by eapply erases_keys.
Qed.
Lemma erases_step d d' : (protected_keys d -> erasure_step d d') -> erases d d'.
Proof. intros H Hk. by apply rtc_once, H. Qed.
End machine.

(** ** Running a computation from a given state *)
Definition runs {A : Type} (R : db -> db -> Prop) (m : act world A) (w : world) : Prop :=
  forall r w', m w = (r, w') -> R (wdb w) (wdb w').
Section runs.
Context (R : db -> db -> Prop) {HR : PreOrder R}.
Lemma runs_keeps {A : Type} (m : act world A) w : keeps (on_wdb R) m -> runs R m w.
Proof. intros H r w'. apply H. Qed.
Lemma runs_ret {A : Type} (a : A) w : runs R (ret a) w.
Proof. intros r w' [= <- <-]. done. Qed.
Lemma runs_raise {A : Type} e w : runs R (raise e : act world A) w.
Proof. intros r w' [= <- <-]. done. Qed.
Lemma runs_query {A B : Type} (q : db -> A) (k : A -> act world B) w :
  runs R (k (q (wdb w))) w -> runs R (act_bind (query q) k) w.
Proof. done. Qed.
Lemma runs_bind {A B : Type} (m : act world A) (k : A -> act world B) w :
  runs R m w -> (forall a w1, m w = (Ok a, w1) -> runs R (k a) w1) -> runs R (act_bind m k) w.
Proof.
  intros Hm Hk r w'. unfold act_bind. destruct (m w) as [[a|e] w1] eqn:E; intros H.
  - etransitivity; [by apply Hm with (Ok a)|]. by eapply Hk.
  - injection H as <- <-. by apply Hm with (Raise e).
Qed.
Lemma runs_then {A B : Type} (m : act world A) (k : A -> act world B) w :
  runs R m w -> (forall a w1, runs R (k a) w1) -> runs R (act_bind m k) w.
Proof. intros Hm Hk. apply runs_bind; [done|]. intros a w1 _. apply Hk. Qed.
Lemma runs_lift {A B : Type} (m : Res A) (k : A -> act world B) w :
  (forall a, m = Ok a -> runs R (k a) w) -> runs R (act_bind (lift m) k) w.
Proof. intros H. apply runs_bind; [intros r w' [= <- <-]; done|]. intros a w1 [= -> <-]. by apply H. Qed.
Lemma runs_transaction {A : Type} (m : act world A) w : runs R m w -> runs R (transaction m) w.
Proof.
  intros H r w'. unfold transaction. destruct (m w) as [[a|e] w1] eqn:E; intros [= <- <-]; [by eapply H|].
  cbn [wdb]. done.
Qed.
Lemma runs_committed {A : Type} (m : act world A) w :
  (forall a w', m w = (Ok a, w') -> R (wdb w) (wdb w')) -> runs R (transaction m) w.
Proof.
  intros H r w'. unfold transaction. destruct (m w) as [[a|e] w1] eqn:E; intros [= <- <-]; [by eapply H|].
  cbn [wdb]. done.
Qed.
Lemma runs_catch {A : Type} (m : act world A) h w :
  runs R m w -> (forall e w1, runs R (h e) w1) -> runs R (catch m h) w.
Proof.
  intros Hm Hh r w'. unfold catch. destruct (m w) as [[a|e] w1] eqn:E; intros H.
  - injection H as <- <-. by eapply Hm.
  - etransitivity; [by eapply Hm|by eapply Hh].
Qed.
(** A flushed row is the state's one change, or there is none. *)
Lemma runs_save t r w :
  R (wdb w) (put t (row_id t r) r (wdb w)) -> runs R (on_db (session_save t r)) w.
Proof.
  intros H x w'. unfold on_db, session_save. destruct (row_ok t r); intros [= <- <-]; cbn [wdb]; done.
Qed.
Lemma runs_add t r w :
  (tbl (wdb w) t !! row_id t r = None -> R (wdb w) (put t (row_id t r) r (wdb w))) ->
  runs R (on_db (session_add t r)) w.
Proof.
  intros H x w'. unfold on_db. destruct (session_add t r (wdb w)) as [x1 d1] eqn:E.
  apply session_add_spec in E as [(-> & Hc & ->)|(-> & ->)]; intros [= <- <-]; cbn [wdb]; [|done].
  apply H. unfold can_insert in Hc. by bool_facts.
Qed.
Lemma save_runs t r w a w1 : on_db (session_save t r) w = (Ok a, w1) ->
  wdb w1 = put t (row_id t r) r (wdb w).
Proof. unfold on_db, session_save. by destruct (row_ok t r); intros [= <- <-]. Qed.
End runs.

(** ** The executor is that machine *)
Section executor.
Context (casefold : str -> str) (float_text : str -> str)
  (unseal : bytes -> bytes -> bytes -> bytes -> option bytes)
  (ex : AccountErasureExecutor) (journal : disk).
Notation erases := (erases ex).
Notation steps := (runs erases).

Lemma steps_other {A : Type} (m : act world A) w : keeps (on_wdb aside) m -> steps m w.
Proof. intros H r w' E _. apply rtc_once, step_other. by eapply H. Qed.
Lemma steps_item item i' w : tbl (wdb w) TAccountErasureItem !! AccountErasureItem.id item = Some item ->
  item_step ex (wdb w) item i' -> steps (save_item i') w.
Proof.
  intros Hi Hs. apply runs_save; [apply _|]. apply erases_step. intros _. cbn [row_id].
  rewrite (item_step_id _ _ _ _ Hs). by apply step_item.
Qed.
Lemma steps_lifecycle l l' w : tbl (wdb w) TAccountLifecycle !! AccountLifecycle.id l = Some l ->
  lifecycle_step (wdb w) l l' -> steps (save_lifecycle l') w.
Proof.
  intros Hl Hs. apply runs_save; [apply _|]. apply erases_step. intros _. cbn [row_id].
  rewrite (lifecycle_step_id _ _ _ Hs). by apply step_lifecycle.
Qed.
(** A protected row found by a query sits under its key. *)
Lemma selected_item p d i : protected_keys d -> i ∈ select TAccountErasureItem p d ->
  tbl d TAccountErasureItem !! AccountErasureItem.id i = Some i /\ p i = true.
Proof.
  intros Hk [[k Hi] Hp]%(elem_of_select TAccountErasureItem). split; [|done].
  assert (AccountErasureItem.id i = k) as ->; [|done].
  apply (Hk TAccountErasureItem); [in_protected|done].
Qed.
Lemma found_lifecycle d k l : protected_keys d -> tbl d TAccountLifecycle !! k = Some l ->
  AccountLifecycle.id l = k.
Proof. intros Hk. apply (Hk TAccountLifecycle). in_protected. Qed.
(** Steps under the key invariant. *)
Lemma steps_keys {A : Type} (m : act world A) w : (protected_keys (wdb w) -> steps m w) -> steps m w.
Proof. intros H r w' E Hk. by eapply H. Qed.

(** The rows a query lists are distinct. *)
Lemma selected_items_nodup p d : protected_keys d -> NoDup (map AccountErasureItem.id (select TAccountErasureItem p d)).
Proof.
  intros Hk. unfold select.
  assert (forall l : list (str * AccountErasureItem), NoDup l.*1 ->
    Forall (fun kr => AccountErasureItem.id kr.2 = kr.1) l ->
    NoDup (map AccountErasureItem.id (filter (fun r => p r = true) l.*2))) as H.
  { induction l as [|[k r] l IH]; intros Hn Hf; [constructor|]. rewrite fmap_cons in Hn. apply NoDup_cons in Hn as [Hn Hl].
    apply Forall_cons in Hf as [Hr Hf]. cbn [fst snd] in *. specialize (IH Hl Hf).
    rewrite !fmap_cons. cbn [fst snd].
    destruct (decide (p r = true)) as [Hp|Hp];
      [rewrite filter_cons_True by done|rewrite filter_cons_False by done; exact IH].
    cbn. apply NoDup_cons. split; [|exact IH]. subst k. intros Hin. apply Hn.
    apply list_elem_of_In, in_map_iff in Hin as (x & Hx & Hin%list_elem_of_In).
    apply list_elem_of_filter in Hin as [_ Hin]. apply list_elem_of_fmap in Hin as ([k y] & -> & Hin). cbn [fst snd] in *.
    rewrite Forall_forall in Hf. pose proof (Hf _ Hin) as E. cbn [fst snd] in E. rewrite <-Hx, E.
    apply list_elem_of_fmap. by exists (k, y). }
  apply H; [apply NoDup_fst_map_to_list|]. apply Forall_forall. intros [k r] Hin%elem_of_map_to_list.
  apply (Hk TAccountErasureItem); [in_protected|done].
Qed.
Lemma steps_requeue_item now item w : tbl (wdb w) TAccountErasureItem !! AccountErasureItem.id item = Some item ->
  retention_held item = true -> steps (requeue_item now item) w.
Proof.
  intros Hi Hh. unfold requeue_item. apply runs_query. cbn [id].
  pose proof (item_invalid ex (wdb w) item now Hh) as Hinv.
  destruct (AccountErasureItem.hold_id item) as [hold_id|] eqn:Hid; [|by eapply steps_item; [|apply Hinv]].
  destruct (tbl (wdb w) TRetentionHold !! hold_id) as [hold|] eqn:Hhold.
  2: { eapply steps_item; [done|]. apply Hinv. intros h x [= <-] Hx. exfalso. exact (eq_None_ne_Some_1 _ _ Hhold Hx). }
  destruct (negb _) eqn:Hc.
  { eapply steps_item; [done|]. apply Hinv. intros h x [= <-] Hx. pose proof (eq_trans (eq_sym Hhold) Hx) as [= <-].
    by apply negb_true_iff. }
  destruct (not_null _) eqn:Hr; [|apply runs_ret, _].
  eapply steps_item; [done|]. eapply item_released; [done..|]. by destruct (RetentionHold.released_at hold).
Qed.
Lemma requeue_item_others now item w a w1 k : requeue_item now item w = (Ok a, w1) ->
  k <> AccountErasureItem.id item ->
  tbl (wdb w1) TAccountErasureItem !! k = tbl (wdb w) TAccountErasureItem !! k.
Proof.
  unfold requeue_item. rewrite query_bind. cbn [id]. intros Hrun Hne.
  assert (forall i', AccountErasureItem.id i' = AccountErasureItem.id item -> save_item i' w = (Ok a, w1) ->
    tbl (wdb w1) TAccountErasureItem !! k = tbl (wdb w) TAccountErasureItem !! k) as Hs.
  { intros i' Hi' E%save_runs. rewrite E, tbl_put_eq. apply lookup_insert_ne. cbn. congruence. }
  repeat case_match; try (eapply Hs; [|exact Hrun]; done). by injection Hrun as <- <-.
Qed.
Lemma steps_requeue_items now items w : NoDup (map AccountErasureItem.id items) ->
  (forall i, i ∈ items -> tbl (wdb w) TAccountErasureItem !! AccountErasureItem.id i = Some i /\ retention_held i = true) ->
  steps (for_each items (requeue_item now)) w.
Proof.
  revert w. induction items as [|i items IH]; intros w Hn Hin; cbn [for_each]; [apply runs_ret, _|].
  cbn in Hn. apply NoDup_cons in Hn as [Hni Hn]. apply runs_bind; [apply _| |].
  - apply steps_requeue_item; apply Hin; left.
  - intros [] w1 E. apply IH; [done|]. intros j Hjin.
    assert (AccountErasureItem.id j <> AccountErasureItem.id i) as Hne.
    { intros E'. apply Hni. rewrite <-E'. by apply list_elem_of_In, in_map, list_elem_of_In. }
    destruct (Hin j) as [Hj Hr]; [by right|]. split; [|done]. etransitivity; [|exact Hj].
    exact (requeue_item_others _ _ _ _ _ _ E Hne).
Qed.
Lemma steps_requeue now w : steps (requeue_released_holds now) w.
Proof.
  apply runs_transaction; [apply _|]. apply runs_query, steps_keys. intros Hk.
  apply steps_requeue_items; [by apply selected_items_nodup|]. intros i. by apply selected_item.
Qed.

(** *** Reconciliation *)
Notation reconcile := (_reconcile float_text unseal ex journal).
Lemma steps_scrub l now w : tbl (wdb w) TAccountLifecycle !! AccountLifecycle.id l = Some l ->
  AccountLifecycle.state l = u "fully_erased" ->
  steps (scrub_expired_terminal_markers float_text unseal ex journal l now) w.
Proof.
  intros Hl Hs. unfold scrub_expired_terminal_markers.
  destruct (AccountLifecycle.terminal_at l) as [t|]; [|apply runs_ret, _].
  destruct (dt_ltb _ _); [apply runs_ret, _|]. apply runs_query.
  destruct (tombstone_for _ _) as [stone|]; [|apply runs_ret, _]. apply runs_lift; [apply _|]. intros proven _.
  destruct proven; cbn [negb]; [|apply runs_ret, _]. destruct (negb _); [apply runs_ret, _|].
  apply runs_query. apply runs_lift; [apply _|]. intros mirrored _. destruct (negb _); [apply runs_ret, _|].
  apply runs_bind; [apply _|apply steps_other, keeps_write_db; intros d; apply kept_aside, same_on_delete_where; in_protected|].
  intros [] w1 [= <-]. apply steps_lifecycle with l; [|by apply lifecycle_scrubbed].
  cbn [wdb set_db]. by rewrite tbl_delete_where_ne.
Qed.
Lemma steps_finish l now new_id w a w' : tbl (wdb w) TAccountLifecycle !! AccountLifecycle.id l = Some l ->
  running l = true -> erasure_done (wdb w) l -> finish (live_erased now l) now new_id w = (Ok a, w') ->
  erases (wdb w) (wdb w').
Proof.
  intros Hl Hr Hd. unfold finish. rewrite id_live_erased.
  replace (AccountLifecycle.policy_version (live_erased now l)) with (AccountLifecycle.policy_version l)
    by (unfold live_erased; by destruct (AccountLifecycle.live_erased_at l)).
  intros Hrun. apply erases_step. intros _. apply act_bind_ok in Hrun as ([] & w1 & E & Hrun).
  apply save_runs in E. cbn [row_id] in E.
  replace (AccountLifecycle.id (fully_erased now (live_erased now l))) with (AccountLifecycle.id l) in E
    by (symmetry; apply id_live_erased).
  eapply (step_finish ex _ l now); [done..|]. rewrite query_bind in Hrun.
  replace (tombstone_for (AccountLifecycle.id l) (wdb w1)) with (tombstone_for (AccountLifecycle.id l) (wdb w)) in Hrun
    by (unfold tombstone_for, select; by rewrite E, tbl_put_ne).
  destruct (tombstone_for _ _) as [stone|] eqn:Ht.
  - left. injection Hrun as _ <-. by rewrite E.
  - right. apply act_bind_ok in Hrun as (digest & w2 & [= Hd' <-] & Hrun).
    unfold on_db in Hrun. destruct (session_add _ _ _) as [x d2] eqn:Ha. injection Hrun as -> <-.
    apply session_add_spec in Ha as [(_ & Hc & ->)|[? _]]; [|done].
    unfold can_insert in Hc. bool_facts. exists new_id, digest. split_and!; [done| |cbn [wdb]; by rewrite E].
    rewrite E in *. cbn [row_id] in *. by rewrite tbl_put_ne in *.
Qed.
Ltac split_if H := match goal with |- context [if ?b then _ else _] => destruct b eqn:H end.
Lemma existsb_all {A : Type} (p : A -> bool) l : existsb (fun x => negb (p x)) l = false -> forall x, x ∈ l -> p x = true.
Proof. intros H x Hx. apply (existsb_none _ _ _ H) in Hx. by apply negb_false_iff. Qed.
Lemma steps_reconcile_open l now new_id w a w' : tbl (wdb w) TAccountLifecycle !! AccountLifecycle.id l = Some l ->
  running l = true -> reconcile_open l now new_id w = (Ok a, w') -> erases (wdb w) (wdb w').
Proof.
  intros Hl Hr. unfold reconcile_open. rewrite query_bind.
  assert (forall l', lifecycle_step (wdb w) l l' -> save_lifecycle l' w = (Ok a, w') -> erases (wdb w) (wdb w')) as Hs.
  { intros l' Hs E. by eapply steps_lifecycle. }
  destruct (existsb (item_is "dead_letter") _) eqn:Hdead; [by apply Hs, lifecycle_reports, report_dead|].
  destruct (existsb (item_is "held") _) eqn:Hheld; [by apply Hs, lifecycle_reports, report_held|].
  split_if Hlocal.
  { apply Hs, lifecycle_reports, report_working; [done..|]. left. apply existsb_exists in Hlocal as (i & Hi & Hp). exists i.
    rewrite list_elem_of_In. by apply andb_true_iff in Hp as [->%negb_true_iff ->%negb_true_iff]. }
  destruct (provider_erased l) eqn:Hp; cbn [negb]; [|apply Hs, lifecycle_reports, report_working; auto].
  rewrite query_bind. split_if Hdl; [by apply Hs, lifecycle_reports, report_unprojected|].
  assert (forall i, i ∈ items_of (AccountLifecycle.id l) (wdb w) -> in_phases ["backup"] i = false -> item_is "completed" i = true) as Hdone.
  { intros i Hi Hph. apply (existsb_none _ _ i) in Hlocal; [|done]. cbv beta in Hlocal. rewrite Hph in Hlocal. by apply negb_false_iff. }
  destruct (projection_states _ _) as [|x xs] eqn:Hproj.
  2: { apply Hs, lifecycle_reports, report_working; [done..|]. right. right. congruence. }
  rewrite query_bind. split_if Hb; [by apply Hs, lifecycle_awaits|].
  apply orb_false_iff in Hb as [Hbi Hbo]. apply steps_finish; [done..|].
  split; [|exact Hp|exact Hproj|exact (existsb_all _ _ Hbo)].
  intros i Hi. apply (existsb_none _ _ i) in Hlocal, Hbi; [|done..].
  unfold item_is in *. destruct (in_phases ["backup"] i); cbn [negb andb] in Hlocal, Hbi; by bool_facts.
Qed.
Lemma steps_reconcile deletion_id now new_id w : steps (reconcile deletion_id now new_id) w.
Proof.
  apply steps_keys. intros Hk. apply runs_committed; [apply _|]. intros a w'.
  unfold session_get. rewrite !query_bind. destruct (tbl _ TAccountBackupAuthority !! _); [|by intros [= <- <-]].
  rewrite query_bind. destruct (tbl _ TAccountLifecycle !! _) as [l|] eqn:Hl; [|by intros [= <- <-]].
  pose proof (found_lifecycle _ _ _ Hk Hl) as <-.
  destruct (eqs (AccountLifecycle.state l) "confirmation_pending") eqn:Hp; [by intros [= <- <-]|].
  destruct (eqs (AccountLifecycle.state l) "fully_erased") eqn:He.
  - intros E. eapply steps_scrub; [done|by apply eqs_true|done].
  - apply steps_reconcile_open; [done|]. unfold running. by rewrite Hp, He.
Qed.
Lemma steps_reconcile_all now new_ids w : steps (_reconcile_all float_text unseal ex journal now new_ids) w.
Proof.
  unfold _reconcile_all. apply runs_query. generalize (map AccountLifecycle.id
    (select TAccountLifecycle (fun _ => true) (wdb w))) as ids. intros ids. revert new_ids w.
  induction ids as [|i ids IH]; intros new_ids w; cbn [reconcile_each]; [apply runs_ret, _|].
  apply runs_then; [apply _|apply steps_reconcile|]. intros [] w1. apply IH.
Qed.

(** *** Claims *)
Lemma scan_some d items item x : scan d items = Some (item, x) -> item ∈ items /\ decide_item d item = Some x.
Proof.
  induction items as [|i items IH]; cbn [scan]; [done|].
  destruct (decide_item d i) eqn:E; [intros [= <- <-]; split; [left|done]|].
  intros [H ?]%IH. split; [by right|done].
Qed.
Lemma decide_withhold d item hold : decide_item d item = Some (Withhold hold) ->
  in_phases ["unindex"] item = false /\ _active_hold d item = Some hold.
Proof.
  unfold decide_item. destruct (tbl _ _ !! _) as [l|]; [|done]. destruct (eqs _ _); [done|].
  destruct (in_phases ["unindex"] item); cbn [negb andb].
  - by destruct (_prerequisites_complete d item).
  - destruct (_active_hold d item); [by intros [= <-]|]. by repeat case_match.
Qed.
Lemma decide_policy d item : decide_item d item = Some WithholdPolicy ->
  in_phases ["unindex"] item = false /\ _active_policy_ancestor d item = true.
Proof.
  unfold decide_item. destruct (tbl _ _ !! _) as [l|]; [|done]. destruct (eqs _ _); [done|].
  destruct (in_phases ["unindex"] item); cbn [negb andb].
  - by destruct (_prerequisites_complete d item).
  - destruct (_active_hold d item); [done|]. destruct (_active_policy_ancestor d item); [done|]. by case_match.
Qed.
Lemma due_live now i : due now i = true -> item_is "queued" i || item_is "leased" i = true.
Proof.
  unfold due. destruct (item_is "queued" i); [done|]. cbn [andb orb]. by destruct (item_is "leased" i).
Qed.
Lemma candidate_stored locked now d item : protected_keys d -> item ∈ candidate_items locked now d ->
  tbl d TAccountErasureItem !! AccountErasureItem.id item = Some item /\ due now item = true.
Proof.
  intros Hk Hin. unfold candidate_items in Hin. apply elem_of_take in Hin as (k & Hin & _).
  apply list_elem_of_lookup_2 in Hin. rewrite sort_by_perm in Hin.
  apply selected_item in Hin as [Hi Hp]; [|done]. by apply andb_true_iff in Hp as [Hp _].
Qed.
Lemma steps_claim_transaction now dr w : steps (claim_transaction ex now dr) w.
Proof.
  apply steps_keys. intros Hk. apply runs_transaction; [apply _|]. apply runs_query. cbn [id].
  destruct (scan _ _) as [[item x]|] eqn:Hscan; [|apply runs_ret, _].
  apply scan_some in Hscan as [Hin Hd]. apply candidate_stored in Hin as [Hi Hdue]; [|done].
  pose proof (due_live _ _ Hdue) as Hlive.
  destruct x; (apply runs_then; [apply _| |intros; apply runs_ret, _]); eapply steps_item; try done.
  - apply decide_withhold in Hd as [Hu Ha]. by apply item_withheld.
  - apply decide_policy in Hd as [Hu Ha]. by apply item_policy_withheld.
  - by apply item_leased.
Qed.
Notation claim_one := (_claim_one float_text unseal ex journal).
Lemma steps_claim now dr w : steps (claim_one now dr) w.
Proof.
  unfold _claim_one. apply runs_then; [apply _|apply steps_claim_transaction|].
  intros [claim [deletion_id|]] w1; [|apply runs_ret, _].
  apply runs_then; [apply _|apply steps_reconcile|]. intros; apply runs_ret, _.
Qed.

(** *** Execution *)
Lemma quiet_on_db {A : Type} (m : act db A) : keeps (same_on kept) m -> keeps (on_wdb (same_on kept)) (on_db m).
Proof. apply keeps_on_db. Qed.
Lemma kept_aside_runs {A : Type} (m : act world A) :
  keeps (on_wdb (same_on kept)) m -> keeps (on_wdb aside) m.
Proof. intros H w r w' E. by eapply kept_aside, H. Qed.
Lemma quiet_reserve deletion_id t r now new_id :
  keeps (on_wdb aside) (_reserve_identifier casefold ex deletion_id t r now new_id).
Proof.
  unfold _reserve_identifier. destruct (reserved_name t r) as [[ns i]|]; [|apply keeps_ret, _].
  apply keeps_bind; [apply _|apply keeps_lift, _|intros digest].
  apply keeps_bind; [apply _|apply keeps_query, _|intros [x|]]; [apply keeps_ret, _|].
  apply keeps_on_db. intros d y d' [(-> & Hc & ->)|(-> & ->)]%session_add_spec; [|done]. split; [apply same_on_put; in_protected|].
  unfold can_insert in Hc. bool_facts. rewrite tbl_put_eq. by apply insert_subseteq.
Qed.
Lemma quiet_arm t r now clock : keeps (on_wdb (same_on kept)) (arm_if_document t r now clock).
Proof.
  destruct t; try (apply keeps_ret, _). cbn [arm_if_document]. unfold arm_projection, session_get.
  apply keeps_bind; [apply _|apply keeps_query, _|intros x].
  apply keeps_bind; [apply _| |intros _].
  - apply quiet_on_db. destruct x; [by apply quiet_save|by apply quiet_add].
  - apply keeps_bind; [apply _|apply quiet_on_db, keeps_fewer with untouched, quiet_remove_projection;
      exact untouched_kept|intros _].
    apply quiet_on_db, keeps_fewer with untouched, quiet_exact_remove. exact untouched_kept.
Qed.
Lemma quiet_remove_row deletion_id t i now dr : forallb unprotected (below 3 t) = true ->
  keeps (on_wdb aside) (remove_row casefold ex deletion_id t i now dr).
Proof.
  intros Ht. unfold remove_row, session_get. apply keeps_bind; [apply _|apply keeps_query, _|intros [r|]];
    [|apply keeps_ret, _].
  apply keeps_bind; [apply _|apply quiet_reserve|intros _].
  apply keeps_bind; [apply _|apply kept_aside_runs, quiet_arm|intros _]. by apply kept_aside_runs, quiet_on_db, quiet_delete_row.
Qed.
Lemma row_table_unprotected ty t : row_table ty = Some t -> forallb unprotected (below 3 t) = true.
Proof. unfold row_table. repeat case_match; intros [= <-]; reflexivity. Qed.
Lemma quiet_delete_row_item item now dr :
  keeps (on_wdb aside) (_delete_row casefold unseal ex item now dr).
Proof.
  unfold _delete_row, session_get. destruct (of_type _ _).
  - apply keeps_bind; [apply _|apply keeps_query, _|intros [l|]]; [|apply keeps_raise, _].
    apply keeps_bind; [apply _|apply keeps_lift, _|intros subject]. by apply quiet_remove_row.
  - destruct (row_table _) as [t|] eqn:Ht; [|apply keeps_raise, _].
    by eapply quiet_remove_row, row_table_unprotected.
Qed.
Lemma quiet_delete_file item now new_id :
  keeps (on_wdb aside) (_delete_file ex item now new_id).
Proof.
  unfold _delete_file. apply keeps_bind; [apply _|apply keeps_query, _|intros d].
  apply keeps_bind; [apply _|apply keeps_lift, _|intros [plan|]]; [|apply keeps_ret, _].
  destruct (negb _); [apply keeps_raise, _|].
  apply keeps_bind; [apply _|apply keeps_on_fs, _|intros _].
  apply keeps_bind; [apply _|apply keeps_gets, _|intros w1].
  apply keeps_bind; [apply _|apply keeps_lift, _|intros []]; [apply keeps_raise, _|].
  apply keeps_bind; [apply _|apply keeps_query, _|intros [x|]]; [apply keeps_ret, _|].
  by apply kept_aside_runs, quiet_on_db, quiet_add.
Qed.
Notation items w := (tbl (wdb w) TAccountErasureItem).
Notation execute := (_execute casefold unseal ex).
Lemma quiet_effect {A : Type} (m : act world A) w r w' : keeps (on_wdb aside) m -> m w = (r, w') ->
  erases (wdb w) (wdb w') /\ items w' = items w.
Proof. intros Hq E. split; [by eapply steps_other|]. apply (proj1 (Hq _ _ _ E)). in_protected. Qed.
Lemma verify_backup_ok item now w c w' : protected_keys (wdb w) -> _verify_backup item now w = (Ok c, w') ->
  erases (wdb w) (wdb w') /\ items w' = items w.
Proof.
  intros Hk. unfold _verify_backup, session_get. rewrite query_bind.
  destruct (tbl (wdb w) TAccountBackupManifest !! _) as [m|] eqn:Hm; [|done].
  assert (AccountBackupManifest.id m = AccountErasureItem.resource_id item) as Hid.
  { apply (Hk TAccountBackupManifest); [in_protected|done]. }
  rewrite <-Hid in Hm. rewrite query_bind. destruct (obligation_for item m (wdb w)) as [o|] eqn:Ho; [|done].
  unfold obligation_for in Ho. apply head_Some_elem_of in Ho.
  destruct (proj1 (elem_of_select TAccountBackupObligation _ _ _) Ho) as [[k Hin] Hp]. clear Ho.
  assert (AccountBackupObligation.id o = k) as <-.
  { apply (Hk TAccountBackupObligation); [in_protected|done]. }
  apply andb_true_iff in Hp as [_ Hp%bool_decide_eq_true].
  destruct (AccountBackupObligation.generation_created_at o) as [created|]; [|done].
  destruct (AccountBackupObligation.generation_expires_at o) as [expires|]; [|done].
  destruct (AccountBackupObligation.db_manifest_digest o) as [dg|]; [|done].
  destruct (AccountBackupObligation.markdown_manifest_digest o) as [md|]; [|done].
  destruct (negb _); [done|]. destruct (retirement m (utc expires) now) as [[[reason t] proof]|] eqn:Hret; [|done].
  intros Hrun. apply act_bind_ok in Hrun as (text & w1 & [= _ <-] & Hrun).
  apply act_bind_ok in Hrun as ([] & w1 & E%save_runs & [= _ <-]). rewrite E. split.
  - apply erases_step. intros _. apply (step_obligation ex (wdb w) m o _ (utc expires) now); [done..|]. by rewrite Hret.
  - by rewrite tbl_put_ne.
Qed.
Lemma execute_ok item now dr w c w' : protected_keys (wdb w) -> execute item now dr w = (Ok c, w') ->
  erases (wdb w) (wdb w') /\ items w' = items w.
Proof.
  intros Hk. unfold _execute. destruct (in_phases ["delete_file"] item).
  { apply quiet_effect. apply keeps_bind; [apply _|apply quiet_delete_file|intros; apply keeps_ret, _]. }
  destruct (of_type _ item && _).
  { unfold session_get. rewrite query_bind. destruct (tbl (wdb w) TAccountLifecycle !! _) as [l|] eqn:Hl; [|done].
    pose proof (found_lifecycle _ _ _ Hk Hl) as E. rewrite <-E in Hl.
    destruct (eqs (AccountLifecycle.provider_state l) "verified") eqn:Hv; cbn [negb]; [|done].
    intros Hrun. apply act_bind_ok in Hrun as ([] & w1 & Hs & [= _ <-]). split.
    - eapply steps_lifecycle; [exact Hl| |exact Hs]. apply lifecycle_sealed. by apply eqs_true.
    - apply save_runs in Hs. rewrite Hs. by rewrite tbl_put_ne. }
  destruct (in_phases ["delete_row"] item).
  { apply quiet_effect. apply keeps_bind; [apply _|apply quiet_delete_row_item|intros; apply keeps_ret, _]. }
  destruct (in_phases ["postcheck"] item).
  { apply quiet_effect. apply keeps_bind; [apply _| |intros; apply keeps_ret, _].
    unfold _postcheck. apply keeps_bind; [apply _|apply keeps_gets, _|intros; apply keeps_lift, _]. }
  destruct (in_phases ["backup"] item); [by apply verify_backup_ok|done].
Qed.

(** *** Processing *)
Notation process := (_process casefold float_text unseal ex journal).
Lemma hold_guard_ok w w' : hold_guard w = (Ok tt, w') -> w' = w.
Proof. unfold hold_guard, session_get. rewrite query_bind. destruct (tbl _ _ !! _); by intros [= <-]. Qed.
Lemma leased_stored claim d item : protected_keys d -> _leased_item claim d = Some item ->
  tbl d TAccountErasureItem !! AccountErasureItem.id item = Some item /\ item_is "leased" item = true.
Proof.
  intros Hk. unfold _leased_item, item_is. destruct (tbl d TAccountErasureItem !! _) as [i|] eqn:E; [|done].
  destruct (eqs _ _ && _) eqn:Hl; [|done]. intros [= <-]. apply andb_true_iff in Hl as [Hl _]. split; [|done].
  assert (AccountErasureItem.id i = k_id claim) as ->; [|done]. apply (Hk TAccountErasureItem); [in_protected|done].
Qed.
Lemma steps_free {A : Type} claim now (stopped : A) held k w :
  (forall item a w', protected_keys (wdb w) -> items w !! AccountErasureItem.id item = Some item ->
    item_is "leased" item = true -> k item w = (Ok a, w') -> erases (wdb w) (wdb w')) ->
  steps (on_free_item claim now stopped held k) w.
Proof.
  intros Hfree. apply steps_keys. intros Hk. apply runs_committed; [apply _|]. intros a w' Hrun.
  apply act_bind_ok in Hrun as ([] & w1 & ->%hold_guard_ok & Hrun). rewrite query_bind in Hrun.
  destruct (_leased_item claim (wdb w)) as [item|] eqn:Hl; [|by injection Hrun as _ <-].
  apply leased_stored in Hl as [Hi Hl]; [|done]. rewrite query_bind in Hrun. cbv beta in Hrun.
  destruct (in_phases ["unindex"] item) eqn:Hu; [by eapply Hfree|].
  destruct (_active_hold (wdb w) item) as [hold|] eqn:Hh; [|by eapply Hfree].
  apply act_bind_ok in Hrun as ([] & w2 & Hs & [= _ <-]). eapply steps_item; [done| |exact Hs].
  apply item_withheld; [by rewrite Hl, orb_true_r|done..].
Qed.
(** What an item's work leaves in place, and its completion. *)
Lemma steps_complete item code now w w1 w2 : items w !! AccountErasureItem.id item = Some item ->
  item_is "leased" item = true -> erases (wdb w) (wdb w1) /\ items w1 = items w ->
  save_item (mark_complete code now item) w1 = (Ok tt, w2) -> erases (wdb w) (wdb w2).
Proof.
  intros Hi Hl [Hs E] Hc. etransitivity; [exact Hs|]. eapply steps_item; [by rewrite E| |exact Hc].
  by apply item_completed.
Qed.
Lemma steps_process_transaction claim now dr w : steps (process_transaction casefold unseal ex claim now dr) w.
Proof.
  apply steps_free. intros item a w' Hk Hi Hl. unfold execute_item. rewrite query_bind. cbv beta.
  destruct (negb _ && _) eqn:Hb; intros Hrun.
  - apply andb_true_iff in Hb as [Hu%negb_true_iff Hp].
    apply act_bind_ok in Hrun as ([] & w1 & Hs & [= _ <-]). eapply steps_item; [done| |exact Hs].
    apply item_policy_withheld; [by rewrite Hl, orb_true_r|done..].
  - apply act_bind_ok in Hrun as (c & w1 & He & Hrun). apply act_bind_ok in Hrun as ([] & w2 & Hc & [= _ <-]).
    eapply steps_complete; [done..| |exact Hc]. by eapply execute_ok.
Qed.
Lemma answered_ok claim item o w w' : protected_keys (wdb w) -> items w !! AccountErasureItem.id item = Some item ->
  item_is "leased" item = true -> provider_answered claim o w = (Ok tt, w') ->
  erases (wdb w) (wdb w') /\ items w' = items w.
Proof.
  intros Hk Hi Hlease. assert (provider_failed claim o w = (Ok tt, w') -> False) as Hf.
  { unfold provider_failed. intros Hrun. by apply act_bind_ok in Hrun as (x & w1 & _ & Hrun). }
  assert ((if eqs (k_resource_type claim) "provider_user" then
        let! lifecycle := session_get TAccountLifecycle (k_deletion_id claim) in
        match lifecycle with
        | None => raise (failure "erasure_lifecycle_missing" false)
        | Some l => save_lifecycle (with_provider_state "verified" l)
        end
      else ret tt) w = (Ok tt, w') -> erases (wdb w) (wdb w') /\ items w' = items w) as Hv.
  { destruct (eqs _ _); [|by intros [= <-]]. unfold session_get. rewrite query_bind.
    destruct (tbl (wdb w) TAccountLifecycle !! _) as [l|] eqn:Hl; [|done].
    pose proof (found_lifecycle _ _ _ Hk Hl) as E. rewrite <-E in Hl. intros Hs. split.
    - eapply steps_lifecycle; [exact Hl|by eapply lifecycle_verified|exact Hs].
    - apply save_runs in Hs. by rewrite Hs, tbl_put_ne. }
  destruct o; [exact Hv|exact Hv|intros []%Hf..].
Qed.
Lemma steps_network_finish claim now code outcome w : steps (network_finish claim now code outcome) w.
Proof.
  apply steps_free. intros item a w' Hk Hi Hl Hrun. apply act_bind_ok in Hrun as ([] & w1 & He & Hrun).
  apply act_bind_ok in Hrun as ([] & w2 & Hc & [= _ <-]). eapply steps_complete; [done..| |exact Hc].
  destruct outcome as [o|]; [by eapply answered_ok|]. injection He as <-. split; [|done]. apply reflexivity.
Qed.
Lemma steps_network_prepare claim now w : steps (network_prepare unseal ex claim now) w.
Proof. apply steps_free. intros item a w' _ _ _ Hrun. by apply act_bind_ok in Hrun as (d & w1 & [= _ <-] & [= _ <-]). Qed.
Lemma steps_fail claim code retryable retry_at now dr w :
  steps (_fail float_text unseal ex journal claim code retryable retry_at now dr) w.
Proof.
  unfold _fail. apply runs_then; [apply _| |].
  - apply steps_keys. intros Hk. apply runs_transaction; [apply _|]. apply runs_query.
    destruct (_leased_item claim (wdb w)) as [item|] eqn:Hl; [|apply runs_ret, _].
    apply leased_stored in Hl as [Hi Hl]; [|done].
    pose proof (item_failed ex (wdb w) item code retryable retry_at now Hl) as Hs.
    destruct (failed_item _ _ _ _ _ _) as [i o]. apply runs_then; [apply _|by eapply steps_item|].
    intros; apply runs_ret, _.
  - intros [[deletion_id o]|] w1; [|apply runs_ret, _]. apply runs_then; [apply _|apply steps_reconcile|].
    intros; apply runs_ret, _.
Qed.
Lemma steps_reconcile_then {A : Type} deletion_id now new_id (a : A) w :
  steps (reconcile deletion_id now new_id ;;; ret a) w.
Proof. apply runs_then; [apply _|apply steps_reconcile|intros; apply runs_ret, _]. Qed.
Lemma steps_network claim now dr w : steps (network_action float_text unseal ex journal claim now dr) w.
Proof.
  unfold network_action. apply runs_then; [apply _|apply steps_network_prepare|]. intros step w1.
  assert (steps (let! (code, outcome) := lift (network_call dr step) in
                 let! result := network_finish claim now code outcome in
                 match result with
                 | NetStop => ret Retried
                 | NetHeld item => reconcile (AccountErasureItem.deletion_id item) now (d_ids dr 2%nat) ;;; ret Retried
                 | _ => reconcile (k_deletion_id claim) now (d_ids dr 2%nat) ;;; ret Completed
                 end) w1) as Hcall.
  { apply runs_lift; [apply _|]. intros [code outcome] _. apply runs_then; [apply _|apply steps_network_finish|].
    intros [| | | |] w2; first [apply runs_ret, _|apply steps_reconcile_then]. }
  destruct step; first [apply runs_ret, _|apply steps_reconcile_then|exact Hcall].
Qed.
Lemma steps_local claim now dr w : steps (process_local casefold float_text unseal ex journal claim now dr) w.
Proof.
  unfold process_local. apply runs_then; [apply _|apply steps_process_transaction|].
  intros [] w1; [apply steps_reconcile_then|apply runs_ret, _].
Qed.
Lemma steps_process claim now dr w : steps (process claim now dr) w.
Proof.
  unfold _process.
  assert (forall network e w1, steps (process_failed float_text unseal ex journal network claim now dr e) w1) as Hf.
  { intros network e w1. unfold process_failed, retry_as.
    destruct e; first [apply runs_raise, _|apply steps_fail]. }
  destruct (_ || _); (apply runs_catch; [apply _| |intros; apply Hf]); [apply steps_network|apply steps_local].
Qed.
Lemma steps_run_items now env n result w :
  steps (run_items casefold float_text unseal ex journal now env n result) w.
Proof.
  revert env result w. induction n as [|n IH]; intros env result w; cbn [run_items]; [apply runs_ret, _|].
  apply runs_then; [apply _|apply steps_claim|]. intros [[claim|] held] w1.
  - apply runs_then; [apply _|apply steps_process|]. intros o w2. apply IH.
  - destruct (held =? 0); [apply runs_ret, _|apply IH].
Qed.
(** Whatever a run of the executor draws and however it ends, the database goes
    through steps of the machine. *)
Lemma steps_run_once limit now env new_ids w :
  steps (run_once casefold float_text unseal ex journal limit now env new_ids) w.
Proof.
  unfold run_once. destruct (negb _); [apply runs_raise, _|]. destruct (_ || _); [apply runs_raise, _|].
  apply runs_then; [apply _|apply steps_requeue|]. intros [] w1.
  apply runs_then; [apply _|apply steps_run_items|]. intros result w2.
  apply runs_then; [apply _|apply steps_reconcile_all|]. intros; apply runs_ret, _.
Qed.
End executor.
