(* ===== verification/SearchIndex.v ===== *)
(** * The search index (the writer half of src/apps/api/app/services/search.py)

    [MeiliSearchProjection] talks HTTP to a Meilisearch server.  The server is the
    interface [SearchServer]; [SearchServerLaws] states what its documentation
    promises and the writers rely on. *)
From S2P Require Import Prelude PyTime Json Models Database World Frontmatter.
Local Open Scope Z_scope.

Lemma lift_result {S A : Type} (m : Res A) (s : S) r s' : lift m s = (r, s') -> m = r /\ s' = s.
Proof. by intros [= -> ->]. Qed.

(** ** Requests *)

(** The requests of the writers, on the configured index. *)
Inductive request : Type :=
| GetIndex
| DeleteIndex
| CreateIndex
| PatchSettings
| PutDocument (payload : list (str * pyval))
| DeleteDocument (document_id : str)
| GetDocument (document_id : str)
| GetTask (task : str).
(** [httpx.Response]: [body] is its JSON, [None] when it is not JSON. *)
Record Response : Type := MkResponse { status_code : Z; body : option pyval }.
Class SearchServer (S : Type) : Type := serve : request -> S -> option Response * S.

(** What a request writes at a document, if it concerns it: nothing, for a deletion. *)
Definition writes (r : request) (i : str) : option (option (list (str * pyval))) :=
  match r with
  | PutDocument payload =>
      match dict_get (u "id") payload with
      | Some (PStr j) => if bool_decide (j = i) then Some (Some payload) else None
      | _ => None
      end
  | DeleteDocument j => if bool_decide (j = i) then Some None else None
  | DeleteIndex => Some None
  | _ => None
  end.
Definition is_success (r : Response) : bool := (200 <=? status_code r) && (status_code r <=? 299).
Definition json_member (key : string) (v : option pyval) : option pyval :=
  match v with Some (PDict d) => dict_get (u key) d | _ => None end.
(** [f"{task_id}"] of an [int], which a [bool] is too. *)
Definition task_text (v : option pyval) : option str :=
  match v with
  | Some (PInt n) => Some (dec n)
  | Some (PBool b) => Some (u (if b then "True" else "False"))
  | _ => None
  end.

(** The client object: the server and the flag [_configured]. *)
Record Client (S : Type) : Type := MkClient { server : S; configured_once : bool }.
Arguments MkClient {S} _ _.
Arguments server {S} _.
Arguments configured_once {S} _.
(** [SearchDeleteAttestation] *)
Record Attestation : Type := MkDeleteAttestation { attests : bool; attested_state : str }.

Section client.
Context {S : Type} {Hserver : SearchServer S} (enabled : bool).
Notation client := (Client S).

Definition unavailable (message : str) : exn := SearchUnavailable message.
(** One request: no answer is an [HTTPError]. *)
Definition send (r : request) : act client Response := fun c =>
  match serve r (server c) with
  | (Some response, s) => (Ok response, MkClient s (configured_once c))
  | (None, s) => (Raise HTTPError, MkClient s (configured_once c))
  end.
Definition raise_for_status (r : Response) : Res unit := if is_success r then Ok tt else Raise HTTPError.
Definition json (r : Response) : Res pyval :=
  match body r with Some v => Ok v | None => Raise (ValueError (u "JSON")) end.
Definition set_configured (b : bool) : act client unit := modify (fun c => MkClient (server c) b).
(** [except httpx.HTTPError] *)
Definition except_http {A : Type} (message : string) (m : act client A) : act client A :=
  catch m (fun e => match e with HTTPError => raise (unavailable (u message)) | e => raise e end).

(** [_wait_for_task] *)
Definition task_of (operation : string) (submitted : Response) : Res str :=
  match body submitted with
  | None => Raise (unavailable (u "Meilisearch returned invalid " ++ u operation ++ u " task JSON"))
  | Some submission =>
      match task_text (json_member "taskUid" (Some submission)) with
      | Some task => Ok task
      | None => Raise (unavailable (u "Meilisearch did not confirm " ++ u operation ++ u " task creation"))
      end
  end.
Definition get_task (operation task : str) : act client pyval :=
  catch (let! r := send (GetTask task) in lift (raise_for_status r) ;;; lift (json r))
    (fun e => match e with
              | HTTPError | ValueError _ =>
                  raise (unavailable (u "Meilisearch returned an invalid " ++ operation ++ u " task response"))
              | e => raise e
              end).
(** [state in {...}]: a list or a dict is not hashable. *)
Definition state_in (state : option pyval) (l : list string) : Res bool :=
  match state with
  | Some (PList _ | PDict _) => Raise TypeError
  | Some (PStr s) => Ok (one_of s l)
  | _ => Ok false
  end.
Definition is_text (v : option pyval) (s : string) : bool :=
  match v with Some (PStr x) => eqs x s | _ => false end.
(** Whether the task has ended well; [false] when it is still waiting. *)
Definition task_finished (operation : str) (missing_index_ok : bool) (payload : pyval) : Res bool :=
  let state := json_member "status" (Some payload) in
  if is_text state "succeeded" then Ok true
  else if is_text state "failed" && missing_index_ok
          && is_text (json_member "code" (json_member "error" (Some payload))) "index_not_found" then Ok true
  else
    let? rejected := state_in state ["failed"; "canceled"] in
    if rejected then Raise (unavailable (u "Meilisearch rejected " ++ operation))
    else
      let? waiting := state_in state ["enqueued"; "processing"] in
      if waiting then Ok false
      else Raise (unavailable (u "Meilisearch returned an invalid " ++ operation ++ u " task state")).
Fixpoint poll (rounds : nat) (operation : str) (missing_index_ok : bool) (task : str) : act client unit :=
  match rounds with
  | O => raise (unavailable (u "Meilisearch " ++ operation ++ u " did not finish before timeout"))
  | Datatypes.S rounds =>
      let! payload := get_task operation task in
      let! finished := lift (task_finished operation missing_index_ok payload) in
      if finished then ret tt else poll rounds operation missing_index_ok task
  end.
Definition _wait_for_task (submitted : Response) (operation : string) (missing_index_ok : bool) : act client unit :=
  let! task := lift (task_of operation submitted) in
  poll 50 (u operation) missing_index_ok task.

(** [require_index] *)
Definition require_index : act client unit :=
  if negb enabled then raise (unavailable (u "Meilisearch is not configured"))
  else
    let! c := gets id in
    if configured_once c then ret tt
    else
      except_http "Meilisearch index is unavailable"
        (let! existing := send GetIndex in
         lift (raise_for_status existing) ;;;
         set_configured true).

(** [configure_index] *)
Definition configure_index : act client unit :=
  if negb enabled then raise (unavailable (u "Meilisearch is not configured"))
  else
    except_http "Meilisearch index setup is unavailable"
      (let! existing := send GetIndex in
       (if status_code existing =? 404 then
          let! created := send CreateIndex in
          lift (raise_for_status created) ;;;
          _wait_for_task created "index creation" false
        else lift (raise_for_status existing)) ;;;
       let! configured := send PatchSettings in
       lift (raise_for_status configured) ;;;
       _wait_for_task configured "index configuration" false ;;;
       set_configured true).

(** [reset_index] *)
Definition reset_index : act client unit :=
  if negb enabled then raise (unavailable (u "Meilisearch is not configured"))
  else
    set_configured false ;;;
    except_http "Meilisearch index reset is unavailable"
      (let! response := send DeleteIndex in
       if status_code response =? 404 then ret tt
       else
         lift (raise_for_status response) ;;;
         _wait_for_task response "index reset" true) ;;;
    configure_index.

(** [delete_document] *)
Definition delete_document (document_id : str) : act client Attestation :=
  if negb enabled then ret (MkDeleteAttestation false (u "unconfigured"))
  else
    except_http "Meilisearch document deletion is unavailable"
      (let! response := send (DeleteDocument document_id) in
       if status_code response =? 404 then
         set_configured false ;;; ret (MkDeleteAttestation true (u "absent"))
       else
         lift (raise_for_status response) ;;;
         _wait_for_task response "document deletion" false ;;;
         let! residual := send (GetDocument document_id) in
         if negb (status_code residual =? 404) then
           (if is_success residual then raise (unavailable (u "Meilisearch retained a deleted document"))
            else
              lift (raise_for_status residual) ;;;
              raise (unavailable (u "Meilisearch did not attest document absence")))
         else ret (MkDeleteAttestation true (u "deleted"))).

(** [index] *)
Definition index_payload (document : Document) (f : Frontmatter) (discovery : list (string * pyval)) (content : str) :
  list (str * pyval) :=
  let identifier := Document.public_identifier document in
  let profile := eqs (Document.kind document) "profile" in
  let html_url := u (if profile then "/p/" else "/r/") ++ identifier in
  let markdown_url := u (if profile then "/v1/profiles/" else "/v1/resumes/") ++ identifier ++ u ".md" in
  map (fun kv => (u kv.1, kv.2))
    ([("id", text (Document.id document)); ("kind", text (Document.kind document));
      ("visibility", text (Document.visibility document)); ("version", PInt (Document.current_version document));
      ("identifier", text identifier); ("name", text (fm_name f)); ("headline", text (fm_headline f));
      ("title", opt_text (fm_title f))]%string
     ++ discovery
     ++ [("updated_at", text (fm_updated_at f)); ("excerpt", text (take 240 (fm_headline f)));
         ("html_url", text html_url); ("content_untrusted", text content);
         ("markdown_url", text markdown_url)]%string).
Definition index {Hmarkdown : DocumentMarkdown} (document : Document) (markdown : str) : act client unit :=
  if negb (eqs (Document.visibility document) "public") then
    delete_document (Document.id document) ;;; ret tt
  else if negb enabled then raise (unavailable (u "Meilisearch is not configured; projection work is pending"))
  else
    require_index ;;;
    let! (f, content) := lift (validate_document (Document.kind document) markdown) in
    let! discovery := lift (_project_frontmatter f) in
    except_http "Meilisearch indexing failed; canonical document was saved"
      (let! response := send (PutDocument (index_payload document f discovery content)) in
       lift (raise_for_status response) ;;;
       _wait_for_task response "document indexing" false).
End client.

(** ** What a server promises

    [settled s i v]: document [i] of the index is [v] and no accepted write of it is
    still to be applied.  [latest s i task v]: the last accepted write of [i] is
    [task], and it writes [v].  A server applies the writes it has accepted in the
    order of their acceptance, and reports a task as succeeded after applying it; it
    answers that the index does not exist only when it holds no document and no
    accepted write is left to apply. *)
Class SearchServerLaws (S : Type) `{SearchServer S} : Type := {
  settled : S -> str -> option (list (str * pyval)) -> Prop;
  latest : S -> str -> str -> option (list (str * pyval)) -> Prop;
  settled_kept r s i v : writes r i = None -> settled s i v -> settled (serve r s).2 i v;
  latest_kept r s i task v : writes r i = None -> latest s i task v -> latest (serve r s).2 i task v;
  write_accepted r s i v response task : writes r i = Some v -> (serve r s).1 = Some response ->
    is_success response = true -> task_text (json_member "taskUid" (body response)) = Some task ->
    latest (serve r s).2 i task v;
  task_succeeded s i task v response : latest s i task v -> (serve (GetTask task) s).1 = Some response ->
    is_success response = true -> is_text (json_member "status" (body response)) "succeeded" = true ->
    settled (serve (GetTask task) s).2 i v;
  task_missed_index s i task v response : latest s i task v -> (serve (GetTask task) s).1 = Some response ->
    is_success response = true -> is_text (json_member "status" (body response)) "failed" = true ->
    is_text (json_member "code" (json_member "error" (body response))) "index_not_found" = true ->
    settled (serve (GetTask task) s).2 i None;
  missing_index r s i response : writes r i = Some None -> (serve r s).1 = Some response ->
    status_code response = 404 -> settled (serve r s).2 i None
}.

Section laws.
Context {S : Type} {Hserver : SearchServer S} {Hlaws : SearchServerLaws S} (enabled : bool).
Notation client := (Client S).

(** Document [i] is absent from the index, and of the accepted writes that are still
    to be applied none puts it there: the index was settled without [i], and no request
    since has put it. *)
Definition unput (i : str) (s s' : S) : Prop :=
  exists r, s' = (serve r s).2 /\ (writes r i = None \/ writes r i = Some None).
Definition cleared (s : S) (i : str) : Prop := exists s0, settled s0 i None /\ rtc (unput i) s0 s.
Lemma settled_cleared s i : settled s i None -> cleared s i.
Proof. intros H. exists s. split; [done|apply rtc_refl]. Qed.
Lemma cleared_kept r s i : writes r i = None \/ writes r i = Some None -> cleared s i -> cleared (serve r s).2 i.
Proof. intros Hr (s0 & H0 & H). exists s0. split; [done|]. eapply rtc_r; [exact H|]. by exists r. Qed.
(** Document [i] is as it was. *)
Definition same_at (s s' : S) (i : str) : Prop :=
  (forall v, settled s i v -> settled s' i v) /\ (cleared s i -> cleared s' i).
Lemma same_at_refl s i : same_at s s i.
Proof. by split. Qed.
Lemma same_at_trans s1 s2 s3 i : same_at s1 s2 i -> same_at s2 s3 i -> same_at s1 s3 i.
Proof. intros [H1 H2] [H3 H4]. split; auto. Qed.
Lemma served_same r s i : writes r i = None -> same_at s (serve r s).2 i.
Proof. intros Hr. split; [intros v; by apply settled_kept|apply cleared_kept; by left]. Qed.

(** A computation that writes no document but [i]. *)
Definition others_kept (i : str) (c c' : client) : Prop := forall j, j <> i -> same_at (server c) (server c') j.
#[export] Instance others_kept_preorder i : PreOrder (others_kept i).
Proof. split; [intros c j _; apply same_at_refl|]. intros a b c H1 H2 j Hj. eapply same_at_trans; [by apply H1|by apply H2]. Qed.
(** A computation that writes no document at all. *)
Definition none_written (c c' : client) : Prop :=
  (forall i, same_at (server c) (server c') i)
  /\ forall i task v, latest (server c) i task v -> latest (server c') i task v.
#[export] Instance none_written_preorder : PreOrder none_written.
Proof.
  split; [intros c; split; [intros i; apply same_at_refl|done]|].
  intros a b c [H1 H2] [H3 H4]. split; [intros i; by eapply same_at_trans|auto].
Qed.
(** A computation that puts document [i] nowhere. *)
Definition never_put (i : str) (c c' : client) : Prop := cleared (server c) i -> cleared (server c') i.
#[export] Instance never_put_preorder i : PreOrder (never_put i).
Proof. split; [intros c H; exact H|]. intros a b c H1 H2 H. apply H2, H1, H. Qed.

Lemma none_others i c c' : none_written c c' -> others_kept i c c'.
Proof. intros [H _] j _. apply H. Qed.
Lemma none_put i c c' : none_written c c' -> never_put i c c'.
Proof. intros [H _]. exact (proj2 (H i)). Qed.
Lemma keeps_none_others {A : Type} i (m : act client A) : keeps none_written m -> keeps (others_kept i) m.
Proof. intros Hm c r c' E. by eapply none_others, Hm. Qed.
Lemma send_none r : (forall i, writes r i = None) -> keeps none_written (send r : act client Response).
Proof.
  intros Hr c x c'. unfold send.
  pose proof (fun i => served_same r (server c) i (Hr i)) as Hs.
  pose proof (fun i t v => latest_kept r (server c) i t v (Hr i)) as Hl.
  destruct (serve r (server c)) as [[y|] s']; intros [= <- <-]; cbn in *; by split.
Qed.
Lemma send_one r i : (forall j, j <> i -> writes r j = None) -> keeps (others_kept i) (send r : act client Response).
Proof.
  intros Hr c x c'. unfold send.
  pose proof (fun j Hj => served_same r (server c) j (Hr j Hj)) as Hs.
  destruct (serve r (server c)) as [[y|] s']; intros [= <- <-] j Hj; cbn in *; by apply Hs.
Qed.
Lemma send_put r i : writes r i = Some None -> keeps (never_put i) (send r : act client Response).
Proof.
  intros Hr c x c'. unfold send, never_put. pose proof (cleared_kept r (server c) i (or_intror Hr)) as Hs.
  destruct (serve r (server c)) as [[y|] s']; intros [= <- <-]; exact Hs.
Qed.
Lemma set_configured_none b : keeps none_written (set_configured b : act client unit).
Proof. intros c x c' [= <- <-]. split; [intros i; apply same_at_refl|done]. Qed.
Lemma keeps_except {A : Type} (R : client -> client -> Prop) `{PreOrder _ R} message (m : act client A) :
  keeps R m -> keeps R (except_http message m).
Proof. intros Hm. apply keeps_catch; [apply _|done|]. intros []; apply keeps_raise, _. Qed.
Lemma get_task_none op task : keeps none_written (get_task op task : act client pyval).
Proof.
  apply keeps_catch; [apply _| |intros []; apply keeps_raise, _].
  apply keeps_bind; [apply _|by apply send_none|intros r].
  apply keeps_bind; [apply _|apply keeps_lift, _|intros _; apply keeps_lift, _].
Qed.
Lemma poll_none n op b task : keeps none_written (poll n op b task : act client unit).
Proof.
  induction n as [|n IH]; cbn [poll]; [apply keeps_raise, _|].
  apply keeps_bind; [apply _|apply get_task_none|intros p].
  apply keeps_bind; [apply _|apply keeps_lift, _|intros [|]; [apply keeps_ret, _|done]].
Qed.
Lemma wait_none r op b : keeps none_written (_wait_for_task r op b : act client unit).
Proof. apply keeps_bind; [apply _|apply keeps_lift, _|intros task; apply poll_none]. Qed.
Lemma require_none : keeps none_written (require_index enabled : act client unit).
Proof.
  unfold require_index. destruct (negb enabled); [apply keeps_raise, _|].
  apply keeps_bind; [apply _|apply keeps_gets, _|intros c]. destruct (configured_once c); [apply keeps_ret, _|].
  apply keeps_except; [apply _|]. apply keeps_bind; [apply _|by apply send_none|intros r].
  apply keeps_bind; [apply _|apply keeps_lift, _|intros _; apply set_configured_none].
Qed.

(** Waiting for a write that ends well settles it; with [missing_index_ok] it may
    end for want of an index. *)
Definition ended (missing_index_ok : bool) (s : S) (i : str) (v : option (list (str * pyval))) : Prop :=
  settled s i v \/ missing_index_ok = true /\ settled s i None.
Lemma got_task op task p c c' : get_task op task c = (Ok p, c' : client) ->
  exists r, serve (GetTask task) (server c) = (Some r, server c') /\ is_success r = true /\ body r = Some p.
Proof.
  unfold get_task, catch. destruct (act_bind (send (GetTask task)) _ c) as [[q|e] c3] eqn:Hq; [|by destruct e].
  intros [= -> ->]. apply act_bind_ok in Hq as (r & c4 & Hr & Hq).
  apply act_bind_ok in Hq as ([] & c5 & [Hs ->]%lift_result & Hq). apply lift_result in Hq as [Hq ->].
  unfold send in Hr. destruct (serve (GetTask task) (server c)) as [[y|] s'] eqn:Hserve; [|done].
  injection Hr as -> <-. exists r. split; [done|]. unfold raise_for_status in Hs.
  destruct (is_success r); [|done]. split; [done|]. unfold json in Hq. destruct (body r) as [b|]; [|done].
  by injection Hq as ->.
Qed.
Lemma task_ended op b task p i v c c' : latest (server c) i task v -> get_task op task c = (Ok p, c') ->
  task_finished op b p = Ok true -> ended b (server c') i v.
Proof.
  intros Hl (r & Hserve & Hok & Hb)%got_task Hf. change (server c') with (Some r, server c').2. rewrite <-Hserve.
  unfold task_finished in Hf. rewrite <-Hb in Hf. destruct (is_text (json_member "status" (body r)) "succeeded") eqn:E.
  - left. apply (task_succeeded _ i task v r Hl); [by rewrite Hserve|done..].
  - destruct (_ && _ && _) eqn:E2.
    + bool_facts. right. split; [done|]. by apply (task_missed_index _ i task v r Hl); [rewrite Hserve|..].
    + apply res_bind_ok in Hf as ([|] & _ & Hf); [done|]. by apply res_bind_ok in Hf as ([|] & _ & Hf).
Qed.
Lemma poll_settles n op b task i v c c' : latest (server c) i task v ->
  poll n op b task c = (Ok tt, c') -> ended b (server c') i v.
Proof.
  revert c. induction n as [|n IH]; intros c Hl; cbn [poll]; [done|].
  intros H. apply act_bind_ok in H as (p & c1 & Hp & H). apply act_bind_ok in H as (fin & c2 & [Hf ->]%lift_result & H).
  destruct fin; [injection H as <-; by eapply task_ended|].
  pose proof (get_task_none op task _ _ _ Hp) as [_ Hk]. by apply (IH c1); [apply Hk|].
Qed.
Lemma wait_settles r op b i v task c c' : task_text (json_member "taskUid" (body r)) = Some task ->
  latest (server c) i task v -> _wait_for_task r op b c = (Ok tt, c') -> ended b (server c') i v.
Proof.
  intros Ht Hl H. apply act_bind_ok in H as (task' & c1 & [Hd ->]%lift_result & H).
  unfold task_of in Hd. destruct (body r) as [v'|]; [|done]. rewrite Ht in Hd. injection Hd as <-.
  by eapply poll_settles.
Qed.
Lemma wait_task r op b c c' : _wait_for_task r op b c = (Ok tt, c' : client) ->
  exists task, task_text (json_member "taskUid" (body r)) = Some task.
Proof.
  intros H. apply act_bind_ok in H as (task & c1 & Hd & _). injection Hd as Hd _. unfold task_of in Hd.
  destruct (body r) as [v|]; [|done]. destruct (task_text _) as [t|]; [by exists t|done].
Qed.
(** A write, its acceptance and its completion. *)
Lemma write_ends r i v op b response c c1 c' : writes r i = Some v -> send r c = (Ok response, c1) ->
  is_success response = true -> _wait_for_task response op b c1 = (Ok tt, c') -> ended b (server c') i v.
Proof.
  intros Hr Hs Hok Hw. destruct (wait_task _ _ _ _ _ Hw) as [task Ht]. eapply wait_settles; [exact Ht| |exact Hw].
  unfold send in Hs. destruct (serve r (server c)) as [[y|] s'] eqn:Hserve; [|done]. injection Hs as -> <-.
  cbn [server]. change s' with (Some response, s').2. rewrite <-Hserve.
  apply (write_accepted r _ i v response task); [done|by rewrite Hserve|done|done].
Qed.
Lemma write_settles r i v op response c c1 c' : writes r i = Some v -> send r c = (Ok response, c1) ->
  is_success response = true -> _wait_for_task response op false c1 = (Ok tt, c') -> settled (server c') i v.
Proof. intros Hr Hs Hok Hw. by destruct (write_ends _ _ _ _ _ _ _ _ _ Hr Hs Hok Hw) as [H|[? _]]. Qed.
Lemma except_ok {A : Type} message (m : act client A) c a c' : except_http message m c = (Ok a, c') -> m c = (Ok a, c').
Proof. unfold except_http, catch. destruct (m c) as [[x|e] c1]; [done|]. by destruct e. Qed.
Lemma status_ok r (c c' : client) : lift (raise_for_status r) c = (Ok tt, c') -> is_success r = true /\ c' = c.
Proof. unfold lift, raise_for_status. destruct (is_success r); [|done]. by intros [= <-]. Qed.

Lemma delete_here i : writes (DeleteDocument i) i = Some None.
Proof. cbn. by rewrite bool_decide_eq_true_2. Qed.
Lemma delete_other i j : j <> i -> writes (DeleteDocument i) j = None.
Proof. intros H. cbn. by rewrite bool_decide_eq_false_2. Qed.
(** A deletion leaves the other documents alone and does not bring its own back, and
    what it attests holds. *)
Lemma delete_keeps (R : client -> client -> Prop) `{PreOrder _ R} i :
  keeps R (send (DeleteDocument i) : act client Response) -> (forall c c', none_written c c' -> R c c') ->
  keeps R (delete_document enabled i : act client Attestation).
Proof.
  intros Hsend HR. assert (forall A (m : act client A), keeps none_written m -> keeps R m) as Hn.
  { intros A m Hm c r c' E. by eapply HR, Hm. }
  unfold delete_document. destruct (negb enabled); [apply keeps_ret, _|]. apply keeps_except; [apply _|].
  apply keeps_bind; [apply _|exact Hsend|intros r]. destruct (_ =? 404).
  { apply keeps_bind; [apply _|apply Hn, set_configured_none|intros _; apply keeps_ret, _]. }
  apply keeps_bind; [apply _|apply keeps_lift, _|intros _].
  apply keeps_bind; [apply _|apply Hn, wait_none|intros _].
  apply keeps_bind; [apply _|apply Hn; by apply send_none|intros residual].
  destruct (negb _); [|apply keeps_ret, _]. destruct (is_success residual); [apply keeps_raise, _|].
  apply keeps_bind; [apply _|apply keeps_lift, _|intros _; apply keeps_raise, _].
Qed.
Lemma delete_others i : keeps (others_kept i) (delete_document enabled i : act client Attestation).
Proof. apply delete_keeps; [apply _|apply send_one, delete_other|apply none_others]. Qed.
Lemma delete_never_puts i : keeps (never_put i) (delete_document enabled i : act client Attestation).
Proof. apply delete_keeps; [apply _|apply send_put, delete_here|apply none_put]. Qed.
Lemma delete_attests i c a c' : delete_document enabled i c = (Ok a, c' : client) -> attests a = true ->
  settled (server c') i None.
Proof.
  unfold delete_document. destruct (negb enabled); [by intros [= <- <-]|]. intros H _. apply except_ok in H.
  apply act_bind_ok in H as (r & c1 & Hs & H). destruct (status_code r =? 404) eqn:E.
  - apply act_bind_ok in H as ([] & c2 & Hc & [= <- <-]). injection Hc as <-. cbn [server].
    unfold send in Hs. destruct (serve (DeleteDocument i) (server c)) as [[y|] s'] eqn:Hserve; [|done].
    injection Hs as -> <-. cbn [server]. change s' with (Some r, s').2. rewrite <-Hserve.
    apply (missing_index _ _ i r); [apply delete_here|by rewrite Hserve|lia].
  - apply act_bind_ok in H as ([] & c2 & Hok & H). apply status_ok in Hok as [Hok ->].
    apply act_bind_ok in H as ([] & c2 & Hw & H). apply act_bind_ok in H as (res & c3 & Hg & H).
    assert (settled (server c2) i None) as Hset by (eapply (write_settles (DeleteDocument i)); [apply delete_here|done..]).
    apply send_none in Hg as [Hk _]; [|done]. apply Hk in Hset.
    destruct (negb _); [|by injection H as <- <-]. destruct (is_success res); [done|].
    apply act_bind_ok in H as ([] & c4 & _ & H). done.
Qed.

(** Indexing likewise; the document is then as its Markdown says. *)
Lemma payload_id document f discovery content i :
  writes (PutDocument (index_payload document f discovery content)) i
  = if bool_decide (Document.id document = i) then Some (Some (index_payload document f discovery content)) else None.
Proof. unfold writes. unfold index_payload at 1. reflexivity. Qed.
Lemma payload_here document f discovery content :
  writes (PutDocument (index_payload document f discovery content)) (Document.id document)
  = Some (Some (index_payload document f discovery content)).
Proof. by rewrite payload_id, bool_decide_eq_true_2. Qed.
Lemma index_others {Hmarkdown : DocumentMarkdown} document markdown :
  keeps (others_kept (Document.id document)) (index enabled document markdown : act client unit).
Proof.
  unfold index. destruct (negb _).
  { apply keeps_bind; [apply _|apply delete_others|intros a; apply keeps_ret, _]. }
  destruct (negb enabled); [apply keeps_raise, _|].
  apply keeps_bind; [apply _|apply keeps_none_others, require_none|intros _].
  apply keeps_bind; [apply _|apply keeps_lift, _|intros [f content]].
  apply keeps_bind; [apply _|apply keeps_lift, _|intros discovery].
  apply keeps_except; [apply _|]. apply keeps_bind; [apply _|apply send_one|intros r];
    [intros j Hj; rewrite payload_id; by rewrite bool_decide_eq_false_2|].
  apply keeps_bind; [apply _|apply keeps_lift, _|intros _; apply keeps_none_others, wait_none].
Qed.
Lemma index_settles {Hmarkdown : DocumentMarkdown} document markdown c c' : Document.visibility document = u "public" ->
  index enabled document markdown c = (Ok tt, c' : client) ->
  exists f content discovery, validate_document (Document.kind document) markdown = Ok (f, content)
    /\ _project_frontmatter f = Ok discovery
    /\ settled (server c') (Document.id document) (Some (index_payload document f discovery content)).
Proof.
  intros Hv H. unfold index in H. rewrite Hv in H. change (negb (eqs (u "public") "public")) with false in H.
  destruct (negb enabled); [done|]. apply act_bind_ok in H as ([] & c1 & _ & H).
  apply act_bind_ok in H as ([f content] & c2 & Hf & H). injection Hf as Hf <-.
  apply act_bind_ok in H as (discovery & c2 & Hd & H). injection Hd as Hd <-.
  exists f, content, discovery. split_and!; [done|done|]. apply except_ok in H.
  apply act_bind_ok in H as (r & c3 & Hs & H). apply act_bind_ok in H as ([] & c4 & Hok & H).
  apply status_ok in Hok as [Hok ->]. by eapply write_settles; [apply payload_here|..].
Qed.

(** Resetting empties the index, and setting it up writes no document. *)
Lemma configure_none : keeps none_written (configure_index enabled : act client unit).
Proof.
  unfold configure_index. destruct (negb enabled); [apply keeps_raise, _|]. apply keeps_except; [apply _|].
  apply keeps_bind; [apply _|by apply send_none|intros existing].
  apply keeps_bind; [apply _| |intros _].
  - destruct (_ =? 404); [|apply keeps_lift, _]. apply keeps_bind; [apply _|by apply send_none|intros created].
    apply keeps_bind; [apply _|apply keeps_lift, _|intros _; apply wait_none].
  - apply keeps_bind; [apply _|by apply send_none|intros r].
    apply keeps_bind; [apply _|apply keeps_lift, _|intros _].
    apply keeps_bind; [apply _|apply wait_none|intros _; apply set_configured_none].
Qed.
Lemma reset_settles c c' : reset_index enabled c = (Ok tt, c' : client) -> forall i, settled (server c') i None.
Proof.
  unfold reset_index. destruct (negb enabled); [done|]. intros H i.
  apply act_bind_ok in H as ([] & c1 & _ & H). apply act_bind_ok in H as ([] & c2 & Hr%except_ok & Hc).
  apply configure_none in Hc as [Hc _]. apply Hc. clear Hc.
  apply act_bind_ok in Hr as (r & c3 & Hs & Hr). destruct (status_code r =? 404) eqn:E.
  - injection Hr as <-. unfold send in Hs. destruct (serve DeleteIndex (server c1)) as [[y|] s'] eqn:Hserve; [|done].
    injection Hs as -> <-. cbn [server]. change s' with (Some r, s').2. rewrite <-Hserve.
    apply (missing_index _ _ i r); [done|by rewrite Hserve|lia].
  - apply act_bind_ok in Hr as ([] & c4 & [Hok ->]%status_ok & Hw).
    destruct (write_ends DeleteIndex i None _ _ _ _ _ _ eq_refl Hs Hok Hw) as [H|[_ H]]; exact H.
Qed.
End laws.
