(* ===== verification/SearchProjection.v ===== *)
(** * Search projection (src/apps/api/app/services/search_projection.py)

    The worker that reconciles documents with the search index.  It leases one task
    at a time; the transaction that consumes a task writes the index first and commits
    after, under the advisory lock of the document, which the writers of documents and
    the deletion of their rows take too (the concealment of an account's documents does
    not: see [step_late] in SearchTruth).  Its state is the
    database, the file store and the client of the search server. *)
From S2P Require Import Prelude PyTime Json Models Database Storage World Frontmatter SearchIndex.
Local Open Scope Z_scope.

(** ** State *)
Record pstate (S : Type) : Type := MkPState { p_world : world; p_client : Client S }.
Arguments MkPState {S} _ _.
Arguments p_world {S} _.
Arguments p_client {S} _.
Definition on_world {S A : Type} (m : act world A) : act (pstate S) A := fun s =>
  let '(r, w) := m (p_world s) in (r, MkPState w (p_client s)).
Definition on_search {S A : Type} (m : act (Client S) A) : act (pstate S) A := fun s =>
  let '(r, c) := m (p_client s) in (r, MkPState (p_world s) c).
(** A session block: an exception undoes its writes to the database, and neither
    those to files nor those to the index. *)
Definition session_block {S A : Type} (m : act (pstate S) A) : act (pstate S) A := fun s =>
  match m s with
  | (Ok a, s') => (Ok a, s')
  | (Raise e, s') => (Raise e, MkPState (set_db (wdb (p_world s)) (p_world s')) (p_client s'))
  end.
Definition look {S A : Type} (q : db -> A) : act (pstate S) A := gets (fun s => q (wdb (p_world s))).

(** ** Data *)
Record ProjectionClaim : Type := MkProjectionClaim
  { c_document_id : str; c_version : Z; c_claim_token : str; c_attempts : Z }.
Record ProjectionResult : Type := MkProjectionResult
  { action : string; r_document_id : option str; r_version : option Z; r_attempts : option Z;
    r_error_code : option str }.
Record ProjectionHealth : Type := MkProjectionHealth
  { backlog_count : Z; eligible_count : Z; dead_letter_count : Z; oldest_backlog_age_seconds : Z }.
Record SearchProjectionExecutor : Type := MkProjectionExecutor
  { pj_store : VersionStore; pj_worker_id : str; pj_lease_seconds : Z; pj_max_attempts : Z;
    pj_max_backoff_seconds : Z }.
(** What a run draws: the rows other transactions lock, the claim token and the
    clock reading of [_fail]. *)
Record ProjectionDraws : Type := MkProjectionDraws { pd_locked : gset str; pd_token : str; pd_clock : datetime }.

(** ** Tasks *)
Definition task_is (state : string) (t : SearchProjectionTask) : bool := eqs (SearchProjectionTask.state t) state.
Definition task_due (now : datetime) (t : SearchProjectionTask) : bool :=
  task_is "pending" t && dt_leb (SearchProjectionTask.available_at t) now
  || task_is "leased" t
     && match SearchProjectionTask.lease_expires_at t with Some e => dt_leb e now | None => false end.
(** [document_id.asc(), version.asc()] *)
Definition key_before (a b : SearchProjectionTask) : bool :=
  str_ltb (SearchProjectionTask.document_id a) (SearchProjectionTask.document_id b)
  || bool_decide (SearchProjectionTask.document_id a = SearchProjectionTask.document_id b)
     && (SearchProjectionTask.version a <=? SearchProjectionTask.version b).
Definition projection_before (a b : SearchProjectionTask) : bool :=
  let earlier (f : SearchProjectionTask -> datetime) rest := dt_ltb (f a) (f b) || dt_eqb (f a) (f b) && rest in
  earlier SearchProjectionTask.available_at (earlier SearchProjectionTask.created_at (key_before a b)).
Definition next_projection (locked : gset str) (now : datetime) (d : db) : option SearchProjectionTask :=
  first_by projection_before (select TSearchProjectionTask
    (fun t => task_due now t && negb (bool_decide (row_id TSearchProjectionTask t ∈ locked))) d).
Definition released (t : SearchProjectionTask) : SearchProjectionTask :=
  t <| SearchProjectionTask.lease_expires_at := None |> <| SearchProjectionTask.claimed_by := None |>
    <| SearchProjectionTask.claim_token := None |>.

(** ** The executor *)
Section executor.
Context {S : Type} {Hserver : SearchServer S} {Hmarkdown : DocumentMarkdown}
  (enabled : bool) (ex : SearchProjectionExecutor).
Notation pact := (act (pstate S)).

Definition projection_leased (token : str) (now : datetime) (t : SearchProjectionTask) : SearchProjectionTask :=
  t <| SearchProjectionTask.state := u "leased" |>
    <| SearchProjectionTask.claimed_by := Some (pj_worker_id ex) |>
    <| SearchProjectionTask.claim_token := Some token |>
    <| SearchProjectionTask.lease_expires_at := Some (dt_add now (seconds (pj_lease_seconds ex))) |>
    <| SearchProjectionTask.attempts := SearchProjectionTask.attempts t + 1 |>
    <| SearchProjectionTask.updated_at := now |>.
Definition save_projection (t : SearchProjectionTask) : pact unit :=
  on_world (on_db (session_save TSearchProjectionTask t)).
Definition consume (t : SearchProjectionTask) : pact unit :=
  on_world (session_delete TSearchProjectionTask (row_id TSearchProjectionTask t)).
(** [_claim] *)
Definition claim_projection (now : datetime) (dr : ProjectionDraws) : pact (option ProjectionClaim) :=
  session_block
    (let! task := look (next_projection (pd_locked dr) now) in
     match task with
     | None => ret None
     | Some t =>
         save_projection (projection_leased (pd_token dr) now t) ;;;
         ret (Some (MkProjectionClaim (SearchProjectionTask.document_id t) (SearchProjectionTask.version t)
                      (pd_token dr) (SearchProjectionTask.attempts t + 1)))
     end).

(** [_leased_task] *)
Definition leased_projection (claim : ProjectionClaim) (d : db) : option SearchProjectionTask :=
  match tbl d TSearchProjectionTask !! pair_key (c_document_id claim) [c_version claim] with
  | Some t =>
      if task_is "leased" t && bool_decide (SearchProjectionTask.claimed_by t = Some (pj_worker_id ex))
         && bool_decide (SearchProjectionTask.claim_token t = Some (c_claim_token claim))
      then Some t else None
  | None => None
  end.
Definition result_of (claim : ProjectionClaim) (action : string) : ProjectionResult :=
  MkProjectionResult action (Some (c_document_id claim)) (Some (c_version claim)) (Some (c_attempts claim)) None.
Definition unconfigured : exn := ProjectionFailure (u "search_unconfigured") true.
(** The deletion of a document from the index, attested. *)
Definition attested_removal (document_id : str) : pact unit :=
  let! a := on_search (delete_document enabled document_id) in
  if negb (attests a) || negb (one_of (attested_state a) ["deleted"; "absent"]) then raise unconfigured else ret tt.
Definition current_version_row (document : Document) (d : db) : option DocumentVersion :=
  head (select TDocumentVersion (fun v =>
    bool_decide (DocumentVersion.document_id v = Document.id document)
    && (DocumentVersion.version v =? Document.current_version document)) d).
Definition publish (document : Document) : pact unit :=
  let! version := look (current_version_row document) in
  match version with
  | None => raise (ProjectionFailure (u "projection_version_missing") false)
  | Some v =>
      let! f := gets (fun s => wfs (p_world s)) in
      let! markdown := lift (read_verified (pj_store ex) (DocumentVersion.storage_path v) (DocumentVersion.sha256 v) f) in
      on_search (index enabled document markdown)
  end.
(** [_project] *)
Definition project (claim : ProjectionClaim) : pact ProjectionResult :=
  session_block
    (let! task := look (leased_projection claim) in
     match task with
     | None => ret (result_of claim "lost_lease")
     | Some t =>
         let! document := look (fun d => tbl d TDocument !! c_document_id claim) in
         match document with
         | None =>
             attested_removal (c_document_id claim) ;;; consume t ;;; ret (result_of claim "removed_missing")
         | Some document =>
             if negb (Document.current_version document =? c_version claim)
             then consume t ;;; ret (result_of claim "superseded")
             else if negb enabled then raise unconfigured
             else if eqs (Document.visibility document) "public"
             then publish document ;;; consume t ;;; ret (result_of claim "indexed")
             else attested_removal (Document.id document) ;;; consume t ;;; ret (result_of claim "removed")
         end
     end).

(** [_fail]: the task after a failed attempt. *)
Definition projection_backoff (attempts : Z) : Z := Z.min (2 ^ Z.min attempts 20) (pj_max_backoff_seconds ex).
Definition failed_task (code : str) (retryable : bool) (now : datetime) (t : SearchProjectionTask) :
  bool * SearchProjectionTask :=
  let dead_letter := negb retryable || (pj_max_attempts ex <=? SearchProjectionTask.attempts t) in
  (dead_letter,
   released t <| SearchProjectionTask.state := u (if dead_letter then "dead_letter" else "pending") |>
     <| SearchProjectionTask.available_at :=
          if dead_letter then now else dt_add now (seconds (projection_backoff (SearchProjectionTask.attempts t))) |>
     <| SearchProjectionTask.last_error_code := Some code |>
     <| SearchProjectionTask.dead_lettered_at := if dead_letter then Some now else None |>
     <| SearchProjectionTask.updated_at := now |>).
Definition fail_projection (claim : ProjectionClaim) (code : str) (retryable : bool) (now : datetime) :
  pact ProjectionResult :=
  session_block
    (let! task := look (leased_projection claim) in
     match task with
     | None => ret (result_of claim "lost_lease")
     | Some t =>
         let! document := look (fun d => tbl d TDocument !! c_document_id claim) in
         if match document with Some x => negb (Document.current_version x =? c_version claim) | None => false end
         then consume t ;;; ret (result_of claim "superseded")
         else
           let '(dead_letter, t') := failed_task code retryable now t in
           save_projection t' ;;;
           ret (MkProjectionResult (if dead_letter then "dead_lettered" else "retry_scheduled")%string
                  (Some (c_document_id claim)) (Some (c_version claim)) (Some (SearchProjectionTask.attempts t))
                  (Some code))
     end).
(** The [except] clauses of [run_once]. *)
Definition projection_failed (claim : ProjectionClaim) (now : datetime) (e : exn) : pact ProjectionResult :=
  match e with
  | Halted => raise Halted
  | ProjectionFailure code retryable =>
      fail_projection claim code retryable now
  | SearchUnavailable _ => fail_projection claim (u "search_unavailable") true now
  | StorageIntegrityError _ => fail_projection claim (u "storage_integrity") true now
  | OSError | FileExistsError | ValueError _ | MarkdownValidationError _ | UnicodeEncodeError =>
      fail_projection claim (u "projection_persistence") true now
  | _ => fail_projection claim (u "projection_failed") true now
  end.
(** [run_once] *)
Definition project_once (now : datetime) (dr : ProjectionDraws) : pact ProjectionResult :=
  let! claim := claim_projection now dr in
  match claim with
  | None => ret (MkProjectionResult "idle" None None None None)
  | Some claim => catch (project claim) (projection_failed claim (pd_clock dr))
  end.

(** [health_snapshot] *)
Definition in_backlog (t : SearchProjectionTask) : bool := task_is "pending" t || task_is "leased" t.
Definition count_tasks (p : SearchProjectionTask -> bool) (d : db) : Z := len (select TSearchProjectionTask p d).
Definition oldest_backlog (d : db) : option datetime :=
  first_by dt_leb (map SearchProjectionTask.created_at (select TSearchProjectionTask in_backlog d)).
Definition health_snapshot (now : datetime) : pact ProjectionHealth :=
  let! d := look id in
  let age := match oldest_backlog d with
             | None => 0
             | Some oldest => Z.max 0 (Z.quot (instant now - instant oldest) 1000000)
             end in
  ret (MkProjectionHealth (count_tasks in_backlog d) (count_tasks (task_due now) d)
         (count_tasks (task_is "dead_letter") d) age).
End executor.

(** ** Operator functions *)
Section operator.
Context {S : Type}.
Notation pact := (act (pstate S)).
(** A missing [dead_lettered_at] sorts last. *)
Definition dead_before (a b : SearchProjectionTask) : bool :=
  match SearchProjectionTask.dead_lettered_at a, SearchProjectionTask.dead_lettered_at b with
  | Some s, Some t => dt_ltb s t || dt_eqb s t && key_before a b
  | Some _, None => true
  | None, Some _ => false
  | None, None => key_before a b
  end.
Definition list_dead_letters (limit : nat) : pact (list SearchProjectionTask) :=
  look (fun d => take limit (sort_by dead_before (select TSearchProjectionTask (task_is "dead_letter") d))).
Definition count_dead_letters : pact Z := look (count_tasks (task_is "dead_letter")).
Definition revived (now : datetime) (t : SearchProjectionTask) : SearchProjectionTask :=
  released t <| SearchProjectionTask.state := u "pending" |> <| SearchProjectionTask.attempts := 0 |>
    <| SearchProjectionTask.available_at := now |> <| SearchProjectionTask.last_error_code := None |>
    <| SearchProjectionTask.dead_lettered_at := None |> <| SearchProjectionTask.updated_at := now |>.
Definition retry_dead_letter (document_id : str) (version : Z) (now : datetime) : pact bool :=
  session_block
    (let! task := look (fun d => tbl d TSearchProjectionTask !! pair_key document_id [version]) in
     match task with
     | Some t =>
         if task_is "dead_letter" t then
           save_projection (revived now t) ;;; ret true
         else ret false
     | None => ret false
     end).
End operator.

(** ** The rebuild (src/apps/api/app/cli.py) *)
Section rebuild.
Context {S : Type} {Hserver : SearchServer S} {Hmarkdown : DocumentMarkdown} (enabled : bool) (store : VersionStore).
Notation pact := (act (pstate S)).
(** Indexing the public documents, in the order the query gives them; the value is
    their number. *)
Fixpoint rebuild_documents (documents : list Document) (count : Z) : pact Z :=
  match documents with
  | [] => ret count
  | document :: documents =>
      if negb (eqs (Document.visibility document) "public") then rebuild_documents documents count
      else
        let! version := look (current_version_row document) in
        match version with
        | None => raise RuntimeError
        | Some v =>
            let! f := gets (fun s => wfs (p_world s)) in
            let! markdown := lift (read_verified store (DocumentVersion.storage_path v) (DocumentVersion.sha256 v) f) in
            on_search (index enabled document markdown) ;;;
            rebuild_documents documents (count + 1)
        end
  end.
Definition unavailable_as {A : Type} (a : A) (e : exn) : pact A :=
  match e with SearchUnavailable _ => ret a | e => raise e end.
(** [rebuild_search] after its gate: the exit status. *)
Definition rebuild_search : pact Z :=
  if negb enabled then ret 2
  else
    let! reset := catch (on_search (reset_index enabled) ;;; ret true) (unavailable_as false) in
    if negb reset then ret 1
    else
      catch (session_block
        (let! documents := look (select TDocument (fun _ => true)) in
         rebuild_documents documents 0 ;;;
         on_world (write_db (delete_where TSearchProjectionTask (fun _ => true))) ;;;
         ret 0)) (unavailable_as 1).
End rebuild.

(** ** The queue as the writers of documents see it (src/apps/api/app/services/documents.py) *)

(** [create] and [update] queue the version they write; [update] first drops the
    dead letters of the versions before it. *)
Definition queue_projection (document_id : str) (version : Z) (now : datetime) : act db unit :=
  session_add TSearchProjectionTask
    (SearchProjectionTask.Mk document_id version (u "pending") 0 now None None None None None now now).
Definition retire_dead_letters (document_id : str) (version : Z) : act db unit :=
  modify (delete_where TSearchProjectionTask (fun t =>
    bool_decide (SearchProjectionTask.document_id t = document_id)
    && (SearchProjectionTask.version t <? version) && task_is "dead_letter" t)).
