(* ===== verification/SearchProjectionSafety.v ===== *)
(** * The search index never tells what the documents do not

    The index is truthful: a document that no task awaits is either absent from it
    or public and shown in its current version, unless the deletion of an account
    planned its removal from the index.  The projection worker, its
    operator, the writers of documents and the erasure executor all keep it so,
    whatever the search server answers or loses. *)
From S2P Require Import Prelude PyTime Json Models Database ForeignKeys HoldLineage Sha256 JsonText Lifecycle.
From S2P Require Import Disk Storage World BackupAuthorityFacts Projections AccountErasure AccountErasureSteps.
From S2P Require Import Frontmatter SearchIndex SearchProjection.
Local Open Scope Z_scope.

(** ** Keys *)
Record projection_keys (d : db) : Prop := {
  documents_keyed : forall k x, tbl d TDocument !! k = Some x -> Document.id x = k;
  tasks_keyed : forall k t, tbl d TSearchProjectionTask !! k = Some t -> row_id TSearchProjectionTask t = k
}.
Lemma pair_key_inj a b x y : pair_key a [x] = pair_key b [y] -> a = b /\ x = y.
Proof. unfold pair_key. intros [H1 H2]%app_inj_2; [|done]. by injection H2 as ->. Qed.
Notation task_key i v := (pair_key i [v]).

(** ** Truth *)
(** Some task concerns document [i]. *)
Definition awaited (i : str) (d : db) : Prop :=
  exists k t, tbl d TSearchProjectionTask !! k = Some t /\ SearchProjectionTask.document_id t = i.
Definition has_task (i : str) (v : Z) (d : db) : Prop := is_Some (tbl d TSearchProjectionTask !! task_key i v).

(** The deletion of an account planned the removal of [i] from the index: it conceals
    the document without leaving a task. *)
Definition unindexing (d : db) (i : str) : Prop :=
  exists k item, tbl d TAccountErasureItem !! k = Some item
    /\ AccountErasureItem.phase item = u "unindex" /\ AccountErasureItem.resource_id item = i.
Lemma same_unindexing d d' i : tbl d' TAccountErasureItem = tbl d TAccountErasureItem -> unindexing d i -> unindexing d' i.
Proof. unfold unindexing. by intros ->. Qed.

Section truth.
Context {S : Type} {Hserver : SearchServer S} {Hlaws : SearchServerLaws S}.

(** The index shows [document] as it is. *)
Definition shown (document : Document) (s : S) : Prop :=
  Document.visibility document = u "public"
  /\ exists f content discovery,
       settled s (Document.id document) (Some (index_payload document f discovery content)).
Definition told (d : db) (s : S) (i : str) (document : option (row TDocument)) : Prop :=
  match document with
  | None => awaited i d \/ cleared s i
  | Some document =>
      has_task i (Document.current_version document) d \/ settled s i None \/ shown document s \/ unindexing d i
  end.
Record truthful (d : db) (s : S) : Prop := {
  truthful_keys : projection_keys d;
  truthful_all : forall i, told d s i (tbl d TDocument !! i)
}.

(** The tasks of [d], on the same documents, are all in [d']. *)
Definition tasks_stay (d d' : db) : Prop :=
  forall k t, tbl d TSearchProjectionTask !! k = Some t ->
  exists t', tbl d' TSearchProjectionTask !! k = Some t'
    /\ SearchProjectionTask.document_id t' = SearchProjectionTask.document_id t.
#[export] Instance tasks_stay_preorder : PreOrder tasks_stay.
Proof.
  split; [intros d k t H; by exists t|]. intros a b c H1 H2 k t H.
  destruct (H1 _ _ H) as (t1 & E1 & <-). by apply H2.
Qed.
Lemma stay_awaited i d d' : tasks_stay d d' -> awaited i d -> awaited i d'.
Proof. intros H (k & t & Hk & <-). destruct (H _ _ Hk) as (t' & Hk' & E). by exists k, t'. Qed.
Lemma stay_has i v d d' : tasks_stay d d' -> has_task i v d -> has_task i v d'.
Proof. intros H [t Ht]. destruct (H _ _ Ht) as (t' & Hk' & _). by exists t'. Qed.
(** The index changes only at documents whose removal is planned, and puts none back. *)
Definition only_unindexed (d : db) (s s' : S) : Prop :=
  forall i, same_at s s' i \/ unindexing d i /\ (cleared s i -> cleared s' i).
Lemma only_unindexed_refl d s : only_unindexed d s s.
Proof. intros i. left. apply same_at_refl. Qed.
Lemma shown_same document s s' : same_at s s' (Document.id document) -> shown document s -> shown document s'.
Proof. intros [H _] (Hv & f & content & disc & Hs). split; [done|]. exists f, content, disc. by apply H. Qed.
(** Documents that stay as they are, or go with a task left behind. *)
Definition documents_armed (d d' : db) : Prop :=
  forall i, tbl d' TDocument !! i = tbl d TDocument !! i \/ tbl d' TDocument !! i = None /\ awaited i d'.
Lemma truthful_armed d d' s s' : projection_keys d' -> tasks_stay d d' -> documents_armed d d' ->
  (forall i, unindexing d i -> unindexing d' i) -> only_unindexed d s s' -> truthful d s -> truthful d' s'.
Proof.
  intros Hk Ht Hd Hu Hs [K T]. split; [done|]. intros i. specialize (T i).
  destruct (Hd i) as [->|[-> Ha]]; [|by left].
  destruct (tbl d TDocument !! i) as [x|] eqn:Hx; cbn [told] in *.
  - destruct T as [T|T]; [left; by eapply stay_has|]. right.
    destruct (Hs i) as [Hsame|[Hi _]]; [|do 2 right; by apply Hu].
    destruct T as [T|[T|T]]; [left; by apply Hsame| |do 2 right; by apply Hu].
    right. left. rewrite <-(documents_keyed _ K _ _ Hx) in Hsame. by eapply shown_same.
  - destruct T as [T|T]; [left; by eapply stay_awaited|right].
    destruct (Hs i) as [[_ H]|[_ H]]; by apply H.
Qed.
End truth.

(** ** The worker *)
Section worker.
Context {S : Type} {Hserver : SearchServer S} {Hlaws : SearchServerLaws S} {Hmarkdown : DocumentMarkdown}
  (enabled : bool) (ex : SearchProjectionExecutor).
Notation tasks d := (tbl d TSearchProjectionTask).
Notation "'db_of' s" := (wdb (p_world s)) (at level 10).
Notation "'index_of' s" := (server (p_client s)) (at level 10).
Definition truth (s : pstate S) : Prop := truthful (db_of s) (index_of s).

(** *** Tasks that are saved or consumed *)
Lemma saved_keys t d : projection_keys d -> projection_keys (put TSearchProjectionTask (row_id TSearchProjectionTask t) t d).
Proof.
  intros [K1 K2]. split.
  - intros k x. rewrite tbl_put_ne by done. apply K1.
  - intros k x. rewrite tbl_put_eq. intros [[<- <-]|[_ H]]%lookup_insert_Some; [done|by apply K2].
Qed.
Lemma saved_stay t d : projection_keys d -> tasks_stay d (put TSearchProjectionTask (row_id TSearchProjectionTask t) t d).
Proof.
  intros [_ K] k x Hx. rewrite tbl_put_eq. destruct (decide (row_id TSearchProjectionTask t = k)) as [E|Hne].
  - exists t. rewrite E, lookup_insert_eq. split; [done|]. specialize (K _ _ Hx). rewrite <-E in K.
    apply pair_key_inj in K as [K _]. symmetry. exact K.
  - exists x. by rewrite lookup_insert_ne.
Qed.
Lemma saved_truthful t d s : truthful d s -> truthful (put TSearchProjectionTask (row_id TSearchProjectionTask t) t d) s.
Proof.
  intros H. pose proof (truthful_keys _ _ H) as K. eapply truthful_armed; [by apply saved_keys|by apply saved_stay| | | |done].
  - intros i. left. by rewrite tbl_put_ne.
  - intros i. apply same_unindexing. by apply tbl_put_ne.
  - apply only_unindexed_refl.
Qed.
Lemma consumed_keys k d : projection_keys d -> projection_keys (del TSearchProjectionTask k d).
Proof.
  intros [K1 K2]. split; intros j x.
  - rewrite tbl_del_ne by done. apply K1.
  - rewrite tbl_del_eq. intros [_ H]%lookup_delete_Some. by apply K2.
Qed.
Lemma told_same d d' s s' i document : same_at s s' i -> (forall x, document = Some x -> Document.id x = i) ->
  (awaited i d -> awaited i d') -> (forall v, has_task i v d -> has_task i v d') -> (unindexing d i -> unindexing d' i) ->
  told d s i document -> told d' s' i document.
Proof.
  intros Hs Hid Ha Ht Hu. destruct document as [x|]; cbn [told].
  - intros [T|[T|[T|T]]]; [left; auto|right; left; by apply Hs| |do 3 right; auto].
    right. right. left. eapply shown_same; [|exact T]. by rewrite (Hid x).
  - intros [T|T]; [left; auto|right; by apply Hs].
Qed.
Lemma consumed_truthful d s s' i v : truthful d s -> (forall j, j <> i -> same_at s s' j) ->
  told (del TSearchProjectionTask (task_key i v) d) s' i (tbl d TDocument !! i) ->
  truthful (del TSearchProjectionTask (task_key i v) d) s'.
Proof.
  intros [K T] Hs Hi. split; [by apply consumed_keys|]. intros j. rewrite tbl_del_ne by done.
  destruct (decide (j = i)) as [->|Hj]; [done|].
  assert (forall w, task_key j w <> task_key i v) as Hk by (intros w [E _]%pair_key_inj; done).
  apply (told_same d _ s); [by apply Hs|intros x Hx; by apply (documents_keyed _ K)| | | |done].
  - intros (k & t & Ht & <-). exists k, t. split; [|done].
    rewrite tbl_del_eq, lookup_delete_ne; [done|]. intros E.
    pose proof (tasks_keyed _ K _ _ Ht) as Hr. rewrite <-E in Hr. by apply Hk in Hr.
  - intros w [t Ht]. exists t. rewrite tbl_del_eq, lookup_delete_ne; [done|]. by intros E%symmetry%Hk.
  - apply same_unindexing. by apply tbl_del_ne.
Qed.
(** A superseded task tells nothing. *)
Lemma superseded_truthful d s i v (x : row TDocument) : truthful d s -> tbl d TDocument !! i = Some x ->
  Document.current_version x <> v -> truthful (del TSearchProjectionTask (task_key i v) d) s.
Proof.
  intros H Hx Hv. apply consumed_truthful with s; [done|intros j _; apply same_at_refl|]. pose proof (truthful_all _ _ H i) as T.
  rewrite Hx in *. cbn [told] in *. destruct T as [[t Ht]|T]; [left|by right]. exists t.
  rewrite tbl_del_eq, lookup_delete_ne; [done|]. by intros [_ E]%pair_key_inj.
Qed.
Lemma failed_search_truthful d s s' i : truthful d s -> (forall j, j <> i -> same_at s s' j) ->
  (match tbl d TDocument !! i with None => awaited i d | Some x => has_task i (Document.current_version x) d end : Prop) ->
  truthful d s'.
Proof.
  intros [K T] Hs Hi. split; [done|]. intros j. destruct (decide (j = i)) as [->|Hj].
  - destruct (tbl d TDocument !! i); cbn [told]; by left.
  - apply (told_same d _ s); [by apply Hs|intros x Hx; by apply (documents_keyed _ K)|done..|apply T].
Qed.

(** *** The index under the worker *)

(** Only document [i] of the index may change. *)
Definition index_kept (i : str) (s s' : pstate S) : Prop :=
  forall j, j <> i -> same_at (index_of s) (index_of s') j.
Local Instance index_kept_preorder i : PreOrder (index_kept i).
Proof. split; [intros s j _; apply same_at_refl|]. intros a b c H1 H2 j Hj. eapply same_at_trans; [by apply H1|by apply H2]. Qed.
Lemma kept_world {A : Type} i (m : act world A) : keeps (index_kept i) (on_world m : act (pstate S) A).
Proof. intros s r s'. unfold on_world. destruct (m (p_world s)). intros [= <- <-] j _. apply same_at_refl. Qed.
Lemma kept_search {A : Type} i (m : act (Client S) A) : keeps (others_kept i) m -> keeps (index_kept i) (on_search m).
Proof. intros Hm s r s'. unfold on_search. destruct (m (p_client s)) eqn:E. intros [= <- <-]. exact (Hm _ _ _ E). Qed.
Lemma kept_look {A : Type} i (q : db -> A) : keeps (index_kept i) (look q : act (pstate S) A).
Proof. apply keeps_gets, _. Qed.
Lemma kept_block {A : Type} i (m : act (pstate S) A) : keeps (index_kept i) m -> keeps (index_kept i) (session_block m).
Proof.
  intros Hm s r s'. unfold session_block. destruct (m s) as [[a|e] s1] eqn:E; intros [= <- <-]; exact (Hm _ _ _ E).
Qed.
Notation same_world := (fun s s' : pstate S => p_world s' = p_world s).
Lemma search_world {A : Type} (m : act (Client S) A) : keeps same_world (on_search m : act (pstate S) A).
Proof. intros s r s'. unfold on_search. destruct (m (p_client s)). by intros [= <- <-]. Qed.
Lemma removal_kept i : keeps (index_kept i) (attested_removal enabled i : act (pstate S) unit).
Proof.
  apply keeps_bind; [apply _|apply kept_search, delete_others|intros a].
  destruct (_ || _); [apply keeps_raise, _|apply keeps_ret, _].
Qed.
Lemma removal_ok i s s' : attested_removal enabled i s = (Ok tt, s') ->
  p_world s' = p_world s /\ settled (index_of s') i None.
Proof.
  intros H. apply act_bind_ok in H as (a & s1 & Hd & H). apply search_world in Hd as E.
  destruct (_ || _) eqn:Ha; [done|]. injection H as <-. split; [done|]. bool_facts.
  unfold on_search in Hd. destruct (delete_document enabled i (p_client s)) as [r c] eqn:Hc. injection Hd as -> <-.
  by eapply delete_attests.
Qed.
Lemma publish_kept x : keeps (index_kept (Document.id x)) (publish enabled ex x : act (pstate S) unit).
Proof.
  apply keeps_bind; [apply _|apply kept_look|intros [v|]]; [|apply keeps_raise, _].
  apply keeps_bind; [apply _|apply keeps_gets, _|intros f].
  apply keeps_bind; [apply _|apply keeps_lift, _|intros markdown]. apply kept_search, index_others.
Qed.
(** What indexing a public document reads and writes. *)
Record published (x : Document) (s : pstate S) (s' : S) : Prop := {
  published_markdown : exists v markdown f content discovery,
    current_version_row x (db_of s) = Some v
    /\ read_verified (pj_store ex) (DocumentVersion.storage_path v) (DocumentVersion.sha256 v) (wfs (p_world s)) = Ok markdown
    /\ validate_document (Document.kind x) markdown = Ok (f, content)
    /\ _project_frontmatter f = Ok discovery
    /\ settled s' (Document.id x) (Some (index_payload x f discovery content))
}.
Lemma publish_ok x s s' : Document.visibility x = u "public" -> publish enabled ex x s = (Ok tt, s') ->
  p_world s' = p_world s /\ published x s (index_of s').
Proof.
  intros Hv H. apply act_bind_ok in H as (v & s1 & [= Hr <-] & H). destruct v as [v|]; [|done].
  apply act_bind_ok in H as (f & s1 & [= <- <-] & H). apply act_bind_ok in H as (markdown & s2 & [Hm ->]%lift_result & H).
  apply search_world in H as E. split; [done|]. split. unfold on_search in H.
  destruct (index enabled x markdown (p_client s)) as [r c] eqn:Hi. injection H as -> <-.
  apply index_settles in Hi as (f & content & discovery & Hf & Hd & Hs); [|done].
  by exists v, markdown, f, content, discovery.
Qed.
Lemma leased_task claim d t : projection_keys d -> leased_projection ex claim d = Some t ->
  tasks d !! task_key (c_document_id claim) (c_version claim) = Some t
  /\ row_id TSearchProjectionTask t = task_key (c_document_id claim) (c_version claim)
  /\ SearchProjectionTask.document_id t = c_document_id claim.
Proof.
  intros K. unfold leased_projection. destruct (tasks d !! _) as [y|] eqn:E; [|done].
  destruct (_ && _); [|done]. intros [= <-]. pose proof (tasks_keyed _ K _ _ E) as Hr. split_and!; [done..|].
  apply pair_key_inj in Hr. apply Hr.
Qed.

(** *** What a projection did *)
Notation consumed claim d := (del TSearchProjectionTask (task_key (c_document_id claim) (c_version claim)) d).
Inductive projected (claim : ProjectionClaim) (s s' : pstate S) : string -> Prop :=
| projected_lost : leased_projection ex claim (db_of s) = None -> s' = s -> projected claim s s' "lost_lease"
| projected_missing : tbl (db_of s) TDocument !! c_document_id claim = None ->
    settled (index_of s') (c_document_id claim) None ->
    p_world s' = set_db (consumed claim (db_of s)) (p_world s) -> projected claim s s' "removed_missing"
| projected_superseded (x : row TDocument) : tbl (db_of s) TDocument !! c_document_id claim = Some x ->
    Document.current_version x <> c_version claim ->
    s' = MkPState (set_db (consumed claim (db_of s)) (p_world s)) (p_client s) -> projected claim s s' "superseded"
| projected_removed (x : row TDocument) : tbl (db_of s) TDocument !! c_document_id claim = Some x ->
    Document.current_version x = c_version claim -> Document.visibility x <> u "public" ->
    settled (index_of s') (c_document_id claim) None ->
    p_world s' = set_db (consumed claim (db_of s)) (p_world s) -> projected claim s s' "removed"
| projected_indexed (x : row TDocument) : tbl (db_of s) TDocument !! c_document_id claim = Some x ->
    Document.current_version x = c_version claim -> Document.visibility x = u "public" ->
    published x s (index_of s') ->
    p_world s' = set_db (consumed claim (db_of s)) (p_world s) -> projected claim s s' "indexed".
Lemma block_ok {A : Type} (m : act (pstate S) A) s a s' : session_block m s = (Ok a, s') -> m s = (Ok a, s').
Proof. unfold session_block. by destruct (m s) as [[]]. Qed.
Lemma consume_ok (t : SearchProjectionTask) k (s s' : pstate S) : row_id TSearchProjectionTask t = k ->
  consume t s = (Ok tt, s') -> s' = MkPState (set_db (del TSearchProjectionTask k (db_of s)) (p_world s)) (p_client s).
Proof. intros <- H. by injection H as <-. Qed.
Lemma project_cases claim s r s' : projection_keys (db_of s) -> project enabled ex claim s = (Ok r, s') ->
  exists a, r = result_of claim a /\ projected claim s s' a.
Proof.
  intros K H. apply block_ok in H. apply act_bind_ok in H as (t & s1 & [= Ht <-] & H).
  destruct t as [t|]; [|injection H as <- <-; eexists; split; [done|by apply projected_lost]].
  pose proof (leased_task _ _ _ K Ht) as (_ & Hr & _).
  apply act_bind_ok in H as (x & s1 & [= Hx <-] & H). destruct x as [x|].
  - destruct (negb _) eqn:Hv.
    { apply act_bind_ok in H as ([] & s1 & Hc & [= <- <-]). apply (consume_ok _ _ _ _ Hr) in Hc. bool_facts.
      eexists. split; [done|]. by eapply projected_superseded. }
    bool_facts. destruct (negb enabled); [done|]. pose proof (documents_keyed _ K _ _ Hx) as Hid.
    destruct (eqs _ _) eqn:Hp; apply act_bind_ok in H as ([] & s1 & Hs & H);
      apply act_bind_ok in H as ([] & s2 & Hc & [= <- <-]); apply (consume_ok _ _ _ _ Hr) in Hc as ->.
    + apply eqs_true in Hp. apply publish_ok in Hs as [E Hs]; [|done]. eexists. split; [done|].
      eapply projected_indexed; [done..|]. cbn. by rewrite E.
    + apply removal_ok in Hs as [E Hs]. rewrite Hid in Hs. eexists. split; [done|].
      eapply projected_removed; [done|done| |done|cbn; by rewrite E]. intros E'. rewrite E' in Hp. by vm_compute in Hp.
  - apply act_bind_ok in H as ([] & s1 & Hs & H). apply removal_ok in Hs as [E Hs].
    apply act_bind_ok in H as ([] & s2 & Hc & [= <- <-]). apply (consume_ok _ _ _ _ Hr) in Hc as ->.
    eexists. split; [done|]. apply projected_missing; [done..|cbn; by rewrite E].
Qed.

Lemma look_bind {A B : Type} (q : db -> A) (k : A -> act (pstate S) B) s :
  act_bind (look q) k s = k (q (db_of s)) s.
Proof. done. Qed.
Lemma kept_consume i t : keeps (index_kept i) (consume t : act (pstate S) unit).
Proof. apply kept_world. Qed.
Lemma kept_finish {A : Type} i (m : act (pstate S) unit) t (a : A) : keeps (index_kept i) m ->
  keeps (index_kept i) (m ;;; consume t ;;; ret a).
Proof.
  intros Hm. apply keeps_bind; [apply _|done|intros _].
  apply keeps_bind; [apply _|apply kept_consume|intros _; apply keeps_ret, _].
Qed.
Lemma project_kept claim s r s' : projection_keys (db_of s) -> project enabled ex claim s = (r, s') ->
  index_kept (c_document_id claim) s s'.
Proof.
  intros K. unfold project, session_block.
  match goal with |- match ?m s with _ => _ end = _ -> _ => destruct (m s) as [x s1] eqn:H end.
  assert (index_kept (c_document_id claim) s s1) as Hk; [|by destruct x; intros [= <- <-]].
  rewrite look_bind in H. destruct (leased_projection ex claim (db_of s)) as [t|]; [|by injection H as <- <-].
  rewrite look_bind in H. cbv beta in H. destruct (tbl (db_of s) TDocument !! c_document_id claim) as [y|] eqn:Hx.
  - destruct (negb _); [exact (keeps_bind _ _ _ (kept_consume _ _) (fun _ => keeps_ret _ _) _ _ _ H)|].
    destruct (negb enabled); [by injection H as <- <-|]. pose proof (documents_keyed _ K _ _ Hx) as Hid.
    destruct (eqs _ _); (eapply kept_finish; [|exact H]); [rewrite <-Hid; apply publish_kept|rewrite Hid; apply removal_kept].
  - eapply kept_finish; [|exact H]. apply removal_kept.
Qed.
Lemma block_raise {A : Type} (m : act (pstate S) A) s e s' : session_block m s = (Raise e, s') ->
  (exists s1, m s = (Raise e, s1)) /\ db_of s' = db_of s.
Proof. unfold session_block. destruct (m s) as [[a|x] s1]; [done|]. intros [= -> <-]. split; [by eexists|done]. Qed.
Lemma project_raised claim s e s' : projection_keys (db_of s) -> project enabled ex claim s = (Raise e, s') ->
  db_of s' = db_of s /\
  (match tbl (db_of s) TDocument !! c_document_id claim with
   | None => awaited (c_document_id claim) (db_of s)
   | Some x => has_task (c_document_id claim) (Document.current_version x) (db_of s)
   end : Prop).
Proof.
  intros K H. apply block_raise in H as [[s1 H] E]. split; [done|]. rewrite look_bind in H.
  destruct (leased_projection ex claim (db_of s)) as [t|] eqn:Ht; [|done].
  apply leased_task in Ht as (Ht & _ & Hd); [|done]. rewrite look_bind in H. cbv beta in H.
  destruct (tbl (db_of s) TDocument !! c_document_id claim) as [x|].
  - destruct (negb _) eqn:Hv; [done|]. bool_facts. rewrite Hv. by exists t.
  - exists (task_key (c_document_id claim) (c_version claim)), t. split; [exact Ht|exact Hd].
Qed.
Lemma project_truth claim s r s' : truth s -> project enabled ex claim s = (r, s') -> truth s'.
Proof.
  intros H Hp. pose proof (truthful_keys _ _ H) as K. pose proof (project_kept _ _ _ _ K Hp) as Hk.
  unfold truth in *. destruct r as [r|e].
  - apply project_cases in Hp as (a & _ & Hp); [|done].
    destruct Hp as [_ ->|Hx Hs E|x Hx Hv ->|x Hx Hv _ Hs E|x Hx Hv Hvis Hp E]; [done| | | |].
    + rewrite E. apply consumed_truthful with (index_of s); [done..|]. rewrite Hx. right. by apply settled_cleared.
    + by eapply superseded_truthful.
    + rewrite E. apply consumed_truthful with (index_of s); [done..|]. rewrite Hx. right. by left.
    + rewrite E. apply consumed_truthful with (index_of s); [done..|]. rewrite Hx. right. right. left. split; [done|].
      destruct Hp as [(v & md & f & content & disc & _ & _ & _ & _ & Hset)]. by exists f, content, disc.
  - apply project_raised in Hp as [E Hd]; [|done]. rewrite E. by eapply failed_search_truthful.
Qed.

(** *** The other transactions *)
Definition truth_kept {A : Type} (m : act (pstate S) A) : Prop := forall s r s', m s = (r, s') -> truth s -> truth s'.
Lemma kept_ret {A : Type} (a : A) : truth_kept (ret a : act (pstate S) A).
Proof. by intros s r s' [= <- <-]. Qed.
Lemma kept_raise {A : Type} e : truth_kept (raise e : act (pstate S) A).
Proof. by intros s r s' [= <- <-]. Qed.
Lemma kept_bind {A B : Type} (m : act (pstate S) A) (k : A -> act (pstate S) B) :
  truth_kept m -> (forall a, truth_kept (k a)) -> truth_kept (act_bind m k).
Proof.
  intros Hm Hk s r s'. unfold act_bind. destruct (m s) as [[a|e] s1] eqn:E; intros H Ht.
  - eapply Hk; [exact H|]. by eapply Hm.
  - injection H as <- <-. by eapply Hm.
Qed.
Lemma kept_save t : truth_kept (save_projection t : act (pstate S) unit).
Proof.
  intros s r s'. unfold save_projection, on_world, on_db, session_save. destruct (row_ok TSearchProjectionTask t);
    intros [= <- <-] H; [|done].
  by apply saved_truthful.
Qed.
Lemma same_index_world {A : Type} (m : act world A) (s : pstate S) r s' : on_world m s = (r, s') -> p_client s' = p_client s.
Proof. unfold on_world. destruct (m (p_world s)). by intros [= <- <-]. Qed.
Definition same_client (s s' : pstate S) : Prop := p_client s' = p_client s.
Local Instance same_client_preorder : PreOrder same_client.
Proof. split; [done|]. intros a b c H1 H2. by etransitivity. Qed.
(** A session block that only touches the database. *)
Lemma block_truth {A : Type} (m : act (pstate S) A) : keeps same_client m -> truth_kept m -> truth_kept (session_block m).
Proof.
  intros Hc Ht s r s'. unfold session_block. destruct (m s) as [[a|e] s1] eqn:E; intros [= <- <-] H; [by eapply Ht|].
  unfold truth in *. cbn. by rewrite (Hc _ _ _ E).
Qed.
Lemma client_save t : keeps same_client (save_projection t : act (pstate S) unit).
Proof. intros s r s'. apply same_index_world. Qed.
Lemma client_consume t : keeps same_client (consume t : act (pstate S) unit).
Proof. intros s r s'. apply same_index_world. Qed.
Lemma save_then {A : Type} t (a : A) :
  keeps same_client (save_projection t ;;; ret a : act (pstate S) A) /\ truth_kept (save_projection t ;;; ret a : act (pstate S) A).
Proof.
  split.
  - apply keeps_bind; [apply _|apply client_save|intros _; apply keeps_ret, _].
  - apply kept_bind; [apply kept_save|intros _; apply kept_ret].
Qed.
Lemma claim_truth now dr : truth_kept (claim_projection ex now dr : act (pstate S) _).
Proof.
  apply block_truth.
  - apply keeps_bind; [apply _|apply keeps_gets, _|intros [t|]]; [apply save_then|apply keeps_ret, _].
  - intros s r s'. rewrite look_bind. destruct (next_projection _ _ _) as [t|]; [apply save_then|apply kept_ret].
Qed.
Lemma fail_truth claim code retryable now : truth_kept (fail_projection ex claim code retryable now : act (pstate S) _).
Proof.
  apply block_truth.
  - apply keeps_bind; [apply _|apply keeps_gets, _|intros [t|]]; [|apply keeps_ret, _].
    apply keeps_bind; [apply _|apply keeps_gets, _|intros x]. destruct (match x with Some _ => _ | None => _ end).
    + apply keeps_bind; [apply _|apply client_consume|intros _; apply keeps_ret, _].
    + destruct (failed_task _ _ _ _ _) as [dead t']. apply save_then.
  - intros s r s'. rewrite look_bind. destruct (leased_projection ex claim (db_of s)) as [t|] eqn:Ht; [|apply kept_ret].
    rewrite look_bind. cbv beta. intros H Htr. pose proof (truthful_keys _ _ Htr) as K.
    destruct (tbl (db_of s) TDocument !! c_document_id claim) as [x|] eqn:Hx.
    + destruct (negb _) eqn:Hv; [|destruct (failed_task _ _ _ _ _) as [dead t']; by eapply save_then].
      bool_facts. apply leased_task in Ht as (_ & Hr & _); [|done].
      assert (s' = MkPState (set_db (consumed claim (db_of s)) (p_world s)) (p_client s)) as ->
        by (rewrite <-Hr; by injection H as <- <-).
      by eapply superseded_truthful.
    + destruct (failed_task _ _ _ _ _) as [dead t']. by eapply save_then.
Qed.
Lemma handler_truth claim now e : truth_kept (projection_failed ex claim now e : act (pstate S) _).
Proof.
  destruct e; cbn [projection_failed];
    lazymatch goal with |- truth_kept (raise _) => apply kept_raise | _ => apply fail_truth end.
Qed.
Lemma retry_truth i v now : truth_kept (retry_dead_letter i v now : act (pstate S) bool).
Proof.
  apply block_truth.
  - apply keeps_bind; [apply _|apply keeps_gets, _|intros [t|]]; [|apply keeps_ret, _].
    destruct (task_is _ _); [exact (proj1 (save_then (revived now t) true))|apply keeps_ret, _].
  - intros s r s'. rewrite look_bind. destruct (tbl _ _ !! _) as [t|]; [|apply kept_ret].
    destruct (task_is _ _); [exact (proj2 (save_then (revived now t) true) s r s')|apply kept_ret].
Qed.
End worker.
