(* ===== verification/SearchErasure.v ===== *)
(** * Erasure arms the projections

    Whatever the erasure executor does, and however a run ends, it deletes no
    search projection task and no document it has not left a task for. *)
From S2P Require Import Prelude PyTime Json Models Database ForeignKeys HoldLineage Sha256 JsonText Lifecycle.
From S2P Require Import Disk Storage World BackupAuthorityFacts Projections AccountErasure AccountErasureSteps.
From S2P Require Import Frontmatter SearchIndex SearchProjection SearchProjectionSafety.
Local Open Scope Z_scope.

(** ** Arming *)
Definition searched : list table := [TDocument; TSearchProjectionTask].
Definition arms (d d' : db) : Prop :=
  projection_keys d -> projection_keys d' /\ tasks_stay d d' /\ documents_armed d d'.
#[export] Instance arms_preorder : PreOrder arms.
Proof.
  split; [intros d K; split_and!; [done|done|by left]|]. intros a b c H1 H2 K.
  destruct (H1 K) as (Kb & Tb & Db), (H2 Kb) as (Kc & Tc & Dc). split_and!; [done|by etransitivity|].
  intros i. destruct (Dc i) as [E|?]; [|by right]. rewrite E. destruct (Db i) as [->|[-> A]]; [by left|].
  right. split; [done|]. by eapply stay_awaited.
Qed.
Lemma same_arms d d' : same_on searched d d' -> arms d d'.
Proof.
  intros H K. assert (forall t, t ∈ searched -> tbl d' t = tbl d t) as E by exact H.
  pose proof (E TDocument) as Ed. pose proof (E TSearchProjectionTask) as Et.
  specialize (Ed ltac:(by left)). specialize (Et ltac:(by right; left)). split_and!.
  - destruct K as [K1 K2]. split; [rewrite Ed; exact K1|rewrite Et; exact K2].
  - intros k t Ht. exists t. by rewrite Et.
  - intros i. left. by rewrite Ed.
Qed.
Lemma same_awaited i d d' : same_on searched d d' -> awaited i d -> awaited i d'.
Proof. intros H (k & t & Ht & E). exists k, t. split; [|done]. rewrite (H TSearchProjectionTask) by (by right; left). done. Qed.
Notation harmless := (keeps (on_wdb arms)).
Lemma same_harmless {A : Type} (m : act world A) : keeps (on_wdb (same_on searched)) m -> harmless m.
Proof. intros H w r w' E. by eapply same_arms, H. Qed.

(** ** The executor *)
Ltac harmless_step :=
  first
    [ solve [apply keeps_ret, _ | apply keeps_raise, _ | apply keeps_gets, _ | apply keeps_query, _
            | apply keeps_lift, _ | apply keeps_on_fs, _ ]
    | apply same_harmless, keeps_on_db; first [apply quiet_save; reflexivity | apply quiet_add; reflexivity]
    | apply same_harmless, keeps_write_db; intros ?; apply same_on_delete_where, (bool_decide_unpack _); reflexivity
    | apply keeps_bind; [apply _|..|intros ?]
    | apply keeps_transaction; [apply _|]
    | apply keeps_catch; [apply _|..|intros ?]
    | case_match ].
Section executor.
Context (casefold : str -> str) (float_text : str -> str)
  (unseal : bytes -> bytes -> bytes -> bytes -> option bytes)
  (ex : AccountErasureExecutor) (journal : disk).

Lemma harmless_for_each {A : Type} (l : list A) (f : A -> act world unit) :
  (forall x, harmless (f x)) -> harmless (for_each l f).
Proof. intros Hf. induction l as [|x l IH]; cbn [for_each]; repeat harmless_step; done. Qed.
Lemma harmless_requeue now : harmless (requeue_released_holds now).
Proof.
  apply keeps_transaction; [apply _|]. apply keeps_bind; [apply _|apply keeps_query, _|intros items].
  apply harmless_for_each. intros i. unfold requeue_item, save_item. repeat harmless_step.
Qed.
Lemma harmless_finish l now i : harmless (finish l now i).
Proof. unfold finish, save_lifecycle. repeat harmless_step. Qed.
Lemma harmless_reconcile deletion_id now i : harmless (_reconcile float_text unseal ex journal deletion_id now i).
Proof.
  unfold _reconcile, scrub_expired_terminal_markers, reconcile_open, session_get, save_lifecycle.
  repeat first [apply harmless_finish|harmless_step].
Qed.
Lemma harmless_reconcile_all now new_ids : harmless (_reconcile_all float_text unseal ex journal now new_ids).
Proof.
  unfold _reconcile_all. apply keeps_bind; [apply _|apply keeps_query, _|intros ids]. revert new_ids.
  induction ids as [|i ids IH]; intros new_ids; cbn [reconcile_each]; [apply keeps_ret, _|].
  apply keeps_bind; [apply _|apply harmless_reconcile|intros _; apply IH].
Qed.
Lemma harmless_claim now dr : harmless (_claim_one float_text unseal ex journal now dr).
Proof. unfold _claim_one, claim_transaction, save_item. repeat first [apply harmless_reconcile|harmless_step]. Qed.
Lemma harmless_fail claim code retryable retry_at now dr :
  harmless (_fail float_text unseal ex journal claim code retryable retry_at now dr).
Proof. unfold _fail, save_item. repeat first [apply harmless_reconcile|harmless_step]. Qed.

(** *** Deleting a row *)
Lemma delete_rows_root ts fuel t i d r d' : (forall t', t' ∈ tail (below (S fuel) t) -> t' ∉ ts) ->
  delete_rows (S fuel) t i d = (r, d') -> exists d1, same_on ts d d1 /\ (d' = d1 \/ d' = del t i d1).
Proof.
  intros Hb. cbn [delete_rows]. change (act_bind (gets id) ?k d) with (k d d). cbv beta.
  destruct (existsb _ _); [intros [= <- <-]; exists d; split; [done|by left]|]. unfold act_bind at 1.
  destruct (for_each _ _ d) as [x d1] eqn:E. assert (same_on ts d d1) as Hs.
  { eapply for_each_same; [|exact E]. intros ref a b c Hr. cbv beta.
    destruct (ForeignKeys.action ref) eqn:Ha; [|by intros [= <- <-]].
    apply for_each_same. intros y a' b' c' Hy. apply delete_rows_same. intros t' Ht'. apply Hb.
    cbn [below tail]. apply list_elem_of_In, in_flat_map. exists ref. rewrite Ha. split; by apply list_elem_of_In. }
  destruct x; intros [= <- <-]; exists d1; split; auto.
Qed.
Lemma document_alone t' : t' ∈ tail (below 3 TDocument) -> t' ∉ searched.
Proof.
  assert (forallb (outside searched) (tail (below 3 TDocument)) = true) as H by (vm_compute; reflexivity).
  rewrite forallb_forall in H. intros Hin%list_elem_of_In%H%bool_decide_eq_true. exact Hin.
Qed.
Lemma armed_deletion i d r d' : awaited i d -> delete_row TDocument i d = (r, d') -> arms d d'.
Proof.
  intros Ha H K. apply (delete_rows_root searched) in H as (d1 & Hs & Hd'); [|exact document_alone].
  pose proof (same_awaited _ _ _ Hs Ha) as Ha1. destruct (same_arms _ _ Hs K) as (K1 & T1 & D1).
  destruct Hd' as [->| ->]; [done|]. split_and!.
  - destruct K1 as [K1 K2]. split; intros k x; [|rewrite tbl_del_ne by done; apply K2].
    rewrite tbl_del_eq. intros [_ H]%lookup_delete_Some. by apply K1.
  - etransitivity; [exact T1|]. intros k t Ht. exists t. by rewrite tbl_del_ne.
  - intros j. destruct (decide (i = j)) as [<-|Hne].
    + right. split; [by rewrite tbl_del_eq, lookup_delete_eq|].
      destruct Ha1 as (k & t & Ht & E). exists k, t. by rewrite tbl_del_ne.
    + rewrite tbl_del_eq, lookup_delete_ne by done. destruct (D1 j) as [->|[-> A]]; [by left|right].
      split; [done|]. destruct A as (k & t & Ht & E). exists k, t. by rewrite tbl_del_ne.
Qed.
(** The task a document leaves. *)
Lemma saved_arms t d : arms d (put TSearchProjectionTask (row_id TSearchProjectionTask t) t d).
Proof.
  intros K. split_and!; [by apply saved_keys|by apply saved_stay|]. intros i. left. by rewrite tbl_put_ne.
Qed.
Lemma saved_awaited t d : awaited (SearchProjectionTask.document_id t) (put TSearchProjectionTask (row_id TSearchProjectionTask t) t d).
Proof. exists (row_id TSearchProjectionTask t), t. by rewrite tbl_put_eq, lookup_insert_eq. Qed.
Notation withdrawal i clock := (on_db (remove_document_projection i clock) ;;; on_db (exact_remove_document i clock)).
Lemma withdrawal_same i clock : keeps (on_wdb (same_on searched)) (withdrawal i clock).
Proof.
  assert (forall t, t ∈ searched -> t ∈ untouched) as Ht.
  { intros t Hin. apply list_elem_of_In in Hin as [<-|[<-|[]]]; [by left|by right; left]. }
  apply keeps_bind; [apply _| |intros _]; apply keeps_on_db, keeps_fewer with untouched; try exact Ht.
  - apply quiet_remove_projection.
  - apply quiet_exact_remove.
Qed.
Lemma on_db_run {A : Type} (m : act db A) w r w' : on_db m w = (r, w') -> m (wdb w) = (r, wdb w').
Proof. unfold on_db. destruct (m (wdb w)). by intros [= <- <-]. Qed.
(** A task that is added or saved is there, or nothing is. *)
Definition task_written (i : str) (d : db) (r : Res unit) (d' : db) : Prop :=
  r = Ok tt /\ (exists t, SearchProjectionTask.document_id t = i
                /\ d' = put TSearchProjectionTask (row_id TSearchProjectionTask t) t d)
  \/ r <> Ok tt /\ d' = d.
Lemma added_written t d r d' : session_add TSearchProjectionTask t d = (r, d') ->
  task_written (SearchProjectionTask.document_id t) d r d'.
Proof. intros [(-> & _ & ->)|(-> & ->)]%session_add_spec; [left; split; [done|by exists t]|by right]. Qed.
Lemma saved_written t d r d' : session_save TSearchProjectionTask t d = (r, d') ->
  task_written (SearchProjectionTask.document_id t) d r d'.
Proof. intros [(-> & _ & ->)|(-> & ->)]%session_save_spec; [left; split; [done|by exists t]|by right]. Qed.
Lemma written_arms i d r d' : task_written i d r d' -> arms d d' /\ (r = Ok tt -> awaited i d').
Proof.
  intros [(-> & t & <- & ->)|[H ->]]; [split; [apply saved_arms|intros _; apply saved_awaited]|].
  split; [apply reflexivity|done].
Qed.
Lemma armed_written x now w r w' : projection_keys (wdb w) ->
  on_db (match tbl (wdb w) TSearchProjectionTask !! task_key (Document.id x) (Document.current_version x) with
         | None => session_add TSearchProjectionTask (armed_task x now)
         | Some t => session_save TSearchProjectionTask (rearmed now t)
         end) w = (r, w') -> task_written (Document.id x) (wdb w) r (wdb w').
Proof.
  intros K H%on_db_run. destruct (tbl (wdb w) TSearchProjectionTask !! _) as [t|] eqn:Hk.
  - apply (tasks_keyed _ K), pair_key_inj in Hk as [<- _]. exact (saved_written _ _ _ _ H).
  - exact (added_written _ _ _ _ H).
Qed.
Lemma arm_ok (x : row TDocument) now clock w r w' : projection_keys (wdb w) ->
  arm_projection x now clock w = (r, w') ->
  arms (wdb w) (wdb w') /\ (r = Ok tt -> awaited (Document.id x) (wdb w')).
Proof.
  intros K H. unfold arm_projection, session_get in H. rewrite query_bind in H. cbv beta in H.
  unfold act_bind at 1 in H. destruct (on_db _ w) as [y w1] eqn:E in H.
  apply (armed_written _ _ _ _ _ K), written_arms in E as [E1 E2]. destruct y as [[]|e].
  - pose proof (withdrawal_same (Document.id x) clock _ _ _ H) as Hs. split.
    + transitivity (wdb w1); [exact E1|by apply same_arms].
    + intros _. eapply same_awaited; [exact Hs|by apply E2].
  - injection H as <- <-. by split.
Qed.
Lemma harmless_reserve deletion_id t r now i : harmless (_reserve_identifier casefold ex deletion_id t r now i).
Proof. unfold _reserve_identifier. repeat harmless_step. Qed.
Lemma runs_keyed {A : Type} (m : act world A) w : (projection_keys (wdb w) -> runs arms m w) -> runs arms m w.
Proof. intros H r w' E K. by eapply H. Qed.
Lemma remove_document deletion_id i now dr : harmless (remove_row casefold ex deletion_id TDocument i now dr).
Proof.
  intros w. apply runs_keyed. intros K. unfold remove_row, session_get. apply runs_query.
  destruct (tbl (wdb w) TDocument !! i) as [x|] eqn:Hx; [|apply runs_ret, _].
  pose proof (documents_keyed _ K _ _ Hx) as <-.
  apply runs_bind; [apply _|apply runs_keeps, harmless_reserve|intros [] w1 _].
  apply runs_keyed. intros K1. apply runs_bind; [apply _| |intros [] w2 E].
  - intros r w2 E. exact (proj1 (arm_ok _ _ _ _ _ _ K1 E)).
  - intros r w3. unfold on_db. destruct (delete_row _ _ _) as [y d] eqn:Hd. intros [= <- <-].
    eapply armed_deletion; [|exact Hd]. by apply (arm_ok _ _ _ _ _ _ K1 E).
Qed.
Lemma remove_other deletion_id t i now dr : arm_if_document t = (fun _ _ _ => ret tt) ->
  forallb (outside searched) (below 3 t) = true -> harmless (remove_row casefold ex deletion_id t i now dr).
Proof.
  intros Ha Ht. unfold remove_row, session_get. apply keeps_bind; [apply _|apply keeps_query, _|intros [r|]];
    [|apply keeps_ret, _].
  apply keeps_bind; [apply _|apply harmless_reserve|intros _]. rewrite Ha.
  apply keeps_bind; [apply _|apply keeps_ret, _|intros _]. by apply same_harmless, keeps_on_db, quiet_delete_row.
Qed.
Lemma harmless_delete_row item now dr : harmless (_delete_row casefold unseal ex item now dr).
Proof.
  unfold _delete_row, session_get. destruct (of_type _ _).
  - apply keeps_bind; [apply _|apply keeps_query, _|intros [l|]]; [|apply keeps_raise, _].
    apply keeps_bind; [apply _|apply keeps_lift, _|intros subject]. by apply remove_other.
  - destruct (row_table _) as [t|] eqn:Ht; [|apply keeps_raise, _]. unfold row_table in Ht.
    repeat case_match; try discriminate Ht; injection Ht as <-; [apply remove_document|by apply remove_other..].
Qed.
Lemma harmless_execute item now dr : harmless (_execute casefold unseal ex item now dr).
Proof.
  unfold _execute, _delete_file, _postcheck, _verify_backup, session_get, save_lifecycle.
  repeat first [apply harmless_delete_row|harmless_step].
Qed.
Lemma harmless_process claim now dr : harmless (_process casefold float_text unseal ex journal claim now dr).
Proof.
  unfold _process, network_action, network_prepare, network_finish, process_local, process_transaction, on_free_item,
    execute_item, hold_guard, provider_answered, provider_failed, process_failed, retry_as, session_get, save_item,
    save_lifecycle.
  repeat first [apply harmless_execute|apply harmless_reconcile|apply harmless_fail|harmless_step].
Qed.
(** Whatever the providers answer and whatever fails, a run keeps the promise. *)
Lemma harmless_run limit now env new_ids :
  harmless (run_once casefold float_text unseal ex journal limit now env new_ids).
Proof.
  unfold run_once. do 2 (case_match; [apply keeps_raise, _|]).
  apply keeps_bind; [apply _|apply harmless_requeue|intros _].
  apply keeps_bind; [apply _| |intros result].
  - generalize (MkErasureResult 0 0 0 0 0) as result. revert env. generalize (Z.to_nat limit) as n.
    induction n as [|n IH]; intros env result; cbn [run_items]; [apply keeps_ret, _|].
    apply keeps_bind; [apply _|apply harmless_claim|intros [[claim|] held]].
    + apply keeps_bind; [apply _|apply harmless_process|intros o; apply IH].
    + destruct (held =? 0); [apply keeps_ret, _|apply IH].
  - apply keeps_bind; [apply _|apply harmless_reconcile_all|intros _; apply keeps_ret, _].
Qed.
End executor.
