(* ===== verification/QueueServer.v ===== *)
(** * A search server with a queue

    A server as the writers expect it: writes are accepted into a queue and applied
    in order when a task is asked for; a list of booleans says which answers are
    lost on their way.  It meets [SearchServerLaws]. *)
From S2P Require Import Prelude PyTime Json Database Frontmatter SearchIndex.
Local Open Scope Z_scope.

Definition content : Type := list (str * pyval).
Record queue_server : Type := MkQueueServer
  { q_documents : gmap str content; q_queue : list request; q_accepted : Z; q_losses : list bool }.
Definition apply_write (r : request) (docs : gmap str content) : gmap str content :=
  match r with
  | PutDocument payload =>
      match dict_get (u "id") payload with Some (PStr i) => <[i := payload]> docs | _ => docs end
  | DeleteDocument i => delete i docs
  | DeleteIndex => ∅
  | _ => docs
  end.
Definition apply_writes (l : list request) (docs : gmap str content) : gmap str content :=
  fold_left (fun docs r => apply_write r docs) l docs.
Definition writing (r : request) : bool :=
  match r with PutDocument _ | DeleteDocument _ | DeleteIndex | CreateIndex | PatchSettings => true | _ => false end.
(** An answer, unless it is lost. *)
Definition reply (response : Response) (s : queue_server) : option Response * queue_server :=
  match q_losses s with
  | [] => (Some response, s)
  | lost :: losses =>
      (if lost then None else Some response, MkQueueServer (q_documents s) (q_queue s) (q_accepted s) losses)
  end.
Definition with_json (status : Z) (members : list (string * pyval)) : Response :=
  MkResponse status (Some (PDict (map (fun kv => (u kv.1, kv.2)) members))).
#[export] Instance serve_queue : SearchServer queue_server := fun r s =>
  if writing r then
    reply (with_json 202 [("taskUid"%string, PInt (q_accepted s))])
      (MkQueueServer (q_documents s) (q_queue s ++ [r]) (q_accepted s + 1) (q_losses s))
  else
    match r with
    | GetTask _ =>
        reply (with_json 200 [("status"%string, PStr (u "succeeded"))])
          (MkQueueServer (apply_writes (q_queue s) (q_documents s)) [] (q_accepted s) (q_losses s))
    | GetDocument i =>
        reply (match q_documents s !! i with
               | Some payload => MkResponse 200 (Some (PDict payload))
               | None => MkResponse 404 None
               end) s
    | _ => reply (with_json 200 []) s
    end.

(** ** It meets the laws *)
Definition queue_value (s : queue_server) (i : str) : option content := apply_writes (q_queue s) (q_documents s) !! i.
Definition queue_settled (s : queue_server) (i : str) (v : option content) : Prop :=
  Forall (fun r => writes r i = None) (q_queue s) /\ q_documents s !! i = v.
Lemma apply_write_at r docs i :
  apply_write r docs !! i = match writes r i with Some v => v | None => docs !! i end.
Proof.
  destruct r as [| | | |payload|j|j|t]; cbn [apply_write writes]; try done.
  - destruct (dict_get _ _) as [[]|]; try done. case_bool_decide as H; [subst; apply lookup_insert_eq|by apply lookup_insert_ne].
  - case_bool_decide as H; [subst; apply lookup_delete_eq|by apply lookup_delete_ne].
Qed.
Lemma apply_none l docs i : Forall (fun r => writes r i = None) l -> apply_writes l docs !! i = docs !! i.
Proof.
  unfold apply_writes. revert docs. induction l as [|r l IH]; intros docs H; [done|].
  apply Forall_cons in H as [Hr Hl]. cbn [fold_left]. rewrite IH, apply_write_at by done. by rewrite Hr.
Qed.
Lemma apply_last l r docs i : apply_writes (l ++ [r]) docs !! i
  = match writes r i with Some v => v | None => apply_writes l docs !! i end.
Proof. unfold apply_writes. rewrite fold_left_app. apply apply_write_at. Qed.
Lemma reply_same response s : q_documents (reply response s).2 = q_documents s /\ q_queue (reply response s).2 = q_queue s.
Proof. unfold reply. by destruct (q_losses s). Qed.
Lemma reply_response response s r : (reply response s).1 = Some r -> r = response.
Proof. unfold reply. destruct (q_losses s) as [|[]]; cbn; congruence. Qed.
(** The queue and the documents after a request. *)
Lemma serve_writing r s : writing r = true ->
  q_documents (serve r s).2 = q_documents s /\ q_queue (serve r s).2 = q_queue s ++ [r].
Proof.
  intros H. unfold serve, serve_queue. rewrite H.
  match goal with |- context [reply ?a ?b] => destruct (reply_same a b) as [-> ->] end. done.
Qed.
Lemma serve_reading r s : writing r = false -> (forall t, r <> GetTask t) ->
  q_documents (serve r s).2 = q_documents s /\ q_queue (serve r s).2 = q_queue s.
Proof.
  intros H Ht. unfold serve, serve_queue. rewrite H.
  destruct r; try discriminate H; try (by exfalso; eapply Ht); apply reply_same.
Qed.
Lemma serve_task t s : q_documents (serve (GetTask t) s).2 = apply_writes (q_queue s) (q_documents s)
  /\ q_queue (serve (GetTask t) s).2 = [].
Proof.
  unfold serve, serve_queue. cbn [writing].
  match goal with |- context [reply ?a ?b] => destruct (reply_same a b) as [-> ->] end. done.
Qed.
Lemma is_task r : (exists t, r = GetTask t) \/ forall t, r <> GetTask t.
Proof. destruct r; try (right; intros ? H; discriminate H). left. by eexists. Qed.
Lemma queue_settled_kept r s i v : writes r i = None -> queue_settled s i v -> queue_settled (serve r s).2 i v.
Proof.
  intros Hr [Hq Hd]. unfold queue_settled. destruct (writing r) eqn:Hw.
  { destruct (serve_writing r s Hw) as [-> ->]. split; [|done]. apply Forall_app. split; [done|]. by constructor. }
  destruct (is_task r) as [[t ->]|Ht].
  - destruct (serve_task t s) as [-> ->]. split; [done|]. by rewrite apply_none.
  - by destruct (serve_reading r s Hw Ht) as [-> ->].
Qed.
Lemma queue_value_kept r s i : writes r i = None -> queue_value (serve r s).2 i = queue_value s i.
Proof.
  intros Hr. unfold queue_value. destruct (writing r) eqn:Hw.
  { destruct (serve_writing r s Hw) as [-> ->]. rewrite apply_last. by rewrite Hr. }
  destruct (is_task r) as [[t ->]|Ht].
  - by destruct (serve_task t s) as [-> ->].
  - by destruct (serve_reading r s Hw Ht) as [-> ->].
Qed.
Lemma writes_writing r i v : writes r i = Some v -> writing r = true.
Proof. by destruct r. Qed.
#[export] Instance queue_laws : SearchServerLaws queue_server.
Proof.
  refine {| settled := queue_settled; latest := fun s i _ v => queue_value s i = v |}.
  - apply queue_settled_kept.
  - intros r s i _ v Hr <-. by apply queue_value_kept.
  - intros r s i v response task Hr _ _ _. unfold queue_value.
    destruct (serve_writing r s (writes_writing _ _ _ Hr)) as [-> ->]. rewrite apply_last. by rewrite Hr.
  - intros s i task v response <- _ _ _. unfold queue_settled. destruct (serve_task task s) as [-> ->]. by split.
  - intros s i task v response _ H _ Hf _. apply reply_response in H as ->. by vm_compute in Hf.
  - intros r s i response Hr H E. unfold serve, serve_queue in H. rewrite (writes_writing _ _ _ Hr) in H.
    apply reply_response in H as ->. by vm_compute in E.
Defined.
