(* ===== verification/AccountErasureProgress.v ===== *)
(** * What keeps an erasure from progressing

    The claim scan reads a window of one hundred due items.  When every item of the
    window waits for its account's session to be revoked, no run of a single worker
    claims anything ever again, whatever else is due. *)
From S2P Require Import Prelude PyTime Json Models Database Sorting ForeignKeys HoldLineage Sha256 JsonText Lifecycle.
From S2P Require Import Disk Storage World BackupAuthorityFacts Projections AccountErasure AccountErasureSteps.
Local Open Scope Z_scope.

(** ** What a computation may change *)

(** The files stay, and so do the tables outside [ts]. *)
Definition confined (ts : list table) (w w' : world) : Prop :=
  wfs w' = wfs w /\ forall t, t ∉ ts -> tbl (wdb w') t = tbl (wdb w) t.
Global Instance confined_preorder ts : PreOrder (confined ts).
Proof.
  split; [by split|]. intros a b c [H1 H2] [H3 H4]. split; [by rewrite H3|]. intros t Ht. by rewrite H4, H2.
Qed.
Lemma confined_weaken ts ts' w w' : (forall t, t ∈ ts -> t ∈ ts') -> confined ts w w' -> confined ts' w w'.
Proof. intros H [H1 H2]. split; [done|]. intros t Ht. apply H2. by intros ?%H. Qed.
Lemma confined_save ts t r : t ∈ ts -> keeps (confined ts) (on_db (session_save t r)).
Proof.
  intros Ht w x w'. unfold on_db. destruct (session_save t r (wdb w)) as [y d] eqn:E. intros [= <- <-]. split; [done|].
  intros t' Ht'. apply session_save_spec in E as [(_ & _ & ->)|[_ ->]]; [|done]. apply tbl_put_ne. by intros <-.
Qed.
Lemma confined_add ts t r : t ∈ ts -> keeps (confined ts) (on_db (session_add t r)).
Proof.
  intros Ht w x w'. unfold on_db. destruct (session_add t r (wdb w)) as [y d] eqn:E. intros [= <- <-]. split; [done|].
  intros t' Ht'. apply session_add_spec in E as [(_ & _ & ->)|[_ ->]]; [|done]. apply tbl_put_ne. by intros <-.
Qed.
Lemma confined_delete_where ts t p : t ∈ ts -> keeps (confined ts) (write_db (delete_where t p)).
Proof.
  intros Ht w x w' [= <- <-]. split; [done|]. intros t' Ht'. apply tbl_delete_where_ne. by intros <-.
Qed.
Lemma confined_transaction {A : Type} ts (m : act world A) : keeps (confined ts) m -> keeps (confined ts) (transaction m).
Proof.
  intros H w r w'. unfold transaction. destruct (m w) as [[a|e] w1] eqn:E; intros [= <- <-]; [by eapply H|].
  split; [by apply (H _ _ _ E)|done].
Qed.
Ltac confined_step :=
  first [ solve [apply keeps_ret, _ | apply keeps_raise, _ | apply keeps_lift, _ | apply keeps_gets, _]
        | apply confined_save; in_protected | apply confined_add; in_protected | apply confined_delete_where; in_protected
        | apply confined_transaction | apply keeps_bind; [apply _| |intros ?] | case_match ].
(** Reconciliation changes the account's lifecycle, its tombstone and its receipts. *)
Definition bookkeeping : list table :=
  [TAccountLifecycle; TAccountLifecycleTombstone; TAccountLifecycleReceiptRateLimit].
Lemma confined_reconcile float_text unseal ex journal deletion_id now new_id :
  keeps (confined bookkeeping) (_reconcile float_text unseal ex journal deletion_id now new_id).
Proof.
  unfold _reconcile, session_get, reconcile_open, finish, scrub_expired_terminal_markers, save_lifecycle.
  repeat confined_step.
Qed.
Lemma confined_reconcile_all float_text unseal ex journal now new_ids :
  keeps (confined bookkeeping) (_reconcile_all float_text unseal ex journal now new_ids).
Proof.
  unfold _reconcile_all. apply keeps_bind; [apply _|apply keeps_gets, _|intros ids]. revert new_ids.
  induction ids as [|i ids IH]; intros new_ids; cbn [reconcile_each]; [apply keeps_ret, _|].
  apply keeps_bind; [apply _|apply confined_reconcile|intros _; apply IH].
Qed.

(** ** The order of the scan *)

(** The order of the scan is total and transitive, and only an item precedes
    another both ways that shares its id. *)
Lemma item_before_total a b : item_before a b = true \/ item_before b a = true.
Proof.
  unfold item_before, dt_id_before, dt_ltb, dt_eqb. cbn [fst snd].
  destruct (AccountErasureItem.available_at a), (AccountErasureItem.available_at b); auto;
    destruct (str_leb_total (AccountErasureItem.id a) (AccountErasureItem.id b)) as [E|E]; rewrite E; lia.
Qed.
Lemma item_before_trans a b c : item_before a b = true -> item_before b c = true -> item_before a c = true.
Proof.
  unfold item_before, dt_id_before, dt_ltb, dt_eqb. cbn [fst snd].
  pose proof (str_leb_trans (AccountErasureItem.id a) (AccountErasureItem.id b) (AccountErasureItem.id c)).
  destruct (AccountErasureItem.available_at a), (AccountErasureItem.available_at b), (AccountErasureItem.available_at c);
    try done; destruct (str_leb (AccountErasureItem.id a) (AccountErasureItem.id b)),
      (str_leb (AccountErasureItem.id b) (AccountErasureItem.id c)), (str_leb (AccountErasureItem.id a) (AccountErasureItem.id c));
    lia.
Qed.
Lemma item_before_antisym a b : item_before a b = true -> item_before b a = true ->
  AccountErasureItem.id a = AccountErasureItem.id b.
Proof.
  unfold item_before, dt_id_before, dt_ltb, dt_eqb. cbn [fst snd]. intros H1 H2. apply str_leb_antisym;
  destruct (AccountErasureItem.available_at a), (AccountErasureItem.available_at b); try done;
    destruct (str_leb (AccountErasureItem.id a) (AccountErasureItem.id b)),
      (str_leb (AccountErasureItem.id b) (AccountErasureItem.id a)); lia.
Qed.

(** ** A full window *)

(** The due items a single worker scans. *)
Definition queue (t : datetime) (d : db) : list AccountErasureItem :=
  select TAccountErasureItem (fun i => due t i && negb (bool_decide (AccountErasureItem.id i ∈ (∅ : gset str)))) d.
Notation window t d := (take claim_window (sort_by item_before (queue t d))).
Definition idle (i : AccountErasureItem) : bool := item_is "queued" i || item_is "completed" i.
Definition items_keyed (d : db) : Prop :=
  forall k i, tbl d TAccountErasureItem !! k = Some i -> AccountErasureItem.id i = k.
Definition items_idle (d : db) : Prop :=
  forall k i, tbl d TAccountErasureItem !! k = Some i -> idle i = true.
Lemma in_queue t d i : i ∈ queue t d <->
  (exists k, tbl d TAccountErasureItem !! k = Some i) /\ due t i = true.
Proof.
  unfold queue. split.
  - intros H. destruct (proj1 (elem_of_select TAccountErasureItem _ _ _) H) as [? [? _]%andb_prop]. done.
  - intros [[k Hk] Hd]. apply (in_select TAccountErasureItem _ _ _ _ Hk). rewrite Hd.
    by rewrite bool_decide_eq_false_2 by apply not_elem_of_empty.
Qed.
(** For idle items, being due means being available. *)
Lemma due_available t i : idle i = true -> due t i = true ->
  exists a, AccountErasureItem.available_at i = Some a /\ instant a <= instant t.
Proof.
  unfold idle, due, item_is. intros Hi H.
  assert (eqs (AccountErasureItem.state i) "leased" = false) as E.
  { apply orb_true_iff in Hi as [E|E]; apply eqs_true in E; by rewrite E. }
  rewrite E, orb_false_r in H. apply andb_prop in H as [_ H].
  destruct (AccountErasureItem.available_at i) as [a|]; [|done]. exists a. split; [done|]. unfold dt_leb in H. lia.
Qed.
Lemma due_later t t' i : idle i = true -> instant t <= instant t' -> due t i = true -> due t' i = true.
Proof.
  intros Hi Ht H. pose proof (due_available _ _ Hi H) as (a & Ha & Hle). unfold due in *. rewrite Ha in *.
  unfold dt_leb in *. destruct (item_is "queued" i); cbn [andb] in *; [apply orb_true_iff; left; lia|].
  apply orb_true_iff. right. cbn [orb] in H. apply andb_prop in H as [H1 H2]. unfold idle in Hi. unfold item_is in *.
  apply orb_true_iff in Hi as [Hi|Hi]; apply eqs_true in Hi; rewrite Hi in H1; by vm_compute in H1.
Qed.
Lemma window_queue t d w : w ∈ window t d -> w ∈ queue t d.
Proof. intros (k & Hw & _)%elem_of_take. apply list_elem_of_lookup_2 in Hw. by rewrite sort_by_perm in Hw. Qed.
(** An item of the later window that is not in the earlier one comes after all of it. *)
Lemma window_first t t' d w x : items_keyed d -> items_idle d -> instant t <= instant t' ->
  w ∈ window t d -> x ∈ queue t' d -> x ∉ window t d -> item_before w x = true /\ AccountErasureItem.id w <> AccountErasureItem.id x.
Proof.
  intros Hk Hid Ht Hw Hx Hnx.
  pose proof (window_queue _ _ _ Hw) as Hwq.
  split.
  - destruct (decide (due t x = true)) as [Hd|Hd].
    + assert (x ∈ sort_by item_before (queue t d)) as Hxs.
      { rewrite sort_by_perm. apply in_queue. apply in_queue in Hx as [? _]. done. }
      rewrite <-(take_drop claim_window (sort_by item_before (queue t d))) in Hxs. apply elem_of_app in Hxs as [|Hxs]; [done|].
      eapply (sorted_app item_before (window t d) (drop claim_window (sort_by item_before (queue t d)))); [|done..].
      rewrite take_drop. apply sort_by_sorted; [apply item_before_total|apply item_before_trans].
    + apply in_queue in Hwq as [[kw Hkw] Hwd], Hx as [[kx Hkx] Hxd].
      destruct (due_available t w) as (a & Ha & Hle); [by eapply Hid|done|].
      destruct (due_available t' x) as (b & Hb & _); [by eapply Hid|done|].
      unfold item_before. rewrite Ha, Hb. apply orb_true_iff. left. unfold dt_ltb.
      destruct (instant a <? instant b) eqn:E; [done|]. destruct Hd. unfold due in *. rewrite Hb in *.
      pose proof (Hid _ _ Hkx) as Hidx. unfold idle in Hidx. unfold dt_leb in *.
      destruct (item_is "queued" x); cbn [andb orb] in *; [apply orb_true_iff; left; lia|].
      unfold item_is in *. apply eqs_true in Hidx. rewrite Hidx in Hxd. by vm_compute in Hxd.
  - intros E. apply Hnx. apply in_queue in Hwq as [[kw Hkw] _], Hx as [[kx Hkx] _].
    rewrite (Hk _ _ Hkw), (Hk _ _ Hkx) in E. subst kx. pose proof (eq_trans (eq_sym Hkw) Hkx) as [= <-]. done.
Qed.
Lemma window_nodup t d : protected_keys d -> NoDup (window t d).
Proof.
  intros Hk. assert (NoDup (sort_by item_before (queue t d))) as H.
  { rewrite sort_by_perm. apply (NoDup_fmap_1 AccountErasureItem.id). by apply selected_items_nodup. }
  rewrite <-(take_drop claim_window (sort_by item_before (queue t d))) in H. by apply NoDup_app in H as [H _].
Qed.
(** Once full, the window of idle items never changes. *)
Lemma window_stays t t' d x : protected_keys d -> items_idle d -> instant t <= instant t' ->
  length (window t d) = claim_window -> x ∈ window t' d -> x ∈ window t d.
Proof.
  intros Hp Hid Ht Hlen Hx.
  assert (items_keyed d) as Hk by (intros k i; apply (Hp TAccountErasureItem); in_protected).
  pose proof (window_queue _ _ _ Hx) as Hxq. apply elem_of_take in Hx as (n & Hn & Hlt).
  destruct (decide (Exists (fun w => AccountErasureItem.id w = AccountErasureItem.id x) (window t d))) as [Hex|Hnx].
  { apply Exists_exists in Hex as (w & Hw & E). pose proof (window_queue _ _ _ Hw) as Hwq.
    apply in_queue in Hwq as [[kw Hkw] _].
    apply in_queue in Hxq as [[kx Hkx] _]. rewrite (Hk _ _ Hkw), (Hk _ _ Hkx) in E. subst kx.
    pose proof (eq_trans (eq_sym Hkw) Hkx) as [= <-]. done. }
  exfalso. assert (x ∉ window t d) as Hnw by (intros H; apply Hnx, Exists_exists; by exists x).
  pose proof (take_drop_middle _ _ _ Hn) as Hsplit. set (l1 := take n _) in Hsplit. set (l2 := drop (S n) _) in Hsplit.
  assert (forall w, w ∈ window t d -> w ∈ l1) as Hin.
  { intros w Hw. destruct (window_first t t' d w x) as [Hb Hne]; [done..|].
    assert (w ∈ l1 ++ x :: l2) as Hwl.
    { rewrite Hsplit, sort_by_perm. apply window_queue, in_queue in Hw as [[k Hkw] Hwd]. apply in_queue. split; [by exists k|].
      eapply due_later; [by eapply Hid|done..]. }
    apply elem_of_app in Hwl as [|[->|Hw2]%elem_of_cons]; [done..|]. exfalso. apply Hne.
    apply item_before_antisym; [done|]. eapply (sorted_app item_before (l1 ++ [x]) l2);
      [|apply elem_of_app; right; left|done].
    rewrite <-app_assoc. cbn [app]. rewrite Hsplit. apply sort_by_sorted; [apply item_before_total|apply item_before_trans]. }
  assert (length (window t d) <= length l1)%nat as Hle.
  { apply submseteq_length, NoDup_submseteq; [by apply window_nodup|done]. }
  rewrite Hlen in Hle. unfold l1 in Hle. rewrite length_take in Hle. lia.
Qed.

(** ** Starvation *)

(** The item waits for the session of its account to be revoked. *)
Definition behind_session (d : db) (i : AccountErasureItem) : bool :=
  negb (in_phases ["backup"] i) && negb (of_type "provider_session" i)
  && _incomplete_items d (AccountErasureItem.deletion_id i)
       (fun s => of_type "provider_session" s && in_phases ["provider"] s).
(** No hold is in force, no item is leased, held or dead, and the due items of the
    scan at [t] fill its window with items that wait. *)
Record starved (t : datetime) (d : db) : Prop := {
  starved_keys : protected_keys d;
  starved_holds : forall k h, tbl d TRetentionHold !! k = Some h -> RetentionHold.released_at h <> None;
  starved_idle : items_idle d;
  starved_full : length (window t d) = claim_window;
  starved_behind : forall i, i ∈ window t d -> behind_session d i = true
}.
(** [starved] only reads the items and the holds. *)
Notation erasure_tables := [TAccountErasureItem; TRetentionHold].
Lemma starved_same t d d' : protected_keys d' -> same_on erasure_tables d d' -> starved t d -> starved t d'.
Proof.
  intros Hk Hs [_ Hh Hi Hf Hb].
  assert (tbl d' TAccountErasureItem = tbl d TAccountErasureItem) as Ei by (apply Hs; in_protected).
  assert (tbl d' TRetentionHold = tbl d TRetentionHold) as Eh by (apply Hs; in_protected).
  assert (queue t d' = queue t d) as Eq by (unfold queue, select; by rewrite Ei). split; [done|..].
  - intros k h. rewrite Eh. apply Hh.
  - intros k i. rewrite Ei. apply Hi.
  - by rewrite Eq.
  - intros i. rewrite Eq. intros H. specialize (Hb _ H). unfold behind_session, _incomplete_items, items_of, select in *.
    by rewrite Ei.
Qed.
Lemma no_hold d i : (forall k h, tbl d TRetentionHold !! k = Some h -> RetentionHold.released_at h <> None) ->
  _active_hold d i = None.
Proof.
  intros H. assert (forall r, unreleased_hold d r = None) as Hn.
  { intros r. unfold unreleased_hold. destruct (head _) as [h|] eqn:E; [|done]. apply head_Some_elem_of in E.
    destruct (proj1 (elem_of_select TRetentionHold _ _ _) E) as [[k Hk] [_ Hp%bool_decide_eq_true]%andb_prop].
    by destruct (H _ _ Hk). }
  unfold _active_hold. generalize (resource_of i :: elements (hold_ancestors d (resource_of i))). intros rs.
  induction rs as [|r rs IH]; [done|]. cbn [omap list_omap]. by rewrite Hn.
Qed.
Lemma no_policy d i : items_idle d -> _active_policy_ancestor d i = false.
Proof.
  intros H. unfold _active_policy_ancestor. apply not_true_iff_false. intros (r & _ & Hr)%existsb_exists.
  apply existsb_exists in Hr as (x & Hx & Hp). unfold items_of in Hx. apply list_elem_of_In in Hx.
  destruct (proj1 (elem_of_select TAccountErasureItem _ _ _) Hx) as [[k Hk] _]. specialize (H _ _ Hk).
  rewrite !andb_true_iff in Hp. destruct Hp as [[[_ _] Hheld] _]. apply eqs_true in Hheld.
  unfold idle, item_is in H. rewrite Hheld in H. by vm_compute in H.
Qed.
Lemma behind_waits d i : behind_session d i = true -> _prerequisites_complete d i = false.
Proof.
  unfold behind_session, _prerequisites_complete. intros [[H1 H2]%andb_prop H3]%andb_prop.
  apply negb_true_iff in H1, H2. by rewrite H1, H2, H3.
Qed.
Lemma starved_scan t d items : starved t d -> (forall i, i ∈ items -> behind_session d i = true) -> scan d items = None.
Proof.
  intros Hs. induction items as [|i items IH]; intros Hb; cbn [scan]; [done|].
  replace (decide_item d i) with (@None decision); [apply IH; intros j Hj; apply Hb; by right|].
  unfold decide_item. destruct (tbl d TAccountLifecycle !! _) as [l|]; [|done]. destruct (eqs _ _); [done|].
  rewrite (no_hold d i) by apply (starved_holds _ _ Hs). rewrite no_policy by apply (starved_idle _ _ Hs).
  rewrite andb_false_r, (behind_waits d i) by (apply Hb; left). by destruct (in_phases _ _).
Qed.

Lemma confined_tables w w' : confined bookkeeping w w' -> same_on erasure_tables (wdb w) (wdb w').
Proof.
  intros [_ H] t Ht. apply H. rewrite !elem_of_cons in Ht. destruct Ht as [->|[->|[]%elem_of_nil]]; in_protected.
Qed.

Section starvation.
Context (casefold : str -> str) (float_text : str -> str)
  (unseal : bytes -> bytes -> bytes -> bytes -> option bytes)
  (ex : AccountErasureExecutor) (journal : disk).
Notation claim_one := (_claim_one float_text unseal ex journal).
Notation run := (run_once casefold float_text unseal ex journal).

Lemma starved_claim t now dr w : starved t (wdb w) -> instant t <= instant now -> d_locked dr = ∅ ->
  claim_one now dr w = (Ok (None, 0), w).
Proof.
  intros Hs Ht Hl. unfold _claim_one, claim_transaction, transaction, act_bind at 1. rewrite query_bind. cbn [id].
  rewrite Hl, (starved_scan t) by (done || (intros i Hi; apply (starved_behind _ _ Hs);
    eapply window_stays; [apply Hs|apply Hs|exact Ht|apply Hs|exact Hi])). done.
Qed.
Lemma starved_items t now env n result w : starved t (wdb w) -> instant t <= instant now ->
  (forall k, d_locked (env k) = ∅) ->
  run_items casefold float_text unseal ex journal now env n result w = (Ok (add_held 0 result), w)
  \/ run_items casefold float_text unseal ex journal now env n result w = (Ok result, w).
Proof.
  intros Hs Ht Hl. destruct n as [|n]; cbn [run_items]; [by right|]. left. unfold act_bind.
  by rewrite (starved_claim t).
Qed.
Lemma starved_requeue t now w : starved t (wdb w) -> requeue_released_holds now w = (Ok tt, w).
Proof.
  intros Hs. unfold requeue_released_holds, transaction. rewrite query_bind.
  replace (select TAccountErasureItem retention_held (wdb w)) with (@nil (row TAccountErasureItem)); [done|].
  symmetry. destruct (select _ _ _) as [|i l] eqn:E; [done|exfalso].
  assert (i ∈ select TAccountErasureItem retention_held (wdb w)) as Hi by (rewrite E; left).
  destruct (proj1 (elem_of_select TAccountErasureItem _ _ _) Hi) as [[k Hk] Hp].
  apply (starved_idle _ _ Hs) in Hk. unfold retention_held in Hp. apply andb_prop in Hp as [Hp _].
  apply eqs_true in Hp. unfold idle, item_is in Hk. rewrite Hp in Hk. by vm_compute in Hk.
Qed.

Lemma starved_run t limit now env new_ids w r w' : starved t (wdb w) -> instant t <= instant now ->
  (forall k, d_locked (env k) = ∅) -> run limit now env new_ids w = (r, w') ->
  starved t (wdb w') /\ confined bookkeeping w w'.
Proof.
  intros Hs Ht Hl Hrun. assert (confined bookkeeping w w') as Hset.
  { revert Hrun. unfold run_once. destruct (negb _); [by intros [= <- <-]|]. destruct (_ || _); [by intros [= <- <-]|].
    unfold act_bind at 1. rewrite (starved_requeue t) by done. unfold act_bind at 1.
    assert (instant t <= instant (utc now)) as Ht' by (by rewrite instant_utc).
    destruct (starved_items t (utc now) env (Z.to_nat limit) (MkErasureResult 0 0 0 0 0) w Hs Ht' Hl) as [-> | ->];
      intros Hrun; (eapply keeps_bind; [apply _|apply confined_reconcile_all| |exact Hrun]); intros; apply keeps_ret, _. }
  split; [|done]. eapply starved_same; [|by apply confined_tables|done].
  eapply erases_keys; [by eapply steps_run_once|apply Hs].
Qed.

(** A run of the worker at [t] or later, no other worker holding a row lock. *)
Inductive later_run (t : datetime) (w w' : world) : Prop :=
| later limit now env new_ids r : instant t <= instant now -> (forall k, d_locked (env k) = ∅) ->
    run limit now env new_ids w = (r, w') -> later_run t w w'.
(** C22: when the first hundred due items all wait for their accounts' sessions to
    be revoked, no sequence of runs ever changes an item or a file again: the window
    never reaches the session items behind it, of these or of any other account. *)
Theorem full_window_starves t w w' : starved t (wdb w) -> rtc (later_run t) w w' ->
  tbl (wdb w') TAccountErasureItem = tbl (wdb w) TAccountErasureItem /\ wfs w' = wfs w.
Proof.
  intros Hs H. assert (confined bookkeeping w w') as Hc; [|split; [apply (confined_tables _ _ Hc); in_protected|apply Hc]].
  induction H as [w|w w1 w2 [limit now env new_ids r Hle Hl Hrun] _ IH]; [done|].
  destruct (starved_run _ _ _ _ _ _ _ _ Hs Hle Hl Hrun) as [Hs1 Hset]. transitivity w1; [done|by apply IH].
Qed.
End starvation.

(** ** A starved database *)

(** The conditions on the list of all items, in any order, when there are no holds. *)
Definition listed_window (t : datetime) (l : list AccountErasureItem) : list AccountErasureItem :=
  take claim_window (sort_by item_before (filter (fun i => due t i = true) l)).
Definition waits_for (s i : AccountErasureItem) : bool :=
  bool_decide (AccountErasureItem.deletion_id i = AccountErasureItem.deletion_id s)
  && negb (in_phases ["backup"] i) && negb (of_type "provider_session" i).
Definition starved_check (t : datetime) (l : list AccountErasureItem) : bool :=
  forallb idle l && (length (listed_window t l) =? claim_window)%nat
  && existsb (fun s => of_type "provider_session" s && in_phases ["provider"] s && negb (item_is "completed" s)
                       && forallb (waits_for s) (listed_window t l)) l.
Section listed.
Context (l : list AccountErasureItem) (d : db) (Hk : protected_keys d) (Hn : NoDup (map AccountErasureItem.id l)).
Context (Hl : tbl d TAccountErasureItem = list_to_map (map (fun i => (AccountErasureItem.id i, i)) l)).
Lemma listed_item k i : tbl d TAccountErasureItem !! k = Some i <-> i ∈ l /\ AccountErasureItem.id i = k.
Proof using Hn Hl.
  rewrite Hl. split.
  - intros H%elem_of_list_to_map_2. apply list_elem_of_fmap in H as (x & [= -> ->] & Hx). done.
  - intros [Hi <-]. apply elem_of_list_to_map_1.
    + rewrite <-list_fmap_compose. exact Hn.
    + apply list_elem_of_fmap. by exists i.
Qed.
Lemma listed_queue t : queue t d ≡ₚ filter (fun i => due t i = true) l.
Proof using Hk Hn Hl.
  apply NoDup_Permutation.
  - apply (NoDup_fmap_1 AccountErasureItem.id). by apply selected_items_nodup.
  - apply NoDup_filter, (NoDup_fmap_1 AccountErasureItem.id), Hn.
  - intros i. rewrite in_queue, list_elem_of_filter. setoid_rewrite listed_item. naive_solver.
Qed.
Lemma listed_window_eq t : window t d = listed_window t l.
Proof using Hk Hn Hl.
  unfold listed_window. f_equal.
  apply sort_by_unique; [apply item_before_total|apply item_before_trans| |apply listed_queue].
  intros x y [[kx Hx] _]%in_queue [[ky Hy] _]%in_queue H1 H2. pose proof (item_before_antisym _ _ H1 H2) as E.
  assert (kx = ky) as -> by (apply listed_item in Hx as [_ <-], Hy as [_ <-]; done).
  by pose proof (eq_trans (eq_sym Hx) Hy) as [= <-].
Qed.
Lemma starved_check_true t : tbl d TRetentionHold = ∅ -> starved_check t l = true -> starved t d.
Proof using Hk Hn Hl.
  unfold starved_check. rewrite !andb_true_iff, forallb_forall, Nat.eqb_eq, existsb_exists. intros Hh [[Hi Hf] (s & Hs & Hw)].
  rewrite !andb_true_iff, forallb_forall in Hw. destruct Hw as [[[Hty Hph] Hopen] Hw].
  apply list_elem_of_In in Hs. split; [done|..].
  - intros k h. rewrite Hh. intros H. exfalso. exact (eq_None_ne_Some_1 _ _ (lookup_empty k) H).
  - intros k i [Hin _]%listed_item. by apply Hi, list_elem_of_In.
  - by rewrite listed_window_eq.
  - intros i. rewrite listed_window_eq. intros Hin%list_elem_of_In%Hw. unfold waits_for in Hin.
    rewrite !andb_true_iff in Hin. destruct Hin as [[Hd Hb] Hn']. unfold behind_session. rewrite Hb, Hn'. cbn [andb].
    unfold _incomplete_items. apply existsb_exists. exists s. split; [|by rewrite Hty, Hph, andb_true_r].
    apply bool_decide_eq_true in Hd.
    apply list_elem_of_In, (in_select TAccountErasureItem _ _ (AccountErasureItem.id s)); [by apply listed_item|].
    by apply bool_decide_eq_true_2.
Qed.
End listed.
Module Starved.
Definition noon : datetime := MkDatetime 1000 (Some 0).
Definition item (ty phase : string) (i : str) : AccountErasureItem :=
  AccountErasureItem.Mk i (u "d") (u ty) i (u phase) (u "delete") (u "queued") 0 (Some noon) None None None None None
    None None noon noon None.
(** One hundred documents to unindex, and the session to revoke after them. *)
Definition documents : list AccountErasureItem :=
  map (fun k => item "document" "unindex" [Z.of_nat k]) (seq 1 100).
Definition session : AccountErasureItem := item "provider_session" "provider" [200].
Definition items : list AccountErasureItem := session :: documents.
Definition lifecycle : AccountLifecycle :=
  AccountLifecycle.Mk (u "d") (u "s") None None None None None None None (u "concealed") (u "pending")
    (u "expiry_pending") (u "v1") noon (Some noon) (Some noon) None None None.
Definition d : db := set_tbl TAccountErasureItem (list_to_map (map (fun i => (AccountErasureItem.id i, i)) items))
  (put TAccountLifecycle (u "d") lifecycle empty_db).
Lemma items_table : tbl d TAccountErasureItem = list_to_map (map (fun i => (AccountErasureItem.id i, i)) items).
Proof. apply tbl_set_eq. Qed.
Lemma other_table t : t <> TAccountErasureItem -> t <> TAccountLifecycle -> tbl d t = ∅.
Proof. intros H1 H2. unfold d. by rewrite tbl_set_ne, tbl_put_ne. Qed.
Lemma distinct : NoDup (map AccountErasureItem.id items).
Proof. apply (bool_decide_unpack _). vm_compute. exact I. Qed.
Lemma session_stored : tbl d TAccountErasureItem !! AccountErasureItem.id session = Some session.
Proof. apply (listed_item items d distinct items_table). split; [left|done]. Qed.
Lemma starved_db_keyed : protected_keys d.
Proof.
  intros t k r Ht Hr. destruct (decide (t = TAccountErasureItem)) as [->|H1].
  - rewrite items_table in Hr. apply elem_of_list_to_map_2, list_elem_of_fmap in Hr as (x & [= -> ->] & _). done.
  - destruct (decide (t = TAccountLifecycle)) as [->|H2]; [|].
    + unfold d in Hr. rewrite tbl_set_ne, tbl_put_eq in Hr by done.
      apply lookup_insert_Some in Hr as [[<- <-]|[_ Hr]]; [done|].
      exfalso. exact (eq_None_ne_Some_1 _ _ (lookup_empty k) Hr).
    + rewrite other_table in Hr by done. exfalso. exact (eq_None_ne_Some_1 _ _ (lookup_empty k) Hr).
Qed.
Lemma starved_at_noon : starved noon d.
Proof.
  apply (starved_check_true items); [exact starved_db_keyed|exact distinct|exact items_table|by apply other_table|].
  vm_compute. reflexivity.
Qed.
Definition w : world := MkWorld d ∅.
Definition settings : LifecycleSettings := MkLifecycleSettings None None None None None.
Definition executor : AccountErasureExecutor := MkErasureExecutor (MkVersionStore []) settings true (u "w") 8 60.
Definition draws : Draws := MkErasureDraws ∅ (u "t") (fun _ => u "n") noon (Raise OSError) (Ok Deleted) (Ok Deleted).
End Starved.
Lemma full_window_starves_witness :
  let run := run_once (fun s => s) (fun s => s) (fun _ _ _ _ => None) Starved.executor ∅ 1000 Starved.noon
               (fun _ => Starved.draws) (fun _ => u "n") in
  tbl Starved.d TAccountErasureItem !! AccountErasureItem.id Starved.session = Some Starved.session
  /\ decide_item Starved.d Starved.session = Some Lease
  /\ tbl (wdb (run Starved.w).2) TAccountErasureItem = tbl Starved.d TAccountErasureItem
  /\ wfs (run Starved.w).2 = ∅.
Proof.
  intros run. split; [exact Starved.session_stored|]. split; [vm_compute; reflexivity|].
  apply (full_window_starves (fun s => s) (fun s => s) (fun _ _ _ _ => None) Starved.executor ∅ Starved.noon
    Starved.w (run Starved.w).2).
  - exact Starved.starved_at_noon.
  - apply rtc_once. refine (later _ _ _ _ _ _ _ _ 1000 Starved.noon (fun _ => Starved.draws) (fun _ => u "n") _ _ _ _);
      [reflexivity|intros k; reflexivity|apply surjective_pairing].
Defined.
