(* ===== verification/AccountErasureSafety.v ===== *)
(** * What the erasure of accounts guarantees

    A run of the executor is a sequence of steps of [AccountErasureSteps].  From it:
    an account is reported erased only when its items are done, the provider is gone
    and its backups are proven retired, and this is final; an account stays unfinished
    as long as the current backup generation is owed a proof, which is forever; and
    reserved names are never given back. *)
From S2P Require Import Prelude PyTime Json Models Database ForeignKeys HoldLineage Sha256 JsonText Lifecycle.
From S2P Require Import Disk Storage World BackupAuthority BackupAuthorityFacts Projections AccountErasure.
From S2P Require Import AccountErasureSteps.
Local Open Scope Z_scope.

(** ** Steps of items and lifecycles *)
Lemma item_step_deletion ex d i i' : item_step ex d i i' ->
  AccountErasureItem.deletion_id i' = AccountErasureItem.deletion_id i.
Proof. destruct 1; try done. unfold failed_item. by repeat case_match. Qed.
Lemma due_not_completed now i : due now i = true -> AccountErasureItem.state i <> u "completed".
Proof. intros H%due_live E. unfold item_is in H. rewrite E in H. vm_compute in H. done. Qed.
Lemma live_not_completed i : item_is "queued" i || item_is "leased" i = true ->
  AccountErasureItem.state i <> u "completed".
Proof. intros H E. unfold item_is in H. rewrite E in H. vm_compute in H. done. Qed.
Lemma held_not_completed i : retention_held i = true -> AccountErasureItem.state i <> u "completed".
Proof. unfold retention_held. intros [H _]%andb_true_iff E. rewrite E in H. vm_compute in H. done. Qed.
Lemma item_step_open ex d i i' : item_step ex d i i' -> AccountErasureItem.state i <> u "completed".
Proof.
  destruct 1; eauto using live_not_completed, due_not_completed, held_not_completed;
    apply live_not_completed, orb_true_iff; by right.
Qed.
Lemma running_open l : running l = true -> AccountLifecycle.state l <> u "fully_erased".
Proof. unfold running. intros [_ H]%andb_true_iff E. rewrite E in H. vm_compute in H. done. Qed.
(** A lifecycle step never reaches the end, and keeps what an ended lifecycle needs. *)
Lemma lifecycle_step_erased d l l' : lifecycle_step d l l' -> AccountLifecycle.state l' = u "fully_erased" ->
  AccountLifecycle.state l = u "fully_erased" /\ (provider_erased l = true -> provider_erased l' = true).
Proof.
  intros [state code _ Hin|now _ _ _ _|i _ _|Hv|_] H.
  - exfalso. destruct Hin; by vm_compute in H.
  - exfalso. vm_compute in H. done.
  - split; [exact H|]. unfold provider_erased. intros [[_ H1]%andb_prop H2]%andb_prop. by rewrite !andb_true_iff.
  - split; [exact H|]. unfold provider_erased. intros [[H1 _]%andb_prop _]%andb_prop. by rewrite !andb_true_iff.
  - split; [exact H|done].
Qed.
Lemma step_confirmed d l l' : lifecycle_step d l l' -> AccountLifecycle.confirmed_at l' = AccountLifecycle.confirmed_at l.
Proof. destruct 1; try done. unfold live_erased. by destruct (AccountLifecycle.live_erased_at l). Qed.

(** ** The end of an erasure *)

(** What the database shows for an account reported as fully erased. *)
Record settled (d : db) (l : AccountLifecycle) : Prop := {
  settled_items : forall k i, tbl d TAccountErasureItem !! k = Some i ->
    AccountErasureItem.deletion_id i = AccountLifecycle.id l -> AccountErasureItem.state i = u "completed";
  settled_provider : provider_erased l = true;
  settled_backups : forall k o, tbl d TAccountBackupObligation !! k = Some o ->
    AccountBackupObligation.deletion_id o = AccountLifecycle.id l -> obligation_verified o = true;
  settled_tombstone : exists k t, tbl d TAccountLifecycleTombstone !! k = Some t
    /\ AccountLifecycleTombstone.deletion_id t = AccountLifecycle.id l
}.
Definition erased_ok (d : db) : Prop := forall k l, tbl d TAccountLifecycle !! k = Some l ->
  AccountLifecycle.state l = u "fully_erased" -> settled d l.
(** Every account erased stays so. *)
Definition stays_erased (d d' : db) : Prop := forall k l, tbl d TAccountLifecycle !! k = Some l ->
  AccountLifecycle.state l = u "fully_erased" ->
  exists l', tbl d' TAccountLifecycle !! k = Some l' /\ AccountLifecycle.state l' = u "fully_erased".
Global Instance stays_erased_preorder : PreOrder stays_erased.
Proof.
  split; [by intros d k l Hl Hs; exists l|]. intros a b c H1 H2 k l Hl Hs.
  destruct (H1 _ _ Hl Hs) as (l1 & Hl1 & Hs1). by apply (H2 _ _ Hl1).
Qed.

(** [settled] only reads these tables. *)
Lemma settled_same d d' l : (forall t, t ∈ [TAccountErasureItem; TAccountBackupObligation; TAccountLifecycleTombstone] ->
  tbl d' t = tbl d t) -> settled d l -> settled d' l.
Proof.
  intros H [Hi Hp Ho Ht]. split; [|done|..].
  - intros k i. rewrite (H TAccountErasureItem) by in_protected. apply Hi.
  - intros k o. rewrite (H TAccountBackupObligation) by in_protected. apply Ho.
  - rewrite (H TAccountLifecycleTombstone) by in_protected. apply Ht.
Qed.
Lemma settled_put_lifecycle d k x l : settled d l -> settled (put TAccountLifecycle k x d) l.
Proof.
  apply settled_same. intros t Ht. apply tbl_put_ne. intros <-. revert Ht.
  apply (bool_decide_unpack _). vm_compute. exact I.
Qed.
Lemma settled_lifecycle d l l' : AccountLifecycle.id l' = AccountLifecycle.id l ->
  (provider_erased l = true -> provider_erased l' = true) -> settled d l -> settled d l'.
Proof. intros E Hp [H1 H2 H3 H4]. split; rewrite ?E; auto. Qed.
Lemma settled_add_tombstone d i t l : tbl d TAccountLifecycleTombstone !! i = None -> settled d l ->
  settled (put TAccountLifecycleTombstone i t d) l.
Proof.
  intros Hn [H1 H2 H3 (k & t' & Hk & Ht)]. split; [|done|..].
  - intros j x. rewrite tbl_put_ne by done. apply H1.
  - intros j x. rewrite tbl_put_ne by done. apply H3.
  - exists k, t'. split; [|done]. rewrite tbl_put_eq, lookup_insert_ne; [done|]. intros ->. exact (eq_None_ne_Some_1 _ _ Hn Hk).
Qed.
Lemma tombstone_for_some i d : tombstone_for i d <> None ->
  exists k t, tbl d TAccountLifecycleTombstone !! k = Some t /\ AccountLifecycleTombstone.deletion_id t = i.
Proof.
  unfold tombstone_for. intros H. destruct (head _) as [t|] eqn:E; [|done]. apply head_Some_elem_of in E.
  destruct (proj1 (elem_of_select TAccountLifecycleTombstone _ _ _) E) as [[k Hk] Hp].
  exists k, t. by apply bool_decide_eq_true in Hp.
Qed.
Lemma done_settled d l now : erasure_done d l ->
  (exists k t, tbl d TAccountLifecycleTombstone !! k = Some t
     /\ AccountLifecycleTombstone.deletion_id t = AccountLifecycle.id l) ->
  settled d (fully_erased now (live_erased now l)).
Proof.
  intros [Hi Hp _ Ho] Ht. apply settled_lifecycle with l.
  - apply id_live_erased.
  - intros H. unfold live_erased. by destruct (AccountLifecycle.live_erased_at l).
  - split; [|done| |done].
    + intros k i Hk E. apply Hi. by apply (in_select TAccountErasureItem _ _ _ _ Hk), bool_decide_eq_true_2.
    + intros k o Hk E. apply Ho. by apply (in_select TAccountBackupObligation _ _ _ _ Hk), bool_decide_eq_true_2.
Qed.
Lemma settled_tombstone_put d i x l : tbl d TAccountLifecycleTombstone !! i = None ->
  AccountLifecycleTombstone.deletion_id x = AccountLifecycle.id l -> erasure_done d l ->
  forall now, settled (put TAccountLifecycleTombstone i x d) (fully_erased now (live_erased now l)).
Proof.
  intros Hn E [Hi Hp Hs Ho] now. apply done_settled.
  - split; [|done|..]; try (unfold items_of, obligations_of, projection_states, select; rewrite !tbl_put_ne by done; done).
  - exists i, x. rewrite tbl_put_eq, lookup_insert_eq. done.
Qed.
Lemma settled_item ex d i i' l : tbl d TAccountErasureItem !! AccountErasureItem.id i = Some i ->
  item_step ex d i i' -> settled d l -> settled (put TAccountErasureItem (AccountErasureItem.id i) i' d) l.
Proof.
  intros Hi Hs [H1 H2 H3 H4]. split; [|done|..].
  - intros k x. rewrite tbl_put_eq. intros [[_ <-]|[_ Hk]]%lookup_insert_Some; [|by apply H1 with k].
    rewrite (item_step_deletion _ _ _ _ Hs). intros E. destruct (item_step_open _ _ _ _ Hs). by eapply H1.
  - intros k o. rewrite tbl_put_ne by done. apply H3.
  - rewrite tbl_put_ne by done. apply H4.
Qed.
Lemma settled_obligation d o digest now l : tbl d TAccountBackupObligation !! AccountBackupObligation.id o = Some o ->
  settled d l -> settled (put TAccountBackupObligation (AccountBackupObligation.id o) (verified_obligation digest now o) d) l.
Proof.
  intros Ho [H1 H2 H3 H4]. split; [|done|..].
  - intros k i. rewrite tbl_put_ne by done. apply H1.
  - intros k x. rewrite tbl_put_eq. intros [[_ <-]|[_ Hk]]%lookup_insert_Some; [done|by apply H3 with k].
  - rewrite tbl_put_ne by done. apply H4.
Qed.
(** What a step does to the lifecycle under a key. *)
Lemma erased_step ex d d' : erasure_step ex d d' -> erased_ok d -> erased_ok d' /\ stays_erased d d'.
Proof.
  intros Hs H. destruct Hs as [i i' Hi Hs|l l' Hl Hs|m o dg e now Hm Ho Hg Hr|l now d2 Hl Hr Hd d1 Hend|d2 Ho].
  - split.
    + intros k l. rewrite tbl_put_ne by done. intros Hl E. eapply settled_item; [done..|]. by eapply H.
    + intros k l Hl E. exists l. by rewrite tbl_put_ne.
  - pose proof (lifecycle_step_erased _ _ _ Hs) as Herased. pose proof (lifecycle_step_id _ _ _ Hs) as Hid. split.
    + intros k x. rewrite tbl_put_eq. intros [[<- <-]|[_ Hk]]%lookup_insert_Some E; apply settled_put_lifecycle.
      * destruct (Herased E) as [E0 Hp]. apply settled_lifecycle with l; [done..|]. by eapply H.
      * by eapply H.
    + intros k x Hx E. rewrite tbl_put_eq. destruct (decide (AccountLifecycle.id l = k)) as [<-|Hne].
      * rewrite lookup_insert_eq. exists l'. split; [done|]. pose proof (eq_trans (eq_sym Hl) Hx) as [= ->].
        destruct Hs as [? ? Hr|? Hr| | |]; [by destruct (running_open _ Hr)..|exact E|exact E|exact E].
      * rewrite lookup_insert_ne by done. by exists x.
  - split.
    + intros k l. rewrite tbl_put_ne by done. intros Hl E. apply settled_obligation; [done|]. by eapply H.
    + intros k l Hl E. exists l. by rewrite tbl_put_ne.
  - assert (forall k x, tbl d1 TAccountLifecycle !! k = Some x ->
      (k = AccountLifecycle.id l /\ x = fully_erased now (live_erased now l)) \/ tbl d TAccountLifecycle !! k = Some x) as Hk.
    { intros k x. unfold d1. rewrite tbl_put_eq. intros [[<- <-]|[_ ?]]%lookup_insert_Some; [by left|by right]. }
    assert (stays_erased d d1) as Hstay.
    { intros k x Hx E. unfold d1. rewrite tbl_put_eq. destruct (decide (AccountLifecycle.id l = k)) as [<-|Hne].
      - rewrite lookup_insert_eq. by eexists.
      - rewrite lookup_insert_ne by done. by exists x. }
    destruct Hend as [[-> Ht]|(i & dg & _ & Hn & ->)]; (split; [|done]).
    + intros k x [[-> ->]|Hx]%Hk E; apply settled_put_lifecycle; [|by eapply H].
      apply done_settled; [done|]. by apply tombstone_for_some.
    + intros k x. rewrite tbl_put_ne by done. intros [[-> ->]|Hx]%Hk E.
      * apply settled_same with (put TAccountLifecycleTombstone i (AccountLifecycleTombstone.Mk i (AccountLifecycle.id l)
          (AccountLifecycle.policy_version l) (u "fully_erased") dg now) d); [|by apply settled_tombstone_put].
        intros t Ht. unfold d1. destruct (decide (t = TAccountLifecycleTombstone)) as [->|Hne].
        { by rewrite !tbl_put_eq, tbl_put_ne. }
        rewrite !tbl_put_ne; [done|done| |done]. intros <-. revert Ht. apply (bool_decide_unpack _). vm_compute. exact I.
      * apply settled_add_tombstone; [by unfold d1; rewrite tbl_put_ne|]. apply settled_put_lifecycle. by eapply H.
  - split.
    + intros k l. rewrite (proj1 Ho TAccountLifecycle) by in_protected. intros Hl E. apply settled_same with d; [|by eapply H].
      intros t Ht. apply (proj1 Ho). rewrite !elem_of_cons in Ht. destruct Ht as [->|[->|[->|[]%elem_of_nil]]]; in_protected.
    + intros k l Hl E. exists l. by rewrite (proj1 Ho TAccountLifecycle) by in_protected.
Qed.
Lemma erased_run ex d d' : erases ex d d' -> protected_keys d -> erased_ok d -> erased_ok d' /\ stays_erased d d'.
Proof.
  intros H Hk. specialize (H Hk). clear Hk. induction H as [|a b c Hs _ IH]; [done|]. intros Hok.
  apply erased_step in Hs as [Hb Hab]; [|done]. destruct (IH Hb) as [Hc Hbc]. split; [done|]. by transitivity b.
Qed.
Lemma registered_erased args now m d d' : protected_keys d -> registered args now m d d' -> erased_ok d -> erased_ok d'.
Proof.
  intros Hk Hreg H k l Hl E.
  assert (tbl d' TAccountLifecycle = tbl d TAccountLifecycle) as El by (apply (reg_other _ _ _ _ _ Hreg); not_in).
  rewrite El in Hl. destruct (H _ _ Hl E) as [H1 H2 H3 (kt & t & Ht & Et)].
  assert (forall x, open_lifecycle x = true /\ (exists j, tbl d TAccountLifecycle !! j = Some x) ->
    AccountLifecycle.id x <> AccountLifecycle.id l) as Hne.
  { intros x [Ho [j Hx]] Eid.
    assert (AccountLifecycle.id x = j) as Ej by (apply (Hk TAccountLifecycle); [in_protected|done]).
    assert (AccountLifecycle.id l = k) as Ek by (apply (Hk TAccountLifecycle); [in_protected|done]).
    assert (j = k) as -> by congruence. clear Ej Ek.
    pose proof (eq_trans (eq_sym Hx) Hl) as [= ->]. unfold open_lifecycle in Ho. rewrite E in Ho.
    by rewrite andb_false_r in Ho. }
  split; [|done|..].
  - intros j i Hi Ei. destruct (proj2 (reg_attached _ _ _ _ _ Hreg) _ _ Hi) as [|(x & Hx & ->)]; [by apply H1 with j|].
    by destruct (Hne _ Hx).
  - intros j o Ho Eo. destruct (proj1 (reg_attached _ _ _ _ _ Hreg) _ _ Ho) as [|(x & Hx & ->)]; [by apply H3 with j|].
    by destruct (Hne _ Hx).
  - exists kt, t. split; [|done]. by apply (reg_kept _ _ _ _ _ Hreg TAccountLifecycleTombstone).
Qed.

(** ** An account the current generation may hold *)

(** The account of lifecycle [k] is open and its proof for the current backup
    generation is outstanding. *)
Definition owed (k : str) (d : db) : Prop :=
  exists l a j o, tbl d TAccountLifecycle !! k = Some l /\ open_lifecycle l = true
    /\ tbl d TAccountBackupAuthority !! ACCOUNT_BACKUP_AUTHORITY_ID = Some a
    /\ tbl d TAccountBackupObligation !! j = Some o /\ AccountBackupObligation.deletion_id o = k
    /\ AccountBackupObligation.generation_id o = AccountBackupAuthority.current_generation_id a
    /\ obligation_verified o = false.
Lemma owed_open k d : owed k d -> exists l, tbl d TAccountLifecycle !! k = Some l
  /\ AccountLifecycle.state l <> u "fully_erased".
Proof.
  intros (l & _ & _ & _ & Hl & Ho & _). exists l. split; [done|]. intros E. unfold open_lifecycle in Ho.
  rewrite E in Ho. by rewrite andb_false_r in Ho.
Qed.
Lemma retired_state m expires now : retirement m expires now <> None -> AccountBackupManifest.state m <> u "active".
Proof.
  intros H E. apply H. unfold retirement. rewrite E.
  replace (eqs (u "active") "expired") with false by reflexivity.
  replace (eqs (u "active") "crypto_destroyed") with false by reflexivity. cbn [andb].
  by repeat case_match.
Qed.
Lemma backups_ok_same d d' : protected_keys d' ->
  (forall t, t ∈ [TAccountBackupManifest; TAccountBackupAuthority] -> tbl d' t = tbl d t) -> backups_ok d -> backups_ok d'.
Proof.
  intros Hk H [_ Hu Hc]. split; [done|..].
  - intros k k' m m'. rewrite (H TAccountBackupManifest) by in_protected. apply Hu.
  - intros a. rewrite (H TAccountBackupManifest), (H TAccountBackupAuthority) by in_protected. apply Hc.
Qed.
Lemma owed_put_other t i r k d : t ∉ [TAccountLifecycle; TAccountBackupAuthority; TAccountBackupObligation] ->
  owed k d -> owed k (put t i r d).
Proof.
  rewrite !not_elem_of_cons. intros (H1 & H2 & H3 & _) (l & a & j & o & H). exists l, a, j, o.
  by rewrite !tbl_put_ne by congruence.
Qed.
Lemma open_step d l l' : lifecycle_step d l l' -> open_lifecycle l = true -> open_lifecycle l' = true.
Proof.
  intros Hs. unfold open_lifecycle. rewrite (step_confirmed _ _ _ Hs). intros [-> H]%andb_prop. cbn [andb].
  apply negb_true_iff, not_true_iff_false. intros E%eqs_true.
  destruct (lifecycle_step_erased _ _ _ Hs E) as [E' _]. rewrite E' in H. by vm_compute in H.
Qed.
Lemma owed_step ex k d d' : erasure_step ex d d' -> backups_ok d -> owed k d -> owed k d'.
Proof.
  intros Hs Hok Ho. pose proof (backups_keys _ Hok) as Hk.
  destruct Hs as [i i' Hi Hs|l l' Hl Hs|m o dg e now Hm Hobl Hg Hr|l now d2 Hl Hr Hd d1 Hend|d2 Hs].
  - by apply owed_put_other; [not_in|].
  - destruct Ho as (l0 & a & j & o & Hl0 & Hopen & Ha & Hob & Hrest). destruct (decide (AccountLifecycle.id l = k)) as [<-|Hne].
    + pose proof (eq_trans (eq_sym Hl) Hl0) as [= <-]. exists l', a, j, o. split_and!; try apply Hrest.
      * rewrite tbl_put_eq. apply lookup_insert_eq.
      * by eapply open_step.
      * by rewrite tbl_put_ne.
      * by rewrite tbl_put_ne.
    + exists l0, a, j, o. rewrite tbl_put_eq, lookup_insert_ne, !tbl_put_ne by done. by split_and!; try apply Hrest.
  - destruct Ho as (l0 & a & j & o0 & Hl0 & Hopen & Ha & Hob & Hdel & Hgen & Hv).
    exists l0, a, j, o0. rewrite tbl_put_eq, !tbl_put_ne by done. split_and!; try done. rewrite lookup_insert_ne; [done|].
    intros <-. pose proof (eq_trans (eq_sym Hob) Hobl) as [= ->].
    destruct (backups_current _ Hok _ Ha) as (km & m0 & Hm0 & Hg0 & Hs0).
    assert (km = AccountBackupManifest.id m) as ->.
    { apply (backups_unique _ Hok _ _ _ _ Hm0 Hm). congruence. }
    pose proof (eq_trans (eq_sym Hm0) Hm) as [= ->]. by destruct (retired_state _ _ _ Hr).
  - destruct (decide (AccountLifecycle.id l = k)) as [<-|Hne].
    + exfalso. destruct Ho as (l0 & a & j & o & Hl0 & Hopen & Ha & Hob & Hdel & Hgen & Hv).
      rewrite (done_obligations _ _ Hd o) in Hv; [done|].
      by apply (in_select TAccountBackupObligation _ _ _ _ Hob), bool_decide_eq_true_2.
    + assert (owed k d1) as H1.
      { destruct Ho as (l0 & a & j & o & H). exists l0, a, j, o. unfold d1.
        by rewrite tbl_put_eq, lookup_insert_ne, !tbl_put_ne. }
      destruct Hend as [[-> _]|(i & dg & _ & _ & ->)]; [done|]. by apply owed_put_other; [not_in|].
  - destruct Ho as (l0 & a & j & o & H). exists l0, a, j, o.
    rewrite (proj1 Hs TAccountLifecycle), (proj1 Hs TAccountBackupAuthority), (proj1 Hs TAccountBackupObligation) by in_protected. done.
Qed.
Lemma backups_ok_step ex d d' : erasure_step ex d d' -> backups_ok d -> backups_ok d'.
Proof.
  intros Hs Hok. pose proof (erasure_step_keys _ _ _ Hs (backups_keys _ Hok)) as Hk. apply backups_ok_same with d; [done| |done].
  intros t Ht. assert (t = TAccountBackupManifest \/ t = TAccountBackupAuthority) as Ht'.
  { rewrite !elem_of_cons in Ht. destruct Ht as [?|[?|[]%elem_of_nil]]; auto. }
  destruct Hs as [| | |? ? ? _ _ _ ? [[-> _]|(? & ? & _ & _ & ->)]|? Ho]; try (by destruct Ht' as [->| ->]; rewrite ?tbl_put_ne).
  destruct Ht' as [->| ->]; apply (proj1 Ho); in_protected.
Qed.
Lemma owed_run ex k d d' : erases ex d d' -> backups_ok d -> owed k d -> backups_ok d' /\ owed k d'.
Proof.
  intros H Hok. specialize (H (backups_keys _ Hok)). revert Hok.
  induction H as [|a b c Hs _ IH]; [done|]. intros Hok Ho. apply IH; [by eapply backups_ok_step|by eapply owed_step].
Qed.
Lemma registered_owed args now m k d d' : registered args now m d d' ->
  AccountBackupManifest.generation_id m = generation_id args -> protected_keys d -> owed k d -> owed k d'.
Proof.
  intros Hreg Hg Hk (l & _ & _ & _ & Hl & Hopen & _).
  destruct (reg_authority _ _ _ _ _ Hreg) as (a & Ha & Hga).
  destruct (reg_obligations _ _ _ _ _ Hreg _ _ Hl Hopen) as [[j Hj] _].
  exists l, a, j, (new_obligation j l m). split_and!; [|done..| |by rewrite Hga|done].
  - rewrite (reg_other _ _ _ _ _ Hreg) by not_in. done.
  - cbn. apply (Hk TAccountLifecycle); [in_protected|done].
Qed.

(** ** The provider's refusal *)

(** Every provider state "unsupported" was there before. *)
Definition no_new_refusal (d d' : db) : Prop := forall k l', tbl d' TAccountLifecycle !! k = Some l' ->
  AccountLifecycle.provider_state l' = u "unsupported" ->
  exists l, tbl d TAccountLifecycle !! k = Some l /\ AccountLifecycle.provider_state l = u "unsupported".
Global Instance no_new_refusal_preorder : PreOrder no_new_refusal.
Proof.
  split; [by intros d k l Hl E; exists l|]. intros a b c H1 H2 k l Hl E.
  destruct (H2 _ _ Hl E) as (l1 & Hl1 & E1). by apply (H1 _ _ Hl1).
Qed.
Lemma refusal_put d l l' : tbl d TAccountLifecycle !! AccountLifecycle.id l = Some l ->
  (AccountLifecycle.provider_state l' = u "unsupported" -> AccountLifecycle.provider_state l = u "unsupported") ->
  no_new_refusal d (put TAccountLifecycle (AccountLifecycle.id l) l' d).
Proof.
  intros Hl H k x. rewrite tbl_put_eq. intros [[<- <-]|[_ Hk]]%lookup_insert_Some E; [exists l; auto|by exists x].
Qed.
Lemma refusal_step ex d d' : erasure_step ex d d' -> no_new_refusal d d'.
Proof.
  assert (forall l now, AccountLifecycle.provider_state (live_erased now l) = AccountLifecycle.provider_state l) as Hlive
    by (intros l now; unfold live_erased; by destruct (AccountLifecycle.live_erased_at l)).
  assert (forall t i r d0, t <> TAccountLifecycle -> no_new_refusal d0 (put t i r d0)) as Hother
    by (intros t i r d0 Ht k l; rewrite tbl_put_ne by done; intros Hl E; by exists l).
  intros [i i' Hi Hs|l l' Hl Hs|m o dg e now Hm Ho Hg Hr|l now d2 Hl Hr Hd d1 Hend|d2 Ho]; [by apply Hother| |by apply Hother|..].
  - apply refusal_put; [done|]. destruct Hs; try done. cbn. by rewrite Hlive.
  - transitivity d1; [apply refusal_put; [done|]; cbn; by rewrite Hlive|].
    destruct Hend as [[-> _]|(i & dg & _ & _ & ->)]; [done|by apply Hother].
  - intros k l. rewrite (proj1 Ho TAccountLifecycle) by in_protected. intros Hl E. by exists l.
Qed.

(** ** The system *)
Section system.
Context (casefold : str -> str) (float_text : str -> str)
  (unseal : bytes -> bytes -> bytes -> bytes -> option bytes)
  (parse_timestamp : str -> str -> option datetime) (role_check : Res unit).

(** A run of an executor, or a command of the operator. *)
Inductive system_step (w w' : world) : Prop :=
| system_erases ex journal limit now env new_ids r :
    run_once casefold float_text unseal ex journal limit now env new_ids w = (r, w') -> system_step w w'
| system_operates : operator_step parse_timestamp role_check (wdb w) (wdb w') -> wfs w' = wfs w -> system_step w w'.

(** C18: an account reported as fully erased has all its items completed, its
    provider identity verified gone with both ciphertexts erased, all its backup
    obligations verified and its tombstone written; runs and commands preserve
    this, and never take the report back. *)
Theorem fully_erased_means_erased w w' : system_step w w' -> protected_keys (wdb w) -> erased_ok (wdb w) ->
  erased_ok (wdb w') /\ stays_erased (wdb w) (wdb w').
Proof.
  intros [ex journal limit now env new_ids r H|[args now new_ids r H|args now r H] _] Hk Hok.
  - eapply erased_run; [by eapply steps_run_once|done..].
  - apply register_effect in H as [->|(m & ls & _ & Hreg & _)]; [done| |done].
    split; [by eapply registered_erased|]. intros k l Hl E. exists l.
    by rewrite (reg_other _ _ _ _ _ Hreg) by not_in.
  - apply retire_effect in H as [->|(a & m & k & ls & _ & _ & _ & _ & _ & _ & _ & _ & ->)]; [done|]. split.
    + intros j l. rewrite tbl_put_ne by done. intros Hl E. apply settled_same with (wdb w); [|by eapply Hok].
      intros t Ht. apply tbl_put_ne. intros <-. revert Ht. apply (bool_decide_unpack _). vm_compute. exact I.
    + intros j l Hl E. exists l. by rewrite tbl_put_ne.
Qed.

Lemma owed_system k w w' : system_step w w' -> backups_ok (wdb w) -> owed k (wdb w) ->
  backups_ok (wdb w') /\ owed k (wdb w').
Proof.
  intros [ex journal limit now env new_ids r H|Hop _] Hok Ho.
  - eapply owed_run; [by eapply steps_run_once|done..].
  - split; [by eapply backups_step|]. destruct Hop as [args now new_ids r H|args now r H].
    + apply register_effect in H as [->|(m & ls & _ & Hreg & _ & Hg)]; [done| |by apply backups_keys].
      eapply registered_owed; [done..| |done]. by apply backups_keys.
    + apply retire_effect in H as [->|(a & m & j & ls & _ & _ & _ & _ & _ & _ & _ & _ & ->)]; [done|].
      by apply owed_put_other; [not_in|].
Qed.
(** Reserved names are never given back. *)
Lemma reservations_step ex d d' : erasure_step ex d d' -> tbl d TIdentifierReservation ⊆ tbl d' TIdentifierReservation.
Proof.
  intros [i i' _ _|l l' _ _|m o dg e now _ _ _ _|l now d2 _ _ _ d1 Hend|d2 Ho]; [by rewrite tbl_put_ne..| |exact (proj2 Ho)].
  destruct Hend as [[-> _]|(i & dg & _ & _ & ->)]; unfold d1; by rewrite !tbl_put_ne.
Qed.
Lemma reservations_system w w' : system_step w w' -> protected_keys (wdb w) ->
  protected_keys (wdb w') /\ tbl (wdb w) TIdentifierReservation ⊆ tbl (wdb w') TIdentifierReservation.
Proof.
  intros [ex journal limit now env new_ids r H|[args now new_ids r H|args now r H] _] Hk.
  - apply steps_run_once in H. split; [by eapply erases_keys|]. specialize (H Hk). clear Hk.
    induction H as [|a b c Hs _ IH]; [done|]. etrans; [by eapply reservations_step|exact IH].
  - split; [by eapply register_keys|]. apply register_effect in H as [->|(m & ls & _ & Hreg & _)]; [done| |done].
    by rewrite (reg_other _ _ _ _ _ Hreg) by not_in.
  - apply retire_effect in H as [->|(a & m & k & ls & _ & _ & Hm & _ & _ & _ & _ & _ & ->)]; [done|]. split.
    + apply protected_keys_put; [done|]. by apply row_id_retired.
    + by rewrite tbl_put_ne.
Qed.
Lemma reservations_kept w w' k x : rtc system_step w w' -> protected_keys (wdb w) ->
  tbl (wdb w) TIdentifierReservation !! k = Some x -> tbl (wdb w') TIdentifierReservation !! k = Some x.
Proof.
  induction 1 as [|w w1 w2 Hs _ IH]; [done|]. intros Hk Hx. destruct (reservations_system _ _ Hs Hk) as [Hk1 Hsub].
  apply IH; [done|]. by eapply lookup_weaken.
Qed.
(** C21: once an open deletion is owed a proof for the current backup generation,
    as every deletion is after a registration, no sequence of executor runs and
    operator commands reports it fully erased: the current generation cannot be
    retired, and registering its successor attaches the successor to the deletion,
    even when the live data was erased before the successor was captured. *)
Theorem owed_account_never_erased k w w' : rtc system_step w w' -> backups_ok (wdb w) -> owed k (wdb w) ->
  exists l, tbl (wdb w') TAccountLifecycle !! k = Some l /\ AccountLifecycle.state l <> u "fully_erased".
Proof.
  induction 1 as [w|w w1 w2 Hs _ IH]; intros Hok Ho; [by apply owed_open|].
  destruct (owed_system _ _ _ Hs Hok Ho) as [Hok1 Ho1]. by apply IH.
Qed.
(** C23: no run of the executor records the provider state "unsupported": the write
    made when the provider refuses a deletion for good is rolled back by the
    exception that reports it. *)
Theorem refusal_never_recorded ex journal limit now env new_ids w r w' : protected_keys (wdb w) ->
  run_once casefold float_text unseal ex journal limit now env new_ids w = (r, w') -> no_new_refusal (wdb w) (wdb w').
Proof.
  intros Hk H. pose proof (steps_run_once _ _ _ _ _ _ _ _ _ _ _ _ H Hk) as Hr. clear Hk H.
  induction Hr as [|a b c Hs _ IH]; [done|]. transitivity b; [by eapply refusal_step|done].
Qed.
End system.

(** ** Concrete runs *)
Module ErasureDemo.
Import BackupDemo.
Definition settings : LifecycleSettings := MkLifecycleSettings (Some (u "key")) (Some (u "key")) None None None.
Definition executor : AccountErasureExecutor := MkErasureExecutor (MkVersionStore []) settings true (u "w") 8 60.
(** The provider refuses; the session is revoked. *)
Definition draws : Draws :=
  MkErasureDraws ∅ (u "t") (fun k => [Z.of_nat k]) noon (Raise OSError) (Ok Deleted) (Ok PermanentUnsupported).
Definition unseal (_ _ _ _ : bytes) : option bytes := Some (u "user").
Definition run : act world AccountErasureRunResult :=
  run_once (fun s => s) (fun s => s) unseal executor ∅ 5 noon (fun _ => draws) (fun _ => u "stone").
Definition item (ty phase state : string) : AccountErasureItem :=
  AccountErasureItem.Mk (u ty) (u "d") (u ty) (u "r") (u phase) (u "delete") (u state) 0 (Some noon) None None None None
    None None None noon noon None.
Definition authority : AccountBackupAuthority :=
  AccountBackupAuthority.Mk ACCOUNT_BACKUP_AUTHORITY_ID (u "g0") noon noon.
Definition ciphertext : str := u "v1." ++ replicate 40 65.
(** A deletion whose provider identity is still to be deleted. *)
Definition refused : world := MkWorld
  (put TAccountErasureItem (u "provider_user") (item "provider_user" "provider" "queued")
    (put TAccountLifecycle (u "d") (lifecycle <| AccountLifecycle.provider_subject_ciphertext := Some ciphertext |>)
      (put TAccountBackupAuthority ACCOUNT_BACKUP_AUTHORITY_ID authority empty_db))) ∅.
(** A deletion with nothing left to do. *)
Definition finished : world := MkWorld
  (put TAccountErasureItem (u "provider_user") (item "provider_user" "provider" "completed")
    (put TAccountLifecycle (u "d") (with_provider_state "verified" lifecycle)
      (put TAccountBackupAuthority ACCOUNT_BACKUP_AUTHORITY_ID authority empty_db))) ∅.
Definition state_in (w : world) : option (str * str) :=
  (fun l => (AccountLifecycle.state l, AccountLifecycle.provider_state l)) <$> tbl (wdb w) TAccountLifecycle !! u "d".
Definition not_reported (d : db) : bool :=
  all_entries TAccountLifecycle (fun _ l => negb (eqs (AccountLifecycle.state l) "fully_erased")) d.
Lemma not_reported_ok d : not_reported d = true -> erased_ok d.
Proof.
  intros H k l Hl E. pose proof (all_entries_true _ _ _ _ _ H Hl) as Hn. cbv beta in Hn. rewrite E in Hn.
  by vm_compute in Hn.
Qed.
Lemma owed_d1 : owed (u "d") d1.
Proof.
  destruct (tbl d1 TAccountBackupAuthority !! ACCOUNT_BACKUP_AUTHORITY_ID) as [a|] eqn:Ha; [|by vm_compute in Ha].
  destruct (tbl d1 TAccountBackupObligation !! [1; 1]) as [o|] eqn:Ho; [|by vm_compute in Ho].
  exists lifecycle, a, [1; 1], o. vm_compute in Ha, Ho. injection Ha as <-. injection Ho as <-.
  split_and!; vm_compute; reflexivity.
Qed.
End ErasureDemo.
Lemma refusal_never_recorded_witness :
  (ErasureDemo.run ErasureDemo.refused).1 = Ok (MkErasureResult 1 0 0 0 1)
  /\ no_new_refusal (wdb ErasureDemo.refused) (wdb (ErasureDemo.run ErasureDemo.refused).2).
Proof.
  split; [vm_compute; reflexivity|].
  apply (refusal_never_recorded (fun s => s) (fun s => s) ErasureDemo.unseal ErasureDemo.executor ∅ 5 BackupDemo.noon
    (fun _ => ErasureDemo.draws) (fun _ => u "stone") _ (ErasureDemo.run ErasureDemo.refused).1);
    [apply keys_check_true; vm_compute; reflexivity|apply surjective_pairing].
Defined.
Lemma fully_erased_means_erased_witness :
  let w' := (ErasureDemo.run ErasureDemo.finished).2 in
  ErasureDemo.state_in w' = Some (u "fully_erased", u "verified")
  /\ erased_ok (wdb w') /\ stays_erased (wdb ErasureDemo.finished) (wdb w').
Proof.
  intros w'. split; [vm_compute; reflexivity|].
  apply (fully_erased_means_erased (fun s => s) (fun s => s) ErasureDemo.unseal BackupDemo.parse (Ok tt)
    ErasureDemo.finished w').
  - eapply system_erases, (surjective_pairing (ErasureDemo.run ErasureDemo.finished)).
  - apply keys_check_true. vm_compute. reflexivity.
  - apply ErasureDemo.not_reported_ok. vm_compute. reflexivity.
Defined.
Lemma owed_account_never_erased_witness :
  map AccountBackupManifest.generation_id (select TAccountBackupManifest (fun _ => true) BackupDemo.d2) = [u "g1"; u "g2"]
  /\ exists l, tbl BackupDemo.d2 TAccountLifecycle !! u "d" = Some l /\ AccountLifecycle.state l <> u "fully_erased".
Proof.
  split; [vm_compute; reflexivity|].
  apply (owed_account_never_erased (fun s => s) (fun s => s) ErasureDemo.unseal BackupDemo.parse (Ok tt) (u "d")
    (MkWorld BackupDemo.d1 ∅) (MkWorld BackupDemo.d2 ∅)).
  - apply rtc_once, system_operates; [|reflexivity].
    eapply operator_registers, (surjective_pairing (BackupDemo.register (u "g2") 2 BackupDemo.d1)).
  - apply backups_check_true. vm_compute. reflexivity.
  - exact ErasureDemo.owed_d1.
Defined.
