(* ===== verification/AccountErasureItems.v ===== *)
(** * What processing one erasure item guarantees

    A claim is taken only on a ready item; an item under a hold is not executed; a
    deleted name stays reserved. *)
From S2P Require Import Prelude PyTime Json Models Database ForeignKeys HoldLineage Sha256 JsonText Lifecycle.
From S2P Require Import Disk Storage World BackupAuthorityFacts Projections AccountErasure AccountErasureSteps.
From S2P Require Import AccountErasureProgress AccountErasureSafety.
Local Open Scope Z_scope.

Lemma save_world t r w a w1 : on_db (session_save t r) w = (Ok a, w1) -> w1 = set_db (put t (row_id t r) r (wdb w)) w.
Proof. unfold on_db, session_save. by destruct (row_ok t r); intros [= _ <-]. Qed.

Lemma save_item_world i w a w1 : save_item i w = (Ok a, w1) ->
  w1 = set_db (put TAccountErasureItem (AccountErasureItem.id i) i (wdb w)) w.
Proof. apply save_world. Qed.

Section items.
Context (casefold : str -> str) (float_text : str -> str)
  (unseal : bytes -> bytes -> bytes -> bytes -> option bytes)
  (ex : AccountErasureExecutor) (journal : disk).
Notation items w := (tbl (wdb w) TAccountErasureItem).
Notation process := (_process casefold float_text unseal ex journal).
Notation reconcile := (_reconcile float_text unseal ex journal).
Notation fail_item := (_fail float_text unseal ex journal).

(** ** Claims *)

(** The rows a claim needs: the item is due and not locked, its account is not yet
    erased, no hold and no withheld ancestor covers it, and its prerequisites are
    complete. *)
Record ready (locked : gset str) (now : datetime) (d : db) (i : AccountErasureItem) : Prop := {
  ready_stored : tbl d TAccountErasureItem !! AccountErasureItem.id i = Some i;
  ready_due : due now i = true;
  ready_free : in_phases ["unindex"] i = true \/ _active_hold d i = None /\ _active_policy_ancestor d i = false;
  ready_prerequisites : _prerequisites_complete d i = true;
  ready_account : exists l, tbl d TAccountLifecycle !! AccountErasureItem.deletion_id i = Some l
    /\ AccountLifecycle.state l <> u "fully_erased"
}.
Lemma decide_lease locked now d i : protected_keys d -> i ∈ candidate_items locked now d ->
  decide_item d i = Some Lease -> ready locked now d i.
Proof.
  intros Hk Hin. apply candidate_stored in Hin as [Hi Hd]; [|done]. unfold decide_item.
  destruct (tbl d TAccountLifecycle !! _) as [l|] eqn:Hl; [|done]. destruct (eqs _ _) eqn:He; [done|].
  assert (AccountLifecycle.state l <> u "fully_erased") as Hne by (intros E; rewrite E in He; by vm_compute in He).
  destruct (in_phases ["unindex"] i) eqn:Hu; cbn [negb andb].
  - destruct (_prerequisites_complete d i) eqn:Hp; [|done]. intros _. split; eauto.
  - destruct (_active_hold d i) eqn:Hh; [done|]. destruct (_active_policy_ancestor d i) eqn:Ha; [done|].
    destruct (_prerequisites_complete d i) eqn:Hp; [|done]. intros _. split; eauto.
Qed.
Lemma leased_claim token now i d :
  _leased_item (claim_of token i) (put TAccountErasureItem (AccountErasureItem.id i) (mark_leased ex token now i) d)
  = Some (mark_leased ex token now i).
Proof.
  unfold _leased_item. rewrite tbl_put_eq. change (k_id (claim_of token i)) with (AccountErasureItem.id i).
  rewrite lookup_insert_eq.
  change (AccountErasureItem.state (mark_leased ex token now i)) with (u "leased").
  change (AccountErasureItem.claim_token (mark_leased ex token now i)) with (Some token).
  change (k_claim_token (claim_of token i)) with token. rewrite eqs_refl.
  by rewrite bool_decide_eq_true_2.
Qed.
(** [_claim_one] takes the first due item that is ready, and none is taken
    otherwise: the claim names that item, nothing but its lease is written, and its
    token is the one the claim carries. *)
Theorem claim_takes_ready_item now dr w claim n w' : protected_keys (wdb w) ->
  _claim_one float_text unseal ex journal now dr w = (Ok (Some claim, n), w') ->
  exists i, ready (d_locked dr) now (wdb w) i /\ n = 0 /\ claim = claim_of (d_token dr) i
    /\ w' = set_db (put TAccountErasureItem (AccountErasureItem.id i) (mark_leased ex (d_token dr) now i) (wdb w)) w
    /\ _leased_item claim (wdb w') = Some (mark_leased ex (d_token dr) now i).
Proof.
  intros Hk H. unfold _claim_one in H. apply act_bind_ok in H as ([c held] & w1 & Hc & H).
  unfold claim_transaction in Hc. apply (proj1 (transaction_ok _ _ _ _)) in Hc. rewrite query_bind in Hc. cbn [id] in Hc.
  destruct (scan _ _) as [[i x]|] eqn:Hs; [|injection Hc as <- <- <-; by injection H].
  apply scan_some in Hs as [Hin Hd].
  destruct x as [hold| |].
  - apply act_bind_ok in Hc as ([] & w2 & _ & [= <- <- <-]). by apply act_bind_ok in H as ([] & w3 & _ & [=]).
  - apply act_bind_ok in Hc as ([] & w2 & _ & [= <- <- <-]). by apply act_bind_ok in H as ([] & w3 & _ & [=]).
  - apply act_bind_ok in Hc as ([] & w2 & E & [= <- <- <-]). injection H as <- <- <-.
    exists i. split; [by apply decide_lease|]. split; [done|]. split; [done|].
    apply save_item_world in E as ->.
    change (AccountErasureItem.id (mark_leased ex (d_token dr) now i)) with (AccountErasureItem.id i).
    split; [reflexivity|]. apply leased_claim.
Qed.

(** ** Holds *)

(** The item under [k] is not completed. *)
Definition unfinished (k : str) (w : world) : Prop :=
  exists i, items w !! k = Some i /\ AccountErasureItem.id i = k /\ AccountErasureItem.state i <> u "completed".
(** Only bookkeeping changes, and the item under [k] stays unfinished. *)
Definition spared (k : str) (w w' : world) : Prop :=
  confined (TAccountErasureItem :: bookkeeping) w w' /\ (unfinished k w -> unfinished k w').
Global Instance spared_preorder k : PreOrder (spared k).
Proof.
  split; [by split|]. intros a b c [H1 H2] [H3 H4]. split; [by transitivity b|auto].
Qed.
Lemma spared_reconcile k deletion_id now new_id : keeps (spared k) (reconcile deletion_id now new_id).
Proof.
  intros w r w' H. apply confined_reconcile in H. split.
  - eapply confined_weaken; [|exact H]. intros t Ht. by right.
  - intros (i & Hi & Hrest). exists i. split; [|exact Hrest].
    destruct H as [_ H]. rewrite (H TAccountErasureItem) by in_protected. exact Hi.
Qed.
Lemma spared_put w i k : AccountErasureItem.state i <> u "completed" ->
  spared k w (set_db (put TAccountErasureItem (AccountErasureItem.id i) i (wdb w)) w).
Proof.
  intros Hs. split.
  - split; [done|]. intros t Ht. apply tbl_put_ne. intros <-. apply Ht. left.
  - intros (j & Hj & Hid & Hst). unfold unfinished. cbn [wdb set_db]. rewrite tbl_put_eq.
    destruct (decide (AccountErasureItem.id i = k)) as [<-|Hne].
    + exists i. by rewrite lookup_insert_eq.
    + exists j. by rewrite lookup_insert_ne.
Qed.
Lemma spared_save k i : AccountErasureItem.state i <> u "completed" -> keeps (spared k) (save_item i).
Proof.
  intros Hs w r w'. unfold save_item, on_db, session_save. destruct (row_ok _ _); intros [= <- <-].
  - by apply spared_put.
  - destruct w. apply reflexivity.
Qed.
Lemma spared_transaction {A : Type} k (m : act world A) : keeps (spared k) m -> keeps (spared k) (transaction m).
Proof.
  intros H w r w'. unfold transaction. destruct (m w) as [[a|e] w1] eqn:E; intros [= <- <-]; [by eapply H|].
  destruct (H _ _ _ E) as [[Hf _] _]. split; [by split|]. intros Hu. exact Hu.
Qed.
Lemma failed_item_state code retryable retry_at now i :
  AccountErasureItem.state (failed_item ex code retryable retry_at now i).1 <> u "completed".
Proof.
  unfold failed_item. destruct (eqs code _); [|destruct (_ || _)]; intros E; by vm_compute in E.
Qed.
Lemma spared_fail k claim code retryable retry_at now dr :
  keeps (spared k) (fail_item claim code retryable retry_at now dr).
Proof.
  unfold _fail. apply keeps_bind; [apply _|apply spared_transaction|].
  - apply keeps_bind; [apply _|apply keeps_gets, _|intros [i|]]; [|apply keeps_ret, _].
    pose proof (failed_item_state code retryable retry_at now i) as Hs.
    destruct (failed_item ex code retryable retry_at now i) as [i' o].
    apply keeps_bind; [apply _|by apply spared_save|intros; apply keeps_ret, _].
  - intros [[d o]|]; [|apply keeps_ret, _]. apply keeps_bind; [apply _|apply spared_reconcile|intros; apply keeps_ret, _].
Qed.
(** A failure is never a completion. *)
Definition not_completed (r : Res erasure_outcome) : Prop := r <> Ok Completed.
Lemma failed_outcome code retryable retry_at now i : (failed_item ex code retryable retry_at now i).2 <> Completed.
Proof. unfold failed_item. by repeat case_match. Qed.
Lemma fail_not_completed claim code retryable retry_at now dr w r w' :
  fail_item claim code retryable retry_at now dr w = (r, w') -> not_completed r.
Proof.
  intros H ->. unfold _fail in H. apply act_bind_ok in H as (x & w1 & Hx & H).
  destruct x as [[d o]|]; [|done]. apply act_bind_ok in H as ([] & w2 & _ & [= -> _]).
  apply (proj1 (transaction_ok _ _ _ _)) in Hx. rewrite query_bind in Hx.
  destruct (_leased_item claim (wdb w)) as [i|]; [|done].
  pose proof (failed_outcome code retryable retry_at now i) as Ho.
  destruct (failed_item ex code retryable retry_at now i) as [i' o].
  apply act_bind_ok in Hx as ([] & w3 & _ & [= _ -> _]). done.
Qed.
Lemma process_failed_spared k network claim now dr e w r w' :
  process_failed float_text unseal ex journal network claim now dr e w = (r, w') -> spared k w w' /\ not_completed r.
Proof.
  unfold process_failed, retry_as.
  assert (forall m : act world erasure_outcome, (exists c t a, m = fail_item claim c t a now dr) \/ (exists e', m = raise e') ->
    m w = (r, w') -> spared k w w' /\ not_completed r) as Hm.
  { intros m [(c & t & a & ->)|(e' & ->)] H; [|by injection H as <- <-].
    split; [by eapply spared_fail|by eapply fail_not_completed]. }
  destruct e; intros H; (eapply Hm; [|exact H]); first [right; by eexists|left; by eexists _, _, _].
Qed.
(** The transactions of a claim stop at a hold. *)
Lemma free_held {A : Type} claim now (stopped : A) held body w x w1 i hold :
  _leased_item claim (wdb w) = Some i -> in_phases ["unindex"] i = false -> _active_hold (wdb w) i = Some hold ->
  on_free_item claim now stopped held body w = (x, w1) ->
  x = Ok (held i) /\ w1 = set_db (put TAccountErasureItem (AccountErasureItem.id i) (mark_held hold now i) (wdb w)) w
  \/ (exists e, x = Raise e) /\ w1 = w.
Proof.
  intros Hl Hu Hh. unfold on_free_item, transaction. unfold act_bind at 1.
  unfold hold_guard, session_get. rewrite query_bind.
  destruct (tbl (wdb w) TAccountBackupAuthority !! _).
  - unfold ret at 1. rewrite query_bind, Hl, query_bind. cbv beta. rewrite Hu, Hh. unfold act_bind.
    unfold save_item, on_db, session_save. destruct (row_ok _ _).
    + intros [= <- <-]. by left.
    + intros [= <- <-]. right. split; [by eexists|]. by destruct w.
  - intros [= <- <-]. right. split; [by eexists|]. by destruct w.
Qed.
Lemma held_state hold now i : AccountErasureItem.state (mark_held hold now i) <> u "completed".
Proof. intros E. by vm_compute in E. Qed.
Lemma free_held_spared {A : Type} claim now (stopped : A) held body w x w1 i hold k :
  _leased_item claim (wdb w) = Some i -> in_phases ["unindex"] i = false -> _active_hold (wdb w) i = Some hold ->
  on_free_item claim now stopped held body w = (x, w1) ->
  spared k w w1 /\ (forall a, x = Ok a -> a = held i).
Proof.
  intros Hl Hu Hh H. destruct (free_held _ _ _ _ _ _ _ _ _ _ Hl Hu Hh H) as [[-> ->]|[[e ->] ->]].
  - split; [|congruence]. apply (spared_put w (mark_held hold now i)), held_state.
  - split; [apply reflexivity|done].
Qed.
(** C19: a claimed item that is under a hold, its own or one of an ancestor, is not
    executed, unless it only withdraws a public projection: its processing, however
    it ends, leaves every file and every row of content in place, changes nothing but
    items and the bookkeeping of its account, and does not complete the item. *)
Theorem hold_blocks_erasure claim now dr w r w' i hold :
  protected_keys (wdb w) -> _leased_item claim (wdb w) = Some i -> in_phases ["unindex"] i = false ->
  _active_hold (wdb w) i = Some hold -> process claim now dr w = (r, w') ->
  confined (TAccountErasureItem :: bookkeeping) w w' /\ unfinished (AccountErasureItem.id i) w' /\ r <> Ok Completed.
Proof.
  intros Hk Hl Hu Hh H. pose proof (leased_stored _ _ _ Hk Hl) as [Hi Hlease].
  assert (unfinished (AccountErasureItem.id i) w) as Hopen.
  { exists i. split_and!; [done..|]. intros E. unfold item_is in Hlease. rewrite E in Hlease. by vm_compute in Hlease. }
  assert (spared (AccountErasureItem.id i) w w' /\ not_completed r) as [[Hc Hs] Hr]; [|by auto].
  assert (forall m network r1 w1, m w = (r1, w1) -> spared (AccountErasureItem.id i) w w1 /\ not_completed r1 ->
    catch m (process_failed float_text unseal ex journal network claim now dr) w = (r, w') ->
    spared (AccountErasureItem.id i) w w' /\ not_completed r) as Hcatch.
  { intros m network r1 w1 Hm [Hs Hn] Hcatch. unfold catch in Hcatch. rewrite Hm in Hcatch.
    destruct r1 as [a|e]; [by injection Hcatch as <- <-|].
    apply (process_failed_spared (AccountErasureItem.id i)) in Hcatch as [Hs' Hn']. split; [by transitivity w1|done]. }
  unfold _process in H. destruct (_ || _).
  - destruct (network_action float_text unseal ex journal claim now dr w) as [r1 w1] eqn:E.
    eapply Hcatch; [exact E| |exact H]. unfold network_action in E. unfold act_bind at 1 in E.
    destruct (network_prepare unseal ex claim now w) as [x w2] eqn:Hp.
    destruct (free_held_spared _ _ _ _ _ _ _ _ _ _ (AccountErasureItem.id i) Hl Hu Hh Hp) as [Hs2 Hx].
    destruct x as [step|e]; [|by injection E as <- <-]. rewrite (Hx _ eq_refl) in E. split.
    + transitivity w2; [done|]. eapply keeps_bind; [apply _|apply spared_reconcile| |exact E]. intros; apply keeps_ret, _.
    + intros ->. by apply act_bind_ok in E as ([] & w3 & _ & [=]).
  - destruct (process_local casefold float_text unseal ex journal claim now dr w) as [r1 w1] eqn:E.
    eapply Hcatch; [exact E| |exact H]. unfold process_local in E. unfold act_bind at 1 in E.
    destruct (process_transaction casefold unseal ex claim now dr w) as [x w2] eqn:Hp.
    destruct (free_held_spared _ _ _ _ _ _ _ _ _ _ (AccountErasureItem.id i) Hl Hu Hh Hp) as [Hs2 Hx].
    destruct x as [b|e]; [|by injection E as <- <-]. rewrite (Hx _ eq_refl) in E. by injection E as <- <-.
Qed.

(** ** Names *)
Lemma deleted_row_gone t i d d' : delete_row t i d = (Ok tt, d') -> tbl d' t !! i = None.
Proof.
  unfold delete_row. cbn [delete_rows]. intros H. apply act_bind_ok in H as (d0 & d1 & [= <- <-] & H). cbn [id] in H.
  destruct (existsb _ _); [done|]. apply act_bind_ok in H as ([] & d1 & _ & [= <-]).
  rewrite tbl_del_eq. apply lookup_delete_eq.
Qed.
Lemma reserve_ok deletion_id t r now new_id ns name w w' : reserved_name t r = Some (ns, name) ->
  _reserve_identifier casefold ex deletion_id t r now new_id w = (Ok tt, w') ->
  exists digest k x, identifier_reservation_hmac casefold ex ns name = Ok digest
    /\ tbl (wdb w') TIdentifierReservation !! k = Some x
    /\ IdentifierReservation.namespace x = ns /\ IdentifierReservation.identifier_hmac x = digest.
Proof.
  intros Hn H. unfold _reserve_identifier in H. rewrite Hn in H.
  apply act_bind_ok in H as (digest & w1 & [= Hd <-] & H). rewrite query_bind in H.
  destruct (reservation ns digest (wdb w)) as [x|] eqn:Hx.
  - injection H as <-. unfold reservation in Hx. apply head_Some_elem_of in Hx.
    destruct (proj1 (elem_of_select TIdentifierReservation _ _ _) Hx) as [[k Hk] Hp].
    apply andb_prop in Hp as [H1%bool_decide_eq_true H2%bool_decide_eq_true]. by exists digest, k, x.
  - unfold on_db in H. destruct (session_add _ _ _) as [y d1] eqn:E. injection H as -> <-.
    apply session_add_spec in E as [(_ & _ & ->)|[? _]]; [|done]. cbn [wdb].
    eexists digest, new_id, _. split; [done|]. split; [|split].
    + rewrite tbl_put_eq. apply lookup_insert_eq.
    + done.
    + done.
Qed.
Lemma reserved_answer ns name digest k x d : identifier_reservation_hmac casefold ex ns name = Ok digest ->
  tbl d TIdentifierReservation !! k = Some x -> IdentifierReservation.namespace x = ns ->
  IdentifierReservation.identifier_hmac x = digest -> identifier_is_reserved casefold ex ns name d = Ok true.
Proof.
  intros Hd Hx Hns Hdg. unfold identifier_is_reserved. destruct (lifecycle_hmac_key (x_settings ex)) eqn:Hkey.
  - rewrite Hd. cbn [res_bind]. unfold reservation. f_equal.
    assert (x ∈ select TIdentifierReservation (fun r => bool_decide (IdentifierReservation.namespace r = ns)
      && bool_decide (IdentifierReservation.identifier_hmac r = digest)) d) as Hin.
    { apply (in_select TIdentifierReservation _ _ k); [done|]. by rewrite !bool_decide_eq_true_2. }
    destruct (select TIdentifierReservation _ d); [by apply elem_of_nil in Hin|done].
  - exfalso. unfold identifier_reservation_hmac, lifecycle_hmac in Hd. rewrite Hkey in Hd.
    by destruct (normalize_identifier casefold name).
Qed.
(** Spellings that fold to the same text have one digest. *)
Lemma folded_digest ns name name' : casefold (strip name') = casefold (strip name) ->
  identifier_reservation_hmac casefold ex ns name' = identifier_reservation_hmac casefold ex ns name.
Proof. intros E. unfold identifier_reservation_hmac, normalize_identifier. by rewrite E. Qed.
(** C20: when the executor deletes a document, an agent identity, an organization or
    a job, its row is gone, and its name is reserved for good: whatever erasure
    runs and backup commands of the operator follow, the reservation check answers yes for the
    name in every spelling that is the same once stripped and case-folded. *)
Theorem deleted_name_reserved parse_timestamp role_check item t row ns name name' now dr w w1 w' :
  protected_keys (wdb w) -> row_table (AccountErasureItem.resource_type item) = Some t ->
  tbl (wdb w) t !! AccountErasureItem.resource_id item = Some row -> reserved_name t row = Some (ns, name) ->
  _delete_row casefold unseal ex item now dr w = (Ok tt, w1) ->
  rtc (system_step casefold float_text unseal parse_timestamp role_check) w1 w' ->
  casefold (strip name') = casefold (strip name) ->
  tbl (wdb w1) t !! AccountErasureItem.resource_id item = None
  /\ identifier_is_reserved casefold ex ns name' (wdb w') = Ok true.
Proof.
  intros Hk Ht Hrow Hn H Hlater Hfold.
  assert (protected_keys (wdb w1)) as Hk1.
  { intros x k r Hx. rewrite (proj1 (quiet_delete_row_item _ _ _ _ _ _ _ _ _ H) x Hx). by apply Hk. }
  unfold _delete_row in H. destruct (of_type "contact_policy" item) eqn:Hty.
  { apply eqs_true in Hty. rewrite Hty in Ht. by vm_compute in Ht. }
  rewrite Ht in H. unfold remove_row, session_get in H. rewrite query_bind, Hrow in H.
  apply act_bind_ok in H as ([] & w2 & Hres & H). apply act_bind_ok in H as ([] & w3 & Harm & H).
  apply reserve_ok with (ns := ns) (name := name) in Hres as (digest & k & x & Hd & Hx & Hns & Hdg); [|done].
  pose proof (quiet_arm _ _ _ _ _ _ _ Harm TIdentifierReservation) as E1.
  unfold on_db in H. destruct (delete_row t (AccountErasureItem.resource_id item) (wdb w3)) as [y d4] eqn:Hdel.
  injection H as -> <-. cbn [wdb] in *. split; [by eapply deleted_row_gone|].
  apply row_table_unprotected in Ht. pose proof (quiet_delete_row _ _ _ Ht _ _ _ Hdel TIdentifierReservation) as E2.
  eapply reserved_answer; [by rewrite (folded_digest _ _ _ Hfold)| |exact Hns|exact Hdg].
  eapply reservations_kept; [exact Hlater|exact Hk1|]. cbn [wdb]. rewrite E2, E1 by in_protected. exact Hx.
Qed.
End items.

(** ** Concrete items *)
Module ItemDemo.
Import BackupDemo ErasureDemo.
Definition identity : AgentIdentity :=
  AgentIdentity.Mk (u "a") (u "user") (u "Scout") (u "Scout") (u "") (u "p") (u "withdrawn") noon noon None.
(** The claimed deletion of an agent identity. *)
Definition claimed : AccountErasureItem :=
  mark_leased executor (u "t") noon
    (AccountErasureItem.Mk (u "i") (u "d") (u "agent_identity") (u "a") (u "delete_row") (u "delete") (u "queued") 0
       (Some noon) None None None None None None None noon noon None).
Definition claim : _Claim := MkErasureClaim (u "i") (u "d") (u "agent_identity") (u "a") (u "delete_row") (u "t") 1.
Definition free : world := MkWorld
  (put TAccountErasureItem (u "i") claimed (put TAgentIdentity (u "a") identity
    (put TAccountLifecycle (u "d") lifecycle
      (put TAccountBackupAuthority ACCOUNT_BACKUP_AUTHORITY_ID authority empty_db)))) ∅.
Definition hold : RetentionHold :=
  RetentionHold.Mk (u "h") (u "agent_identity") (u "a") (u "legal") (u "court") dusk dusk noon None None.
Definition held : world := set_db (put TRetentionHold (u "h") hold (wdb free)) free.
Definition processed : act world erasure_outcome :=
  _process (fun s => s) (fun s => s) unseal executor ∅ claim noon draws.
Definition delete : act world unit := _delete_row (fun s => s) unseal executor claimed noon draws.
(** The database after the next run of the executor. *)
Definition later : world := (ErasureDemo.run (delete free).2).2.
Lemma later_step : rtc (system_step (fun s => s) (fun s => s) unseal parse (Ok tt)) (delete free).2 later.
Proof. apply rtc_once. eapply system_erases. exact (surjective_pairing (ErasureDemo.run (delete free).2)). Qed.
End ItemDemo.
Lemma claim_takes_ready_item_witness :
  exists claim, (_claim_one (fun s => s) ErasureDemo.unseal ErasureDemo.executor ∅ BackupDemo.noon ErasureDemo.draws
                   ErasureDemo.refused).1 = Ok (Some claim, 0)
  /\ exists i, ready ∅ BackupDemo.noon (wdb ErasureDemo.refused) i /\ claim = claim_of (u "t") i.
Proof.
  destruct (_claim_one (fun s => s) ErasureDemo.unseal ErasureDemo.executor ∅ BackupDemo.noon ErasureDemo.draws
              ErasureDemo.refused) as [r w'] eqn:E.
  assert (r = Ok (Some (claim_of (u "t") (ErasureDemo.item "provider_user" "provider" "queued")), 0)) as ->.
  { change r with (r, w').1. rewrite <-E. vm_compute. reflexivity. }
  eexists. split; [reflexivity|].
  assert (protected_keys (wdb ErasureDemo.refused)) as Hk by (apply keys_check_true; vm_compute; reflexivity).
  destruct (claim_takes_ready_item (fun s => s) ErasureDemo.unseal ErasureDemo.executor ∅ BackupDemo.noon
    ErasureDemo.draws ErasureDemo.refused _ 0 w' Hk E) as (i & Hi & _ & Hc & _).
  exists i. split; [exact Hi|exact Hc].
Defined.
Lemma hold_blocks_erasure_witness :
  (ItemDemo.processed ItemDemo.free).1 = Ok Completed
  /\ confined (TAccountErasureItem :: bookkeeping) ItemDemo.held (ItemDemo.processed ItemDemo.held).2
  /\ unfinished (u "i") (ItemDemo.processed ItemDemo.held).2 /\ (ItemDemo.processed ItemDemo.held).1 <> Ok Completed.
Proof.
  split; [vm_compute; reflexivity|].
  apply (hold_blocks_erasure (fun s => s) (fun s => s) ErasureDemo.unseal ErasureDemo.executor ∅ ItemDemo.claim
    BackupDemo.noon ErasureDemo.draws ItemDemo.held _ _ ItemDemo.claimed ItemDemo.hold).
  - apply keys_check_true. vm_compute. reflexivity.
  - vm_compute. reflexivity.
  - reflexivity.
  - vm_compute. reflexivity.
  - apply surjective_pairing.
Defined.
Lemma deleted_name_reserved_witness :
  tbl (wdb (ItemDemo.delete ItemDemo.free).2) TAgentIdentity !! u "a" = None
  /\ identifier_is_reserved (fun s => s) ErasureDemo.executor (u "agent_identity") (u " Scout ") (wdb ItemDemo.later) = Ok true.
Proof.
  apply (deleted_name_reserved (fun s => s) (fun s => s) ErasureDemo.unseal ErasureDemo.executor BackupDemo.parse (Ok tt)
    ItemDemo.claimed TAgentIdentity ItemDemo.identity _ (u "Scout") _ BackupDemo.noon ErasureDemo.draws ItemDemo.free).
  - apply keys_check_true. vm_compute. reflexivity.
  - vm_compute. reflexivity.
  - vm_compute. reflexivity.
  - vm_compute. reflexivity.
  - assert ((ItemDemo.delete ItemDemo.free).1 = Ok tt) as E by (vm_compute; reflexivity).
    rewrite <-E. apply (surjective_pairing (ItemDemo.delete ItemDemo.free)).
  - exact ItemDemo.later_step.
  - vm_compute. reflexivity.
Defined.
