(* ===== verification/SearchTruth.v ===== *)
(** * What the search index promises

    The steps of the worker, its operator, the writers of documents, the rebuild
    and the erasure executor, and the properties they share: the index shows no
    document otherwise than it is, unless a task for it waits in the queue. *)
From S2P Require Import Prelude PyTime Json Models Database ForeignKeys HoldLineage Sha256 JsonText Lifecycle.
From S2P Require Import Disk Storage World BackupAuthorityFacts Projections AccountErasure AccountErasureSteps.
From S2P Require Import AccountErasureSafety.
From S2P Require Import Frontmatter SearchIndex SearchProjection SearchProjectionSafety SearchErasure QueueServer.
Local Open Scope Z_scope.
Notation "'db_of' s" := (wdb (p_world s)) (at level 10).
Notation "'index_of' s" := (server (p_client s)) (at level 10).

(** ** Frames *)
(** What the rest of the application may do: it leaves the documents and the tasks
    alone, and no planned removal from the index is dropped. *)
Record elsewhere (d d' : db) : Prop := {
  else_searched : same_on searched d d';
  else_planned : forall i, unindexing d i -> unindexing d' i;
  else_keys : protected_keys d -> protected_keys d'
}.

(** ** Writing a document *)
(** [d'] is [d] with [x] written and its version queued; the taxonomy, the exact
    search and the other tables may change with it. *)
Definition queue_write (updated : bool) (x : Document) (now : datetime) : act db unit :=
  (if updated then retire_dead_letters (Document.id x) (Document.current_version x) else ret tt) ;;;
  queue_projection (Document.id x) (Document.current_version x) now.
Definition document_written (x : row TDocument) (updated : bool) (now : datetime) (d d' : db) : Prop :=
  exists d1 d2, elsewhere (put TDocument (Document.id x) x d) d1
    /\ queue_write updated x now d1 = (Ok tt, d2) /\ elsewhere d2 d'.

Section written.
Context {S : Type} {Hserver : SearchServer S} {Hlaws : SearchServerLaws S}.
Lemma same_truthful d d' (s : S) : elsewhere d d' -> truthful d s -> truthful d' s.
Proof.
  intros [H Hu _] T. destruct (same_arms _ _ H (truthful_keys _ _ T)) as (K & St & Da).
  eapply truthful_armed; [done..|apply only_unindexed_refl|done].
Qed.
(** Tasks of other documents survive a write. *)
Definition others_stay (i : str) (d d' : db) : Prop :=
  forall k t, tbl d TSearchProjectionTask !! k = Some t -> SearchProjectionTask.document_id t <> i ->
  tbl d' TSearchProjectionTask !! k = Some t.
Lemma written_truthful x d d' (s : S) : truthful d s -> projection_keys d' ->
  (forall j, j <> Document.id x -> tbl d' TDocument !! j = tbl d TDocument !! j) ->
  tbl d' TDocument !! Document.id x = Some (x : row TDocument) -> others_stay (Document.id x) d d' ->
  has_task (Document.id x) (Document.current_version x) d' -> (forall i, unindexing d i -> unindexing d' i) ->
  truthful d' s.
Proof.
  intros [K T] K' Hd Hx Ho Ht Hu. split; [done|]. intros j. destruct (decide (j = Document.id x)) as [->|Hj].
  { rewrite Hx. by left. }
  rewrite Hd by done. specialize (T j). destruct (tbl d TDocument !! j) as [y|]; cbn [told] in *.
  - destruct T as [[t Hk]|[T|[T|T]]]; [left|by right; left|by right; right; left|by do 3 right; apply Hu].
    exists t. apply Ho; [done|]. apply (tasks_keyed _ K), pair_key_inj in Hk as [-> _]. done.
  - destruct T as [(k & t & Hk & <-)|T]; [left|by right]. exists k, t. split; [by apply Ho|done].
Qed.
Lemma queue_write_ok updated (x : Document) now d d' : queue_write updated x now d = (Ok tt, d') ->
  let t := SearchProjectionTask.Mk (Document.id x) (Document.current_version x) (u "pending") 0 now None None None
             None None now now in
  exists d1, (forall k r, tbl d1 TSearchProjectionTask !! k = Some r -> tbl d TSearchProjectionTask !! k = Some r)
    /\ others_stay (Document.id x) d d1 /\ (forall t', t' <> TSearchProjectionTask -> tbl d1 t' = tbl d t')
    /\ d' = put TSearchProjectionTask (row_id TSearchProjectionTask t) t d1.
Proof.
  intros H t. unfold queue_write in H. apply act_bind_ok in H as ([] & d1 & Hr & H).
  unfold queue_projection in H. apply session_add_spec in H as [(_ & _ & ->)|[? _]]; [|done].
  exists d1. destruct updated; injection Hr as <-; [|split_and!; [done|intros k r; done|done..]]. split_and!; [| | |done].
  - intros k r [H _]%lookup_delete_where. exact H.
  - intros k r Hk Hne. refine (proj2 (lookup_delete_where TSearchProjectionTask _ _ _ _) (conj Hk _)).
    by rewrite bool_decide_eq_false_2.
  - intros t' Ht'. by apply tbl_delete_where_ne.
Qed.
Lemma document_written_truth x updated now d d' (s : S) : document_written x updated now d d' ->
  truthful d s -> truthful d' s.
Proof.
  intros (d1 & d2 & H1 & Hq & H2) T. eapply same_truthful; [exact H2|].
  pose proof (truthful_keys _ _ T) as [K1 K2].
  assert (tbl d1 TDocument = tbl (put TDocument (Document.id x) x d) TDocument) as Ed by (apply (else_searched _ _ H1); by left).
  assert (tbl d1 TSearchProjectionTask = tbl d TSearchProjectionTask) as Et.
  { rewrite (else_searched _ _ H1 TSearchProjectionTask) by (right; by left). by rewrite tbl_put_ne. }
  apply queue_write_ok in Hq as (d3 & Hsub & Ho & Esame & ->). pose proof (Esame TDocument ltac:(done)) as E3.
  rewrite tbl_put_eq in Ed. apply written_truthful with x d; [done|apply saved_keys; split| | | | |].
  - intros k y. rewrite E3, Ed. intros [[<- <-]|[_ H]]%lookup_insert_Some; [done|by apply K1].
  - intros k t Hk%Hsub. rewrite Et in Hk. by apply K2.
  - intros j Hj. rewrite tbl_put_ne, E3, Ed by done. by apply lookup_insert_ne.
  - rewrite tbl_put_ne, E3, Ed by done. apply lookup_insert_eq.
  - intros k t Hk Hne. rewrite tbl_put_eq. rewrite <-Et in Hk. rewrite lookup_insert_ne; [by apply Ho|].
    intros <-. rewrite Et in Hk. apply K2, pair_key_inj in Hk as [E _]. done.
  - eexists. rewrite tbl_put_eq. apply lookup_insert_eq.
  - intros i Hi. assert (unindexing d1 i) as Hi1.
    { apply (else_planned _ _ H1). revert Hi. apply same_unindexing. by apply tbl_put_ne. }
    revert Hi1. apply same_unindexing. rewrite tbl_put_ne by done. by apply Esame.
Qed.
End written.

(** ** Concealing a document *)
(** One iteration of the loop over the documents of a deleted account in main.py;
    the plan of the removal is inserted by the same transaction. *)
Definition concealed (x : Document) (now : datetime) : Document :=
  x <| Document.visibility := u "private" |> <| Document.updated_at := now |>.
Definition conceal_document (x : Document) (now : datetime) : act db unit :=
  session_save TDocument (concealed x now) ;;;
  remove_document_projection (Document.id x) now ;;;
  exact_remove_document (Document.id x) now.
Definition document_concealed (x : row TDocument) (now : datetime) (d d' : db) : Prop :=
  tbl d TDocument !! Document.id x = Some x /\
  exists d1, conceal_document x now d = (Ok tt, d1) /\ elsewhere d1 d' /\ unindexing d' (Document.id x).
Section conceal.
Context {S : Type} {Hserver : SearchServer S} {Hlaws : SearchServerLaws S}.
Lemma conceal_runs x now d d1 : conceal_document x now d = (Ok tt, d1) ->
  same_on untouched (put TDocument (Document.id x) (concealed x now) d) d1.
Proof.
  intros H. apply act_bind_ok in H as ([] & d2 & Hs & H).
  apply session_save_spec in Hs as [(_ & _ & ->)|(? & _)]; [|done].
  refine (keeps_bind (same_on untouched) _ _ (quiet_remove_projection _ _) (fun _ => quiet_exact_remove _ _) _ _ _ H).
Qed.
Lemma concealed_truth x now d d' (s : S) : document_concealed x now d d' -> truthful d s -> truthful d' s.
Proof.
  intros (Hx & d1 & H%conceal_runs & [Hs Hp _] & Hu) [K T]. set (x' := concealed x now) in *.
  assert (tbl d' TDocument = <[Document.id x := (x' : row TDocument)]> (tbl d TDocument)) as Ed.
  { rewrite (Hs TDocument), (H TDocument) by by left. apply tbl_put_eq. }
  assert (tbl d' TSearchProjectionTask = tbl d TSearchProjectionTask) as Et.
  { rewrite (Hs TSearchProjectionTask), (H TSearchProjectionTask) by (right; by left). by apply tbl_put_ne. }
  assert (forall i, unindexing d i -> unindexing d' i) as Hun.
  { intros i Hi. apply Hp. revert Hi. apply same_unindexing. rewrite (H TAccountErasureItem).
    - by apply tbl_put_ne.
    - in_protected. }
  split.
  { destruct K as [K1 K2]. split; [|by rewrite Et]. intros k y. rewrite Ed.
    intros [[<- <-]|[_ Hy]]%lookup_insert_Some; [done|by apply K1]. }
  intros i. rewrite Ed. destruct (decide (i = Document.id x)) as [->|Hi].
  - rewrite lookup_insert_eq. do 3 right. exact Hu.
  - rewrite lookup_insert_ne by done. apply (told_same d _ s); [apply same_at_refl|intros y Hy; by apply (documents_keyed _ K)| | |apply Hun|apply T].
    + unfold awaited. by rewrite Et.
    + intros v. unfold has_task. by rewrite Et.
Qed.
End conceal.

(** ** Rebuilding *)
Section rebuild.
Context {S : Type} {Hserver : SearchServer S} {Hlaws : SearchServerLaws S} {Hmarkdown : DocumentMarkdown}
  (enabled : bool) (store : VersionStore).
(** The index at document [i] is what [document] says. *)
Definition exactly (s : S) (i : str) (document : option (row TDocument)) : Prop :=
  match document with
  | Some x => if eqs (Document.visibility x) "public" then shown x s else settled s i None
  | None => settled s i None
  end.
Lemma exactly_told d s i document : exactly s i document -> told d s i document.
Proof.
  destruct document as [x|]; cbn; [|by right; apply settled_cleared].
  destruct (eqs _ _); [by right; right; left|by right; left].
Qed.
Notation public x := (Document.visibility x = u "public").
Lemma rebuild_one x markdown (s : pstate S) s' : public x -> on_search (index enabled x markdown) s = (Ok tt, s') ->
  p_world s' = p_world s /\ shown x (index_of s')
  /\ forall i v, i <> Document.id x -> settled (index_of s) i v -> settled (index_of s') i v.
Proof.
  intros Hp. unfold on_search. destruct (index enabled x markdown (p_client s)) as [r c] eqn:E. intros [= -> <-].
  split_and!; [done| |].
  - apply index_settles in E as (f & content & discovery & _ & _ & H); [|done]. split; [done|]. by exists f, content, discovery.
  - intros i v Hi. exact (proj1 (index_others enabled x markdown _ _ _ E i Hi) v).
Qed.
Definition rebuilt (l : list (row TDocument)) (s s' : pstate S) : Prop :=
  p_world s' = p_world s
  /\ (forall x, x ∈ l -> public x -> shown x (index_of s'))
  /\ forall i v, (forall x, x ∈ l -> public x -> Document.id x <> i) ->
       settled (index_of s) i v -> settled (index_of s') i v.
Lemma rebuilt_cons x l (s s1 s' : pstate S) : (forall y, y ∈ l -> Document.id y = Document.id x -> y = x) ->
  p_world s1 = p_world s -> shown x (index_of s1) ->
  (forall i v, i <> Document.id x -> settled (index_of s) i v -> settled (index_of s1) i v) ->
  public x -> rebuilt l s1 s' -> rebuilt (x :: l) s s'.
Proof.
  intros Hx E Hs Hk Hp (E' & Hs' & Hk'). split_and!; [by rewrite E'| |].
  - intros y [->|Hy]%elem_of_cons Hy'; [|by apply Hs'].
    destruct (decide (Exists (fun y => Document.id y = Document.id x /\ public y) l)) as [H|H].
    + apply Exists_exists in H as (y & Hy & Eid & Hpy). rewrite <-(Hx _ Hy Eid). by apply Hs'.
    + destruct Hs as (Hv & f & content & disc & Hset). split; [done|]. exists f, content, disc. apply Hk'; [|done].
      intros y Hy Hpy Eid. apply H, Exists_exists. by exists y.
  - intros i v Hi Hv. apply Hk'; [intros y Hy; apply Hi; by right|]. apply Hk; [|done].
    intros ->. by apply (Hi x); [left|..].
Qed.
Lemma rebuild_documents_ok l n s c s' :
  (forall x y, x ∈ l -> y ∈ l -> Document.id x = Document.id y -> x = y) ->
  rebuild_documents enabled store l n s = (Ok c, s') -> rebuilt l s s'.
Proof.
  revert n s. induction l as [|x l IH]; intros n s Hl H.
  { injection H as _ <-. split_and!; [done|by intros x Hx%elem_of_nil|done]. }
  assert (forall y z, y ∈ l -> z ∈ l -> Document.id y = Document.id z -> y = z) as Hl' by (intros y z Hy Hz; apply Hl; by right).
  cbn [rebuild_documents] in H. destruct (eqs (Document.visibility x) "public") eqn:Hp; cbn [negb] in H.
  - apply eqs_true in Hp. rewrite look_bind in H. destruct (current_version_row x (db_of s)) as [v|]; [|done].
    apply act_bind_ok in H as (f & s1 & [= <- <-] & H). apply act_bind_ok in H as (md & s1 & [_ ->]%lift_result & H).
    apply act_bind_ok in H as ([] & s1 & (E & Hs & Hk)%rebuild_one & H); [|done].
    eapply rebuilt_cons; [|exact E|exact Hs|exact Hk|exact Hp|by eapply IH].
    intros y Hy Eid. apply Hl; [by right|by left|done].
  - destruct (IH _ _ Hl' H) as (E & Hs & Hk). split_and!; [done| |].
    + intros y [->|Hy]%elem_of_cons Hy'; [|by apply Hs]. rewrite Hy' in Hp. by vm_compute in Hp.
    + intros i w Hi. apply Hk. intros y Hy. apply Hi. by right.
Qed.
Lemma catch_unavailable {A : Type} (m : act (pstate S) A) a b s s' : b <> a ->
  catch m (unavailable_as a) s = (Ok b, s') -> m s = (Ok b, s').
Proof. intros Hne. unfold catch. destruct (m s) as [[x|e] s1]; [done|]. destruct e; try (intros H; discriminate H).
  intros [= Hab _]. by rewrite Hab in Hne.
Qed.
Lemma rebuild_ok s s' : projection_keys (db_of s) -> rebuild_search enabled store s = (Ok 0, s') ->
  db_of s' = delete_where TSearchProjectionTask (fun _ => true) (db_of s)
  /\ wfs (p_world s') = wfs (p_world s)
  /\ forall i, exactly (index_of s') i (tbl (db_of s) TDocument !! i).
Proof.
  intros K. unfold rebuild_search. destruct (negb enabled); [done|]. intros H.
  apply act_bind_ok in H as ([|] & s1 & Hr & H); cbn [negb] in H; [|done].
  apply catch_unavailable in Hr; [|done]. apply act_bind_ok in Hr as ([] & s2 & Hr & [= ->]).
  apply search_world in Hr as E1. unfold on_search in Hr.
  destruct (reset_index enabled (p_client s)) as [r c] eqn:Hreset. injection Hr as -> <-.
  pose proof (reset_settles enabled _ _ Hreset) as Hempty. apply catch_unavailable in H; [|done].
  apply block_ok in H. rewrite look_bind in H. apply act_bind_ok in H as (n & s2 & Hd & H).
  apply act_bind_ok in H as ([] & s3 & Hw & [= <-]).
  assert (forall x : row TDocument, x ∈ select TDocument (fun _ => true) (db_of s) <->
    tbl (db_of s) TDocument !! Document.id x = Some x) as Hsel.
  { intros x. rewrite (elem_of_select TDocument). split.
    - intros [[k Hk] _]. by rewrite (documents_keyed _ K _ _ Hk).
    - intros Hx. split; [by exists (Document.id x)|done]. }
  apply rebuild_documents_ok in Hd as (E & Hs & Hk).
  2: { intros x y Hx%Hsel Hy%Hsel Eid. rewrite Eid in Hx. apply (inj Some). etransitivity; [symmetry; exact Hx|exact Hy]. }
  injection Hw as <-. cbn [p_world p_client server set_db wdb wfs] in *. rewrite E. split_and!; [done|done|].
  intros i. destruct (tbl (db_of s) TDocument !! i) as [x|] eqn:Hx; cbn [exactly].
  - pose proof (documents_keyed _ K _ _ Hx) as <-. destruct (eqs _ _) eqn:Hp.
    + apply Hs; [by apply Hsel|by apply eqs_true].
    + apply Hk; [|apply Hempty]. intros y Hy%Hsel Hpy Eid. rewrite Eid in Hy. assert (y = x) as -> by (apply (inj Some); etransitivity; [symmetry; exact Hy|exact Hx]).
      rewrite Hpy in Hp. by vm_compute in Hp.
  - apply Hk; [|apply Hempty]. intros y Hy%Hsel Hpy <-. discriminate (eq_trans (eq_sym Hx) Hy).
Qed.
End rebuild.

(** ** Steps *)
Section steps.
Context {S : Type} {Hserver : SearchServer S} {Hlaws : SearchServerLaws S} {Hmarkdown : DocumentMarkdown}
  (enabled : bool) (projector : SearchProjectionExecutor).
Context (casefold : str -> str) (float_text : str -> str)
  (unseal : bytes -> bytes -> bytes -> bytes -> option bytes)
  (ex : AccountErasureExecutor) (journal : disk).
Notation public x := (Document.visibility x = u "public").

(** A state and its successor: a transaction of a worker, an operator's retry, a
    document written, a rebuild that succeeds, a run of the erasure executor, whose
    deletions from the index may each be answered or not, the concealment of a
    document, or anything that leaves the documents, the tasks and the index alone.
    The transaction that projects a document holds its advisory lock, which the
    writers of documents and the deletion of their rows wait for.  Concealment and the
    executor's deletions from the index do not take it: [step_late] is a worker that
    read a document before and writes it after them. *)
Definition index_deletion (d : db) (c c' : Client S) : Prop :=
  exists i r, unindexing d i /\ delete_document enabled i c = (r, c').
Inductive search_step (s : pstate S) : pstate S -> Prop :=
| step_claim now dr r s' : claim_projection projector now dr s = (r, s') -> search_step s s'
| step_project claim r s' : project enabled projector claim s = (r, s') -> search_step s s'
| step_failed claim now e r s' : projection_failed projector claim now e s = (r, s') -> search_step s s'
| step_retry i v now r s' : retry_dead_letter i v now s = (r, s') -> search_step s s'
| step_document x updated now w : document_written x updated now (db_of s) (wdb w) ->
    search_step s (MkPState w (p_client s))
| step_conceal x now w : document_concealed x now (db_of s) (wdb w) -> search_step s (MkPState w (p_client s))
| step_late x markdown v r c w : unindexing (db_of s) (Document.id x) ->
    is_Some (tbl (db_of s) TDocument !! Document.id x) -> index enabled x markdown (p_client s) = (r, c) ->
    w = p_world s \/ w = set_db (del TSearchProjectionTask (task_key (Document.id x) v) (db_of s)) (p_world s) ->
    search_step s (MkPState w c)
| step_rebuild s' : rebuild_search enabled (pj_store projector) s = (Ok 0, s') -> search_step s s'
| step_erasure limit now env new_ids r w c :
    run_once casefold float_text unseal ex journal limit now env new_ids (p_world s) = (r, w) ->
    rtc (index_deletion (db_of s)) (p_client s) c -> search_step s (MkPState w c)
| step_elsewhere w : elsewhere (db_of s) (wdb w) -> search_step s (MkPState w (p_client s)).

(** The invariant. *)
Definition sound (s : pstate S) : Prop := truth s /\ protected_keys (db_of s).

(** *** What each step leaves of the plan *)
Ltac unplanned := apply (bool_decide_unpack (_ ∉ _)); vm_compute; exact I.
Definition plan_kept (d d' : db) : Prop := same_on protected d d'.
Lemma plan_unindexing d d' i : plan_kept d d' -> unindexing d i -> unindexing d' i.
Proof. intros H. apply same_unindexing, H. in_protected. Qed.
Lemma plan_keys d d' : plan_kept d d' -> protected_keys d -> protected_keys d'.
Proof. intros H K t k r Ht Hr. rewrite (H t Ht) in Hr. by apply (K t k r). Qed.
Lemma plan_put t k r d : t ∉ protected -> plan_kept d (put t k r d).
Proof. intros Ht. by apply same_on_put. Qed.
Notation quiet := (keeps (fun s s' : pstate S => plan_kept (db_of s) (db_of s'))).
#[local] Instance quiet_preorder : PreOrder (fun s s' : pstate S => plan_kept (db_of s) (db_of s')).
Proof. split; [intros s; apply reflexivity|]. intros a b c H1 H2. etransitivity; [exact H1|exact H2]. Qed.
Lemma quiet_block {A : Type} (m : act (pstate S) A) : quiet m -> quiet (session_block m).
Proof.
  intros Hm t r t'. unfold session_block. destruct (m t) as [[a|e] t1] eqn:E; intros [= <- <-]; [exact (Hm _ _ _ E)|].
  apply reflexivity.
Qed.
Lemma quiet_search {A : Type} (m : act (Client S) A) : quiet (on_search m).
Proof. intros t r t' H. apply search_world in H. rewrite H. apply reflexivity. Qed.
Lemma quiet_save_task t : quiet (save_projection t : act (pstate S) unit).
Proof.
  intros a r b. unfold save_projection, on_world, on_db. destruct (session_save _ _ _) as [x d] eqn:E. intros [= <- <-].
  apply session_save_spec in E as [(_ & _ & ->)|(_ & ->)]; [|apply reflexivity]. apply plan_put; unplanned.
Qed.
Lemma quiet_consume t : quiet (consume t : act (pstate S) unit).
Proof. intros a r b [= <- <-] t' Ht'. apply tbl_del_ne. intros <-. revert Ht'; unplanned. Qed.
Ltac quiet_pstep :=
  first
    [ solve [apply keeps_ret, _ | apply keeps_raise, _ | apply keeps_gets, _ | apply keeps_lift, _
            | apply quiet_search | apply quiet_save_task | apply quiet_consume ]
    | apply quiet_block
    | apply keeps_bind; [apply _|..|intros ?]
    | case_match ].
Lemma quiet_claim now dr : quiet (claim_projection projector now dr).
Proof. unfold claim_projection, look. repeat quiet_pstep. Qed.
Lemma quiet_project claim : quiet (project enabled projector claim).
Proof. unfold project, publish, attested_removal, look. repeat quiet_pstep. Qed.
Lemma quiet_fail claim code retryable now : quiet (fail_projection projector claim code retryable now).
Proof. unfold fail_projection, look. repeat quiet_pstep. Qed.
Lemma quiet_failed claim now e : quiet (projection_failed projector claim now e).
Proof. destruct e; cbn [projection_failed]; first [apply keeps_raise, _|apply quiet_fail]. Qed.
Lemma quiet_retry i v now : quiet (retry_dead_letter i v now).
Proof. unfold retry_dead_letter, look. repeat quiet_pstep. Qed.
(** The executor rewrites items; it neither drops nor moves one. *)
Lemma item_step_place d i i' : item_step ex d i i' ->
  AccountErasureItem.phase i' = AccountErasureItem.phase i
  /\ AccountErasureItem.resource_id i' = AccountErasureItem.resource_id i.
Proof. destruct 1; try done. unfold failed_item. by repeat case_match. Qed.
Lemma erasure_step_planned d d' i : erasure_step ex d d' -> unindexing d i -> unindexing d' i.
Proof.
  intros [j j' Hj Hs|l l' Hl Hs|m o digest e now _ Ho _ _|l now d2 Hl _ _ d1 Hd|d2 Hd].
  - intros (k & item & Hk & Hp & Hr). apply item_step_place in Hs as [Hp' Hr'].
    destruct (decide (AccountErasureItem.id j = k)) as [<-|Hne].
    + exists (AccountErasureItem.id j), j'. rewrite tbl_put_eq, lookup_insert_eq. split; [done|].
      assert (item = j) as -> by (apply (inj Some); etransitivity; [symmetry; exact Hk|exact Hj]). by rewrite Hp', Hr'.
    + exists k, item. by rewrite tbl_put_eq, lookup_insert_ne.
  - apply same_unindexing. by apply tbl_put_ne.
  - apply same_unindexing. by apply tbl_put_ne.
  - destruct Hd as [[-> _]|(j & digest & _ & _ & ->)]; apply same_unindexing; unfold d1; by rewrite ?tbl_put_ne.
  - apply same_unindexing, Hd. in_protected.
Qed.
Lemma erases_planned d d' i : protected_keys d -> erases ex d d' -> unindexing d i -> unindexing d' i.
Proof. intros K H. specialize (H K). induction H as [|a b c Hs _ IH]; [done|]. intros Hi. apply IH.
  - by eapply erasure_step_keys.
  - by eapply erasure_step_planned.
Qed.

(** *** The invariant is kept *)
Lemma deletions_only c c' d : rtc (index_deletion d) c c' -> only_unindexed d (server c) (server c').
Proof.
  induction 1 as [c|c1 c2 c3 (i & r & Hi & Hd) _ IH]; [apply only_unindexed_refl|]. intros j.
  assert (same_at (server c1) (server c2) j \/ unindexing d j /\ (cleared (server c1) j -> cleared (server c2) j)) as H12.
  { destruct (decide (j = i)) as [->|Hj]; [right; split; [done|exact (delete_never_puts _ _ _ _ _ Hd)]|].
    left. exact (delete_others _ _ _ _ _ Hd j Hj). }
  destruct H12 as [H1|[Hj H1]], (IH j) as [H2|[Hj' H2]].
  - left. by eapply same_at_trans.
  - right. split; [done|]. intros Hc. by apply H2, H1.
  - right. split; [done|]. intros Hc. by apply H2, H1.
  - right. split; [done|]. intros Hc. by apply H2, H1.
Qed.
Lemma rebuild_truth s s' : projection_keys (db_of s) -> rebuild_search enabled (pj_store projector) s = (Ok 0, s') ->
  truth s'.
Proof.
  intros K (E & _ & H)%rebuild_ok; [|done]. unfold truth. rewrite E. split.
  - destruct K as [K1 K2]. split; intros k x; [rewrite tbl_delete_where_ne by done; apply K1|].
    intros [Hk _]%lookup_delete_where. by apply K2.
  - intros i. rewrite tbl_delete_where_ne by done. apply exactly_told, H.
Qed.
Lemma late_truth x markdown v (s : pstate S) r c w : unindexing (db_of s) (Document.id x) ->
  is_Some (tbl (db_of s) TDocument !! Document.id x) -> index enabled x markdown (p_client s) = (r, c) ->
  w = p_world s \/ w = set_db (del TSearchProjectionTask (task_key (Document.id x) v) (db_of s)) (p_world s) ->
  truth s -> truth (MkPState w c).
Proof.
  intros Hu [y Hy] H Hw T. pose proof (index_others enabled x markdown _ _ _ H) as Ho. unfold truth. cbn [p_world p_client].
  destruct Hw as [->| ->].
  - destruct T as [K T]. split; [exact K|]. intros j. destruct (decide (j = Document.id x)) as [->|Hj].
    + rewrite Hy. by do 3 right.
    + apply (told_same (db_of s) _ (index_of s)); [by apply Ho|intros z Hz; by apply (documents_keyed _ K)|done..|apply T].
  - apply consumed_truthful with (index_of s); [done|exact Ho|]. rewrite Hy. do 3 right.
    revert Hu. apply same_unindexing. by apply tbl_del_ne.
Qed.
Lemma search_step_truth s s' : search_step s s' -> sound s -> truth s'.
Proof.
  intros [now dr r s1 H|claim r s1 H|claim now e r s1 H|i v now r s1 H|x updated now w H|x now w H
         |x markdown v r c w Hu Hx H Hw|s1 H|limit now env new_ids r w c H Hc|w H] [T Kp].
  - by eapply claim_truth.
  - by eapply project_truth.
  - by eapply handler_truth.
  - by eapply retry_truth.
  - by eapply document_written_truth.
  - by eapply concealed_truth.
  - by eapply late_truth.
  - eapply rebuild_truth; [exact (truthful_keys _ _ T)|done].
  - pose proof (truthful_keys _ _ T) as K. pose proof (harmless_run _ _ _ _ _ _ _ _ _ _ _ _ H K) as (K' & Hs & Hd).
    refine (truthful_armed _ _ _ _ K' Hs Hd _ (deletions_only _ _ _ Hc) T). intros i.
    apply erases_planned; [done|]. exact (steps_run_once _ _ _ _ _ _ _ _ _ _ _ _ H).
  - by eapply same_truthful.
Qed.
Lemma written_keys x updated now d d' : document_written x updated now d d' -> protected_keys d -> protected_keys d'.
Proof.
  intros (d1 & d2 & H1 & Hq & H2) K. apply (else_keys _ _ H2).
  apply queue_write_ok in Hq as (d3 & _ & _ & E & ->).
  assert (protected_keys d1) as K1.
  { apply (else_keys _ _ H1). eapply plan_keys; [|exact K]. apply plan_put; unplanned. }
  eapply plan_keys; [apply plan_put; unplanned|].
  eapply plan_keys; [|exact K1]. intros t Ht. apply E. intros ->. revert Ht; unplanned.
Qed.
Lemma concealed_keys x now d d' : document_concealed x now d d' -> protected_keys d -> protected_keys d'.
Proof.
  intros (_ & d1 & H%conceal_runs & He & _) K. apply (else_keys _ _ He). eapply (plan_keys (put TDocument _ _ d) d1).
  - intros t Ht. apply H, untouched_kept. by right.
  - refine (plan_keys d _ (plan_put TDocument _ _ d _) K). unplanned.
Qed.
Lemma search_step_keys s s' : search_step s s' -> sound s -> protected_keys (db_of s').
Proof.
  intros [now dr r s1 H|claim r s1 H|claim now e r s1 H|i v now r s1 H|x updated now w H|x now w H
         |x markdown v r c w Hu Hx H Hw|s1 H|limit now env new_ids r w c H Hc|w H] [T K].
  - eapply plan_keys; [exact (quiet_claim _ _ _ _ _ H)|done].
  - eapply plan_keys; [exact (quiet_project _ _ _ _ H)|done].
  - eapply plan_keys; [exact (quiet_failed _ _ _ _ _ _ H)|done].
  - eapply plan_keys; [exact (quiet_retry _ _ _ _ _ _ H)|done].
  - by eapply written_keys.
  - by eapply concealed_keys.
  - destruct Hw as [->| ->]; [done|]. eapply plan_keys; [|exact K].
    intros t Ht. apply tbl_del_ne. intros <-. revert Ht; unplanned.
  - apply rebuild_ok in H as (E & _); [|exact (truthful_keys _ _ T)]. rewrite E. eapply plan_keys; [|exact K].
    intros t Ht. apply tbl_delete_where_ne. intros <-. revert Ht; unplanned.
  - eapply erases_keys; [|exact K]. exact (steps_run_once _ _ _ _ _ _ _ _ _ _ _ _ H).
  - by apply (else_keys _ _ H).
Qed.
Lemma reached_sound s s' : rtc search_step s s' -> sound s -> sound s'.
Proof.
  induction 1 as [|a b c Hs _ IH]; [done|]. intros H. apply IH. split; [by eapply search_step_truth|by eapply search_step_keys].
Qed.
(** A run of the worker is a sequence of its transactions. *)
Lemma once_steps now dr s r s' : project_once enabled projector now dr s = (r, s') -> rtc search_step s s'.
Proof.
  unfold project_once, act_bind. destruct (claim_projection projector now dr s) as [[claim|e] s1] eqn:Hc.
  - intros H. eapply rtc_l; [eapply step_claim; exact Hc|]. destruct claim as [claim|]; [|injection H as _ <-; apply rtc_refl].
    unfold catch in H. destruct (project enabled projector claim s1) as [[x|e] s2] eqn:Hp.
    + injection H as _ <-. eapply rtc_once, step_project, Hp.
    + eapply rtc_l; [eapply step_project, Hp|]. eapply rtc_once, step_failed, H.
  - intros [= _ <-]. eapply rtc_once, step_claim, Hc.
Qed.
Lemma unawaited_told s i : truth s -> ~ awaited i (db_of s) ->
  match tbl (db_of s) TDocument !! i with
  | Some x => unindexing (db_of s) i \/ settled (index_of s) i None \/ shown x (index_of s)
  | None => cleared (index_of s) i
  end.
Proof.
  intros [K T] Ha. specialize (T i). destruct (tbl _ TDocument !! i) as [x|]; cbn [told] in T; [|by destruct T].
  destruct T as [[t Ht]|[T|[T|T]]]; [|by right; left|by right; right|by left]. destruct Ha. eexists _, t. split; [exact Ht|].
  apply (tasks_keyed _ K), pair_key_inj in Ht as [E _]. exact E.
Qed.
(** C7: from a truthful state, after any interleaving of the transactions of workers,
    retries, document writes, successful rebuilds, account deletions and erasure runs,
    however those end and whatever answers of the search server are lost, a document
    that no task awaits is absent from the search index, or public and shown there in its current version,
    unless an account deletion has concealed it and its planned removal is under way;
    and once its row is deleted it is absent and no accepted write brings it back. *)
Theorem index_truthful s s' i : truth s -> protected_keys (db_of s) -> rtc search_step s s' -> ~ awaited i (db_of s') ->
  match tbl (db_of s') TDocument !! i with
  | Some x => unindexing (db_of s') i \/ settled (index_of s') i None \/ shown x (index_of s')
  | None => cleared (index_of s') i
  end.
Proof. intros T K H. apply unawaited_told. by eapply (reached_sound s s'). Qed.

(** C9: a rebuild that reports success leaves the index showing exactly the public
    documents, in their current versions, whatever it held before, and no task. *)
Theorem rebuild_exact s s' : projection_keys (db_of s) ->
  rebuild_search enabled (pj_store projector) s = (Ok 0, s') ->
  tbl (db_of s') TDocument = tbl (db_of s) TDocument /\ tbl (db_of s') TSearchProjectionTask = ∅
  /\ wfs (p_world s') = wfs (p_world s)
  /\ forall i, match tbl (db_of s') TDocument !! i with
       | Some x => if eqs (Document.visibility x) "public" then shown x (index_of s') else settled (index_of s') i None
       | None => settled (index_of s') i None
       end.
Proof.
  intros K (E & Hf & H)%rebuild_ok; [|done]. rewrite E. split_and!; [by rewrite tbl_delete_where_ne| |done|].
  - apply map_eq. intros k. rewrite lookup_empty. destruct (tbl _ _ !! k) as [t|] eqn:Hk; [|done].
    by apply lookup_delete_where in Hk as [_ ?].
  - intros i. rewrite tbl_delete_where_ne by done. apply H.
Qed.

(** *** Reports *)
(** What an action says of the document and of the state it leaves. *)
Definition reported_document (i : str) (v : Z) (a : string) (s' : pstate S) (document : option (row TDocument)) : Prop :=
  match document with
  | None => a = "removed_missing"%string /\ settled (index_of s') i None
  | Some x =>
      a = "superseded"%string /\ Document.current_version x <> v
      \/ Document.current_version x = v
         /\ (a = "removed"%string /\ ~ public x /\ settled (index_of s') i None
             \/ a = "indexed"%string /\ public x
                /\ exists markdown version f content discovery,
                     current_version_row x (db_of s') = Some version
                     /\ read_verified (pj_store projector) (DocumentVersion.storage_path version)
                          (DocumentVersion.sha256 version) (wfs (p_world s')) = Ok markdown
                     /\ validate_document (Document.kind x) markdown = Ok (f, content)
                     /\ _project_frontmatter f = Ok discovery
                     /\ settled (index_of s') i (Some (index_payload x f discovery content)))
  end.
Definition reported (i : str) (v : Z) (a : string) (s' : pstate S) : Prop :=
  tbl (db_of s') TSearchProjectionTask !! task_key i v = None
  /\ reported_document i v a s' (tbl (db_of s') TDocument !! i).
Lemma consumed_facts claim w :
  let w' := set_db (del TSearchProjectionTask (task_key (c_document_id claim) (c_version claim)) (wdb w)) w in
  tbl (wdb w') TSearchProjectionTask !! task_key (c_document_id claim) (c_version claim) = None
  /\ tbl (wdb w') TDocument = tbl (wdb w) TDocument
  /\ (forall x, current_version_row x (wdb w') = current_version_row x (wdb w)) /\ wfs w' = wfs w.
Proof.
  intros w'. split_and!; [apply deleted_lookup|by apply tbl_del_ne| |done].
  intros x. unfold current_version_row, select. change (wdb w') with (del TSearchProjectionTask
    (task_key (c_document_id claim) (c_version claim)) (wdb w)). by rewrite tbl_del_ne.
Qed.
Lemma projected_reported claim s s' a : projection_keys (db_of s) -> projected projector claim s s' a ->
  a <> "lost_lease"%string -> reported (c_document_id claim) (c_version claim) a s'.
Proof.
  intros K H Ha. destruct (consumed_facts claim (p_world s)) as (F1 & F2 & F3 & F4). unfold reported, reported_document.
  destruct H as [_ _|Hx Hs E|x Hx Hv ->|x Hx Hv Hvis Hs E|x Hx Hv Hvis Hp E]; [done| | | |].
  - rewrite E. split; [exact F1|]. rewrite F2, Hx. by split.
  - cbn [p_world]. split; [exact F1|]. rewrite F2, Hx. by left.
  - rewrite E. split; [exact F1|]. rewrite F2, Hx. right. split; [done|]. by left.
  - rewrite E. split; [exact F1|]. rewrite F2, Hx. right. split; [done|]. right. split_and!; [done..|].
    destruct Hp as [(version & markdown & f & content & discovery & H1 & H2 & H3 & H4 & H5)].
    exists markdown, version, f, content, discovery. rewrite F3, F4, <-(documents_keyed _ K _ _ Hx). by split_and!.
Qed.
Lemma failed_reported claim code retryable now (s : pstate S) r s' : projection_keys (db_of s) ->
  fail_projection projector claim code retryable now s = (Ok r, s') -> r_error_code r = None ->
  action r <> "lost_lease"%string ->
  r = result_of claim "superseded" /\ projected projector claim s s' "superseded".
Proof.
  intros K H%block_ok Hc Ha. rewrite look_bind in H. destruct (leased_projection projector claim (db_of s)) as [t|] eqn:Ht.
  - apply leased_task in Ht as (_ & Hr & _); [|done]. rewrite look_bind in H. cbv beta in H.
    destruct (tbl (db_of s) TDocument !! c_document_id claim) as [x|] eqn:Hx.
    + destruct (negb _) eqn:Hv.
      * apply act_bind_ok in H as ([] & s1 & Hd & [= <- <-]). apply (consume_ok _ _ _ _ Hr) in Hd. bool_facts.
        split; [done|]. by eapply projected_superseded.
      * destruct (failed_task _ _ _ _ _) as [dead t']. by apply act_bind_ok in H as ([] & s1 & _ & [= <- _]).
    + destruct (failed_task _ _ _ _ _) as [dead t']. by apply act_bind_ok in H as ([] & s1 & _ & [= <- _]).
  - by injection H as <- _.
Qed.
Lemma handled_reported claim now e (s : pstate S) r s' : projection_keys (db_of s) ->
  projection_failed projector claim now e s = (Ok r, s') -> r_error_code r = None ->
  action r <> "lost_lease"%string ->
  r = result_of claim "superseded" /\ projected projector claim s s' "superseded".
Proof.
  intros K H. destruct e; cbn [projection_failed] in H; try discriminate H; exact (failed_reported _ _ _ _ _ _ _ K H).
Qed.
Lemma claim_keys now dr (s : pstate S) c s' : claim_projection projector now dr s = (Ok c, s') -> projection_keys (db_of s) ->
  projection_keys (db_of s').
Proof.
  intros H%block_ok K. rewrite look_bind in H. destruct (next_projection _ _ _) as [t|]; [|by injection H as _ <-].
  apply act_bind_ok in H as ([] & s1 & Hs & [= _ <-]). unfold save_projection, on_world in Hs.
  destruct (on_db _ (p_world s)) as [r w] eqn:E. injection Hs as -> <-. apply save_runs in E. cbn [p_world].
  rewrite E. by apply saved_keys.
Qed.
(** C10: what a run of the worker reports is so: "indexed", a public document at the
    claimed version whose verified Markdown the index now shows; "removed", a document
    that is private or gone and absent from the index; "superseded", a document whose
    current version is another.  In each case the task is gone. *)
Theorem worker_reports_truth now dr s r s' i v : projection_keys (db_of s) ->
  project_once enabled projector now dr s = (Ok r, s') ->
  r_document_id r = Some i -> r_version r = Some v -> r_error_code r = None -> action r <> "lost_lease"%string ->
  reported i v (action r) s'.
Proof.
  intros K H Hi Hv Hc Ha. apply act_bind_ok in H as ([claim|] & s1 & Hclaim & H); [|by injection H as <- _].
  apply claim_keys in Hclaim; [|done]. unfold catch in H.
  destruct (project enabled projector claim s1) as [[x|e] s2] eqn:Hp.
  - injection H as <- <-. apply project_cases in Hp as (a & -> & Hp); [|done].
    injection Hi as <-. injection Hv as <-. by eapply projected_reported.
  - pose proof (proj1 (project_raised _ _ _ _ _ _ Hclaim Hp)) as E.
    apply handled_reported in H as [-> H]; [|by rewrite E|done..].
    injection Hi as <-. injection Hv as <-. eapply projected_reported; [|exact H|done]. by rewrite E.
Qed.

(** *** The end of an account *)
Lemma open_erased l now new_id w a w' l' :
  tbl (wdb w) TAccountLifecycle !! AccountLifecycle.id l = Some l -> running l = true ->
  reconcile_open l now new_id w = (Ok a, w') -> tbl (wdb w') TAccountLifecycle !! AccountLifecycle.id l = Some l' ->
  AccountLifecycle.state l' = u "fully_erased" ->
  projection_states (items_of (AccountLifecycle.id l) (wdb w)) (wdb w) = [].
Proof.
  intros Hl Hr. unfold reconcile_open. rewrite query_bind. intros H Hl' Hs.
  assert (forall l1, AccountLifecycle.id l1 = AccountLifecycle.id l -> AccountLifecycle.state l1 <> u "fully_erased" ->
    save_lifecycle l1 w = (Ok a, w') -> False) as Hno.
  { intros l1 Hid Hne E%save_runs. cbn [row_id] in E. rewrite E, Hid, tbl_put_eq, lookup_insert_eq in Hl'.
    apply (inj Some) in Hl' as ->. by apply Hne. }
  assert (forall code state, u state <> u "fully_erased" -> save_lifecycle (in_state state code l) w = (Ok a, w') -> False) as Hin.
  { intros code state Hne. by apply Hno. }
  do 3 (destruct (existsb _ _) in H; [by apply Hin in H|]). destruct (negb _); [by apply Hin in H|].
  rewrite query_bind in H. destruct (existsb _ _) in H; [by apply Hin in H|].
  destruct (projection_states _ _) as [|x xs]; [done|by apply Hin in H].
Qed.
Lemma open_state l : running l = true -> AccountLifecycle.state l <> u "fully_erased"
  /\ eqs (AccountLifecycle.state l) "confirmation_pending" = false /\ eqs (AccountLifecycle.state l) "fully_erased" = false.
Proof.
  unfold running. intros [Hp%negb_true_iff He%negb_true_iff]%andb_true_iff. split_and!; [|done|done].
  intros E. rewrite E in He. by vm_compute in He.
Qed.
Lemma reconciled_states deletion_id now new_id w w' l l' : protected_keys (wdb w) ->
  tbl (wdb w) TAccountLifecycle !! deletion_id = Some l -> running l = true ->
  _reconcile float_text unseal ex journal deletion_id now new_id w = (Ok tt, w') ->
  tbl (wdb w') TAccountLifecycle !! deletion_id = Some l' -> AccountLifecycle.state l' = u "fully_erased" ->
  projection_states (items_of deletion_id (wdb w)) (wdb w) = [].
Proof.
  intros Hk Hl Hr H Hl' Hs. destruct (open_state _ Hr) as (Ho & Hp & He).
  pose proof (found_lifecycle _ _ _ Hk Hl) as <-. apply (proj1 (transaction_ok _ _ _ _)) in H. unfold session_get in H.
  rewrite query_bind in H. destruct (tbl (wdb w) TAccountBackupAuthority !! _).
  - rewrite query_bind in H. destruct (tbl (wdb w) TAccountLifecycle !! _) as [l1|] eqn:Hl1 in H;
      [|discriminate (eq_trans (eq_sym Hl1) Hl)].
    assert (l1 = l) as -> by (apply (inj Some); exact (eq_trans (eq_sym Hl1) Hl)).
    rewrite Hp, He in H. by eapply open_erased.
  - injection H as <-. rewrite Hl in Hl'. apply (inj Some) in Hl' as <-. done.
Qed.
(** C8: in every state reached from a truthful one, by whatever interleaving of the
    steps above, concealment and late worker writes included: when the executor then
    reports an account fully erased, no document of its plan whose row is deleted is
    in the search index, and no accepted write is left that would bring one back. *)
Theorem erased_documents_unindexed deletion_id now new_id s0 s w' l l' item :
  truth s0 -> protected_keys (db_of s0) -> rtc search_step s0 s ->
  tbl (db_of s) TAccountLifecycle !! deletion_id = Some l -> running l = true ->
  _reconcile float_text unseal ex journal deletion_id now new_id (p_world s) = (Ok tt, w') ->
  tbl (wdb w') TAccountLifecycle !! deletion_id = Some l' -> AccountLifecycle.state l' = u "fully_erased" ->
  item ∈ items_of deletion_id (db_of s) -> of_type "document" item = true ->
  tbl (db_of s) TDocument !! AccountErasureItem.resource_id item = None ->
  cleared (index_of s) (AccountErasureItem.resource_id item).
Proof.
  intros T0 K0 H0 Hl Hr H Hl' Hs Hi Hty Hd.
  destruct (reached_sound _ _ H0 (conj T0 K0)) as [[_ T] Hk].
  specialize (T (AccountErasureItem.resource_id item)). rewrite Hd in T.
  cbn [told] in T. destruct T as [(k & t & Ht & E)|T]; [|done]. exfalso.
  pose proof (reconciled_states _ _ _ _ _ _ _ Hk Hl Hr H Hl' Hs) as Hp. unfold projection_states in Hp.
  apply map_eq_nil in Hp. refine (proj1 (elem_of_nil t) _). rewrite <-Hp. apply (elem_of_select TSearchProjectionTask).
  split; [by exists k|]. apply bool_decide_eq_true, list_elem_of_In, in_map_iff. exists item. split; [done|].
  apply list_elem_of_In, list_elem_of_filter. by split.
Qed.
End steps.

(** ** Concrete runs *)
Module SearchDemo.
Definition at_ (t : Z) : datetime := MkDatetime t (Some 0).
Definition document : Document :=
  Document.Mk (u "d") (u "profile") (u "user") (u "ada") (u "public") (Some 1) 1 (at_ 0) (at_ 0).
Definition version : DocumentVersion :=
  DocumentVersion.Mk (u "v") (u "d") 1 StoreDemo.digest StoreDemo.rel (u "user") (u "clerk_jwt") None (at_ 0).
Definition task : SearchProjectionTask :=
  SearchProjectionTask.Mk (u "d") 1 (u "pending") 0 (at_ 0) None None None None None (at_ 0) (at_ 0).
Definition projector : SearchProjectionExecutor := MkProjectionExecutor StoreDemo.store (u "w") 60 8 300.
#[export] Instance markdown : DocumentMarkdown.
Proof.
  refine {| validate_document := fun _ body =>
    Ok (MkFrontmatter (u "Ada") (u "Engineer") None (u "2024-01-02T03:04:05Z") (V1 (u "London") [u "Proofs"]), body) |}.
  by intros kind body e [=].
Defined.
Definition d0 : db :=
  put TSearchProjectionTask (task_key (u "d") 1) task
    (put TDocumentVersion (u "v") version (put TDocument (u "d") document empty_db)).
(** The answer to the second request is lost. *)
Definition s0 : pstate queue_server :=
  MkPState (MkWorld d0 StoreDemo.written) (MkClient (MkQueueServer ∅ [] 0 [false; true]) false).
Definition draws (t : Z) : ProjectionDraws := MkProjectionDraws ∅ (u "token") (at_ t).
Definition second : Z := 1000000.
Definition run (t : Z) : act (pstate queue_server) ProjectionResult := project_once true projector (at_ t) (draws t).
Definition s1 : pstate queue_server := (run second s0).2.
Definition s2 : pstate queue_server := (run (10 * second) s1).2.
Definition act_of (r : Res ProjectionResult) : string := match r with Ok r => action r | Raise _ => "raised" end.
Lemma keys0 : projection_keys d0.
Proof.
  split; intros k x H.
  - change (tbl d0 TDocument) with (<[u "d" := document]> (∅ : gmap str (row TDocument))) in H.
    by apply lookup_insert_Some in H as [[<- <-]|[_ H]]; [|rewrite lookup_empty in H].
  - change (tbl d0 TSearchProjectionTask) with
      (<[task_key (u "d") 1 := task]> (∅ : gmap str (row TSearchProjectionTask))) in H.
    by apply lookup_insert_Some in H as [[<- <-]|[_ H]]; [|rewrite lookup_empty in H].
Qed.
Lemma truth0 : truth s0.
Proof.
  split; [exact keys0|]. intros i. change (tbl _ TDocument) with (<[u "d" := document]> (∅ : gmap str (row TDocument))).
  destruct (decide (i = u "d")) as [->|H].
  - rewrite lookup_insert_eq. left. exists task. change (tbl _ TSearchProjectionTask) with
      (<[task_key (u "d") 1 := task]> (∅ : gmap str (row TSearchProjectionTask))). apply lookup_insert_eq.
  - rewrite lookup_insert_ne by done. right. apply settled_cleared. split; [constructor|apply lookup_empty].
Qed.
Lemma not_awaited i (d : db) : select TSearchProjectionTask (fun _ => true) d = [] -> ~ awaited i d.
Proof.
  intros H (k & t & Ht & _). assert (t ∈ select TSearchProjectionTask (fun _ => true) d) as Hin.
  { apply (elem_of_select TSearchProjectionTask). split; [by exists k|done]. }
  rewrite H in Hin. by apply elem_of_nil in Hin.
Qed.
Lemma ran {T A : Type} (m : act T A) s r : (m s).1 = r -> m s = (r, (m s).2).
Proof. intros <-. by destruct (m s). Qed.
Notation step := (search_step true projector (fun s => s) (fun s => s) ErasureDemo.unseal ErasureDemo.executor ∅).
Lemma steps_run t s : rtc step s (run t s).2.
Proof. exact (once_steps _ _ _ _ _ _ _ (at_ t) (draws t) s (run t s).1 _ (surjective_pairing (run t s))). Qed.
Lemma keyed0 : protected_keys (db_of s0).
Proof. apply keys_check_true. vm_compute. reflexivity. Qed.
Lemma keys1 : projection_keys (db_of s1).
Proof. exact (truthful_keys _ _ (proj1 (reached_sound _ _ _ _ _ _ _ _ _ (steps_run second s0) (conj truth0 keyed0)))). Qed.
(** The account's deletion conceals the document and plans its removal. *)
Definition installed : PublicExactSearchProjectionState :=
  PublicExactSearchProjectionState.Mk EXACT_SEARCH_SCOPE 0 (u "ready") (replicate 64 97) None (at_ 0) (at_ 0).
Definition d_public : db := put TPublicExactSearchProjectionState EXACT_SEARCH_SCOPE installed d0.
Definition planned : AccountErasureItem :=
  (ErasureDemo.item "document" "unindex" "queued") <| AccountErasureItem.resource_id := u "d" |>.
Definition d_private : db := (conceal_document document (at_ 5) d_public).2.
Definition concealed_db : db := put TAccountErasureItem (u "document") planned d_private.
Lemma conceal_step : document_concealed document (at_ 5) d_public concealed_db.
Proof.
  split; [reflexivity|]. exists d_private. split_and!.
  - unfold d_private. apply ran. vm_compute. reflexivity.
  - split.
    + apply same_on_put. apply (bool_decide_unpack (_ ∉ _)). vm_compute. exact I.
    + intros i (k & x & Hk & _). exfalso.
      assert (tbl d_private TAccountErasureItem = ∅) as E by (vm_compute; reflexivity).
      rewrite E in Hk. exact (eq_None_ne_Some_1 _ _ (lookup_empty k) Hk).
    + intros K. apply protected_keys_put; [exact K|reflexivity].
  - exists (u "document"), planned. split_and!; [|reflexivity..]. unfold concealed_db. rewrite tbl_put_eq. apply lookup_insert_eq.
Qed.
(** An index that shows a document nobody knows. *)
Definition stale : pstate queue_server :=
  MkPState (MkWorld d0 StoreDemo.written) (MkClient (MkQueueServer {[ u "x" := [] ]} [] 0 []) false).
Definition rebuild : act (pstate queue_server) Z := rebuild_search true (pj_store projector).
(** A finished account whose document is gone. *)
Definition item : AccountErasureItem := ErasureDemo.item "document" "delete_row" "completed".
Definition finished : world := set_db (put TAccountErasureItem (u "document") item (wdb ErasureDemo.finished)) ErasureDemo.finished.
Definition finished_state : pstate queue_server := MkPState finished (MkClient (MkQueueServer ∅ [] 0 []) false).
Definition reconcile : act world unit :=
  _reconcile (fun s => s) ErasureDemo.unseal ErasureDemo.executor ∅ (u "d") BackupDemo.noon (u "stone").
Lemma truth_finished : truth finished_state.
Proof.
  split; [split; intros k x H; exfalso; exact (eq_None_ne_Some_1 _ _ (lookup_empty k) H)|].
  intros i. change (tbl _ TDocument) with (∅ : gmap str (row TDocument)). rewrite lookup_empty. right.
  apply settled_cleared. split; [constructor|apply lookup_empty].
Qed.
Lemma keyed_finished : protected_keys (wdb finished).
Proof. apply keys_check_true. vm_compute. reflexivity. Qed.
End SearchDemo.
#[local] Existing Instance SearchDemo.markdown.
Lemma index_truthful_witness :
  SearchDemo.act_of (SearchDemo.run SearchDemo.second SearchDemo.s0).1 = "retry_scheduled"%string
  /\ SearchDemo.act_of (SearchDemo.run (10 * SearchDemo.second) SearchDemo.s1).1 = "indexed"%string
  /\ match tbl (db_of SearchDemo.s2) TDocument !! u "d" with
     | Some x => unindexing (db_of SearchDemo.s2) (u "d") \/ settled (index_of SearchDemo.s2) (u "d") None
                 \/ shown x (index_of SearchDemo.s2)
     | None => cleared (index_of SearchDemo.s2) (u "d")
     end.
Proof.
  split; [vm_compute; reflexivity|]. split; [vm_compute; reflexivity|].
  apply (index_truthful true SearchDemo.projector (fun s => s) (fun s => s) ErasureDemo.unseal ErasureDemo.executor ∅
    SearchDemo.s0).
  - exact SearchDemo.truth0.
  - exact SearchDemo.keyed0.
  - etransitivity; [exact (SearchDemo.steps_run SearchDemo.second SearchDemo.s0)|].
    exact (SearchDemo.steps_run (10 * SearchDemo.second) SearchDemo.s1).
  - apply SearchDemo.not_awaited. vm_compute. reflexivity.
Defined.
Lemma rebuild_exact_witness :
  let s' := (SearchDemo.rebuild SearchDemo.stale).2 in
  tbl (db_of s') TDocument = tbl (db_of SearchDemo.stale) TDocument /\ tbl (db_of s') TSearchProjectionTask = ∅
  /\ wfs (p_world s') = wfs (p_world SearchDemo.stale)
  /\ forall i, match tbl (db_of s') TDocument !! i with
       | Some x => if eqs (Document.visibility x) "public" then shown x (index_of s') else settled (index_of s') i None
       | None => settled (index_of s') i None
       end.
Proof.
  intros s'. assert (SearchDemo.rebuild SearchDemo.stale = (Ok 0, s')) as E
    by (apply SearchDemo.ran; vm_compute; reflexivity). clearbody s'.
  exact (rebuild_exact true SearchDemo.projector SearchDemo.stale s' SearchDemo.keys0 E).
Defined.
Lemma worker_reports_truth_witness : exists r,
  (SearchDemo.run (10 * SearchDemo.second) SearchDemo.s1).1 = Ok r /\ action r = "indexed"%string
  /\ reported SearchDemo.projector (u "d") 1 (action r) SearchDemo.s2.
Proof.
  pose (r := MkProjectionResult "indexed" (Some (u "d")) (Some 1) (Some 2) None). exists r.
  assert (SearchDemo.run (10 * SearchDemo.second) SearchDemo.s1 = (Ok r, SearchDemo.s2)) as E
    by (apply (SearchDemo.ran (SearchDemo.run (10 * SearchDemo.second))); vm_compute; reflexivity).
  split; [by rewrite E|]. split; [reflexivity|]. unfold SearchDemo.run in E.
  apply (worker_reports_truth true SearchDemo.projector (SearchDemo.at_ (10 * SearchDemo.second))
    (SearchDemo.draws (10 * SearchDemo.second)) SearchDemo.s1 r SearchDemo.s2 (u "d") 1 SearchDemo.keys1 E);
    [reflexivity..|discriminate].
Defined.
Lemma erased_documents_unindexed_witness :
  cleared (index_of SearchDemo.finished_state) (AccountErasureItem.resource_id SearchDemo.item).
Proof.
  destruct (tbl (wdb (SearchDemo.reconcile SearchDemo.finished).2) TAccountLifecycle !! u "d") as [l'|] eqn:Hl';
    [|vm_compute in Hl'; discriminate Hl'].
  eapply (erased_documents_unindexed true SearchDemo.projector (fun s => s) (fun s => s) ErasureDemo.unseal
    ErasureDemo.executor ∅ (u "d") BackupDemo.noon (u "stone") SearchDemo.finished_state SearchDemo.finished_state).
  - exact SearchDemo.truth_finished.
  - exact SearchDemo.keyed_finished.
  - apply rtc_refl.
  - reflexivity.
  - vm_compute. reflexivity.
  - apply (SearchDemo.ran SearchDemo.reconcile). vm_compute. reflexivity.
  - exact Hl'.
  - vm_compute in Hl'. by injection Hl' as <-.
  - apply (elem_of_select TAccountErasureItem). split; [by exists (u "document")|reflexivity].
  - reflexivity.
  - reflexivity.
Defined.
