(* ===== verification/Retention.v ===== *)
(** * Retention disposal (src/apps/api/app/services/retention.py)

    The executor queues expired records as lifecycle tasks, leases them one at a
    time and disposes each exact resource once.  Each of [discover],
    [claim_one], [process] and its three fall-back transactions is one atomic
    step; workers interleave between them.  Clock readings and random ids are
    arguments. *)
From S2P Require Import Prelude PyTime Models Database HoldLineage Sha256 Storage World.
Local Open Scope Z_scope.

(** ** Constants and data *)
Definition SOCIAL_RETENTION_POLICY : str := u "social-retention-v1".
Definition CONTACT_RETENTION_POLICY : str := u "contact-retention-v1".
Definition VERIFICATION_EVIDENCE_RETENTION_POLICY : str := u "verification-evidence-retention-v1".
Definition MODERATION_CASE_RETENTION_POLICY : str := u "post-moderation-case-retention-v1".
Definition SUPPORTED_RESOURCE_TYPES : list string :=
  ["application"; "contact_request"; "connection_request"; "connection"; "conversation";
   "message"; "notification"; "organization_verification_evidence"; "moderation_case"].

Record RetentionRunResult : Type := MkRunResult {
  discovered : Z; disposed : Z; held : Z; retried : Z; dead_lettered : Z
}.
Record Claim : Type := MkClaim {
  c_id : str; c_resource_type : str; c_resource_id : str; c_policy_version : str;
  c_claim_token : str; c_attempts : Z
}.
Record RetentionExecutor : Type := MkExecutor {
  store : VersionStore; worker_id : str; max_attempts : Z; lease_seconds : Z
}.
(** What one claimed task draws from [uuid4()] and the clock. *)
Record draws : Type := MkDraws {
  new_claim_token : str; new_tombstone_id : str; new_audit_id : str; clock : datetime
}.

(** ** Discovery *)
Notation candidate := (str * str * str)%type (only parsing).

Definition has_task (d : db) (ty i : str) : bool :=
  negb (bool_decide (select TLifecycleTask
    (fun t => bool_decide (LifecycleTask.resource_type t = ty)
              && bool_decide (LifecycleTask.resource_id t = i)) d = [])).
Definition tombstones (d : db) (ty i : str) : list RetentionTombstone :=
  select TRetentionTombstone
    (fun t => bool_decide (RetentionTombstone.resource_type t = ty)
              && bool_decide (RetentionTombstone.resource_id t = i)) d.
Definition has_tombstone (d : db) (ty i : str) : bool := negb (bool_decide (tombstones d ty i = [])).

(** The rows of one table that expired at [now] and were neither queued nor
    disposed, oldest first, at most [limit]. *)
Definition expired_rows (d : db) (t : table) (resource_type : str)
  (expires : row t -> option datetime) (extra : row t -> bool) (now : datetime) (limit : nat) :
  list (row t) :=
  let rows := select t (fun r =>
    match expires r with Some e => dt_leb e now | None => false end
    && extra r
    && negb (has_task d resource_type (row_id t r))
    && negb (has_tombstone d resource_type (row_id t r))) d in
  take limit (sort_by (fun a b =>
    dt_id_before (default now (expires a), row_id t a) (default now (expires b), row_id t b)) rows).

(** [_expired_candidates] *)
Definition expired_candidates (d : db) (t : table) (resource_type : str)
  (expires : row t -> datetime) (policy : row t -> str) (now : datetime) (limit : nat) :
  list candidate :=
  (fun r => (resource_type, row_id t r, policy r))
    <$> expired_rows d t resource_type (fun r => Some (expires r)) (fun _ => true) now limit.

(** [_verification_evidence_disposable] *)
Definition verification_evidence_disposable (d : db) (evidence : OrganizationVerificationEvidence)
  (now : datetime) : bool :=
  let latest := first_by (fun a b =>
      dt_id_before (OrganizationVerificationEvent.occurred_at b, OrganizationVerificationEvent.id b)
        (OrganizationVerificationEvent.occurred_at a, OrganizationVerificationEvent.id a))
    (select TOrganizationVerificationEvent (fun e =>
       bool_decide (OrganizationVerificationEvent.verification_id e
                    = OrganizationVerificationEvidence.verification_id evidence)) d) in
  match latest with
  | None => false
  | Some latest =>
      if one_of (OrganizationVerificationEvent.to_state latest)
           ["submitted"; "under_review"; "suspended"] then false
      else if one_of (OrganizationVerificationEvent.to_state latest)
                ["rejected"; "expired"; "revoked"] then true
      else if negb (eqs (OrganizationVerificationEvent.to_state latest) "active") then false
      else match OrganizationVerificationEvent.expires_at latest with
           | None => false
           | Some e => dt_leb (utc e) now
           end
  end.

(** The statuses of a closed moderation case. *)
Definition closed_case_statuses : list string :=
  ["dismissed"; "withheld"; "appeal_upheld"; "appeal_overturned"; "legacy_withheld";
   "legacy_withdrawn"].

(** [_fair_candidates]: one round takes the next candidate of each group in turn. *)
Fixpoint fair_round (groups : list (list candidate)) (room : nat) :
  list candidate * list (list candidate) :=
  match groups with
  | [] => ([], [])
  | group :: groups' =>
      match room with
      | O => ([], groups)
      | S room' =>
          match group with
          | [] => let '(sel, rest) := fair_round groups' room in (sel, [] :: rest)
          | c :: group' =>
              let '(sel, rest) := fair_round groups' room' in (c :: sel, group' :: rest)
          end
      end
  end.
Fixpoint fair_rounds (fuel : nat) (groups : list (list candidate)) (room : nat) : list candidate :=
  match fuel with
  | O => []
  | S fuel' =>
      match room with
      | O => []
      | _ => match fair_round groups room with
             | ([], _) => []
             | (sel, rest) => sel ++ fair_rounds fuel' rest (room - length sel)
             end
      end
  end.
(** Every round but the last selects something, so [limit] rounds are enough. *)
Definition fair_candidates (candidate_groups : list (list candidate)) (limit : nat) :
  list candidate := fair_rounds limit candidate_groups limit.

(** [_insert_task]: [INSERT ... ON CONFLICT (resource_type, resource_id) DO NOTHING];
    the value is the number of rows inserted. *)
Definition queued_task (new_id : str) (c : candidate) (now : datetime) : LifecycleTask :=
  LifecycleTask.Mk new_id c.1.1 c.1.2 c.2 (u "queued") 0 now None None None None now None.
Definition insert_task (new_id : str) (c : candidate) (now : datetime) : act db Z :=
  let! queued := gets (fun d => has_task d c.1.1 c.1.2) in
  if queued then ret 0
  else
    let! taken := gets (fun d => negb (bool_decide (tbl d TLifecycleTask !! new_id = None))) in
    if taken then raise IntegrityError
    else session_save TLifecycleTask (queued_task new_id c now) ;;; ret 1.
Fixpoint insert_tasks (new_ids : nat -> str) (cs : list candidate) (now : datetime) : act db Z :=
  match cs with
  | [] => ret 0
  | c :: cs' =>
      let! n := insert_task (new_ids O) c now in
      let! m := insert_tasks (fun k => new_ids (S k)) cs' now in
      ret (n + m)
  end.

(** The candidate groups, in the fixed type order. *)
Definition candidate_groups (d : db) (now : datetime) (limit : nat) : list (list candidate) :=
  let social {t : table} (ty : string) (expires : row t -> datetime) :=
    expired_candidates d t (u ty) expires (fun _ => SOCIAL_RETENTION_POLICY) now limit in
  [expired_candidates d TApplication (u "application") Application.retention_expires_at
     Application.retention_policy_version now limit;
   expired_candidates d TContactRequest (u "contact_request") ContactRequest.retention_expires_at
     (fun _ => CONTACT_RETENTION_POLICY) now limit;
   social (t:=TConnectionRequest) "connection_request" ConnectionRequest.retention_expires_at;
   social (t:=TConnection) "connection" Connection.retention_expires_at;
   social (t:=TConversation) "conversation" Conversation.retention_expires_at;
   social (t:=TMessage) "message" Message.retention_expires_at;
   social (t:=TNotification) "notification" Notification.retention_expires_at;
   (fun e => (u "organization_verification_evidence", OrganizationVerificationEvidence.id e,
              VERIFICATION_EVIDENCE_RETENTION_POLICY))
     <$> filter (fun e => verification_evidence_disposable d e now = true)
           (expired_rows d TOrganizationVerificationEvidence
              (u "organization_verification_evidence")
              (fun e => Some (OrganizationVerificationEvidence.retention_expires_at e))
              (fun _ => true) now limit);
   (fun c => (u "moderation_case", ModerationCase.id c, MODERATION_CASE_RETENTION_POLICY))
     <$> expired_rows d TModerationCase (u "moderation_case")
           ModerationCase.retention_expires_at
           (fun c => one_of (ModerationCase.status c) closed_case_statuses
                     && bool_decide (ModerationCase.sensitive_purged_at c = None)) now limit].

(** [discover] *)
Definition discover (limit : nat) (now : datetime) (new_ids : nat -> str) : act world Z :=
  transaction
    (write_db (fun d => set_peer_buckets
       (filter (fun kb => kb.1.2 <? utc_date now = false) (peer_buckets d)) d) ;;;
     let! groups := query (fun d => candidate_groups d now limit) in
     on_db (insert_tasks new_ids (fair_candidates groups limit) now)).

(** ** Claims *)

(** A flushed write of a task row. *)
Definition save_task (t : LifecycleTask) : act world unit := on_db (session_save TLifecycleTask t).

(** The [eligible] condition: due in the queue, or leased and expired. *)
Definition eligible (now : datetime) (t : LifecycleTask) : bool :=
  eqs (LifecycleTask.state t) "queued" && dt_leb (LifecycleTask.available_at t) now
  || eqs (LifecycleTask.state t) "leased"
     && match LifecycleTask.lease_expires_at t with Some e => dt_leb e now | None => false end.
(** [.order_by(available_at.asc(), created_at.asc(), id.asc())] *)
Definition task_before (a b : LifecycleTask) : bool :=
  dt_ltb (LifecycleTask.available_at a) (LifecycleTask.available_at b)
  || dt_eqb (LifecycleTask.available_at a) (LifecycleTask.available_at b)
     && dt_id_before (LifecycleTask.created_at a, LifecycleTask.id a)
          (LifecycleTask.created_at b, LifecycleTask.id b).
Definition next_task (locked : gset str) (now : datetime) (d : db) : option LifecycleTask :=
  first_by task_before
    (select TLifecycleTask
       (fun t => eligible now t && negb (bool_decide (LifecycleTask.id t ∈ locked))) d).
(** The values of the guarded [update]. *)
Definition leased (ex : RetentionExecutor) (now : datetime) (token : str) (row : LifecycleTask) :
  LifecycleTask :=
  row <| LifecycleTask.state := u "leased" |>
      <| LifecycleTask.attempts := LifecycleTask.attempts row + 1 |>
      <| LifecycleTask.lease_expires_at := Some (dt_add now (seconds (lease_seconds ex))) |>
      <| LifecycleTask.claimed_by := Some (worker_id ex) |>
      <| LifecycleTask.claim_token := Some token |>
      <| LifecycleTask.last_error_code := None |>.
(** [_claim_one]; [locked] are the rows other transactions hold locked, which
    [FOR UPDATE SKIP LOCKED] passes over.  The row lock makes the guarded update
    hit the selected row. *)
Definition claim_one (ex : RetentionExecutor) (locked : gset str) (now : datetime)
  (claim_token : str) : act world (option Claim) :=
  transaction
    (let! row := query (next_task locked now) in
     match row with
     | None => ret None
     | Some row =>
         save_task (leased ex now claim_token row) ;;;
         ret (Some (MkClaim (LifecycleTask.id row) (LifecycleTask.resource_type row)
                      (LifecycleTask.resource_id row) (LifecycleTask.policy_version row)
                      claim_token (LifecycleTask.attempts row + 1)))
     end).

(** ** Disposal *)

(** [_acquire_hold_guard]: its [update] sets [updated_at] to itself. *)
Definition acquire_hold_guard : act world unit :=
  let! authority := session_get TAccountBackupAuthority ACCOUNT_BACKUP_AUTHORITY_ID in
  match authority with
  | None => raise (RetentionFailure (u "hold_guard_missing"))
  | Some _ => ret tt
  end.

(** [select(LifecycleTask).where(id, state == "leased", claim_token)] *)
Definition leased_task (claim : Claim) (d : db) : option LifecycleTask :=
  match tbl d TLifecycleTask !! c_id claim with
  | Some t =>
      if eqs (LifecycleTask.state t) "leased"
         && bool_decide (LifecycleTask.claim_token t = Some (c_claim_token claim))
      then Some t else None
  | None => None
  end.

(** The earliest unreleased hold on the task's resource or on an ancestor. *)
Definition hold_before (a b : RetentionHold) : bool :=
  dt_ltb (RetentionHold.review_at a) (RetentionHold.review_at b)
  || dt_eqb (RetentionHold.review_at a) (RetentionHold.review_at b)
     && dt_id_before (RetentionHold.created_at a, RetentionHold.id a)
          (RetentionHold.created_at b, RetentionHold.id b).
Definition protected_resources (task : LifecycleTask) (d : db) : gset (str * str) :=
  {[ (LifecycleTask.resource_type task, LifecycleTask.resource_id task) ]}
  ∪ hold_ancestors d (LifecycleTask.resource_type task, LifecycleTask.resource_id task).
Definition holds_on (rs : gset (str * str)) (h : RetentionHold) : bool :=
  bool_decide ((RetentionHold.resource_type h, RetentionHold.resource_id h) ∈ rs)
  && bool_decide (RetentionHold.released_at h = None).
Definition active_hold (task : LifecycleTask) (d : db) : option RetentionHold :=
  first_by hold_before (select TRetentionHold (holds_on (protected_resources task d)) d).

(** The [application] branch of [_dispose_resource]. *)
Definition dispose_snapshot (ex : RetentionExecutor) (application : Application) (path : str) :
  act world unit :=
  match application_snapshot_relative_path (Application.id application) with
  | Raise _ => raise (RetentionFailure (u "storage_path_invalid"))
  | Ok expected =>
      match Application.snapshot_size_bytes application with
      | Some size =>
          if negb (bool_decide (path = expected))
          then raise (RetentionFailure (u "storage_path_invalid"))
          else
            on_fs (delete_verified_exact (store ex) expected
                     (Application.snapshot_sha256 application) size 131072) ;;;
            let! still_there := gets (fun w =>
              let? target := absolute_target (store ex) expected (wfs w) in
              Ok (exists_ (wfs w) target)) in
            let! b := lift still_there in
            if b then raise (RetentionFailure (u "storage_absence_unconfirmed")) else ret tt
      | None => raise (RetentionFailure (u "storage_path_invalid"))
      end
  end.
Definition dispose_application (ex : RetentionExecutor) (resource_id : str) : act world unit :=
  let! application := session_get TApplication resource_id in
  match application with
  | None => ret tt
  | Some application =>
      match Application.snapshot_storage_path application with
      | Some path => dispose_snapshot ex application path
      | None => ret tt
      end ;;;
      session_delete TApplication (Application.id application)
  end.

(** [row = session.get(T, id); if row is not None: session.delete(row)] *)
Definition dispose_row (t : table) (resource_id : str) : act world unit :=
  let! row := session_get t resource_id in
  match row with None => ret tt | Some _ => session_delete t resource_id end.
(** A parent row waits until no row of [child] refers to it (row ids are never
    empty, so the selected id is a true value). *)
Definition dispose_parent (child : table) (foreign_key : row child -> str) (t : table)
  (resource_id : str) : act world unit :=
  let! children := query (select child (fun r => bool_decide (foreign_key r = resource_id))) in
  match children with
  | _ :: _ => raise (RetentionFailure (u "dependency_pending"))
  | [] => dispose_row t resource_id
  end.

(** [_dispose_moderation_case] *)
Definition purge_case (case : ModerationCase) (at_ : datetime) (d : db) : db :=
  put TModerationCase (ModerationCase.id case)
    (case <| ModerationCase.sensitive_purged_at := Some at_ |>
          <| ModerationCase.updated_at := at_ |>)
    (update_where TModerationAppeal
       (fun a => bool_decide (ModerationAppeal.case_id a = ModerationCase.id case))
       (fun a => a <| ModerationAppeal.rationale := None |>
                   <| ModerationAppeal.internal_rationale := None |>)
       (update_where TModerationDecision
          (fun x => bool_decide (ModerationDecision.case_id x = ModerationCase.id case))
          (fun x => x <| ModerationDecision.internal_rationale := None |>
                      <| ModerationDecision.evidence := None |>)
          (update_where TPostReport
             (fun r => bool_decide (PostReport.case_id r = ModerationCase.id case))
             (fun r => r <| PostReport.narrative := None |>) d))).
Definition dispose_moderation_case (case_id : str) (dr : draws) : act world unit :=
  let! case := session_get TModerationCase case_id in
  match case with
  | None => ret tt
  | Some case =>
      if negb (one_of (ModerationCase.status case) closed_case_statuses)
         || negb (bool_decide (ModerationCase.sensitive_purged_at case = None))
      then raise (RetentionFailure (u "moderation_case_active"))
      else
        write_db (purge_case case (clock dr)) ;;;
        on_db (session_add TModerationAuditEvent
          (ModerationAuditEvent.Mk (new_audit_id dr) (ModerationCase.id case)
             (ModerationCase.post_id case) (u "sensitive_purged") (u "system:retention")
             (u "system") (u "{}") (clock dr)))
  end.

(** [_dispose_evidence] *)
Definition evidence_path (organization_id verification_id sha256 : str) : str :=
  u "verification-evidence/" ++ organization_id ++ u "/" ++ verification_id ++ u "/" ++ sha256
  ++ u ".bin".
Definition dispose_evidence (ex : RetentionExecutor) (evidence_id : str) :
  act world (option str) :=
  let! evidence := session_get TOrganizationVerificationEvidence evidence_id in
  match evidence with
  | None => ret None
  | Some evidence =>
      let! verification := session_get TOrganizationVerification
        (OrganizationVerificationEvidence.verification_id evidence) in
      match verification with
      | None => raise (RetentionFailure (u "verification_missing"))
      | Some verification =>
          let expected_path := evidence_path (OrganizationVerification.organization_id verification)
            (OrganizationVerification.id verification)
            (OrganizationVerificationEvidence.artifact_sha256 evidence) in
          if negb (bool_decide
               (OrganizationVerificationEvidence.storage_path evidence = expected_path))
          then raise (RetentionFailure (u "storage_path_invalid"))
          else
            on_fs (delete_verified_exact (store ex) expected_path
              (OrganizationVerificationEvidence.artifact_sha256 evidence)
              (OrganizationVerificationEvidence.artifact_size_bytes evidence) 262144) ;;;
            session_delete TOrganizationVerificationEvidence
              (OrganizationVerificationEvidence.id evidence) ;;;
            ret (Some (OrganizationVerification.id verification))
      end
  end.

(** [_dispose_residues] *)
Definition about (resource_type resource_id ty i : str) : bool :=
  bool_decide (ty = resource_type) && bool_decide (i = resource_id).
Definition delete_residues (resource_type resource_id : str) (d : db) : db :=
  let d := delete_where TIdempotencyRecord
    (fun r => bool_decide (IdempotencyRecord.resource_type r = Some resource_type)
              && bool_decide (IdempotencyRecord.resource_id r = Some resource_id)) d in
  set_change_events (filter (fun ke =>
    about resource_type resource_id (ChangeEvent.resource_type ke.2) (ChangeEvent.resource_id ke.2)
    = false) (change_events d)) d.
Definition dispose_residues (task : LifecycleTask) (evidence_verification_id : option str)
  (d : db) : db :=
  let ty := LifecycleTask.resource_type task in
  let i := LifecycleTask.resource_id task in
  if eqs ty "organization_verification_evidence" then
    let d := delete_residues ty i d in
    match evidence_verification_id with
    | None => d
    | Some v => delete_residues (u "organization_verification") v d
    end
  else delete_residues ty i d.

(** [_dispose_resource] *)
Definition dispose_resource (ex : RetentionExecutor) (task : LifecycleTask) (dr : draws) :
  act world unit :=
  let ty := LifecycleTask.resource_type task in
  let i := LifecycleTask.resource_id task in
  if negb (one_of ty SUPPORTED_RESOURCE_TYPES)
  then raise (RetentionFailure (u "unsupported_resource"))
  else
    let! evidence_verification_id :=
      (if eqs ty "application" then dispose_application ex i ;;; ret None
       else if eqs ty "contact_request" then dispose_row TContactRequest i ;;; ret None
       else if eqs ty "message" then dispose_row TMessage i ;;; ret None
       else if eqs ty "notification" then dispose_row TNotification i ;;; ret None
       else if eqs ty "conversation" then
         dispose_parent TMessage Message.conversation_id TConversation i ;;; ret None
       else if eqs ty "connection" then
         dispose_parent TConversation Conversation.connection_id TConnection i ;;; ret None
       else if eqs ty "connection_request" then
         dispose_parent TConnection Connection.connection_request_id TConnectionRequest i ;;;
         ret None
       else if eqs ty "moderation_case" then dispose_moderation_case i dr ;;; ret None
       else dispose_evidence ex i) in
    write_db (dispose_residues task evidence_verification_id).

(** ** Processing a claim *)
Inductive outcome : Type := Disposed | Held | Retry | DeadLetter.

(** The lease columns cleared, with the given error code. *)
Definition release (code : option str) (t : LifecycleTask) : LifecycleTask :=
  t <| LifecycleTask.lease_expires_at := None |>
    <| LifecycleTask.claimed_by := None |>
    <| LifecycleTask.claim_token := None |>
    <| LifecycleTask.last_error_code := code |>.
(** Back to the queue, giving the attempt back. *)
Definition requeue (available_at : datetime) (t : LifecycleTask) : LifecycleTask :=
  release None t <| LifecycleTask.state := u "queued" |>
    <| LifecycleTask.available_at := available_at |>
    <| LifecycleTask.attempts := LifecycleTask.attempts t - 1 |>.
Definition completed (now : datetime) (t : LifecycleTask) : LifecycleTask :=
  release None t <| LifecycleTask.state := u "completed" |>
    <| LifecycleTask.completed_at := Some now |>.
Definition held_until (ex : RetentionExecutor) (hold : RetentionHold) (now : datetime) : datetime :=
  dt_max (utc (RetentionHold.review_at hold)) (dt_add now (seconds (lease_seconds ex))).
Definition tombstone_of (task : LifecycleTask) (new_id : str) (now : datetime) :
  RetentionTombstone :=
  RetentionTombstone.Mk new_id (LifecycleTask.resource_type task) (LifecycleTask.resource_id task)
    (LifecycleTask.policy_version task) (LifecycleTask.id task) now.

(** Dispose the resource unless a tombstone says that it was disposed. *)
Definition dispose_once (ex : RetentionExecutor) (task : LifecycleTask) (now : datetime)
  (dr : draws) : act world unit :=
  let! stones := query (fun d =>
    tombstones d (LifecycleTask.resource_type task) (LifecycleTask.resource_id task)) in
  match stones with
  | _ :: _ => ret tt
  | [] =>
      dispose_resource ex task dr ;;;
      on_db (session_add TRetentionTombstone (tombstone_of task (new_tombstone_id dr) now))
  end.
(** The [try] body of [_process], on the task the claim still leases. *)
Definition process_task (ex : RetentionExecutor) (task : LifecycleTask) (now : datetime)
  (dr : draws) : act world outcome :=
  let! hold := query (active_hold task) in
  match hold with
  | Some hold => save_task (requeue (held_until ex hold now) task) ;;; ret Held
  | None =>
      dispose_once ex task now dr ;;;
      save_task (completed now task) ;;;
      ret Disposed
  end.
Definition process_body (ex : RetentionExecutor) (claim : Claim) (now : datetime) (dr : draws) :
  act world outcome :=
  acquire_hold_guard ;;;
  let! task := query (leased_task claim) in
  match task with
  | None => ret Retry
  | Some task => process_task ex task now dr
  end.

(** A transaction on the task the claim still leases; "retry" when it does not. *)
Definition on_leased (claim : Claim) (k : LifecycleTask -> act world outcome) : act world outcome :=
  transaction
    (let! task := query (leased_task claim) in
     match task with None => ret Retry | Some task => k task end).
(** [_retry_or_dead_letter] *)
Definition backoff (attempts : Z) : Z := Z.min 60 (2 ^ attempts).
Definition retry_or_dead_letter (ex : RetentionExecutor) (claim : Claim) (code : str)
  (now : datetime) : act world outcome :=
  on_leased claim (fun task =>
    if max_attempts ex <=? LifecycleTask.attempts task then
      save_task (release (Some code) task <| LifecycleTask.state := u "dead_letter" |>) ;;;
      ret DeadLetter
    else
      save_task (release (Some code) task <| LifecycleTask.state := u "queued" |>
        <| LifecycleTask.available_at :=
             dt_add now (seconds (backoff (LifecycleTask.attempts task))) |>) ;;;
      ret Retry).
(** [_defer_dependency] *)
Definition defer_dependency (claim : Claim) (now : datetime) : act world outcome :=
  on_leased claim (fun task => save_task (requeue (dt_add now (seconds 1)) task) ;;; ret Retry).
(** [_cancel_stale_task] *)
Definition cancel_stale_task (claim : Claim) : act world outcome :=
  on_leased claim (fun task => session_delete TLifecycleTask (LifecycleTask.id task) ;;; ret Retry).

(** The [except] clauses of [_process]. *)
Definition process_failed (ex : RetentionExecutor) (claim : Claim) (now : datetime) (e : exn) :
  act world outcome :=
  match e with
  | RetentionFailure code =>
      if eqs code "moderation_case_active" then cancel_stale_task claim
      else if eqs code "dependency_pending" then defer_dependency claim now
      else retry_or_dead_letter ex claim code now
  | StorageIntegrityError _ => retry_or_dead_letter ex claim (u "storage_cleanup_failed") now
  | _ => retry_or_dead_letter ex claim (u "disposition_failed") now
  end.
(** [_process] *)
Definition process (ex : RetentionExecutor) (claim : Claim) (now : datetime) (dr : draws) :
  act world outcome :=
  catch (transaction (process_body ex claim now dr)) (process_failed ex claim now).

(** ** One run *)
Definition count (o : outcome) (r : RetentionRunResult) : RetentionRunResult :=
  match o with
  | Disposed => MkRunResult (discovered r) (disposed r + 1) (held r) (retried r) (dead_lettered r)
  | Held => MkRunResult (discovered r) (disposed r) (held r + 1) (retried r) (dead_lettered r)
  | Retry => MkRunResult (discovered r) (disposed r) (held r) (retried r + 1) (dead_lettered r)
  | DeadLetter => MkRunResult (discovered r) (disposed r) (held r) (retried r) (dead_lettered r + 1)
  end.
(** The [for _ in range(limit)] loop; [env k] is what iteration [k] draws. *)
Fixpoint run_loop (ex : RetentionExecutor) (now : datetime) (env : nat -> gset str * draws)
  (n : nat) (result : RetentionRunResult) : act world RetentionRunResult :=
  match n with
  | O => ret result
  | S n' =>
      let '(locked, dr) := env O in
      let! claim := claim_one ex locked now (new_claim_token dr) in
      match claim with
      | None => ret result
      | Some claim =>
          let! outcome := process ex claim now dr in
          run_loop ex now (fun k => env (S k)) n' (count outcome result)
      end
  end.
(** [run_once] *)
Definition run_once (ex : RetentionExecutor) (limit : Z) (now : datetime) (new_ids : nat -> str)
  (env : nat -> gset str * draws) : act world RetentionRunResult :=
  if (limit <? 1) || (1000 <? limit)
  then raise (ValueError (u "retention limit must be between 1 and 1000"))
  else
    let current := utc now in
    let! n := discover (Z.to_nat limit) current new_ids in
    run_loop ex current env (Z.to_nat limit) (MkRunResult n 0 0 0 0).
