(* ===== verification/Fair.v ===== *)
(** * Fair selection of retention candidates

    [fair_candidates] (retention.py [_fair_candidates]) takes candidates from the
    groups in rounds, one per group, until the limit is reached. *)
From S2P Require Import Prelude PyTime Models Database HoldLineage Sha256 Storage World Retention.

(** [shares ks groups]: the first [k] candidates of each group. *)
Definition shares {A : Type} (ks : list nat) (groups : list (list A)) : list A :=
  concat (zip_with take ks groups).

Lemma shares_plus {A : Type} (ks ks' : list nat) (groups : list (list A)) :
  length ks = length groups -> length ks' = length groups ->
  shares (zip_with Nat.add ks ks') groups ≡ₚ
  shares ks groups ++ shares ks' (zip_with drop ks groups).
Proof.
  unfold shares. revert ks ks'. induction groups as [|g groups IH]; intros [|k ks] [|k' ks']; simpl;
    try done.
  intros [= H1] [= H2].
  rewrite (IH ks ks') by done. rewrite <- take_take_drop. solve_Permutation.
Qed.
Lemma shares_rest {A : Type} (ks : list nat) (groups : list (list A)) :
  length ks = length groups ->
  concat groups ≡ₚ shares ks groups ++ concat (zip_with drop ks groups).
Proof.
  unfold shares. revert ks. induction groups as [|g groups IH]; intros [|k ks]; simpl; try done.
  intros [= H]. rewrite <- (take_drop k g) at 1. rewrite (IH ks H) at 1. solve_Permutation.
Qed.
Definition none_of {A : Type} (groups : list (list A)) : list nat := (fun _ => 0) <$> groups.
Lemma shares_none {A : Type} (groups : list (list A)) : shares (none_of groups) groups = [].
Proof. unfold shares, none_of. induction groups; simpl; auto. Qed.
Lemma drop_none {A : Type} (groups : list (list A)) :
  zip_with drop (none_of groups) groups = groups.
Proof.
  unfold none_of. induction groups as [|g groups IH]; [done|]. simpl.
  rewrite drop_0. f_equal. exact IH.
Qed.
Lemma none_le {A : Type} (f : list A -> nat) groups : Forall2 (fun k g => k <= f g) (none_of groups) groups.
Proof. unfold none_of. apply Forall2_fmap_l, Forall_Forall2_diag, Forall_forall. intros. simpl. lia. Qed.

(** What one round takes: at most one candidate per group. *)
Definition one_each {A : Type} : list nat -> list (list A) -> Prop :=
  Forall2 (fun k g => k <= Nat.min 1 (length g)).
(** Every non-empty group gives one. *)
Definition full_round {A : Type} : list nat -> list (list A) -> Prop :=
  Forall2 (fun k g => k = Nat.min 1 (length g)).

Lemma fair_round_spec groups room :
  exists ks, fair_round groups room = (shares ks groups, zip_with drop ks groups) /\
    one_each ks groups /\ length (shares ks groups) <= room /\
    (full_round ks groups \/ length (shares ks groups) = room).
Proof.
  unfold one_each, full_round.
  revert room. induction groups as [|g groups IH]; intros room.
  { exists []. simpl. split_and!; [done|constructor|simpl; lia|left; constructor]. }
  destruct room as [|room].
  { exists (none_of (g :: groups)). rewrite shares_none, drop_none.
    split_and!; [done|apply (none_le (fun g => Nat.min 1 (length g)))|simpl; lia|by right]. }
  simpl. destruct g as [|c g].
  - destruct (IH (S room)) as (ks & -> & H3 & H4 & H5). exists (0 :: ks).
    split_and!; [done|by constructor|done|].
    destruct H5 as [H5|H5]; [left; by constructor|by right].
  - destruct (IH room) as (ks & -> & H3 & H4 & H5). exists (1 :: ks).
    unfold shares in *. simpl.
    split_and!; [by rewrite ?take_0, ?drop_0|by constructor; [simpl; lia|]|lia|].
    destruct H5 as [H5|H5]; [left; by constructor|right; lia].
Qed.

Lemma full_round_nil {A : Type} (ks : list nat) (groups : list (list A)) :
  full_round ks groups -> shares ks groups = [] -> concat groups = [].
Proof.
  unfold shares. induction 1 as [|k g ks groups -> _ IH]; [done|]. simpl.
  intros [H1 H2]%app_eq_nil. rewrite IH by done. by destruct g.
Qed.

(** The rounds: each group gives a prefix, and no group gets two ahead of one
    that still has candidates. *)
Definition even {A : Type} (ks : list nat) (groups : list (list A)) : Prop :=
  forall i j k k' g, ks !! i = Some k -> ks !! j = Some k' -> groups !! j = Some g ->
    k' < length g -> k <= S k'.
Lemma even_one_each {A : Type} (ks : list nat) (groups : list (list A)) :
  one_each ks groups -> even ks groups.
Proof.
  intros H i j k k' g Hk _ _ _. destruct (Forall2_lookup_l _ _ _ _ _ H Hk) as (g' & _ & ?). lia.
Qed.

Lemma shares_le {A : Type} (ks ks' : list nat) (groups : list (list A)) :
  Forall2 (fun k g => k <= length g) ks groups ->
  Forall2 (fun k g => k <= length g) ks' (zip_with drop ks groups) ->
  Forall2 (fun k g => k <= length g) (zip_with Nat.add ks ks') groups.
Proof.
  intros H. revert ks'. induction H as [|k g ks groups Hk _ IH]; intros ks' H'; simpl.
  - constructor.
  - destruct ks' as [|k' ks']; [by inversion H'|].
    apply Forall2_cons in H' as [Hk' H']. rewrite length_drop in Hk'.
    simpl. constructor; [lia|by apply IH].
Qed.
Lemma full_round_even {A : Type} (ks ks' : list nat) (groups : list (list A)) :
  full_round ks groups -> even ks' (zip_with drop ks groups) ->
  even (zip_with Nat.add ks ks') groups.
Proof.
  intros H He i j k k' g Hi Hj Hg Hlt.
  apply lookup_zip_with_Some in Hi as (a & a' & -> & Ha & Ha').
  apply lookup_zip_with_Some in Hj as (b & b' & -> & Hb & Hb').
  destruct (Forall2_lookup_l _ _ _ _ _ H Ha) as (ga & _ & Ea).
  destruct (Forall2_lookup_l _ _ _ _ _ H Hb) as (gb & Hgb & Eb).
  rewrite Hg in Hgb. injection Hgb as <-.
  assert (a' <= S b').
  { apply (He i j a' b' (drop b g)); [done|done| |rewrite length_drop; lia].
    apply lookup_zip_with_Some. by exists b, g. }
  lia.
Qed.

Lemma fair_rounds_spec fuel groups room :
  room <= fuel ->
  exists ks, fair_rounds fuel groups room ≡ₚ shares ks groups /\
    length (fair_rounds fuel groups room) = Nat.min room (length (concat groups)) /\
    Forall2 (fun k g => k <= length g) ks groups /\ even ks groups.
Proof.
  revert groups room. induction fuel as [|fuel IH]; intros groups room Hf; destruct room as [|room];
    [|lia| |].
  1, 2: exists (none_of groups); rewrite shares_none; simpl; split_and!; try done;
    [apply none_le|apply even_one_each, (none_le (fun g => Nat.min 1 (length g)))].
  destruct (fair_round_spec groups (S room)) as (ks & Hround & H3 & H4 & H5).
  pose proof (Forall2_length _ _ _ H3) as Hl.
  pose proof (Permutation_length (shares_rest ks groups Hl)) as Htot. rewrite length_app in Htot.
  assert (Forall2 (fun k g => k <= length g) ks groups) as Hle
    by (eapply Forall2_impl; [exact H3|intros k g Hk; cbv beta in *; lia]).
  cbn [fair_rounds]. rewrite Hround. destruct (shares ks groups) as [|c sel] eqn:Hsel.
  { exists ks. rewrite Hsel. split_and!; [done| |done|by apply even_one_each].
    destruct H5 as [H5|H5]; [|done]. by rewrite (full_round_nil ks groups). }
  destruct (IH (zip_with drop ks groups) (S room - length (c :: sel))) as (ks' & P & L & F & E);
    [simpl; lia|].
  pose proof (Forall2_length _ _ _ F) as Hl'. rewrite length_zip_with, <- Hl in Hl'.
  destruct H5 as [H5|H5].
  - exists (zip_with Nat.add ks ks'). split_and!.
    + rewrite shares_plus by lia. rewrite Hsel. by rewrite P.
    + rewrite length_app, L. lia.
    + by apply shares_le.
    + by apply full_round_even.
  - exists ks. assert (S room - length (c :: sel) = 0) as -> by lia.
    assert (forall f gs, fair_rounds f gs 0 = []) as -> by (by intros []).
    rewrite app_nil_r, Hsel. split_and!; [done|lia|done|by apply even_one_each].
Qed.

(** [_fair_candidates] selects as many candidates as the limit allows, a
    prefix of every group, and never takes two more from one group than from a
    group that still has candidates. *)
Theorem fair_candidates_even groups limit :
  exists ks, fair_candidates groups limit ≡ₚ shares ks groups /\
    length (fair_candidates groups limit) = Nat.min limit (length (concat groups)) /\
    Forall2 (fun k g => k <= length g) ks groups /\ even ks groups.
Proof. by apply fair_rounds_spec. Qed.
