(* ===== verification/RetentionHolds.v ===== *)
(** * Retention holds (src/apps/api/app/cli.py)

    The operator's two commands on preservation holds.  Each call is one
    transaction; it ends with an exit status and the line it prints.
    [parse] stands for [datetime.fromisoformat], [role_check] for the check of the
    database role.  A hold is accepted only while nothing it protects has begun to
    be disposed of; its release makes the queued disposals due. *)
From S2P Require Import Prelude PyTime Models Database HoldLineage World BackupAuthority Retention.
Local Open Scope Z_scope.

(** ** The commands *)
Definition HOLDABLE_RESOURCE_TYPES : list string :=
  ["agent_grant"; "agent_identity"; "agent_mandate"; "agent_proposal"; "api_key"; "application";
   "contact_policy"; "contact_request"; "connection"; "connection_request"; "conversation"; "document";
   "document_version"; "idempotency_record"; "job"; "message"; "moderation_appeal";
   "moderation_audit_event"; "moderation_case"; "moderation_decision"; "notification"; "organization";
   "organization_membership"; "organization_verification"; "organization_verification_evidence";
   "organization_verification_event"; "post"; "post_moderation_event"; "post_report"; "post_version";
   "retention_hold"].
(** The arguments of [create-retention-hold]. *)
Record HoldArgs : Type := MkHoldArgs
  { h_resource_type : str; h_resource_id : str; h_purpose : str; h_authority : str;
    h_expires_at : str; h_review_at : str }.

Section commands.
Context (parse : str -> option datetime) (role_check : Res unit).

(** [_parse_retention_timestamp]: the value, or the line printed. *)
Definition parse_retention_timestamp (value field : str) : option datetime * list str :=
  match parse value with
  | None => (None, [field ++ u " must be ISO-8601"])
  | Some parsed =>
      match tzoffset parsed with
      | None => (None, [field ++ u " must include a timezone"])
      | Some _ => (Some (astimezone_utc parsed), [])
      end
  end.
(** [_acquire_retention_hold_guard]: its [update] sets [updated_at] to itself. *)
Definition acquire_retention_hold_guard : act db bool :=
  let! authority := get_row TAccountBackupAuthority ACCOUNT_BACKUP_AUTHORITY_ID in
  ret (match authority with Some _ => true | None => false end).

(** An erasure of a protected row or file that is being executed or is done. *)
Definition erasure_progressed (protected : gset (str * str)) (i : AccountErasureItem) : bool :=
  bool_decide ((AccountErasureItem.resource_type i, AccountErasureItem.resource_id i) ∈ protected)
  && one_of (AccountErasureItem.phase i) ["delete_row"; "delete_file"]
  && one_of (AccountErasureItem.state i) ["leased"; "completed"].
Definition task_on (protected : gset (str * str)) (t : LifecycleTask) : bool :=
  bool_decide ((LifecycleTask.resource_type t, LifecycleTask.resource_id t) ∈ protected).
(** A disposal of a protected resource that was ever claimed. *)
Definition disposal_progressed (protected : gset (str * str)) (t : LifecycleTask) : bool :=
  task_on protected t && (negb (eqs (LifecycleTask.state t) "queued") || (0 <? LifecycleTask.attempts t)).
Definition new_hold (hold_id : str) (args : HoldArgs) (expires_at review_at now : datetime) : RetentionHold :=
  RetentionHold.Mk hold_id (h_resource_type args) (h_resource_id args) (h_purpose args) (h_authority args)
    expires_at review_at now None None.

(** The transaction of [create_retention_hold]. *)
Definition create_transaction (args : HoldArgs) (expires_at review_at now : datetime) (hold_id : str) : act db exit :=
  lift role_check ;;;
  let! guarded := acquire_retention_hold_guard in
  if negb guarded then ret (MkExit 1 [u "retention hold guard is unavailable"])
  else
    let! protected_resources := gets (fun d => hold_descendants d (h_resource_type args, h_resource_id args)) in
    let! active_erasure_items := gets (select TAccountErasureItem (erasure_progressed protected_resources)) in
    if negb (bool_decide (active_erasure_items = []))
    then ret (MkExit 1 [u "account erasure action has already progressed"])
    else
      let! retention_tasks := gets (select TLifecycleTask (disposal_progressed protected_resources)) in
      if negb (bool_decide (retention_tasks = []))
      then ret (MkExit 1 [u "retention disposal has already progressed"])
      else
        session_add TRetentionHold (new_hold hold_id args expires_at review_at now) ;;;
        ret (MkExit 0 [u "retention hold " ++ hold_id ++ u " created"]).
(** [create_retention_hold]; [hold_id] is [new_id()]. *)
Definition create_retention_hold (args : HoldArgs) (now : datetime) (hold_id : str) : act db exit :=
  if negb (one_of (h_resource_type args) HOLDABLE_RESOURCE_TYPES)
  then ret (MkExit 2 [u "unsupported retention resource type"])
  else
    let '(expires_at, lines) := parse_retention_timestamp (h_expires_at args) (u "expires-at") in
    let '(review_at, lines') := parse_retention_timestamp (h_review_at args) (u "review-at") in
    match expires_at, review_at with
    | Some expires_at, Some review_at =>
        if dt_leb expires_at now || dt_ltb expires_at review_at
        then ret (MkExit 2 [u "hold review time must not exceed a future hold expiry"])
        else atomically (create_transaction args expires_at review_at now hold_id)
    | _, _ => ret (MkExit 2 (lines ++ lines'))
    end.

Definition released_hold (authority : str) (now : datetime) (hold : RetentionHold) : RetentionHold :=
  hold <| RetentionHold.released_at := Some now |>
       <| RetentionHold.released_by_authority := Some authority |>.
(** The tasks a release makes due. *)
Definition wakes (protected : gset (str * str)) (t : LifecycleTask) : bool :=
  task_on protected t && eqs (LifecycleTask.state t) "queued".
Definition due_at (now : datetime) (t : LifecycleTask) : LifecycleTask :=
  t <| LifecycleTask.available_at := now |>.
(** [release_retention_hold] *)
Definition release_transaction (hold_id authority : str) (now : datetime) : act db exit :=
  lift role_check ;;;
  let! guarded := acquire_retention_hold_guard in
  if negb guarded then ret (MkExit 1 [u "retention hold guard is unavailable"])
  else
    let! hold := get_row TRetentionHold hold_id in
    let missing := ret (MkExit 1 [u "retention hold was not found"]) in
    match hold with
    | None => missing
    | Some hold =>
        if negb (bool_decide (RetentionHold.released_at hold = None)) then missing
        else if negb (bool_decide (RetentionHold.authority hold = authority))
        then ret (MkExit 1 [u "retention hold release authority does not match"])
        else
          let! protected_resources :=
            gets (fun d => hold_descendants d (RetentionHold.resource_type hold, RetentionHold.resource_id hold)) in
          session_save TRetentionHold (released_hold authority now hold) ;;;
          modify (update_where TLifecycleTask (wakes protected_resources) (due_at now)) ;;;
          ret (MkExit 0 [u "retention hold " ++ hold_id ++ u " released"])
    end.
Definition release_retention_hold (hold_id authority : str) (now : datetime) : act db exit :=
  atomically (release_transaction hold_id authority now).
End commands.

(** ** What the commands leave *)
Lemma guard_runs d b d' : acquire_retention_hold_guard d = (Ok b, d') ->
  d' = d /\ (b = true -> is_Some (tbl d TAccountBackupAuthority !! ACCOUNT_BACKUP_AUTHORITY_ID)).
Proof.
  unfold acquire_retention_hold_guard, get_row, act_bind, gets, ret. intros [= <- <-]. split; [done|].
  by case_match.
Qed.
(** Follow the next test of a run; a refusal closes the goal. *)
Ltac refused := solve [inv_steps; left; split; [done|]; naive_solver].
Ltac branch E := match type of E with (if ?b then _ else _) _ = _ => destruct b eqn:?; [refused|] end; inv_steps.
(** A refused command changes nothing; a creation adds one row and a release
    rewrites one hold and the tasks it wakes. *)
Inductive created (args : HoldArgs) (now : datetime) (hold_id : str) (d d' : db) : Prop :=
| created_row expires_at review_at
    (Hnew : can_insert TRetentionHold (new_hold hold_id args expires_at review_at now) d = true)
    (Hexpires : instant now < instant expires_at) (Hreview : instant review_at <= instant expires_at)
    (Herasure : select TAccountErasureItem
       (erasure_progressed (hold_descendants d (h_resource_type args, h_resource_id args))) d = [])
    (Hdisposal : select TLifecycleTask
       (disposal_progressed (hold_descendants d (h_resource_type args, h_resource_id args))) d = [])
    (Hput : d' = put TRetentionHold hold_id (new_hold hold_id args expires_at review_at now) d).
Lemma create_cases parse role_check args now hold_id d r d' :
  create_retention_hold parse role_check args now hold_id d = (r, d') ->
  d' = d /\ (forall e, r = Ok e -> status e <> 0) \/
  (exists e, r = Ok e /\ status e = 0) /\ created args now hold_id d d'.
Proof.
  unfold create_retention_hold, ret. destruct (negb (one_of _ _)); [intros [= <- <-]; left; naive_solver|].
  destruct (parse_retention_timestamp _ (h_expires_at args) _) as [[ex|] l];
    destruct (parse_retention_timestamp _ (h_review_at args) _) as [[rv|] l'];
    try (intros [= <- <-]; left; naive_solver).
  destruct (dt_leb ex now || dt_ltb ex rv) eqn:Et; [intros [= <- <-]; left; naive_solver|].
  unfold atomically. destruct (create_transaction _ _ _ _ _ _ d) as [[e|e] d1] eqn:E; intros [= <- <-];
    [|left; split; [done|]; naive_solver].
  unfold create_transaction in E. inv_steps.
  match goal with H : lift _ _ = _ |- _ => unfold lift in H; injection H as _ <- end.
  match goal with H : acquire_retention_hold_guard _ = _ |- _ => apply guard_runs in H as [-> _] end.
  do 3 branch E.
  match goal with H : session_add _ _ _ = _ |- _ => apply session_add_spec in H as [(_ & Hi & ->)|(? & _)]; [|done] end.
  right. split; [eexists; split; [done|]; done|]. unfold dt_leb, dt_ltb in Et. bool_facts.
  econstructor; [exact Hi|lia|lia|done|done|done].
Qed.

Inductive released_by (hold_id authority : str) (now : datetime) (d d' : db) : Prop :=
| released_row hold
    (Hhold : tbl d TRetentionHold !! hold_id = Some hold)
    (Hactive : RetentionHold.released_at hold = None) (Hauthority : RetentionHold.authority hold = authority)
    (Hput : d' = update_where TLifecycleTask
       (wakes (hold_descendants d (RetentionHold.resource_type hold, RetentionHold.resource_id hold))) (due_at now)
       (put TRetentionHold (RetentionHold.id hold) (released_hold authority now hold) d)).
Lemma release_cases role_check hold_id authority now d r d' :
  release_retention_hold role_check hold_id authority now d = (r, d') ->
  d' = d /\ (forall e, r = Ok e -> status e <> 0) \/
  (exists e, r = Ok e /\ status e = 0) /\ released_by hold_id authority now d d'.
Proof.
  unfold release_retention_hold, atomically.
  destruct (release_transaction _ _ _ _ d) as [[e|e] d1] eqn:E; intros [= <- <-];
    [|left; split; [done|]; naive_solver].
  unfold release_transaction in E. inv_steps.
  match goal with H : lift _ _ = _ |- _ => unfold lift in H; injection H as _ <- end.
  match goal with H : acquire_retention_hold_guard _ = _ |- _ => apply guard_runs in H as [-> _] end.
  branch E. unfold get_row in *. inv_steps.
  match type of E with (match ?x with _ => _ end) _ = _ => destruct x as [hold|] eqn:Eh; [|refused] end.
  do 2 branch E.
  match goal with H : session_save _ _ _ = _ |- _ => apply session_save_spec in H as [(_ & _ & ->)|(? & _)]; [|done] end.
  right. split; [eexists; split; [done|]; done|]. bool_facts. by econstructor.
Qed.
