(* ===== verification/RetentionSafety.v ===== *)
(** * What the retention executor guarantees

    Specifications of each transaction of Retention.v, the invariant every
    interleaving of workers keeps, and the theorems on holds, exactly-once
    disposal, stale leases, back-off and fairness. *)
From S2P Require Import Prelude PyTime Models Database HoldLineage Sha256 Storage World Retention RetentionHolds.
Local Open Scope Z_scope.

(** ** What a disposal may touch *)

(** The ON DELETE RESTRICT references between conversations and their parents. *)
Definition refs_ok (d : db) : Prop :=
  (forall k m, tbl d TMessage !! k = Some m ->
     is_Some (tbl d TConversation !! Message.conversation_id m)) /\
  (forall k c, tbl d TConversation !! k = Some c ->
     is_Some (tbl d TConnection !! Conversation.connection_id c)) /\
  (forall k c, tbl d TConnection !! k = Some c ->
     is_Some (tbl d TConnectionRequest !! Connection.connection_request_id c)).

(** Tables no disposal writes, and the integrity it keeps. *)
Definition disposal (d d' : db) : Prop :=
  tbl d' TLifecycleTask = tbl d TLifecycleTask /\
  tbl d' TRetentionTombstone = tbl d TRetentionTombstone /\
  tbl d' TRetentionHold = tbl d TRetentionHold /\
  tbl d' TAccountBackupAuthority = tbl d TAccountBackupAuthority /\
  (keys_ok d -> keys_ok d') /\ (refs_ok d -> refs_ok d').
#[local] Instance disposal_preorder : PreOrder disposal.
Proof.
  split; [intros d; unfold disposal; split_and!; done || tauto|].
  intros d1 d2 d3 (?&?&?&?&?&?) (?&?&?&?&?&?). unfold disposal. split_and!; congruence || tauto.
Qed.

Definition leaf_table (t : table) : bool :=
  match t with
  | TApplication | TContactRequest | TMessage | TNotification
  | TOrganizationVerificationEvidence => true
  | _ => false
  end.

Lemma refs_ok_del_leaf t k d : leaf_table t = true -> refs_ok d -> refs_ok (del t k d).
Proof.
  intros Ht (H1 & H2 & H3). destruct t; try done; split_and!; intros k' r; db_simpl;
    rewrite ?lookup_delete_Some; naive_solver.
Qed.
Lemma disposal_del_leaf t k d : leaf_table t = true -> disposal d (del t k d).
Proof.
  intros Ht. unfold disposal. split_and!; [..|by apply keys_ok_del|by apply refs_ok_del_leaf];
    apply tbl_del_ne; intros ->; discriminate.
Qed.
Lemma keeps_session_delete_leaf t i :
  leaf_table t = true -> keeps (on_wdb disposal) (session_delete t i).
Proof. intros Ht. apply keeps_write_db. intros d. by apply disposal_del_leaf. Qed.
Lemma keeps_dispose_row t i :
  leaf_table t = true -> keeps (on_wdb disposal) (dispose_row t i).
Proof.
  intros Ht. unfold dispose_row, session_get.
  repeat first [by apply keeps_session_delete_leaf | keeps_step].
Qed.

Lemma refs_ok_same d d' :
  tbl d' TMessage = tbl d TMessage -> tbl d' TConversation = tbl d TConversation ->
  tbl d' TConnection = tbl d TConnection -> tbl d' TConnectionRequest = tbl d TConnectionRequest ->
  refs_ok d -> refs_ok d'.
Proof. unfold refs_ok. by intros -> -> -> ->. Qed.

Lemma select_nil t p d k r : select t p d = [] -> tbl d t !! k = Some r -> p r = false.
Proof.
  intros H Hr. destruct (p r) eqn:E; [|done].
  assert (r ∈ select t p d) as Hin by (apply elem_of_select; eauto).
  rewrite H in Hin. by apply elem_of_nil in Hin.
Qed.

(** A parent row is only deleted when nothing refers to it. *)
Lemma keeps_dispose_parent child fk t i :
  (forall d, (forall k r, tbl d child !! k = Some r -> fk r <> i) -> disposal d (del t i d)) ->
  keeps (on_wdb disposal) (dispose_parent child fk t i).
Proof.
  intros H w r w'. unfold dispose_parent, act_bind, query, gets.
  destruct (select child _ (wdb w)) eqn:E; [|by intros [= <- <-]].
  unfold dispose_row, act_bind, session_get, query, gets.
  destruct (tbl (wdb w) t !! i); intros [= <- <-]; [|done].
  apply H. intros k x Hx. pose proof (select_nil _ _ _ _ _ E Hx) as Hne.
  by apply bool_decide_eq_false in Hne.
Qed.

Lemma disposal_del_parent t i d :
  match t with
  | TConversation => forall k r, tbl d TMessage !! k = Some r -> Message.conversation_id r <> i
  | TConnection => forall k r, tbl d TConversation !! k = Some r -> Conversation.connection_id r <> i
  | TConnectionRequest =>
      forall k r, tbl d TConnection !! k = Some r -> Connection.connection_request_id r <> i
  | _ => False
  end -> disposal d (del t i d).
Proof.
  intros H. unfold disposal. destruct t; try done.
  all: split_and!; [by db_simpl..|by apply keys_ok_del|].
  all: intros (H1 & H2 & H3); split_and!; intros k r; db_simpl;
    rewrite ?lookup_delete_Some; intros Hr; rewrite ?lookup_delete_ne; naive_solver.
Qed.

Lemma disposal_residues ty i d : disposal d (delete_residues ty i d).
Proof.
  unfold disposal, delete_residues. split_and!; [by db_simpl..| |].
  - intros H. apply keys_ok_change_events, keys_ok_delete_where, H.
  - apply refs_ok_same; by db_simpl.
Qed.
Lemma disposal_dispose_residues task v d : disposal d (dispose_residues task v d).
Proof.
  unfold dispose_residues. case_match; [|apply disposal_residues].
  destruct v; [|apply disposal_residues]. etransitivity; apply disposal_residues.
Qed.

Lemma purge_case_disposal case at_ d : disposal d (purge_case case at_ d).
Proof.
  unfold disposal, purge_case. split_and!; [by db_simpl..| |].
  - intros H. apply keys_ok_put; [|done]. by repeat (apply keys_ok_update_where; [|done]).
  - apply refs_ok_same; by db_simpl.
Qed.

Lemma keeps_dispose_application ex i : keeps (on_wdb disposal) (dispose_application ex i).
Proof.
  unfold dispose_application, dispose_snapshot, session_get.
  repeat first [by apply keeps_session_delete_leaf | keeps_step].
Qed.
Lemma keeps_dispose_evidence ex i : keeps (on_wdb disposal) (dispose_evidence ex i).
Proof.
  unfold dispose_evidence, session_get.
  repeat first [by apply keeps_session_delete_leaf | keeps_step].
Qed.
Lemma disposal_put_audit e d :
  disposal d (put TModerationAuditEvent (row_id TModerationAuditEvent e) e d).
Proof.
  unfold disposal. split_and!; [by db_simpl..|intros H; by apply keys_ok_put|].
  apply refs_ok_same; by db_simpl.
Qed.
Lemma keeps_add_audit e :
  keeps (on_wdb disposal) (on_db (session_add TModerationAuditEvent e)).
Proof.
  apply keeps_on_db. intros d r d' [(-> & _ & ->)|(-> & ->)]%session_add_spec; [|done].
  apply disposal_put_audit.
Qed.
Lemma keeps_dispose_case i dr : keeps (on_wdb disposal) (dispose_moderation_case i dr).
Proof.
  unfold dispose_moderation_case, session_get.
  repeat first [apply keeps_write_db; intros; apply purge_case_disposal
               |apply keeps_add_audit
               |keeps_step].
Qed.
#[local] Hint Resolve keeps_dispose_application keeps_dispose_evidence keeps_dispose_case : keeps.
Lemma keeps_dispose_resource ex task dr : keeps (on_wdb disposal) (dispose_resource ex task dr).
Proof.
  unfold dispose_resource. case_match; [eauto with keeps typeclass_instances|].
  apply keeps_bind; [apply _| |intros v; apply keeps_write_db; intros; apply disposal_dispose_residues].
  repeat first [by apply keeps_dispose_row
               |by apply keeps_dispose_parent; intros ??; apply disposal_del_parent
               |keeps_step].
Qed.

(** ** One transaction at a time *)

Lemma act_bind_eq {S A B : Type} (m : act S A) (k : A -> act S B) s r s' :
  act_bind m k s = (r, s') ->
  (exists a s1, m s = (Ok a, s1) /\ k a s1 = (r, s')) \/ (exists e, m s = (Raise e, s') /\ r = Raise e).
Proof. unfold act_bind. destruct (m s) as [[a|e] s1]; naive_solver. Qed.

Lemma save_task_spec t w r w' :
  save_task t w = (r, w') ->
  r = Ok tt /\ row_ok TLifecycleTask t = true
    /\ w' = set_db (put TLifecycleTask (LifecycleTask.id t) t (wdb w)) w \/
  r = Raise IntegrityError /\ w' = w /\ row_ok TLifecycleTask t = false.
Proof.
  unfold save_task, on_db, session_save. destruct (row_ok TLifecycleTask t) eqn:E; intros [= <- <-]; [auto|].
  right. by destruct w.
Qed.
Lemma save_task_ok t w :
  row_ok TLifecycleTask t = true ->
  save_task t w = (Ok tt, set_db (put TLifecycleTask (LifecycleTask.id t) t (wdb w)) w).
Proof. intros H. unfold save_task, on_db, session_save. by rewrite H. Qed.

Lemma leased_task_spec claim d t :
  leased_task claim d = Some t <->
  tbl d TLifecycleTask !! c_id claim = Some t /\ LifecycleTask.state t = u "leased" /\
  LifecycleTask.claim_token t = Some (c_claim_token claim).
Proof.
  unfold leased_task. destruct (tbl d TLifecycleTask !! c_id claim) as [t'|]; [|naive_solver].
  destruct (_ && _) eqn:E; [bool_facts; naive_solver|].
  apply andb_false_iff in E as [E|E];
    [apply eqs_false in E|apply bool_decide_eq_false in E]; naive_solver.
Qed.

Lemma on_leased_none claim k w :
  leased_task claim (wdb w) = None -> on_leased claim k w = (Ok Retry, w).
Proof. intros H. unfold on_leased, transaction, act_bind, query, gets. by rewrite H. Qed.
Lemma on_leased_some claim k w t :
  leased_task claim (wdb w) = Some t -> on_leased claim k w = transaction (k t) w.
Proof. intros H. unfold on_leased, transaction, act_bind, query, gets. by rewrite H. Qed.

Lemma process_failed_none ex claim now e w :
  leased_task claim (wdb w) = None -> process_failed ex claim now e w = (Ok Retry, w).
Proof.
  intros H. unfold process_failed, cancel_stale_task, defer_dependency, retry_or_dead_letter.
  repeat case_match; by apply on_leased_none.
Qed.

Lemma acquire_hold_guard_spec w r w' :
  acquire_hold_guard w = (r, w') ->
  w' = w /\
  match tbl (wdb w) TAccountBackupAuthority !! ACCOUNT_BACKUP_AUTHORITY_ID with
  | Some _ => r = Ok tt
  | None => r = Raise (RetentionFailure (u "hold_guard_missing"))
  end.
Proof.
  unfold acquire_hold_guard, act_bind, session_get, query, gets.
  destruct (tbl (wdb w) TAccountBackupAuthority !! _); by intros [= <- <-].
Qed.

Definition guard_present (d : db) : Prop :=
  is_Some (tbl d TAccountBackupAuthority !! ACCOUNT_BACKUP_AUTHORITY_ID).
Lemma process_body_guarded ex claim now dr w :
  guard_present (wdb w) ->
  process_body ex claim now dr w =
  match leased_task claim (wdb w) with
  | None => (Ok Retry, w)
  | Some task => process_task ex task now dr w
  end.
Proof.
  intros [a Ha]. unfold process_body, act_bind at 1.
  destruct (acquire_hold_guard w) as [r w1] eqn:E. apply acquire_hold_guard_spec in E as [-> E].
  rewrite Ha in E. subst r. unfold act_bind, query, gets. by destruct (leased_task claim (wdb w)).
Qed.
Lemma process_body_unguarded ex claim now dr w :
  ~ guard_present (wdb w) ->
  process_body ex claim now dr w = (Raise (RetentionFailure (u "hold_guard_missing")), w).
Proof.
  intros Hn. unfold process_body, act_bind at 1.
  destruct (acquire_hold_guard w) as [r w1] eqn:E. apply acquire_hold_guard_spec in E as [-> E].
  unfold guard_present in Hn.
  destruct (tbl (wdb w) TAccountBackupAuthority !! _) eqn:E'; [by destruct Hn|]. by subst r.
Qed.

(** ** Exceptions of a disposal *)

(** A failure code must fit the [last_error_code] column. *)
Definition storable (e : exn) : Prop :=
  match e with RetentionFailure code => len code <= 80 | _ => True end.

Lemma raises_literal {A : Type} s :
  (len (u s) <=? 80) = true -> raises_in storable (raise (RetentionFailure (u s)) : act world A).
Proof. intros H. apply raises_raise. simpl. by apply Z.leb_le. Qed.
Lemma open_chain_storable f cur parts e : open_chain f cur parts = Raise e -> storable e.
Proof.
  revert cur. induction parts as [|p parts IH]; intros cur; simpl; [done|].
  destruct (is_dir _ _); [apply IH|]. by intros [= <-].
Qed.
Lemma read_bounded_storable n a b e : read_bounded_descriptor n a b = Raise e -> storable e.
Proof. unfold read_bounded_descriptor. repeat (case_match; try done); by intros [= <-]. Qed.
Lemma map_exn_storable {A : Type} h (m : Res A) e :
  (forall e0, storable e0 -> storable (h e0)) -> (forall e0, m = Raise e0 -> storable e0) ->
  map_exn h m = Raise e -> storable e.
Proof. destruct m as [a|e0]; simpl; [done|]. intros Hh Hm [= <-]. by apply Hh, Hm. Qed.
Lemma res_bind_storable {A B : Type} (m : Res A) (k : A -> Res B) e :
  (forall e0, m = Raise e0 -> storable e0) -> (forall a e0, k a = Raise e0 -> storable e0) ->
  res_bind m k = Raise e -> storable e.
Proof. destruct m as [a|e0]; simpl; intros Hm Hk H; [by eapply Hk|]. by injection H as <-; apply Hm. Qed.
Lemma verified_byte_target_storable st rel e :
  verified_byte_target st rel = Raise e -> storable e.
Proof. unfold verified_byte_target. repeat case_match; by intros [= <-]. Qed.
Lemma validate_storable sha size max e :
  validate_byte_expectations sha size max = Raise e -> storable e.
Proof.
  unfold validate_byte_expectations. match goal with |- (if ?b then _ else _) = _ -> _ =>
    destruct b end; [by intros [= <-]|done].
Qed.
Lemma read_verified_bytes_storable st rel sha size max f e :
  read_verified_bytes st rel sha size max f = Raise e -> storable e.
Proof.
  unfold read_verified_bytes. apply map_exn_storable; [by intros []|]. intros e0.
  apply res_bind_storable; [apply verified_byte_target_storable|]. intros [parts target] e1.
  apply res_bind_storable; [apply validate_storable|].
  intros [] e2. apply res_bind_storable; [|intros a e3; case_match; by intros [= <-]].
  unfold read_verified_bytes_posix. intros e3. case_match; [by intros [= <-]|].
  apply res_bind_storable; [apply open_chain_storable|]. intros dir e4.
  destruct (last parts); [|by intros [= <-]].
  destruct (f !! _) as [[]|]; first [apply read_bounded_storable|by intros [= <-]].
Qed.
Lemma delete_verified_storable st rel sha size max :
  raises_in storable (delete_verified_exact st rel sha size max).
Proof.
  intros f e f'. unfold delete_verified_exact.
  destruct (verified_byte_target st rel) as [[parts target]|e0] eqn:Ht.
  - destruct (negb _); [done|]. destruct (map_exn _ _) as [|e1] eqn:E; [done|].
    intros [= <- _]. revert E. apply map_exn_storable; [by intros []|].
    apply read_verified_bytes_storable.
  - intros [= <- _]. by eapply verified_byte_target_storable.
Qed.
Lemma absolute_target_storable st rel f e : absolute_target st rel f = Raise e -> storable e.
Proof. unfold absolute_target. repeat case_match; by intros [= <-]. Qed.
Ltac literal := apply raises_literal; vm_compute; reflexivity.

Lemma dispose_snapshot_storable ex a p : raises_in storable (dispose_snapshot ex a p).
Proof.
  unfold dispose_snapshot.
  destruct (application_snapshot_relative_path _) as [expected|]; [|literal].
  destruct (Application.snapshot_size_bytes a) as [size|]; [|literal].
  destruct (negb _); [literal|].
  apply raises_bind; [apply raises_on_fs, delete_verified_storable|intros _].
  intros w e w'. unfold act_bind, gets, lift.
  destruct (absolute_target (store ex) expected (wfs w)) as [t|e1] eqn:E; simpl.
  - destruct (exists_ _ _); [|done]. intros [= <- _]. vm_compute. done.
  - intros [= <- _]. by eapply absolute_target_storable.
Qed.
#[local] Hint Resolve dispose_snapshot_storable : raises.
#[local] Hint Extern 1 (raises_in _ (raise _)) => literal : raises.
#[local] Hint Extern 1 (raises_in _ (on_fs _)) =>
  apply raises_on_fs, delete_verified_storable : raises.
#[local] Hint Extern 1 (raises_in _ (on_db _)) => by apply raises_session_add : raises.

Lemma dispose_resource_storable ex task dr : raises_in storable (dispose_resource ex task dr).
Proof.
  unfold dispose_resource, dispose_application, dispose_row, dispose_parent,
    dispose_moderation_case, dispose_evidence, session_get, session_delete.
  cbv zeta. repeat raises_step.
Qed.

(** ** The invariant *)

Record task_ok (d : db) (t : LifecycleTask) : Prop := TaskOk {
  task_row : row_ok TLifecycleTask t = true;
  task_leased : LifecycleTask.state t = u "leased" ->
    1 <= LifecycleTask.attempts t /\ is_Some (LifecycleTask.claim_token t) /\
    is_Some (LifecycleTask.lease_expires_at t);
  task_free : LifecycleTask.state t <> u "leased" -> LifecycleTask.claim_token t = None;
  task_completed : LifecycleTask.state t = u "completed" ->
    has_tombstone d (LifecycleTask.resource_type t) (LifecycleTask.resource_id t) = true
}.
Definition resource_of (t : LifecycleTask) : str * str :=
  (LifecycleTask.resource_type t, LifecycleTask.resource_id t).
Definition stone_of (s : RetentionTombstone) : str * str :=
  (RetentionTombstone.resource_type s, RetentionTombstone.resource_id s).
Record retention_ok (d : db) : Prop := RetentionOk {
  ret_keys : keys_ok d;
  ret_refs : refs_ok d;
  ret_tasks : forall k t, tbl d TLifecycleTask !! k = Some t -> task_ok d t;
  (* one task and one tombstone per resource *)
  ret_unique : forall k k' t t', tbl d TLifecycleTask !! k = Some t ->
    tbl d TLifecycleTask !! k' = Some t' -> resource_of t = resource_of t' -> k = k';
  ret_stones : forall k k' s s', tbl d TRetentionTombstone !! k = Some s ->
    tbl d TRetentionTombstone !! k' = Some s' -> stone_of s = stone_of s' -> k = k'
}.

(** Only lifecycle tasks differ. *)
Definition only_tasks (d d' : db) : Prop :=
  (forall t, t <> TLifecycleTask -> tbl d' t = tbl d t) /\
  change_events d' = change_events d /\ peer_buckets d' = peer_buckets d.
#[local] Instance only_tasks_preorder : PreOrder only_tasks.
Proof.
  split; [done|]. intros a b c (H1 & H2 & H3) (H1' & H2' & H3').
  split_and!; [|congruence..]. intros t Ht. by rewrite H1', H1.
Qed.
Lemma only_tasks_put k t d : only_tasks d (put TLifecycleTask k t d).
Proof. split_and!; [|done..]. intros t' Ht. by rewrite tbl_put_ne. Qed.
Lemma only_tasks_del k d : only_tasks d (del TLifecycleTask k d).
Proof. split_and!; [|done..]. intros t' Ht. by rewrite tbl_del_ne. Qed.
Lemma keeps_save_task t : keeps (on_wdb only_tasks) (save_task t).
Proof.
  intros w r w' [(_ & _ & ->)|(_ & -> & _)]%save_task_spec; [|done]. apply only_tasks_put.
Qed.
#[local] Hint Resolve keeps_save_task : keeps.

Lemma has_tombstone_true d ty i :
  has_tombstone d ty i = true <->
  exists k s, tbl d TRetentionTombstone !! k = Some s /\ stone_of s = (ty, i).
Proof.
  unfold has_tombstone, tombstones. rewrite negb_true_iff, bool_decide_eq_false. split.
  - intros H. destruct (select _ _ _) as [|s l] eqn:E; [done|].
    assert (s ∈ s :: l) as Hs by left. rewrite <- E in Hs.
    apply elem_of_select in Hs as [[k Hk] Hs]. bool_facts. exists k, s.
    unfold stone_of. split; [done|]. congruence.
  - unfold stone_of. intros (k & s & Hk & Hst) H. injection Hst as <- <-. pose proof (select_nil TRetentionTombstone _ _ _ _ H Hk) as Hf.
    apply andb_false_iff in Hf as [Hf|Hf]; by apply bool_decide_eq_false in Hf.
Qed.
Lemma has_tombstone_nonempty d ty i :
  has_tombstone d ty i = true -> exists s l, tombstones d ty i = s :: l.
Proof. unfold has_tombstone. destruct (tombstones d ty i) as [|s l]; [done|eauto]. Qed.
Lemma has_tombstone_same d d' ty i :
  tbl d' TRetentionTombstone = tbl d TRetentionTombstone ->
  has_tombstone d' ty i = has_tombstone d ty i.
Proof. unfold has_tombstone, tombstones, select. by intros ->. Qed.

Lemma task_ok_same d d' t :
  tbl d' TRetentionTombstone = tbl d TRetentionTombstone -> task_ok d t -> task_ok d' t.
Proof.
  intros H [H1 H2 H3 H4]. constructor; [exact H1|exact H2|exact H3|]. intros Hc.
  rewrite (has_tombstone_same d d' _ _ H). auto.
Qed.

(** Rewriting one task keeps the invariant. *)
Lemma retention_ok_put d k t t' :
  retention_ok d -> tbl d TLifecycleTask !! k = Some t ->
  LifecycleTask.id t' = k -> resource_of t' = resource_of t -> task_ok d t' ->
  retention_ok (put TLifecycleTask k t' d).
Proof.
  intros [Hk Hr Ht Hu Hs] Hlk Hid Hres Hok. split.
  - by apply keys_ok_put.
  - revert Hr. apply refs_ok_same; by db_simpl.
  - intros k1 t1. db_simpl. rewrite lookup_insert_Some. intros [[<- <-]|[_ H]];
      (apply (task_ok_same d); [by db_simpl|eauto]).
  - intros k1 k2 t1 t2. db_simpl. rewrite !lookup_insert_Some.
    intros [[<- <-]|[Hn1 H1]] [[<- <-]|[Hn2 H2]] E; try done; eauto.
    + rewrite Hres in E. by apply (Hu k k2 t t2).
    + rewrite Hres in E. by apply (Hu k1 k t1 t).
  - intros k1 k2 s1 s2. db_simpl. apply Hs.
Qed.
Lemma retention_ok_del d k : retention_ok d -> retention_ok (del TLifecycleTask k d).
Proof.
  intros [Hk Hr Ht Hu Hs]. split.
  - by apply keys_ok_del.
  - revert Hr. apply refs_ok_same; by db_simpl.
  - intros k1 t1. db_simpl. intros [_ H]%lookup_delete_Some. apply (task_ok_same d); [by db_simpl|eauto].
  - intros k1 k2 t1 t2. db_simpl. intros [_ H1]%lookup_delete_Some [_ H2]%lookup_delete_Some. eauto.
  - intros k1 k2 s1 s2. db_simpl. apply Hs.
Qed.

(** The rewritten rows stay within the table's constraints. *)
Lemma row_ok_requeue t at_ :
  row_ok TLifecycleTask t = true -> 1 <= LifecycleTask.attempts t ->
  row_ok TLifecycleTask (requeue at_ t) = true.
Proof.
  simpl. unfold LifecycleTask.LifecycleTask_ok. simpl. intros H Ha. bool_facts.
  rewrite !andb_true_iff. split_and!; try done. apply Z.leb_le. lia.
Qed.
Lemma row_ok_completed t now :
  row_ok TLifecycleTask t = true -> row_ok TLifecycleTask (completed now t) = true.
Proof.
  simpl. unfold LifecycleTask.LifecycleTask_ok. simpl. intros H. bool_facts.
  rewrite !andb_true_iff. split_and!; try done. by apply Z.leb_le.
Qed.
Lemma row_ok_failed t code st :
  row_ok TLifecycleTask t = true -> len code <= 80 -> st = u "queued" \/ st = u "dead_letter" ->
  row_ok TLifecycleTask (release (Some code) t <| LifecycleTask.state := st |>) = true.
Proof.
  simpl. unfold LifecycleTask.LifecycleTask_ok. simpl. intros H Hc Hst. bool_facts.
  rewrite !andb_true_iff. split_and!; try done; try (by destruct Hst as [-> | ->]).
  all: by apply Z.leb_le.
Qed.

(** ** Outcomes of the transactions *)
Section process.
Context (ex : RetentionExecutor) (claim : Claim) (now : datetime) (dr : draws).

Lemma process_task_held task hold w :
  row_ok TLifecycleTask task = true -> 1 <= LifecycleTask.attempts task ->
  active_hold task (wdb w) = Some hold ->
  process_task ex task now dr w =
  (Ok Held, set_db (put TLifecycleTask (LifecycleTask.id task)
                      (requeue (held_until ex hold now) task) (wdb w)) w).
Proof.
  intros Hr Ha Hh. unfold process_task. rewrite query_bind, Hh.
  by rewrite (act_bind_run _ _ _ _ _ (save_task_ok _ w (row_ok_requeue _ _ Hr Ha))).
Qed.

Lemma process_task_free task w r w' :
  row_ok TLifecycleTask task = true -> active_hold task (wdb w) = None ->
  process_task ex task now dr w = (r, w') ->
  (exists w1, dispose_once ex task now dr w = (Ok tt, w1) /\ r = Ok Disposed /\
     w' = set_db (put TLifecycleTask (LifecycleTask.id task) (completed now task) (wdb w1)) w1) \/
  (exists e, dispose_once ex task now dr w = (Raise e, w') /\ r = Raise e).
Proof.
  intros Hr Hh. unfold process_task. rewrite query_bind, Hh.
  intros [([] & w1 & H1 & H)|(e & H1 & ->)]%act_bind_eq; [left|right; by exists e].
  rewrite (act_bind_run _ _ _ _ _ (save_task_ok _ w1 (row_ok_completed _ now Hr))) in H.
  injection H as <- <-. by exists w1.
Qed.

(** The fall-back transactions rewrite or drop the leased task, nothing else. *)
Lemma keeps_process_failed e : keeps (on_wdb only_tasks) (process_failed ex claim now e).
Proof.
  unfold process_failed, cancel_stale_task, defer_dependency, retry_or_dead_letter, on_leased.
  repeat first [ apply keeps_write_db; intros; apply only_tasks_del | keeps_step ].
Qed.

Lemma retry_or_dead_letter_eq code task w :
  leased_task claim (wdb w) = Some task -> row_ok TLifecycleTask task = true -> len code <= 80 ->
  retry_or_dead_letter ex claim code now w =
  if max_attempts ex <=? LifecycleTask.attempts task then
    (Ok DeadLetter, set_db (put TLifecycleTask (LifecycleTask.id task)
       (release (Some code) task <| LifecycleTask.state := u "dead_letter" |>) (wdb w)) w)
  else
    (Ok Retry, set_db (put TLifecycleTask (LifecycleTask.id task)
       (release (Some code) task <| LifecycleTask.state := u "queued" |>
          <| LifecycleTask.available_at :=
               dt_add now (seconds (backoff (LifecycleTask.attempts task))) |>) (wdb w)) w).
Proof.
  intros Ht Hr Hc. unfold retry_or_dead_letter. rewrite (on_leased_some _ _ _ _ Ht).
  unfold transaction, act_bind. destruct (max_attempts ex <=? LifecycleTask.attempts task).
  - rewrite save_task_ok; [done|]. by apply row_ok_failed; auto.
  - rewrite save_task_ok; [done|].
    pose proof (row_ok_failed task code (u "queued") Hr Hc (or_introl eq_refl)) as H. exact H.
Qed.
Lemma defer_dependency_eq task w :
  leased_task claim (wdb w) = Some task -> row_ok TLifecycleTask task = true ->
  1 <= LifecycleTask.attempts task ->
  defer_dependency claim now w =
  (Ok Retry, set_db (put TLifecycleTask (LifecycleTask.id task)
                       (requeue (dt_add now (seconds 1)) task) (wdb w)) w).
Proof.
  intros Ht Hr Ha. unfold defer_dependency. rewrite (on_leased_some _ _ _ _ Ht).
  unfold transaction, act_bind. by rewrite save_task_ok by by apply row_ok_requeue.
Qed.
Lemma cancel_stale_task_eq task w :
  leased_task claim (wdb w) = Some task ->
  cancel_stale_task claim w =
  (Ok Retry, set_db (del TLifecycleTask (LifecycleTask.id task) (wdb w)) w).
Proof. intros Ht. unfold cancel_stale_task. by rewrite (on_leased_some _ _ _ _ Ht). Qed.

(** On a well-formed database a fall-back commits: it reports an outcome other
    than a disposal, and keeps the invariant. *)
Lemma process_failed_ok e w r w' :
  retention_ok (wdb w) -> storable e -> process_failed ex claim now e w = (r, w') ->
  (r = Ok Retry \/ r = Ok DeadLetter) /\ retention_ok (wdb w') /\ wfs w' = wfs w.
Proof.
  intros Hok He. destruct (leased_task claim (wdb w)) as [task|] eqn:Ht;
    [|rewrite process_failed_none by done; intros [= <- <-]; auto].
  pose proof Ht as (Hk & Hs & Htok)%leased_task_spec.
  pose proof (ret_keys _ Hok TLifecycleTask _ _ Hk) as Hid.
  destruct (ret_tasks _ Hok _ _ Hk) as [Hr Hl Hf Hc]. destruct (Hl Hs) as (Ha & _ & _).
  change (LifecycleTask.id task = c_id claim) in Hid. rewrite <- Hid in Hk.
  assert (forall code, len code <= 80 -> retry_or_dead_letter ex claim code now w = (r, w') ->
    (r = Ok Retry \/ r = Ok DeadLetter) /\ retention_ok (wdb w') /\ wfs w' = wfs w) as Hretry.
  { intros code Hcode. rewrite (retry_or_dead_letter_eq _ task) by done.
    case_match; intros [= <- <-]; (split; [auto|]); (split; [|done]);
      (apply (retention_ok_put _ _ task); [done..|]); constructor; try done.
    - by apply row_ok_failed; auto.
    - exact (row_ok_failed task code (u "queued") Hr Hcode (or_introl eq_refl)). }
  unfold process_failed. destruct e; try (apply Hretry; by vm_compute).
  simpl in He. repeat case_match; [| |by apply Hretry].
  - rewrite (cancel_stale_task_eq task) by done. intros [= <- <-].
    split; [auto|]. split; [|done]. by apply retention_ok_del.
  - rewrite (defer_dependency_eq task) by done. intros [= <- <-].
    split; [auto|]. split; [|done].
    apply (retention_ok_put _ _ task); [done..|]. constructor; try done. by apply row_ok_requeue.
Qed.
End process.

(** A disposal keeps the invariant and leaves a tombstone. *)
Lemma disposal_ok d d' : disposal d d' -> retention_ok d -> retention_ok d'.
Proof.
  intros (H1 & H2 & _ & _ & H5 & H6) [Hk Hr Ht Hu Hs]. constructor; rewrite ?H1, ?H2; auto.
  intros k t Hlk. apply (task_ok_same d); [done|]. by apply (Ht k).
Qed.
Lemma has_tombstone_put s d ty i :
  tbl d TRetentionTombstone !! RetentionTombstone.id s = None ->
  has_tombstone (put TRetentionTombstone (RetentionTombstone.id s) s d) ty i = true <->
  has_tombstone d ty i = true \/ stone_of s = (ty, i).
Proof.
  intros Hn. rewrite !has_tombstone_true. setoid_rewrite tbl_put_eq. split.
  - intros (k & s' & H & E). apply lookup_insert_Some in H as [[<- ->]|[Hne H]]; [by right|left].
    by exists k, s'.
  - intros [(k & s' & H & E)|E].
    + exists k, s'. split; [|done]. rewrite lookup_insert_ne; [done|]. intros <-.
      by pose proof (eq_trans (eq_sym Hn) H).
    + exists (RetentionTombstone.id s), s. by rewrite lookup_insert_eq.
Qed.
Lemma retention_ok_stone s d :
  retention_ok d -> tbl d TRetentionTombstone !! RetentionTombstone.id s = None ->
  has_tombstone d (RetentionTombstone.resource_type s) (RetentionTombstone.resource_id s) = false ->
  retention_ok (put TRetentionTombstone (RetentionTombstone.id s) s d).
Proof.
  intros [Hk Hr Ht Hu Hs] Hn Hno.
  assert (forall k s', tbl d TRetentionTombstone !! k = Some s' -> stone_of s' <> stone_of s) as Hne.
  { intros k s' H E. apply not_true_iff_false in Hno. apply Hno, has_tombstone_true.
    by exists k, s'. }
  constructor.
  - by apply keys_ok_put.
  - revert Hr. apply refs_ok_same; by db_simpl.
  - intros k t. db_simpl. intros H. destruct (Ht k t H) as [H1 H2 H3 H4].
    constructor; [exact H1|exact H2|exact H3|]. intros Hc. apply has_tombstone_put; auto.
  - intros k k' t t'. db_simpl. apply Hu.
  - intros k k' s1 s2. db_simpl. rewrite !lookup_insert_Some.
    intros [[<- <-]|[_ H1]] [[<- <-]|[_ H2]] E; [done|..].
    + symmetry in E. by apply (Hne k' s2) in E.
    + by apply (Hne k s1) in E.
    + by apply (Hs _ _ _ _ H1 H2).
Qed.

(** What one successful [dispose_once] establishes. *)
Lemma dispose_once_spec ex task now dr w w1 :
  retention_ok (wdb w) -> dispose_once ex task now dr w = (Ok tt, w1) ->
  retention_ok (wdb w1) /\ tbl (wdb w1) TLifecycleTask = tbl (wdb w) TLifecycleTask /\
  (forall ty i, has_tombstone (wdb w1) ty i = true <->
     has_tombstone (wdb w) ty i = true \/ resource_of task = (ty, i)) /\
  (if has_tombstone (wdb w) (LifecycleTask.resource_type task) (LifecycleTask.resource_id task)
   then w1 = w
   else exists w2, dispose_resource ex task dr w = (Ok tt, w2) /\ wfs w1 = wfs w2 /\
     wdb w1 = put TRetentionTombstone (new_tombstone_id dr)
                (tombstone_of task (new_tombstone_id dr) now) (wdb w2)).
Proof.
  intros Hok. unfold dispose_once. rewrite query_bind.
  destruct (has_tombstone _ _ _) eqn:Hst.
  - pose proof Hst as Hst'. unfold has_tombstone in Hst'. bool_facts.
    destruct (tombstones _ _ _); [done|]. intros [= <-]. split_and!; try done.
    intros ty i. split; [auto|]. intros [?|[= <- <-]]; done.
  - pose proof Hst as Hst'. unfold has_tombstone in Hst'. bool_facts. rewrite Hst'.
    intros ([] & w2 & H2 & H)%act_bind_ok.
    pose proof (keeps_dispose_resource _ _ _ _ _ _ H2) as Hd. unfold on_wdb in Hd.
    unfold on_db in H. destruct (session_add _ _ _) as [r d] eqn:Ha. injection H as -> <-.
    apply session_add_spec in Ha as [(_ & Hc & ->)|(? & _)]; [|done].
    set (s := tombstone_of task (new_tombstone_id dr) now) in *.
    change (row_id TRetentionTombstone s) with (RetentionTombstone.id s) in *.
    unfold can_insert in Hc. apply andb_true_iff in Hc as [Hc _].
    apply andb_true_iff in Hc as [_ Hc]. apply bool_decide_eq_true in Hc. change (row_id TRetentionTombstone s)
      with (RetentionTombstone.id s) in Hc. simpl wdb.
    pose proof (disposal_ok _ _ Hd Hok) as Hok2. destruct Hd as (Hd1 & Hd2 & _).
    split_and!.
    + apply retention_ok_stone; [done|done|]. by rewrite (has_tombstone_same (wdb w)).
    + by db_simpl.
    + intros ty i. etransitivity; [exact (has_tombstone_put s _ ty i Hc)|]. by rewrite (has_tombstone_same (wdb w)).
    + exists w2. done.
Qed.

(** ** Claims *)

Definition executor_ok (ex : RetentionExecutor) : Prop := len (worker_id ex) <= 120.

Lemma next_task_some locked now d t :
  next_task locked now d = Some t ->
  (exists k, tbl d TLifecycleTask !! k = Some t) /\ eligible now t = true /\
  LifecycleTask.id t ∉ locked.
Proof.
  unfold next_task. intros H%first_by_elem.
  apply (elem_of_select TLifecycleTask) in H as [Hk Hp]. by bool_facts.
Qed.

Lemma task_before_total a b : task_before a b = true \/ task_before b a = true.
Proof.
  unfold task_before, dt_ltb, dt_eqb.
  destruct (Z.lt_trichotomy (instant (LifecycleTask.available_at a))
    (instant (LifecycleTask.available_at b))) as [H|[H|H]].
  - left. apply orb_true_iff. left. by apply Z.ltb_lt.
  - rewrite H, Z.ltb_irrefl, Z.eqb_refl. apply dt_id_before_total.
  - right. apply orb_true_iff. left. by apply Z.ltb_lt.
Qed.
Lemma task_before_trans a b c :
  task_before a b = true -> task_before b c = true -> task_before a c = true.
Proof.
  unfold task_before, dt_ltb, dt_eqb.
  rewrite !orb_true_iff, !andb_true_iff, !Z.ltb_lt, !Z.eqb_eq.
  intros [H1|[H1 H1']] [H2|[H2 H2']]; try (left; lia). right.
  split; [lia|by eapply dt_id_before_trans].
Qed.

Lemma row_ok_leased ex now token t :
  executor_ok ex -> len token <= 36 -> row_ok TLifecycleTask t = true ->
  row_ok TLifecycleTask (leased ex now token t) = true.
Proof.
  unfold executor_ok. simpl. unfold LifecycleTask.LifecycleTask_ok. simpl. intros Hw Ht H.
  bool_facts. rewrite !andb_true_iff. split_and!; try done; apply Z.leb_le; lia || done.
Qed.
Lemma claim_one_eq ex locked now token w :
  executor_ok ex -> len token <= 36 -> retention_ok (wdb w) ->
  claim_one ex locked now token w =
  match next_task locked now (wdb w) with
  | None => (Ok None, w)
  | Some t =>
      (Ok (Some (MkClaim (LifecycleTask.id t) (LifecycleTask.resource_type t)
                   (LifecycleTask.resource_id t) (LifecycleTask.policy_version t) token
                   (LifecycleTask.attempts t + 1))),
       set_db (put TLifecycleTask (LifecycleTask.id t) (leased ex now token t) (wdb w)) w)
  end.
Proof.
  intros Hex Htok Hok. unfold claim_one, transaction. rewrite query_bind.
  destruct (next_task locked now (wdb w)) as [t|] eqn:E; [|done].
  pose proof (next_task_some _ _ _ _ E) as ([k Hk] & _).
  pose proof (row_ok_leased ex now token t Hex Htok (task_row _ _ (ret_tasks _ Hok _ _ Hk))) as Hr.
  by rewrite (act_bind_run _ _ _ _ _ (save_task_ok _ w Hr)).
Qed.

Lemma claim_one_ok ex locked now token w r w' :
  executor_ok ex -> len token <= 36 -> retention_ok (wdb w) ->
  claim_one ex locked now token w = (r, w') -> retention_ok (wdb w') /\ wfs w' = wfs w.
Proof.
  intros Hex Htok Hok. rewrite claim_one_eq by done.
  destruct (next_task locked now (wdb w)) as [t|] eqn:E; intros [= <- <-]; [|done].
  pose proof (next_task_some _ _ _ _ E) as ([k Hk] & He & _).
  pose proof (ret_keys _ Hok TLifecycleTask _ _ Hk) as Hid.
  change (LifecycleTask.id t = k) in Hid. subst k. split; [|done].
  destruct (ret_tasks _ Hok _ _ Hk) as [Hr Hl Hf Hc].
  apply (retention_ok_put _ _ t); [done..|]. constructor.
  - by apply row_ok_leased.
  - intros _. simpl. split_and!; [|by eexists..].
    simpl in Hr. unfold LifecycleTask.LifecycleTask_ok in Hr. bool_facts. lia.
  - intros Hne. by destruct Hne.
  - by intros [=].
Qed.

(** ** Discovery *)
Lemma has_task_false d ty i :
  has_task d ty i = false ->
  forall k t, tbl d TLifecycleTask !! k = Some t -> resource_of t <> (ty, i).
Proof.
  unfold has_task. intros H k t Hk [= E1 E2]. bool_facts.
  pose proof (select_nil TLifecycleTask _ _ _ _ H Hk) as Hf.
  apply andb_false_iff in Hf as [Hf|Hf]; by apply bool_decide_eq_false in Hf.
Qed.
Lemma retention_ok_insert d k t :
  retention_ok d -> tbl d TLifecycleTask !! k = None -> LifecycleTask.id t = k ->
  (forall k' t', tbl d TLifecycleTask !! k' = Some t' -> resource_of t' <> resource_of t) ->
  task_ok d t -> retention_ok (put TLifecycleTask k t d).
Proof.
  intros [Hk Hr Ht Hu Hs] Hn Hid Hne Hok. constructor.
  - by apply keys_ok_put.
  - revert Hr. apply refs_ok_same; by db_simpl.
  - intros k1 t1. db_simpl. rewrite lookup_insert_Some. intros [[<- <-]|[_ H]];
      (apply (task_ok_same d); [by db_simpl|eauto]).
  - intros k1 k2 t1 t2. db_simpl. rewrite !lookup_insert_Some.
    intros [[<- <-]|[_ H1]] [[<- <-]|[_ H2]] E; [done|..].
    + symmetry in E. by apply (Hne k2 t2) in E.
    + by apply (Hne k1 t1) in E.
    + by apply (Hu _ _ _ _ H1 H2).
  - intros k1 k2 s1 s2. db_simpl. apply Hs.
Qed.

Lemma insert_task_ok id c now d r d' :
  retention_ok d -> insert_task id c now d = (r, d') -> retention_ok d' /\ only_tasks d d'.
Proof.
  intros Hok. unfold insert_task, act_bind at 1, gets at 1.
  destruct (has_task d _ _) eqn:Hn; [by intros [= <- <-]|].
  unfold act_bind at 1, gets at 1. destruct (negb _) eqn:El; [by intros [= <- <-]|]. bool_facts.
  intros [(? & d1 & Ha & H)|(e & Ha & ->)]%act_bind_eq;
    apply session_save_spec in Ha as [(Hr & Hrow & ->)|(Hr & ->)]; try done.
  unfold ret in H. injection H as <- <-. split; [|apply only_tasks_put].
  apply retention_ok_insert; [done..| |].
  - by apply has_task_false.
  - constructor; try done.
Qed.
Lemma insert_tasks_ok ids cs now d r d' :
  retention_ok d -> insert_tasks ids cs now d = (r, d') -> retention_ok d' /\ only_tasks d d'.
Proof.
  revert ids d r d'. induction cs as [|c cs IH]; intros ids d r d' Hok; simpl.
  { unfold ret. by intros [= <- <-]. }
  intros [(n & d1 & H1 & H)|(e & H1 & ->)]%act_bind_eq;
    apply insert_task_ok in H1 as [Hok1 Ho1]; try done.
  apply act_bind_eq in H as [(m & d2 & H2 & H)|(e & H2 & ->)];
    apply IH in H2 as [Hok2 Ho2]; try done.
  - unfold ret in H. injection H as <- <-. split; [done|]. by transitivity d1.
  - split; [done|]. by transitivity d1.
Qed.

Lemma insert_task_count id c now d n d' :
  insert_task id c now d = (Ok n, d') -> n = 0 \/ n = 1.
Proof.
  unfold insert_task, act_bind, gets. destruct (has_task _ _ _); [intros [= <- _]; auto|].
  destruct (negb _); [done|]. unfold session_save. destruct (row_ok _ _); [|done].
  intros [= <- _]. auto.
Qed.
Lemma insert_tasks_count ids cs now d n d' :
  insert_tasks ids cs now d = (Ok n, d') -> 0 <= n <= len cs.
Proof.
  unfold len. revert ids d n d'. induction cs as [|c cs IH]; intros ids d n d'; simpl.
  { unfold ret. intros [= <- _]. lia. }
  intros (a & d1 & H1 & H)%act_bind_ok. apply act_bind_ok in H as (b & d2 & H2 & H).
  apply insert_task_count in H1. apply IH in H2. unfold ret in H. injection H as <- _. lia.
Qed.

Lemma fair_round_length groups room :
  (length (fair_round groups room).1 <= room)%nat.
Proof.
  revert room. induction groups as [|g groups IH]; intros room; simpl; [lia|].
  destruct room as [|room]; [simpl; lia|]. destruct g as [|c g].
  - destruct (fair_round groups (S room)) as [sel rest] eqn:E. simpl.
    specialize (IH (S room)). by rewrite E in IH.
  - destruct (fair_round groups room) as [sel rest] eqn:E. simpl.
    specialize (IH room). rewrite E in IH. simpl in IH. lia.
Qed.
Lemma fair_rounds_length fuel groups room :
  (length (fair_rounds fuel groups room) <= room)%nat.
Proof.
  revert groups room. induction fuel as [|fuel IH]; intros groups room; simpl; [lia|].
  destruct room as [|room]; [simpl; lia|]. pose proof (fair_round_length groups (S room)) as Hl.
  destruct (fair_round groups (S room)) as [[|c sel] rest] eqn:E; [simpl; lia|].
  rewrite length_app. specialize (IH rest (S room - length (c :: sel))%nat). simpl in *. lia.
Qed.

Lemma only_tasks_buckets_ok m d : retention_ok d -> retention_ok (set_peer_buckets m d).
Proof.
  intros [Hk Hr Ht Hu Hs]. constructor; try done.
  intros k t H. by apply (task_ok_same d); [|apply (Ht k)].
Qed.
Lemma discover_ok limit now ids w r w' :
  retention_ok (wdb w) -> discover limit now ids w = (r, w') ->
  retention_ok (wdb w') /\ wfs w' = wfs w /\
  (forall t, t <> TLifecycleTask -> tbl (wdb w') t = tbl (wdb w) t) /\
  (forall n, r = Ok n -> 0 <= n <= Z.of_nat limit).
Proof.
  intros Hok. unfold discover, transaction.
  rewrite (act_bind_run (write_db _) _ w tt _ eq_refl), query_bind.
  set (w1 := set_db _ w). unfold on_db.
  destruct (insert_tasks _ _ _ _) as [ri d] eqn:Hi.
  pose proof (insert_tasks_ok _ _ _ (wdb w1) _ _
    (only_tasks_buckets_ok _ _ Hok) Hi) as [Hok' [Ht _]].
  destruct ri as [n|e]; intros [= <- <-].
  - split_and!; [done..|]. intros n' [= <-]. apply insert_tasks_count in Hi.
    pose proof (fair_rounds_length limit (candidate_groups (wdb w1) now limit) limit) as Hl.
    unfold len, fair_candidates in Hi. lia.
  - split_and!; try done.
Qed.

(** ** Processing *)

(** The transaction body, on every exit, keeps the invariant; an exception it
    lets escape can be recorded; a disposal leaves a tombstone. *)
Lemma process_task_ok ex task now dr w r w' :
  retention_ok (wdb w) ->
  tbl (wdb w) TLifecycleTask !! LifecycleTask.id task = Some task ->
  LifecycleTask.state task = u "leased" ->
  process_task ex task now dr w = (r, w') ->
  match r with
  | Ok o => retention_ok (wdb w') /\ (o = Held \/ o = Disposed)
  | Raise e => storable e
  end.
Proof.
  intros Hok Hk Hs. destruct (ret_tasks _ Hok _ _ Hk) as [Hr Hl _ _].
  destruct (Hl Hs) as (Ha & _ & _).
  destruct (active_hold task (wdb w)) as [h|] eqn:Hh.
  - rewrite (process_task_held _ _ _ _ h) by done. intros [= <- <-]. split; [|auto].
    apply (retention_ok_put _ _ task); [done..|]. constructor; try done. by apply row_ok_requeue.
  - intros [(w1 & H1 & -> & ->)|(e & H1 & ->)]%process_task_free; [| |done|done].
    + destruct (dispose_once_spec _ _ _ _ _ _ Hok H1) as (Hok1 & Ht & Hst & _). split; [|auto].
      apply (retention_ok_put _ _ task); [done|by rewrite Ht|done..|].
      constructor; [by apply row_ok_completed|done|done|]. intros _. apply Hst. by right.
    + assert (raises_in storable (dispose_once ex task now dr)) as Hraise; [|by eapply Hraise].
      unfold dispose_once. apply raises_bind; [apply raises_query|intros stones].
      destruct stones; [|apply raises_ret].
      apply raises_bind; [apply dispose_resource_storable|intros _; by apply raises_session_add].
Qed.

Lemma leased_task_id claim d t :
  keys_ok d -> leased_task claim d = Some t ->
  tbl d TLifecycleTask !! LifecycleTask.id t = Some t /\ LifecycleTask.state t = u "leased" /\
  LifecycleTask.id t = c_id claim.
Proof.
  intros Hk (H & Hs & _)%leased_task_spec. pose proof (Hk TLifecycleTask _ _ H) as Hid.
  change (LifecycleTask.id t = c_id claim) in Hid. by rewrite Hid.
Qed.
Lemma process_body_ok ex claim now dr w r w' :
  retention_ok (wdb w) -> process_body ex claim now dr w = (r, w') ->
  match r with
  | Ok o => retention_ok (wdb w') /\ o <> DeadLetter
  | Raise e => storable e
  end.
Proof.
  intros Hok.
  destruct (tbl (wdb w) TAccountBackupAuthority !! ACCOUNT_BACKUP_AUTHORITY_ID) as [a|] eqn:Hg.
  - rewrite process_body_guarded by (by exists a).
    destruct (leased_task claim (wdb w)) as [task|] eqn:Ht; [|by intros [= <- <-]].
    pose proof (leased_task_id _ _ _ (ret_keys _ Hok) Ht) as (Hk & Hs & _).
    intros H. pose proof (process_task_ok _ _ _ _ _ _ _ Hok Hk Hs H) as Hp.
    destruct r; [|done]. destruct Hp as [? [-> | ->]]; done.
  - rewrite process_body_unguarded by (intros [a Ha]; congruence). by intros [= <- <-].
Qed.
Lemma process_ok ex claim now dr w r w' :
  retention_ok (wdb w) -> process ex claim now dr w = (r, w') ->
  retention_ok (wdb w') /\ exists o, r = Ok o.
Proof.
  intros Hok. unfold process, catch, transaction.
  destruct (process_body ex claim now dr w) as [[o|e] w1] eqn:E;
    pose proof (process_body_ok _ _ _ _ _ _ _ Hok E) as Hp; simpl in Hp.
  - intros [= <- <-]. destruct Hp. eauto.
  - intros H. apply process_failed_ok in H as ([-> | ->] & H & _); eauto.
Qed.

(** ** Steps of interleaved workers

    Every transaction of the executor is one step, with any clock and any random
    ids; the operator's hold commands are steps of their own, since a release
    rewrites queued tasks; [step_other] is any transaction of the rest of the
    application, which never writes lifecycle tasks or tombstones. *)
Definition other_tables (d d' : db) : Prop :=
  tbl d' TLifecycleTask = tbl d TLifecycleTask /\
  tbl d' TRetentionTombstone = tbl d TRetentionTombstone /\ keys_ok d' /\ refs_ok d'.
Inductive step (ex : RetentionExecutor) (w w' : world) : Prop :=
| step_discover limit now ids r : discover limit now ids w = (r, w') -> step ex w w'
| step_claim locked now token r :
    len token <= 36 -> claim_one ex locked now token w = (r, w') -> step ex w w'
| step_process claim now dr r :
    transaction (process_body ex claim now dr) w = (r, w') -> step ex w w'
| step_recover claim now e r :
    storable e -> process_failed ex claim now e w = (r, w') -> step ex w w'
| step_hold parse role_check args now hold_id r :
    on_db (create_retention_hold parse role_check args now hold_id) w = (r, w') -> step ex w w'
| step_release role_check hold_id authority now r :
    on_db (release_retention_hold role_check hold_id authority now) w = (r, w') -> step ex w w'
| step_other : other_tables (wdb w) (wdb w') -> step ex w w'.

Definition finished (t : LifecycleTask) : Prop :=
  LifecycleTask.state t = u "completed" \/ LifecycleTask.state t = u "dead_letter".
(** Tombstones and finished tasks stay. *)
Definition progress (d d' : db) : Prop :=
  (forall ty i, has_tombstone d ty i = true -> has_tombstone d' ty i = true) /\
  (forall k t, tbl d TLifecycleTask !! k = Some t -> finished t ->
     tbl d' TLifecycleTask !! k = Some t).
#[local] Instance progress_preorder : PreOrder progress.
Proof.
  split; [done|]. intros a b c [H1 H2] [H1' H2']. split; eauto.
Qed.
Lemma progress_put d k t t' :
  tbl d TLifecycleTask !! k = Some t -> ~ finished t -> progress d (put TLifecycleTask k t' d).
Proof.
  intros Hk Hn. split.
  - intros ty i <-. apply has_tombstone_same. by db_simpl.
  - intros k1 t1 H1 Hf. rewrite tbl_put_eq, lookup_insert_ne; [done|]. intros <-.
    rewrite Hk in H1. by injection H1 as ->.
Qed.
Lemma progress_del d k t :
  tbl d TLifecycleTask !! k = Some t -> ~ finished t -> progress d (del TLifecycleTask k d).
Proof.
  intros Hk Hn. split.
  - intros ty i <-. apply has_tombstone_same. by db_simpl.
  - intros k1 t1 H1 Hf. rewrite tbl_del_eq, lookup_delete_ne; [done|]. intros <-.
    rewrite Hk in H1. by injection H1 as ->.
Qed.
Lemma leased_not_finished t : LifecycleTask.state t = u "leased" -> ~ finished t.
Proof. unfold finished. intros -> [H|H]; vm_compute in H; discriminate. Qed.
Lemma eligible_not_finished now t : eligible now t = true -> ~ finished t.
Proof.
  unfold eligible, finished. intros H [E|E]; rewrite E in H; vm_compute in H; discriminate.
Qed.
Lemma progress_insert d k t :
  tbl d TLifecycleTask !! k = None -> progress d (put TLifecycleTask k t d).
Proof.
  intros Hk. split.
  - intros ty i <-. apply has_tombstone_same. by db_simpl.
  - intros k1 t1 H1 _. rewrite tbl_put_eq, lookup_insert_ne; [done|]. intros <-.
    by pose proof (eq_trans (eq_sym Hk) H1).
Qed.
Lemma insert_tasks_progress ids cs now : keeps progress (insert_tasks ids cs now).
Proof.
  revert ids. induction cs as [|c cs IH]; intros ids; simpl; [apply keeps_ret, _|].
  apply keeps_bind; [apply _| |intros n; apply keeps_bind;
    [apply _|apply IH|intros m; apply keeps_ret, _]].
  intros d r d'. unfold insert_task, act_bind, gets.
  destruct (has_task d _ _); [by intros [= <- <-]|].
  destruct (negb _) eqn:El; [by intros [= <- <-]|]. bool_facts.
  unfold session_save. destruct (row_ok _ _); intros [= <- <-]; [|done].
  by apply progress_insert.
Qed.

Lemma process_failed_progress ex claim now e w r w' :
  keys_ok (wdb w) -> process_failed ex claim now e w = (r, w') -> progress (wdb w) (wdb w').
Proof.
  intros Hk. destruct (leased_task claim (wdb w)) as [t|] eqn:Ht;
    [|rewrite process_failed_none by done; by intros [= <- <-]].
  pose proof (leased_task_id _ _ _ Hk Ht) as (Hl & Hs & _).
  apply leased_not_finished in Hs.
  assert (forall t' (o : outcome), LifecycleTask.id t' = LifecycleTask.id t ->
    forall r w', transaction (save_task t' ;;; ret o) w = (r, w') -> progress (wdb w) (wdb w'))
    as Hsave.
  { intros t' o Hid r1 w1. unfold transaction, act_bind.
    destruct (save_task t' w) as [r2 w2] eqn:E.
    apply save_task_spec in E as [(-> & _ & ->)|(-> & -> & _)]; intros [= <- <-]; [|done].
    simpl. rewrite Hid. by apply (progress_put _ _ t). }
  unfold process_failed, cancel_stale_task, defer_dependency, retry_or_dead_letter.
  repeat case_match; rewrite (on_leased_some _ _ _ _ Ht); try case_match;
    try (by apply Hsave).
  unfold transaction, act_bind. intros [= <- <-]. by apply (progress_del _ _ t).
Qed.

Lemma process_body_progress ex claim now dr w r w' :
  retention_ok (wdb w) -> transaction (process_body ex claim now dr) w = (r, w') ->
  progress (wdb w) (wdb w').
Proof.
  intros Hok. unfold transaction.
  destruct (process_body _ _ _ _ w) as [[o|e] w1] eqn:E; intros [= <- <-]; [|done].
  destruct (tbl (wdb w) TAccountBackupAuthority !! ACCOUNT_BACKUP_AUTHORITY_ID) as [a|] eqn:Hg;
    [|rewrite process_body_unguarded in E by (intros [a Ha]; congruence); discriminate E].
  rewrite process_body_guarded in E by (by exists a).
  destruct (leased_task claim (wdb w)) as [t|] eqn:Ht; [|by injection E as <- <-].
  pose proof (leased_task_id _ _ _ (ret_keys _ Hok) Ht) as (Hl & Hs & _).
  destruct (ret_tasks _ Hok _ _ Hl) as [Hr Hlease _ _]. destruct (Hlease Hs) as (Ha & _ & _).
  apply leased_not_finished in Hs.
  destruct (active_hold t (wdb w)) as [h|] eqn:Hh.
  - rewrite (process_task_held _ _ _ _ h) in E by done. injection E as <- <-.
    by apply (progress_put _ _ t).
  - apply process_task_free in E as [(w2 & H2 & _ & ->)|(e & _ & ?)]; [|done..].
    destruct (dispose_once_spec _ _ _ _ _ _ Hok H2) as (_ & Htasks & Hst & _).
    transitivity (wdb w2); [split; [intros ty i H; apply Hst; by left|by rewrite Htasks]|].
    apply (progress_put _ _ t); [by rewrite Htasks|done].
Qed.

(** A release rewrites the due time of queued tasks and nothing else of them. *)
Lemma wakes_queued rs t : wakes rs t = true -> LifecycleTask.state t = u "queued".
Proof. unfold wakes. intros H. bool_facts. done. Qed.
Lemma task_ok_due d rs now t : task_ok d t -> task_ok d (if wakes rs t then due_at now t else t).
Proof.
  intros [H1 H2 H3 H4]. destruct (wakes rs t); [|done]. by constructor.
Qed.
Lemma released_ok hold_id authority now d d' :
  retention_ok d -> released_by hold_id authority now d d' -> retention_ok d' /\ progress d d'.
Proof.
  intros [Hk Hr Ht Hu Hs] [hold Hhold _ _ ->].
  set (d1 := put TRetentionHold _ _ d). set (rs := hold_descendants _ _).
  assert (tbl d1 TLifecycleTask = tbl d TLifecycleTask) as Et by by apply tbl_put_ne.
  assert (forall k t, tbl (update_where TLifecycleTask (wakes rs) (due_at now) d1) TLifecycleTask !! k = Some t ->
    exists t0, tbl d TLifecycleTask !! k = Some t0 /\ t = if wakes rs t0 then due_at now t0 else t0) as Hrow.
  { intros k t. rewrite tbl_update_where_eq, lookup_fmap, Et. intros (t0 & H0 & E)%fmap_Some. exists t0. by split. }
  split; [split|split].
  - apply keys_ok_update_where; [by apply keys_ok_put|done].
  - revert Hr. apply refs_ok_same; unfold d1; by db_simpl.
  - intros k t (t0 & H0 & ->)%Hrow. apply task_ok_due, (task_ok_same d); [unfold d1; by db_simpl|eauto].
  - intros k k' t t' (t0 & H0 & ->)%Hrow (t0' & H0' & ->)%Hrow E. apply (Hu k k' t0 t0' H0 H0').
    revert E. by destruct (wakes rs t0), (wakes rs t0').
  - intros k k' t t'. unfold d1. db_simpl. apply Hs.
  - intros ty i <-. apply has_tombstone_same. unfold d1. by db_simpl.
  - intros k t H0 Hf. rewrite tbl_update_where_eq, lookup_fmap, Et.
    apply fmap_Some. exists t. split; [exact H0|].
    destruct (wakes rs t) eqn:Ew; [|done]. apply wakes_queued in Ew.
    destruct Hf as [Hf|Hf]; rewrite Ew in Hf; vm_compute in Hf; discriminate.
Qed.
Lemma created_other args now hold_id d d' :
  keys_ok d -> refs_ok d -> created args now hold_id d d' -> other_tables d d'.
Proof.
  intros Hk Hr [ex rv _ _ _ _ _ ->]. unfold other_tables. split_and!; [by apply tbl_put_ne..| |].
  - by apply keys_ok_put.
  - revert Hr. apply refs_ok_same; by apply tbl_put_ne.
Qed.
Lemma other_ok d d' : retention_ok d -> other_tables d d' -> retention_ok d' /\ progress d d'.
Proof.
  intros [_ _ Ht Hu Hs] (H1 & H2 & H3 & H4). split.
  - constructor; rewrite ?H1, ?H2; auto. intros k t Hk. apply (task_ok_same d); eauto.
  - split; [|by rewrite H1]. intros ty i <-. by apply has_tombstone_same.
Qed.

Lemma step_ok ex w w' :
  executor_ok ex -> retention_ok (wdb w) -> step ex w w' ->
  retention_ok (wdb w') /\ progress (wdb w) (wdb w').
Proof.
  intros Hex Hok [limit now ids r H|locked now token r Htok H|claim now dr r H|claim now e r He H
    |parse rc args now hold_id r H|rc hold_id authority now r H|Ho].
  - split; [by eapply discover_ok|]. revert H. unfold discover.
    assert (keeps (on_wdb progress) (discover limit now ids)) as Hd; [|by apply Hd].
    unfold discover. apply keeps_transaction; [apply _|].
    repeat first [apply keeps_on_db, insert_tasks_progress|apply keeps_write_db; done|keeps_step].
  - split; [by eapply claim_one_ok|]. rewrite claim_one_eq in H by done.
    destruct (next_task locked now (wdb w)) as [t|] eqn:E; injection H as <- <-; [|done].
    apply next_task_some in E as ([k Hk] & He & _).
    pose proof (ret_keys _ Hok TLifecycleTask _ _ Hk) as Hid.
    change (LifecycleTask.id t = k) in Hid. subst k.
    apply (progress_put _ _ t); [done|by eapply eligible_not_finished].
  - split; [|by eapply process_body_progress]. unfold transaction in H.
    destruct (process_body _ _ _ _ w) as [[o|e] w1] eqn:E; injection H as <- <-; [|done].
    by apply process_body_ok in E as [? _].
  - split; [by eapply process_failed_ok|]. eapply process_failed_progress; [apply Hok|done].
  - unfold on_db in H. destruct (create_retention_hold _ _ _ _ _ _) as [r0 d] eqn:E; injection H as <- <-.
    apply create_cases in E as [[-> _]|[_ E]]; [done|].
    apply other_ok; [done|]. eapply created_other; [apply Hok..|exact E].
  - unfold on_db in H. destruct (release_retention_hold _ _ _ _ _) as [r0 d] eqn:E; injection H as <- <-.
    apply release_cases in E as [[-> _]|[_ E]]; [done|]. by eapply released_ok.
  - by apply other_ok.
Qed.
Lemma steps_ok ex w w' :
  executor_ok ex -> retention_ok (wdb w) -> rtc (step ex) w w' ->
  retention_ok (wdb w') /\ progress (wdb w) (wdb w').
Proof.
  intros Hex Hok H. induction H as [w|w1 w2 w3 H12 _ IH]; [done|].
  destruct (step_ok _ _ _ Hex Hok H12) as [Hok2 Hp].
  destruct (IH Hok2) as [Hok3 Hp']. split; [done|]. by transitivity (wdb w2).
Qed.

(** ** What a completed disposal removed *)

(** The table of a resource type whose row is deleted. *)
Definition deleted_table (ty : str) : option table :=
  if eqs ty "application" then Some TApplication
  else if eqs ty "contact_request" then Some TContactRequest
  else if eqs ty "message" then Some TMessage
  else if eqs ty "notification" then Some TNotification
  else if eqs ty "conversation" then Some TConversation
  else if eqs ty "connection" then Some TConnection
  else if eqs ty "connection_request" then Some TConnectionRequest
  else if eqs ty "organization_verification_evidence" then Some TOrganizationVerificationEvidence
  else None.
(** The case keeps its row, but no report narrative, rationale or evidence. *)
Definition case_purged (d : db) (i : str) : Prop :=
  (forall c, tbl d TModerationCase !! i = Some c ->
     is_Some (ModerationCase.sensitive_purged_at c) /\
     (forall k r, tbl d TPostReport !! k = Some r -> PostReport.case_id r = i ->
        PostReport.narrative r = None) /\
     (forall k x, tbl d TModerationDecision !! k = Some x -> ModerationDecision.case_id x = i ->
        ModerationDecision.internal_rationale x = None /\ ModerationDecision.evidence x = None) /\
     (forall k a, tbl d TModerationAppeal !! k = Some a -> ModerationAppeal.case_id a = i ->
        ModerationAppeal.rationale a = None /\ ModerationAppeal.internal_rationale a = None)).
Definition no_residue (d : db) (ty i : str) : Prop :=
  (forall k r, tbl d TIdempotencyRecord !! k = Some r ->
     ~ (IdempotencyRecord.resource_type r = Some ty /\ IdempotencyRecord.resource_id r = Some i)) /\
  (forall k e, change_events d !! k = Some e ->
     ~ (ChangeEvent.resource_type e = ty /\ ChangeEvent.resource_id e = i)).
Definition gone (d : db) (ty i : str) : Prop :=
  match deleted_table ty with
  | Some t => tbl d t !! i = None
  | None => ty = u "moderation_case" /\ case_purged d i
  end.

Lemma lookup_residue ty i d k r :
  tbl (delete_residues ty i d) TIdempotencyRecord !! k = Some r ->
  tbl d TIdempotencyRecord !! k = Some r /\
  ~ (IdempotencyRecord.resource_type r = Some ty /\ IdempotencyRecord.resource_id r = Some i).
Proof.
  unfold delete_residues. cbv zeta. rewrite tbl_set_change_events.
  intros [Hr Hf]%(lookup_delete_where TIdempotencyRecord). split; [done|]. intros [E1 E2].
  apply andb_false_iff in Hf as [Hf|Hf]; by apply bool_decide_eq_false in Hf.
Qed.
Lemma no_residue_delete ty i d : no_residue (delete_residues ty i d) ty i.
Proof.
  split.
  - by intros k r [_ Hf]%lookup_residue.
  - intros k e. unfold delete_residues. simpl. intros [_ Hf]%map_lookup_filter_Some [<- <-].
    unfold about in Hf. by rewrite !bool_decide_true in Hf.
Qed.
Lemma no_residue_keep ty i ty' i' d : no_residue d ty i -> no_residue (delete_residues ty' i' d) ty i.
Proof.
  intros [H1 H2]. split.
  - intros k r [Hr _]%lookup_residue. by apply (H1 k).
  - intros k e. unfold delete_residues. simpl. intros [He _]%map_lookup_filter_Some.
    by apply (H2 k).
Qed.
Lemma no_residue_disposed task v d :
  no_residue (dispose_residues task v d) (LifecycleTask.resource_type task)
    (LifecycleTask.resource_id task).
Proof.
  unfold dispose_residues. case_match; [|apply no_residue_delete].
  destruct v; [apply no_residue_keep|]; apply no_residue_delete.
Qed.
Lemma tbl_delete_residues t ty i d :
  t <> TIdempotencyRecord -> tbl (delete_residues ty i d) t = tbl d t.
Proof. intros Ht. unfold delete_residues. cbv zeta.
  by rewrite tbl_set_change_events, tbl_delete_where_ne.
Qed.
Lemma tbl_dispose_residues t task v d :
  t <> TIdempotencyRecord -> tbl (dispose_residues task v d) t = tbl d t.
Proof.
  intros Ht. unfold dispose_residues. case_match; [|by rewrite tbl_delete_residues].
  destruct v; by rewrite !tbl_delete_residues.
Qed.

Lemma dispose_row_gone t i w r w' :
  dispose_row t i w = (Ok r, w') -> tbl (wdb w') t !! i = None.
Proof.
  unfold dispose_row, session_get. rewrite query_bind.
  destruct (tbl (wdb w) t !! i) eqn:E; intros [= _ <-]; [|done].
  apply deleted_lookup.
Qed.
Lemma dispose_parent_gone child fk t i w r w' :
  dispose_parent child fk t i w = (Ok r, w') -> tbl (wdb w') t !! i = None.
Proof.
  unfold dispose_parent. rewrite query_bind. destruct (select child _ _); [|done].
  apply dispose_row_gone.
Qed.
Lemma dispose_application_gone ex i w r w' :
  keys_ok (wdb w) -> dispose_application ex i w = (Ok r, w') ->
  tbl (wdb w') TApplication !! i = None.
Proof.
  intros Hk. unfold dispose_application, session_get. rewrite query_bind.
  destruct (tbl (wdb w) TApplication !! i) as [a|] eqn:E; [|by intros [= <- <-]].
  pose proof (Hk _ _ _ E) as Hid. change (Application.id a = i) in Hid. subst i.
  intros (x & w1 & _ & H)%act_bind_ok. injection H as <- <-. apply deleted_lookup.
Qed.
Lemma dispose_evidence_gone ex i w r w' :
  keys_ok (wdb w) -> dispose_evidence ex i w = (Ok r, w') ->
  tbl (wdb w') TOrganizationVerificationEvidence !! i = None.
Proof.
  intros Hk. unfold dispose_evidence, session_get. rewrite query_bind.
  destruct (tbl (wdb w) TOrganizationVerificationEvidence !! i) as [a|] eqn:E;
    [|by intros [= <- <-]].
  pose proof (Hk _ _ _ E) as Hid. change (OrganizationVerificationEvidence.id a = i) in Hid. subst i.
  rewrite query_bind. destruct (tbl (wdb w) TOrganizationVerification !! _); [|done].
  cbv zeta. destruct (negb _); [done|].
  intros (x & w1 & _ & H)%act_bind_ok. apply act_bind_ok in H as (y & w2 & H & H').
  injection H as <- <-. injection H' as <- <-. apply deleted_lookup.
Qed.

Lemma case_purged_same d d' i :
  tbl d' TModerationCase = tbl d TModerationCase -> tbl d' TPostReport = tbl d TPostReport ->
  tbl d' TModerationDecision = tbl d TModerationDecision ->
  tbl d' TModerationAppeal = tbl d TModerationAppeal -> case_purged d i -> case_purged d' i.
Proof. unfold case_purged. by intros -> -> -> ->. Qed.
Lemma lookup_update_where t p f d k r :
  tbl (update_where t p f d) t !! k = Some r ->
  exists r0, tbl d t !! k = Some r0 /\ r = if p r0 then f r0 else r0.
Proof. rewrite tbl_update_where_eq, lookup_fmap, fmap_Some. naive_solver. Qed.
Lemma purge_case_purged case at_ d : case_purged (purge_case case at_ d) (ModerationCase.id case).
Proof.
  intros c Hc. unfold purge_case in *. rewrite tbl_put_eq, lookup_insert_eq in Hc.
  injection Hc as <-. split; [by eexists|]. split_and!; intros k x Hx Hid;
    rewrite tbl_put_ne in Hx by done.
  - rewrite !tbl_update_where_ne in Hx by done.
    apply (lookup_update_where TPostReport) in Hx as (x0 & _ & ->).
    case_bool_decide as Hd; [done|]. by destruct Hd.
  - rewrite tbl_update_where_ne in Hx by done.
    apply (lookup_update_where TModerationDecision) in Hx as (x0 & _ & ->).
    case_bool_decide as Hd; [done|]. by destruct Hd.
  - apply (lookup_update_where TModerationAppeal) in Hx as (x0 & _ & ->).
    case_bool_decide as Hd; [done|]. by destruct Hd.
Qed.
Lemma dispose_moderation_case_purged i dr w r w' :
  keys_ok (wdb w) -> dispose_moderation_case i dr w = (Ok r, w') -> case_purged (wdb w') i.
Proof.
  intros Hk. unfold dispose_moderation_case, session_get. rewrite query_bind.
  destruct (tbl (wdb w) TModerationCase !! i) as [c|] eqn:E; [|intros [= _ <-] c Hc;
    by pose proof (eq_trans (eq_sym E) Hc)].
  pose proof (Hk _ _ _ E) as Hid. change (ModerationCase.id c = i) in Hid. subst i.
  destruct (_ || _); [done|].
  rewrite (act_bind_run (write_db _) _ w tt _ eq_refl). unfold on_db.
  destruct (session_add _ _ _) as [r1 d1] eqn:Ha.
  apply session_add_spec in Ha as [(-> & _ & ->)|(-> & ->)]; intros [= _ <-].
  eapply case_purged_same; [..|apply purge_case_purged]; simpl wdb; by rewrite tbl_put_ne.
Qed.

Lemma dispose_resource_gone ex task dr w r w' :
  keys_ok (wdb w) -> dispose_resource ex task dr w = (Ok r, w') ->
  gone (wdb w') (LifecycleTask.resource_type task) (LifecycleTask.resource_id task) /\
  no_residue (wdb w') (LifecycleTask.resource_type task) (LifecycleTask.resource_id task).
Proof.
  intros Hk. unfold dispose_resource. destruct (negb _) eqn:Hty; [done|].
  intros (v & w1 & H1 & H)%act_bind_ok. injection H as <- <-.
  split; [|apply no_residue_disposed]. apply negb_false_iff, one_of_true in Hty.
  unfold gone. set (ty := LifecycleTask.resource_type task) in *.
  set (i := LifecycleTask.resource_id task) in *.
  assert (match deleted_table ty with
          | Some t => t <> TIdempotencyRecord /\ tbl (wdb w1) t !! i = None
          | None => ty = u "moderation_case" /\ case_purged (wdb w1) i end) as Hg.
  { clearbody ty i. unfold SUPPORTED_RESOURCE_TYPES in Hty.
    repeat (apply Exists_cons in Hty as [->|Hty]); [..|by apply Exists_nil in Hty];
      cbn in H1; try (apply act_bind_ok in H1 as (x & w2 & H1 & H2); injection H2 as <- <-);
      cbn; (split; [done|]).
    all: first [ eapply dispose_row_gone; eassumption
      | eapply dispose_parent_gone; eassumption
      | eapply dispose_application_gone; eassumption
      | eapply dispose_evidence_gone; [exact Hk|exact H1]
      | eapply dispose_moderation_case_purged; [exact Hk|exact H1] ]. }
  destruct (deleted_table ty) as [t|].
  - destruct Hg as [Ht Hg]. simpl. by rewrite tbl_dispose_residues.
  - destruct Hg as [Ht Hg]. split; [done|].
    eapply case_purged_same; [..|apply Hg]; simpl; by rewrite tbl_dispose_residues.
Qed.

(** ** Properties *)

(** C1: Whatever the interleaving of discoveries, claims, disposals, fall-backs, hold
    commands and transactions of the rest of the application, the database keeps its
    integrity: leases carry a token and a counted attempt, completed tasks have
    tombstones, a resource has one task and one tombstone, conversations are
    never orphaned; and no tombstone or finished task is ever lost. *)
Theorem retention_invariant ex w w' :
  executor_ok ex -> retention_ok (wdb w) -> rtc (step ex) w w' ->
  retention_ok (wdb w') /\
  (forall ty i, has_tombstone (wdb w) ty i = true -> has_tombstone (wdb w') ty i = true) /\
  (forall k t, tbl (wdb w) TLifecycleTask !! k = Some t -> finished t ->
     tbl (wdb w') TLifecycleTask !! k = Some t).
Proof. intros Hex Hok H. destruct (steps_ok _ _ _ Hex Hok H) as [? []]. done. Qed.

(** What the claim's token proves about the task. *)
Lemma leased_facts claim d t :
  retention_ok d -> leased_task claim d = Some t ->
  tbl d TLifecycleTask !! LifecycleTask.id t = Some t /\ LifecycleTask.state t = u "leased" /\
  row_ok TLifecycleTask t = true /\ 1 <= LifecycleTask.attempts t.
Proof.
  intros Hok Ht. pose proof (leased_task_id _ _ _ (ret_keys _ Hok) Ht) as (Hl & Hs & _).
  destruct (ret_tasks _ Hok _ _ Hl) as [Hrow Hlease _ _]. by destruct (Hlease Hs).
Qed.
Lemma process_body_run ex claim now dr w task r w' :
  leased_task claim (wdb w) = Some task -> process_body ex claim now dr w = (r, w') ->
  (exists e, r = Raise e /\ w' = w) \/ process_task ex task now dr w = (r, w').
Proof.
  intros Ht.
  destruct (tbl (wdb w) TAccountBackupAuthority !! ACCOUNT_BACKUP_AUTHORITY_ID) as [a|] eqn:Hg.
  - rewrite process_body_guarded by (by exists a). rewrite Ht. auto.
  - rewrite process_body_unguarded by (intros [a Ha]; congruence). intros [= <- <-]. eauto.
Qed.
Lemma process_ok_run ex claim now dr w task o w' :
  retention_ok (wdb w) -> leased_task claim (wdb w) = Some task ->
  process ex claim now dr w = (Ok o, w') -> o = Held \/ o = Disposed ->
  process_task ex task now dr w = (Ok o, w').
Proof.
  intros Hok Ht. unfold process, catch, transaction.
  destruct (process_body ex claim now dr w) as [[o1|e] w1] eqn:E.
  - intros [= <- <-] _. by destruct (process_body_run _ _ _ _ _ _ _ _ Ht E) as [(e & ? & _)|].
  - intros H Ho. pose proof (process_body_ok _ _ _ _ _ _ _ Hok E) as He. simpl in He.
    apply process_failed_ok in H as ([? | ?] & _);
      [destruct Ho; congruence..|done|done].
Qed.

Lemma active_hold_none task d :
  active_hold task d = None <->
  forall k h, tbl d TRetentionHold !! k = Some h -> RetentionHold.released_at h = None ->
    (RetentionHold.resource_type h, RetentionHold.resource_id h) ∉ protected_resources task d.
Proof.
  unfold active_hold. rewrite first_by_none. split.
  - intros H k h Hk Hr Hin. pose proof (select_nil TRetentionHold _ _ _ _ H Hk) as Hf.
    unfold holds_on in Hf. by rewrite !bool_decide_true in Hf.
  - intros H. apply elem_of_nil_inv. intros h Hh.
    apply (elem_of_select TRetentionHold) in Hh as [[k Hk] Hp]. unfold holds_on in Hp. bool_facts.
    by apply (H k h).
Qed.
Lemma active_hold_some task d h :
  active_hold task d = Some h ->
  (exists k, tbl d TRetentionHold !! k = Some h) /\ RetentionHold.released_at h = None /\
  (RetentionHold.resource_type h, RetentionHold.resource_id h) ∈ protected_resources task d.
Proof.
  unfold active_hold. intros H%first_by_elem.
  apply (elem_of_select TRetentionHold) in H as [Hk Hp]. unfold holds_on in Hp. by bool_facts.
Qed.

(** C3: A hold that is not released, on the resource or on any of its canonical
    ancestors, stops the disposal: the task goes back to the queue with its
    attempt returned, no earlier than the review of an active hold and than one
    lease, and nothing else in the database or the file store changes. *)
Theorem hold_blocks_disposal ex claim now dr w task k h :
  retention_ok (wdb w) -> guard_present (wdb w) -> leased_task claim (wdb w) = Some task ->
  tbl (wdb w) TRetentionHold !! k = Some h -> RetentionHold.released_at h = None ->
  (RetentionHold.resource_type h, RetentionHold.resource_id h) ∈ protected_resources task (wdb w) ->
  exists h' at_, active_hold task (wdb w) = Some h' /\
    process ex claim now dr w =
      (Ok Held, set_db (put TLifecycleTask (LifecycleTask.id task) (requeue at_ task) (wdb w)) w) /\
    instant (utc (RetentionHold.review_at h')) <= instant at_ /\
    instant now + seconds (lease_seconds ex) <= instant at_.
Proof.
  intros Hok [a Ha] Ht Hk Hr Hin.
  destruct (active_hold task (wdb w)) as [h'|] eqn:Hh.
  2: { rewrite active_hold_none in Hh. by destruct (Hh _ _ Hk Hr). }
  exists h', (held_until ex h' now). split; [done|].
  pose proof (leased_facts _ _ _ Hok Ht) as (Hl & Hs & Hrow & Hatt).
  split.
  - unfold process, catch, transaction. rewrite process_body_guarded by (by exists a).
    rewrite Ht. by rewrite (process_task_held _ _ _ _ h') by done.
  - unfold held_until. rewrite instant_max, instant_add. lia.
Qed.

(** C4: When a claim is disposed for the first time, no active hold covered the
    resource; afterwards the task is completed, the resource has its tombstone,
    its row is gone (or the moderation case is purged of its sensitive text) and
    no idempotency record or change event about it is left. *)
Theorem disposal_is_complete ex claim now dr w task w' :
  retention_ok (wdb w) -> leased_task claim (wdb w) = Some task ->
  has_tombstone (wdb w) (LifecycleTask.resource_type task) (LifecycleTask.resource_id task) = false ->
  process ex claim now dr w = (Ok Disposed, w') ->
  active_hold task (wdb w) = None /\
  tbl (wdb w') TLifecycleTask !! LifecycleTask.id task = Some (completed now task) /\
  has_tombstone (wdb w') (LifecycleTask.resource_type task) (LifecycleTask.resource_id task) = true /\
  gone (wdb w') (LifecycleTask.resource_type task) (LifecycleTask.resource_id task) /\
  no_residue (wdb w') (LifecycleTask.resource_type task) (LifecycleTask.resource_id task).
Proof.
  intros Hok Ht Hno H. pose proof (leased_facts _ _ _ Hok Ht) as (Hl & Hs & Hrow & Hatt).
  apply (process_ok_run _ _ _ _ _ task) in H; [|auto..].
  destruct (active_hold task (wdb w)) as [h|] eqn:Hh.
  { rewrite (process_task_held _ _ _ _ h) in H by done. discriminate H. }
  split; [done|]. apply process_task_free in H as [(w1 & H1 & _ & ->)|(e & _ & ?)]; [|done..].
  destruct (dispose_once_spec _ _ _ _ _ _ Hok H1) as (_ & _ & Hst & Hd).
  rewrite Hno in Hd. destruct Hd as (w2 & H2 & _ & Hw1).
  destruct (dispose_resource_gone _ _ _ _ _ _ (ret_keys _ Hok) H2) as [Hg Hres].
  split; [exact (put_lookup TLifecycleTask _ (completed now task) _ _)|].
  split; [|split].
  - rewrite (has_tombstone_same (wdb w1)) by (apply tbl_put_ne; discriminate).
    apply Hst. by right.
  - revert Hg. unfold gone. simpl wdb. rewrite Hw1. destruct (deleted_table _) as [t|] eqn:Et.
    + assert (t <> TLifecycleTask /\ t <> TRetentionTombstone) as [? ?]
        by (unfold deleted_table in Et; repeat case_match; by simplify_eq).
      by rewrite !tbl_put_ne.
    + intros [? Hc]. split; [done|]. revert Hc. apply case_purged_same; by rewrite !tbl_put_ne.
  - revert Hres. unfold no_residue. simpl wdb. rewrite Hw1. by rewrite !tbl_put_ne.
Qed.

(** C2: Exactly once: as soon as a resource has a tombstone, no later claim on it, in
    any reachable state, deletes a file or touches any table but the tasks. *)
Theorem disposed_at_most_once ex w w1 claim task now dr r w2 :
  executor_ok ex -> retention_ok (wdb w) ->
  has_tombstone (wdb w) (LifecycleTask.resource_type task) (LifecycleTask.resource_id task) = true ->
  rtc (step ex) w w1 -> leased_task claim (wdb w1) = Some task ->
  process ex claim now dr w1 = (r, w2) ->
  wfs w2 = wfs w1 /\ only_tasks (wdb w1) (wdb w2).
Proof.
  intros Hex Hok Hst Hsteps Ht. destruct (steps_ok _ _ _ Hex Hok Hsteps) as [Hok1 [Hp _]].
  apply Hp in Hst. clear w Hok Hp Hsteps.
  pose proof (leased_facts _ _ _ Hok1 Ht) as (Hl & Hs & Hrow & Hatt).
  assert (forall r3 w3, process_body ex claim now dr w1 = (r3, w3) ->
    wfs w3 = wfs w1 /\ only_tasks (wdb w1) (wdb w3)) as Hbody.
  { intros r3 w3 [(e & _ & ->)|E]%(process_body_run _ _ _ _ _ task); [done| |done].
    destruct (active_hold task (wdb w1)) as [h|] eqn:Hh.
    - rewrite (process_task_held _ _ _ _ h) in E by done. injection E as _ <-.
      split; [done|apply only_tasks_put].
    - apply has_tombstone_nonempty in Hst as (s & l & El).
      apply process_task_free in E as [(w4 & H4 & _ & ->)|(e & H4 & _)]; [| |done..];
        unfold dispose_once in H4; rewrite query_bind, El in H4; [|done].
      injection H4 as <-. split; [done|apply only_tasks_put]. }
  unfold process, catch, transaction.
  destruct (process_body ex claim now dr w1) as [[o|e] w3] eqn:E;
    destruct (Hbody _ _ eq_refl) as [Hf Ho].
  - by intros [= <- <-].
  - intros H. pose proof (process_body_ok _ _ _ _ _ _ _ Hok1 E) as He. simpl in He.
    pose proof (keeps_process_failed _ _ _ _ _ _ _ H) as Ho'. unfold on_wdb in Ho'. simpl in Ho'.
    apply process_failed_ok in H as (_ & _ & Hf'); [|done..]. simpl in Hf'. by rewrite Hf', Hf.
Qed.

(** A claim whose lease was lost (the task is gone, not leased, or leased under
    another token) changes nothing, in the database or the file store. *)
Theorem stale_claim_has_no_effect ex claim now dr w :
  leased_task claim (wdb w) = None -> process ex claim now dr w = (Ok Retry, w).
Proof.
  intros Ht. unfold process, catch, transaction.
  destruct (tbl (wdb w) TAccountBackupAuthority !! ACCOUNT_BACKUP_AUTHORITY_ID) as [a|] eqn:Hg.
  - rewrite process_body_guarded by (by exists a). by rewrite Ht.
  - rewrite process_body_unguarded by (intros [a Ha]; congruence).
    destruct w as [d f]. by apply process_failed_none.
Qed.

Lemma leased_not_eligible ex now now' token t :
  instant now' < instant now + seconds (lease_seconds ex) ->
  eligible now' (leased ex now token t) = false.
Proof.
  intros H. unfold eligible. simpl. unfold dt_leb. rewrite instant_add.
  apply Z.leb_gt in H. rewrite H. vm_compute. done.
Qed.

(** C5: A claim takes the first task that is due and not locked by another worker,
    counts the attempt, and holds an exclusive lease: its token is the only one
    that opens the task, and no claim can take it again before the lease ends. *)
Theorem claim_is_exclusive ex locked now token w c w' :
  executor_ok ex -> len token <= 36 -> retention_ok (wdb w) ->
  claim_one ex locked now token w = (Ok (Some c), w') ->
  exists t, leased_task c (wdb w') = Some (leased ex now token t) /\
    tbl (wdb w) TLifecycleTask !! c_id c = Some t /\ c_id c ∉ locked /\ eligible now t = true /\
    (forall k t', tbl (wdb w) TLifecycleTask !! k = Some t' -> eligible now t' = true ->
       k ∉ locked -> task_before t t' = true) /\
    (forall c', c_id c' = c_id c -> c_claim_token c' <> token -> leased_task c' (wdb w') = None) /\
    (forall locked' now' t', instant now' < instant now + seconds (lease_seconds ex) ->
       next_task locked' now' (wdb w') = Some t' -> LifecycleTask.id t' <> c_id c).
Proof.
  intros Hex Htok Hok. rewrite claim_one_eq by done.
  destruct (next_task locked now (wdb w)) as [t|] eqn:E; intros [= <- <-].
  pose proof (next_task_some _ _ _ _ E) as ([k Hk] & He & Hlock).
  pose proof (ret_keys _ Hok TLifecycleTask _ _ Hk) as Hid.
  change (LifecycleTask.id t = k) in Hid. subst k. simpl c_id.
  set (t1 := leased ex now token t).
  pose proof (put_lookup TLifecycleTask (LifecycleTask.id t) t1 (wdb w) w) as Hput.
  exists t. split_and!; try done.
  - apply leased_task_spec. done.
  - intros k t' Hk' He' Hl'. pose proof (ret_keys _ Hok TLifecycleTask _ _ Hk') as Hid'.
    change (LifecycleTask.id t' = k) in Hid'. subst k.
    eapply first_by_least; [apply task_before_total|apply task_before_trans|exact E|].
    apply (elem_of_select TLifecycleTask). split; [by eexists|]. rewrite He'. simpl.
    by rewrite bool_decide_false.
  - intros c' Hc' Hne. destruct (leased_task c' _) as [t2|] eqn:E2; [|done]. exfalso.
    apply leased_task_spec in E2 as (H2 & _ & Ht2). rewrite Hc' in H2.
    pose proof (eq_trans (eq_sym Hput) H2) as [= <-]. injection Ht2 as Ht2. by apply Hne.
  - intros locked' now' t' Hnow E' Hid. apply next_task_some in E' as ([k Hk'] & He' & _).
    assert (keys_ok (put TLifecycleTask (LifecycleTask.id t) t1 (wdb w))) as Hkeys
      by (apply keys_ok_put; [apply Hok|done]).
    pose proof (Hkeys TLifecycleTask _ _ Hk') as Hid'. change (LifecycleTask.id t' = k) in Hid'.
    rewrite <- Hid', Hid in Hk'. pose proof (eq_trans (eq_sym Hput) Hk') as [= <-].
    by pose proof (eq_trans (eq_sym He') (leased_not_eligible ex now now' token t Hnow)).
Qed.

Lemma backoff_bounds n : 1 <= n -> 2 <= backoff n <= 60.
Proof.
  intros Hn. unfold backoff. pose proof (Z.pow_le_mono_r 2 1 n ltac:(lia) Hn).
  rewrite Z.pow_1_r in *. lia.
Qed.

(** C6: A failed disposal is retried after an exponential back-off of two to sixty
    seconds, or given up for good once the attempts reach the limit: a dead
    letter is never claimed again.  Nothing but the task changes. *)
Theorem failure_backs_off_or_dies ex claim now code w task :
  retention_ok (wdb w) -> leased_task claim (wdb w) = Some task -> len code <= 80 ->
  exists task', retry_or_dead_letter ex claim code now w =
      (Ok (if max_attempts ex <=? LifecycleTask.attempts task then DeadLetter else Retry),
       set_db (put TLifecycleTask (LifecycleTask.id task) task' (wdb w)) w) /\
    LifecycleTask.last_error_code task' = Some code /\ LifecycleTask.claim_token task' = None /\
    LifecycleTask.attempts task' = LifecycleTask.attempts task /\
    (if max_attempts ex <=? LifecycleTask.attempts task
     then forall now', eligible now' task' = false
     else instant now + seconds 2 <= instant (LifecycleTask.available_at task')
            <= instant now + seconds 60 /\
          forall now', eligible now' task' =
            dt_leb (LifecycleTask.available_at task') now').
Proof.
  intros Hok Ht Hc. pose proof (leased_facts _ _ _ Hok Ht) as (Hl & Hs & Hrow & Hatt).
  rewrite (retry_or_dead_letter_eq _ _ _ _ task) by done.
  destruct (max_attempts ex <=? LifecycleTask.attempts task); eexists; (split; [reflexivity|]);
    (split; [done|]; split; [done|]; split; [done|]).
  - intros now'. reflexivity.
  - simpl. rewrite instant_add. split; [pose proof (backoff_bounds _ Hatt); unfold seconds; lia|].
    intros now'. unfold eligible. simpl. by rewrite orb_false_r.
Qed.

(** [_process] never raises: every exception of a disposal becomes an outcome,
    and unless the outcome is a disposal only the task row changed. *)
Theorem process_always_reports ex claim now dr w :
  retention_ok (wdb w) ->
  exists o w', process ex claim now dr w = (Ok o, w') /\ retention_ok (wdb w') /\
    (o <> Disposed -> only_tasks (wdb w) (wdb w')).
Proof.
  intros Hok. destruct (process ex claim now dr w) as [r w'] eqn:E.
  destruct (process_ok _ _ _ _ _ _ _ Hok E) as (Hok' & o & ->). exists o, w'.
  split; [done|]. split; [done|]. intros Ho.
  destruct (leased_task claim (wdb w)) as [task|] eqn:Ht.
  - pose proof (leased_facts _ _ _ Hok Ht) as (Hl & Hs & Hrow & Hatt).
    unfold process, catch, transaction in E.
    destruct (process_body ex claim now dr w) as [[o1|e] w1] eqn:Eb.
    + injection E as -> ->.
      destruct (process_body_run _ _ _ _ _ _ _ _ Ht Eb) as [(e & ? & _)|Hrun]; [done|].
      destruct (active_hold task (wdb w)) as [h|] eqn:Hh.
      * rewrite (process_task_held _ _ _ _ h) in Hrun by done. injection Hrun as _ <-.
        apply only_tasks_put.
      * apply process_task_free in Hrun as [(w4 & _ & [= ->] & _)|(e & _ & ?)]; done.
    + apply keeps_process_failed in E. exact E.
  - unfold process, catch, transaction in E.
    destruct (tbl (wdb w) TAccountBackupAuthority !! ACCOUNT_BACKUP_AUTHORITY_ID) as [a|] eqn:Hg.
    + rewrite process_body_guarded, Ht in E by (by exists a). by injection E as _ <-.
    + rewrite process_body_unguarded in E by (intros [a Ha]; congruence).
      rewrite process_failed_none in E by done. by injection E as _ <-.
Qed.

Definition tally (r : RetentionRunResult) : Z :=
  disposed r + held r + retried r + dead_lettered r.
Lemma run_loop_spec ex now env n result w :
  executor_ok ex -> (forall k, len (new_claim_token (env k).2) <= 36) -> retention_ok (wdb w) ->
  exists result' w', run_loop ex now env n result w = (Ok result', w') /\ retention_ok (wdb w') /\
    discovered result' = discovered result /\
    tally result <= tally result' <= tally result + Z.of_nat n.
Proof.
  intros Hex. revert env result w. induction n as [|n IH]; intros env result w Htok Hok.
  { exists result, w. split_and!; [done|done|done|lia|lia]. }
  cbn [run_loop]. pose proof (Htok 0%nat) as Htok0. destruct (env 0%nat) as [locked dr].
  simpl in Htok0. pose proof (claim_one_eq ex locked now _ w Hex Htok0 Hok) as Ec.
  destruct (next_task locked now (wdb w)) as [t|] eqn:En;
    pose proof (claim_one_ok ex locked now _ w _ _ Hex Htok0 Hok Ec) as [Hok1 _].
  - rewrite (act_bind_run _ _ _ _ _ Ec).
    match type of Hok1 with retention_ok (wdb ?v) => generalize dependent v; intros w1 _ Hok1 end.
    match goal with |- context[process ex ?c now dr] =>
      destruct (process ex c now dr w1) as [ro w2] eqn:Ep end.
    destruct (process_ok _ _ _ _ _ _ _ Hok1 Ep) as (Hok2 & o & ->).
    rewrite (act_bind_run _ _ _ _ _ Ep).
    destruct (IH (fun k => env (S k)) (count o result) w2) as (r' & w' & -> & Hok' & Hd & Ht);
      [auto..|].
    exists r', w'. split_and!; [done|done|rewrite Hd; by destruct o|..];
      assert (tally (count o result) = tally result + 1) as Hc
        by (unfold tally; destruct o; simpl; lia); lia.
  - rewrite (act_bind_run _ _ _ _ _ Ec). exists result, w. split_and!; [done|done|done|lia|lia].
Qed.

(** A run with a limit outside 1..1000 is a [ValueError]; otherwise, once the
    discovery committed, the run always returns, its counters never exceed the
    limit, and the invariant holds afterwards. *)
Theorem run_once_counts ex limit now ids env w :
  executor_ok ex -> (forall k, len (new_claim_token (env k).2) <= 36) -> retention_ok (wdb w) ->
  if (limit <? 1) || (1000 <? limit) then
    run_once ex limit now ids env w =
      (Raise (ValueError (u "retention limit must be between 1 and 1000")), w)
  else
    match discover (Z.to_nat limit) (utc now) ids w with
    | (Raise e, w1) => run_once ex limit now ids env w = (Raise e, w1) /\ wdb w1 = wdb w
    | (Ok n, _) => exists result w', run_once ex limit now ids env w = (Ok result, w') /\
        discovered result = n /\ 0 <= n <= limit /\ 0 <= tally result <= limit /\
        retention_ok (wdb w')
    end.
Proof.
  intros Hex Htok Hok. unfold run_once. destruct (_ || _) eqn:Hl; [done|]. bool_facts. cbv zeta.
  destruct (discover (Z.to_nat limit) (utc now) ids w) as [[n|e] w1] eqn:Ed.
  - rewrite (act_bind_run _ _ _ _ _ Ed).
    destruct (discover_ok _ _ _ _ _ _ Hok Ed) as (Hok1 & _ & _ & Hn). specialize (Hn n eq_refl).
    destruct (run_loop_spec ex (utc now) env (Z.to_nat limit) (MkRunResult n 0 0 0 0) w1)
      as (r' & w' & -> & Hok' & Hd & Ht); [done..|].
    exists r', w'. change (tally (MkRunResult n 0 0 0 0)) with 0 in Ht. simpl in Hd.
    split_and!; [done|done|lia..|done].
  - rewrite (act_bind_fail _ _ _ _ _ Ed). split; [done|].
    unfold discover in Ed. by apply transaction_raise in Ed.
Qed.

(** ** A concrete run: one expired notification *)
Module Demo.
Definition t0 : datetime := MkDatetime 0 (Some 0).
Definition now : datetime := MkDatetime 10000000 (Some 0).
Definition authority : AccountBackupAuthority :=
  AccountBackupAuthority.Mk ACCOUNT_BACKUP_AUTHORITY_ID (u "generation") t0 t0.
Definition notification : Notification :=
  Notification.Mk (u "n") (u "owner") (u "message") None (u "message") (u "m") t0 None t0.
Definition hold : RetentionHold :=
  RetentionHold.Mk (u "h") (u "notification") (u "n") (u "legal") (u "court")
    (MkDatetime 90000000 (Some 0)) (MkDatetime 80000000 (Some 0)) t0 None None.
Definition db0 : db :=
  put TNotification (u "n") notification
    (put TAccountBackupAuthority ACCOUNT_BACKUP_AUTHORITY_ID authority empty_db).
Definition w0 : world := MkWorld db0 ∅.
Definition ex : RetentionExecutor := MkExecutor (MkVersionStore []) (u "worker") 3 60.
Definition dr : draws := MkDraws (u "token") (u "stone") (u "audit") now.
Definition claim : Claim :=
  MkClaim (u "task") (u "notification") (u "n") SOCIAL_RETENTION_POLICY (u "token") 1.
Definition task : LifecycleTask := leased ex now (u "token")
  (queued_task (u "task") (u "notification", u "n", SOCIAL_RETENTION_POLICY) now).
(* queued, leased, held, disposed, leased again after a lost commit *)
Definition w1 : world := (discover 5 now (fun _ => u "task") w0).2.
Definition w2 : world := (claim_one ex ∅ now (u "token") w1).2.
Definition w2_held : world := set_db (put TRetentionHold (u "h") hold (wdb w2)) w2.
Definition w3 : world := (transaction (process_body ex claim now dr) w2).2.
Definition stone : RetentionTombstone := tombstone_of task (u "stone") now.
Definition w2_stone : world := set_db (put TRetentionTombstone (u "stone") stone (wdb w2)) w2.

Lemma executor : executor_ok ex.
Proof. vm_compute. discriminate. Qed.
Lemma w0_ok : retention_ok (wdb w0).
Proof.
  assert (forall t k r, t <> TNotification -> t <> TAccountBackupAuthority ->
    tbl (wdb w0) t !! k = Some r -> False) as Hempty.
  { intros t k r H1 H2. unfold w0, db0. simpl wdb. rewrite !tbl_put_ne by done.
    exact (lookup_empty_Some (M:=gmap str) k r). }
  constructor; [|split_and!|..].
  1: repeat (apply keys_ok_put; [|reflexivity]); intros t k r H; by destruct (lookup_empty_Some (M:=gmap str) k r).
  all: intros; exfalso; match goal with H : tbl _ ?t !! _ = Some _ |- _ =>
         exact (Hempty t _ _ ltac:(discriminate) ltac:(discriminate) H) end.
Qed.
Lemma w1_ok : retention_ok (wdb w1).
Proof. exact (proj1 (discover_ok _ _ _ _ _ _ w0_ok (run_pair (discover 5 now (fun _ => u "task")) w0))). Qed.
Lemma token_fits : len (u "token") <= 36.
Proof. vm_compute. discriminate. Qed.
Lemma w2_ok : retention_ok (wdb w2).
Proof.
  exact (proj1 (claim_one_ok _ _ _ _ _ _ _ executor token_fits w1_ok
    (run_pair (claim_one ex ∅ now (u "token")) w1))).
Qed.
Lemma w2_held_ok : retention_ok (wdb w2_held).
Proof.
  apply (step_ok ex w2); [apply executor|apply w2_ok|]. apply step_other.
  unfold w2_held, other_tables, set_db. cbn [wdb].
  split; [by apply tbl_put_ne|]. split; [by apply tbl_put_ne|].
  split; [apply keys_ok_put; [apply (ret_keys _ w2_ok)|reflexivity]|].
  refine (refs_ok_same (wdb w2) _ _ _ _ _ (ret_refs _ w2_ok)); by apply tbl_put_ne.
Qed.
Lemma w2_stone_ok : retention_ok (wdb w2_stone).
Proof.
  apply (retention_ok_stone stone); [apply w2_ok|by vm_compute|by vm_compute].
Qed.
Lemma leased_now : leased_task claim (wdb w2) = Some task.
Proof. by vm_compute. Qed.
Lemma steps : rtc (step ex) w0 w3.
Proof.
  apply (rtc_l _ _ w1); [exact (step_discover ex w0 w1 5 now _ _ (run_pair _ w0))|].
  apply (rtc_l _ _ w2); [exact (step_claim ex w1 w2 ∅ now _ _ token_fits (run_pair _ w1))|].
  apply rtc_once. exact (step_process ex w2 w3 claim now dr _ (run_pair _ w2)).
Qed.
End Demo.

Lemma retention_invariant_witness :
  retention_ok (wdb Demo.w3) /\ has_tombstone (wdb Demo.w3) (u "notification") (u "n") = true.
Proof.
  split; [|by vm_compute].
  exact (proj1 (retention_invariant Demo.ex Demo.w0 Demo.w3 Demo.executor Demo.w0_ok Demo.steps)).
Defined.

Lemma hold_blocks_disposal_witness :
  exists h at_, active_hold Demo.task (wdb Demo.w2_held) = Some h /\
    process Demo.ex Demo.claim Demo.now Demo.dr Demo.w2_held =
      (Ok Held, set_db (put TLifecycleTask (LifecycleTask.id Demo.task) (requeue at_ Demo.task)
                          (wdb Demo.w2_held)) Demo.w2_held) /\
    instant (utc (RetentionHold.review_at h)) <= instant at_ /\
    instant Demo.now + seconds (lease_seconds Demo.ex) <= instant at_.
Proof.
  apply (hold_blocks_disposal Demo.ex Demo.claim Demo.now Demo.dr Demo.w2_held Demo.task
    (u "h") Demo.hold Demo.w2_held_ok).
  - exists Demo.authority. by vm_compute.
  - by vm_compute.
  - by vm_compute.
  - reflexivity.
  - unfold protected_resources. apply elem_of_union_l, elem_of_singleton. reflexivity.
Defined.

Lemma disposal_is_complete_witness :
  exists w', process Demo.ex Demo.claim Demo.now Demo.dr Demo.w2 = (Ok Disposed, w') /\
    tbl (wdb w') TNotification !! u "n" = None /\
    has_tombstone (wdb w') (u "notification") (u "n") = true.
Proof.
  pose proof (disposal_is_complete Demo.ex Demo.claim Demo.now Demo.dr Demo.w2 Demo.task
    (process Demo.ex Demo.claim Demo.now Demo.dr Demo.w2).2 Demo.w2_ok Demo.leased_now) as H.
  eexists. assert (process Demo.ex Demo.claim Demo.now Demo.dr Demo.w2 = (Ok Disposed,
    (process Demo.ex Demo.claim Demo.now Demo.dr Demo.w2).2)) as E.
  { rewrite run_pair at 1. apply (f_equal2 pair); [by vm_compute|reflexivity]. }
  split; [exact E|]. destruct H as (_ & _ & H1 & H2 & _); [by vm_compute|exact E|].
  split; [exact H2|exact H1].
Defined.

Lemma disposed_at_most_once_witness :
  wfs (process Demo.ex Demo.claim Demo.now Demo.dr Demo.w2_stone).2 = wfs Demo.w2_stone /\
  only_tasks (wdb Demo.w2_stone) (wdb (process Demo.ex Demo.claim Demo.now Demo.dr Demo.w2_stone).2).
Proof.
  eapply (disposed_at_most_once Demo.ex Demo.w2_stone Demo.w2_stone Demo.claim Demo.task Demo.now
    Demo.dr _ _ Demo.executor Demo.w2_stone_ok).
  - by vm_compute.
  - apply rtc_refl.
  - by vm_compute.
  - apply run_pair.
Defined.

Lemma stale_claim_has_no_effect_witness :
  process Demo.ex Demo.claim Demo.now Demo.dr Demo.w1 = (Ok Retry, Demo.w1).
Proof. apply stale_claim_has_no_effect. vm_compute. reflexivity. Defined.

Lemma claim_is_exclusive_witness :
  exists w' t, claim_one Demo.ex ∅ Demo.now (u "token") Demo.w1 = (Ok (Some Demo.claim), w') /\
    leased_task Demo.claim (wdb w') = Some (leased Demo.ex Demo.now (u "token") t).
Proof.
  assert (claim_one Demo.ex ∅ Demo.now (u "token") Demo.w1 = (Ok (Some Demo.claim), Demo.w2)) as E.
  { rewrite run_pair at 1. apply (f_equal2 pair); [by vm_compute|reflexivity]. }
  destruct (claim_is_exclusive Demo.ex ∅ Demo.now (u "token") Demo.w1 Demo.claim Demo.w2
    Demo.executor Demo.token_fits Demo.w1_ok E) as (t & Ht & _).
  exists Demo.w2, t. split; [exact E|exact Ht].
Defined.

Lemma failure_backs_off_or_dies_witness :
  exists task', retry_or_dead_letter Demo.ex Demo.claim (u "storage_cleanup_failed") Demo.now Demo.w2 =
      (Ok Retry, set_db (put TLifecycleTask (u "task") task' (wdb Demo.w2)) Demo.w2) /\
    eligible Demo.now task' = false.
Proof.
  destruct (failure_backs_off_or_dies Demo.ex Demo.claim Demo.now (u "storage_cleanup_failed")
    Demo.w2 Demo.task Demo.w2_ok Demo.leased_now) as (t & E & _ & _ & _ & H);
    [vm_compute; discriminate|].
  exists t. split; [exact E|]. destruct H as [H1 H2]. rewrite H2. apply Z.leb_gt.
  eapply Z.lt_le_trans; [|apply H1]. vm_compute. reflexivity.
Defined.

Lemma process_always_reports_witness :
  exists o w', process Demo.ex Demo.claim Demo.now Demo.dr Demo.w2_held = (Ok o, w') /\
    retention_ok (wdb w') /\ (o <> Disposed -> only_tasks (wdb Demo.w2_held) (wdb w')).
Proof. exact (process_always_reports _ _ _ _ Demo.w2_held Demo.w2_held_ok). Defined.

Lemma run_once_counts_witness :
  exists result w', run_once Demo.ex 5 Demo.now (fun _ => u "task") (fun _ => (∅, Demo.dr)) Demo.w0
    = (Ok result, w') /\ discovered result = 1 /\ tally result <= 5.
Proof.
  pose proof (run_once_counts Demo.ex 5 Demo.now (fun _ => u "task") (fun _ => (∅, Demo.dr))
    Demo.w0 Demo.executor (fun _ => Demo.token_fits) Demo.w0_ok) as H.
  change ((5 <? 1) || (1000 <? 5)) with false in H. cbv iota in H.
  assert ((discover (Z.to_nat 5) (utc Demo.now) (fun _ => u "task") Demo.w0).1 = Ok 1) as E
    by (vm_compute; reflexivity).
  destruct (discover _ _ _ Demo.w0) as [r w1]. simpl in E. subst r.
  destruct H as (r & w' & E & Hd & _ & Ht & _). exists r, w'. split_and!; [exact E|exact Hd|apply Ht].
Defined.
