(* ===== verification/RetentionHoldSafety.v ===== *)
(** * What the operator's hold commands guarantee

    A hold is accepted in time and from then on stops every disposal it covers; a
    release changes one hold and makes exactly the queued disposals it covered due. *)
From S2P Require Import Prelude PyTime Models Database HoldLineage World Retention BackupAuthority RetentionHolds RetentionSafety.
Local Open Scope Z_scope.

(** ** Holds do not change the lineage *)
Lemma ancestors_put_hold k h d x : hold_ancestors (put TRetentionHold k h d) x = hold_ancestors d x.
Proof. reflexivity. Qed.
Lemma protected_descends d t r : keys_ok d -> r ∈ protected_resources t d ->
  (LifecycleTask.resource_type t, LifecycleTask.resource_id t) ∈ hold_descendants d r.
Proof.
  intros Hk. unfold protected_resources. intros [->%elem_of_singleton|H]%elem_of_union.
  - apply elem_of_hold_descendants, rtc_refl.
  - by apply held_resource_is_locked.
Qed.

(** C17: An accepted hold comes in time and holds: when the command succeeds, no
    erasure of a row or file it protects is leased or completed, the hold is recorded
    unreleased, and every disposal task of a resource that it covers, directly or
    through an ancestor, is queued with no counted attempt and now finds an active
    hold. *)
Theorem accepted_hold_protects parse role_check args now hold_id d e d' :
  keys_ok d -> create_retention_hold parse role_check args now hold_id d = (Ok e, d') -> status e = 0 ->
  let r := (h_resource_type args, h_resource_id args) in
  (forall k i, tbl d TAccountErasureItem !! k = Some i ->
     (AccountErasureItem.resource_type i, AccountErasureItem.resource_id i) ∈ hold_descendants d r ->
     one_of (AccountErasureItem.phase i) ["delete_row"; "delete_file"] = true ->
     one_of (AccountErasureItem.state i) ["leased"; "completed"] = false) /\
  (exists hold, tbl d' TRetentionHold !! hold_id = Some hold /\ RetentionHold.released_at hold = None /\
     (RetentionHold.resource_type hold, RetentionHold.resource_id hold) = r) /\
  forall k t, tbl d' TLifecycleTask !! k = Some t -> r ∈ protected_resources t d' ->
    LifecycleTask.state t = u "queued" /\ LifecycleTask.attempts t <= 0 /\ active_hold t d' <> None.
Proof.
  intros Hk H Hst. apply create_cases in H as [[_ H]|[_ [ex rv _ _ _ He Hd ->]]]; [by destruct (H e eq_refl)|].
  set (hold := new_hold _ _ _ _ _) in *. intros r.
  assert (tbl (put TRetentionHold hold_id hold d) TRetentionHold !! hold_id = Some hold) as Hnew.
  { rewrite tbl_put_eq. apply lookup_insert_eq. }
  split_and!.
  - intros k i Hi Hin Hp. pose proof (select_nil TAccountErasureItem _ _ _ _ He Hi) as Hf.
    unfold erasure_progressed in Hf. rewrite bool_decide_true in Hf by exact Hin. rewrite Hp in Hf. exact Hf.
  - exists hold. done.
  - intros k t Ht Hin. rewrite tbl_put_ne in Ht by done.
    assert (r ∈ protected_resources t d) as Hin' by (unfold protected_resources in *; by rewrite ancestors_put_hold in Hin).
    pose proof (select_nil TLifecycleTask _ _ _ _ Hd Ht) as Hf. unfold disposal_progressed, task_on in Hf.
    rewrite bool_decide_true in Hf by by apply protected_descends. cbn [andb] in Hf.
    apply orb_false_iff in Hf as [Hq Ha]. apply negb_false_iff, eqs_true in Hq. apply Z.ltb_ge in Ha.
    split; [done|]. split; [done|]. rewrite active_hold_none. intros Hno. by apply (Hno hold_id hold).
Qed.

(** C25: A release either reports a refusal and changes nothing, or the hold was
    active under the authority given and is now released at [now], each queued
    disposal of a resource below it is due at [now], and every other row, task or
    not, is as before. *)
Theorem release_wakes_exactly role_check hold_id authority now d r d' :
  keys_ok d -> release_retention_hold role_check hold_id authority now d = (r, d') ->
  d' = d /\ (forall e, r = Ok e -> status e <> 0) \/
  exists hold, tbl d TRetentionHold !! hold_id = Some hold /\
    RetentionHold.released_at hold = None /\ RetentionHold.authority hold = authority /\
    tbl d' TRetentionHold = <[hold_id := released_hold authority now hold]> (tbl d TRetentionHold) /\
    (forall k t, tbl d TLifecycleTask !! k = Some t ->
       let below := (LifecycleTask.resource_type t, LifecycleTask.resource_id t) ∈
         hold_descendants d (RetentionHold.resource_type hold, RetentionHold.resource_id hold) in
       (below /\ LifecycleTask.state t = u "queued" -> tbl d' TLifecycleTask !! k = Some (due_at now t)) /\
       (~ (below /\ LifecycleTask.state t = u "queued") -> tbl d' TLifecycleTask !! k = Some t)) /\
    (forall k, tbl d TLifecycleTask !! k = None -> tbl d' TLifecycleTask !! k = None) /\
    (forall t, t <> TRetentionHold -> t <> TLifecycleTask -> tbl d' t = tbl d t).
Proof.
  intros Hk H. apply release_cases in H as [H|[_ [hold Hh Ha Hau ->]]]; [by left|]. right. exists hold.
  pose proof (Hk TRetentionHold _ _ Hh) as Hid. change (RetentionHold.id hold = hold_id) in Hid.
  split_and!; [done..| | | |].
  - rewrite tbl_update_where_ne, tbl_put_eq by done. by rewrite Hid.
  - intros k t Ht. cbn zeta. rewrite tbl_update_where_eq, lookup_fmap, tbl_put_ne by done.
    unfold wakes, task_on. split; [intros [Hb Hq]|intros Hno]; apply fmap_Some; exists t; (split; [exact Ht|]).
    + by rewrite bool_decide_true, Hq by exact Hb.
    + destruct (_ && _) eqn:E; [|done]. bool_facts. by destruct Hno.
  - intros k Ht. rewrite tbl_update_where_eq, lookup_fmap, tbl_put_ne by done. by apply fmap_None.
  - intros t H1 H2. by rewrite tbl_update_where_ne, tbl_put_ne by done.
Qed.

(** ** A hold on the notification of [Demo], accepted while its disposal is queued *)
Module HoldDemo.
Definition args : HoldArgs :=
  MkHoldArgs (u "notification") (u "n") (u "legal") (u "court")
    (u "1970-01-02T00:00:00+00:00") (u "1970-01-01T12:00:00+00:00").
Definition queued : db := wdb Demo.w1.
Definition held : db := (create_retention_hold parse_isoformat (Ok tt) args Demo.now (u "h1") queued).2.
Definition task : LifecycleTask :=
  queued_task (u "task") (u "notification", u "n", SOCIAL_RETENTION_POLICY) Demo.now.
Lemma hold_accepted : create_retention_hold parse_isoformat (Ok tt) args Demo.now (u "h1") queued =
  (Ok (MkExit 0 [u "retention hold h1 created"]), held).
Proof. rewrite run_pair. apply (f_equal2 pair); [by vm_compute|reflexivity]. Qed.
Lemma queued_keys : keys_ok queued.
Proof. apply (ret_keys _ Demo.w1_ok). Qed.
Lemma held_keys : keys_ok held.
Proof.
  pose proof hold_accepted as H. apply create_cases in H as [[_ H]|[_ [ex rv _ _ _ _ _ ->]]].
  - by destruct (H _ eq_refl).
  - apply keys_ok_put; [apply queued_keys|reflexivity].
Qed.
Definition later : datetime := MkDatetime 20000000 (Some 0).
Definition freed : db := (release_retention_hold (Ok tt) (u "h1") (u "court") later held).2.
Lemma released_now : release_retention_hold (Ok tt) (u "h1") (u "court") later held =
  (Ok (MkExit 0 [u "retention hold h1 released"]), freed).
Proof. rewrite run_pair. apply (f_equal2 pair); [by vm_compute|reflexivity]. Qed.
End HoldDemo.

Lemma accepted_hold_protects_witness : active_hold HoldDemo.task HoldDemo.held <> None.
Proof.
  destruct (accepted_hold_protects _ _ _ _ _ _ _ _ HoldDemo.queued_keys HoldDemo.hold_accepted eq_refl) as (_ & _ & H).
  apply (H (u "task")); [by vm_compute|].
  unfold protected_resources. apply elem_of_union_l, elem_of_singleton. reflexivity.
Defined.
Lemma release_wakes_exactly_witness :
  tbl HoldDemo.freed TLifecycleTask !! u "task" = Some (due_at HoldDemo.later HoldDemo.task).
Proof.
  destruct (release_wakes_exactly _ _ _ _ _ _ _ HoldDemo.held_keys HoldDemo.released_now)
    as [[_ H]|(hold & Hh & _ & _ & _ & H & _)]; [by destruct (H _ eq_refl)|].
  assert (tbl HoldDemo.held TLifecycleTask !! u "task" = Some HoldDemo.task) as Ht by (vm_compute; reflexivity).
  refine (proj1 (H (u "task") HoldDemo.task Ht) (conj _ eq_refl)).
  assert ((RetentionHold.resource_type hold, RetentionHold.resource_id hold) = (u "notification", u "n")) as ->.
  { assert (tbl HoldDemo.held TRetentionHold !! u "h1" =
      Some (new_hold (u "h1") HoldDemo.args (MkDatetime 86400000000 (Some 0)) (MkDatetime 43200000000 (Some 0)) Demo.now))
      as E by by vm_compute.
    rewrite E in Hh. apply (inj Some) in Hh as <-. reflexivity. }
  apply (bool_decide_unpack (_ ∈ _)). vm_compute. exact I.
Defined.
