(* ===== verification/RetentionProgress.v ===== *)
(** * Progress of the retention executor

    Every claimed task is settled: whatever its disposal does, the task is not due
    again at the instant of the run.  A run whose limit covers the due tasks
    leaves none. *)
From S2P Require Import Prelude PyTime Models Database HoldLineage Storage World Retention RetentionSafety.
Local Open Scope Z_scope.

(** The tasks [_claim_one] may take at [now]. *)
Definition due_tasks (now : datetime) (d : db) : gmap str LifecycleTask :=
  filter (fun kt => eligible now kt.2 = true) (tbl d TLifecycleTask).
(** Only task [k] changed, and it is not due any more. *)
Definition settled (now : datetime) (k : str) (d d' : db) : Prop :=
  (forall k', k' <> k -> tbl d' TLifecycleTask !! k' = tbl d TLifecycleTask !! k') /\
  (forall t, tbl d' TLifecycleTask !! k = Some t -> eligible now t = false).

Lemma settled_put now t t' d d' :
  tbl d' TLifecycleTask = tbl d TLifecycleTask -> eligible now t' = false ->
  settled now (LifecycleTask.id t) d (put TLifecycleTask (LifecycleTask.id t) t' d').
Proof.
  intros E He. unfold settled. rewrite tbl_put_eq, E. split.
  - intros k' Hk. by rewrite lookup_insert_ne by congruence.
  - intros x. rewrite lookup_insert_eq. by intros [= <-].
Qed.
Lemma settled_del now k d : settled now k d (del TLifecycleTask k d).
Proof.
  unfold settled. rewrite tbl_del_eq. split.
  - intros k' Hk. by rewrite lookup_delete_ne by congruence.
  - intros t. by rewrite lookup_delete_eq.
Qed.
Lemma later_not_eligible now at_ t : instant now < instant at_ -> eligible now (requeue at_ t) = false.
Proof.
  intros H. unfold eligible. simpl. unfold dt_leb. rewrite (proj2 (Z.leb_gt _ _)) by done. by vm_compute.
Qed.

Section settle.
Context (ex : RetentionExecutor) (claim : Claim) (now : datetime) (dr : draws).
Context (Hlease : 0 < lease_seconds ex).

Lemma process_failed_settles e w task r w' :
  retention_ok (wdb w) -> storable e -> leased_task claim (wdb w) = Some task ->
  process_failed ex claim now e w = (r, w') -> settled now (LifecycleTask.id task) (wdb w) (wdb w').
Proof.
  intros Hok He Ht. pose proof (leased_facts _ _ _ Hok Ht) as (Hl & Hs & Hrow & Hatt).
  assert (forall code, len code <= 80 -> retry_or_dead_letter ex claim code now w = (r, w') ->
    settled now (LifecycleTask.id task) (wdb w) (wdb w')) as Hretry.
  { intros code Hcode. rewrite (retry_or_dead_letter_eq _ _ _ _ task) by done.
    destruct (max_attempts ex <=? LifecycleTask.attempts task); intros [= <- <-];
      (apply settled_put; [done|]); [by vm_compute|].
    unfold eligible. simpl. unfold dt_leb. rewrite instant_add.
    pose proof (backoff_bounds _ Hatt). rewrite (proj2 (Z.leb_gt _ _)) by (unfold seconds; lia). by vm_compute. }
  unfold process_failed. destruct e; try (apply Hretry; by vm_compute).
  simpl in He. repeat case_match; [| |by apply Hretry].
  - rewrite (cancel_stale_task_eq _ task) by done. intros [= <- <-]. apply settled_del.
  - rewrite (defer_dependency_eq _ _ task) by done. intros [= <- <-].
    apply settled_put; [done|]. apply later_not_eligible. rewrite instant_add. unfold seconds. lia.
Qed.

(** Whatever happens to the disposal, the claimed task is settled. *)
Lemma process_settles w task r w' :
  retention_ok (wdb w) -> leased_task claim (wdb w) = Some task -> process ex claim now dr w = (r, w') ->
  settled now (LifecycleTask.id task) (wdb w) (wdb w').
Proof.
  intros Hok Ht. pose proof (leased_facts _ _ _ Hok Ht) as (Hl & Hs & Hrow & Hatt).
  unfold process, catch, transaction. destruct (process_body ex claim now dr w) as [[o|e] w1] eqn:E.
  - intros [= <- <-]. apply (process_body_run _ _ _ _ _ task) in E as [(e & ? & _)|E]; [done| |done].
    destruct (active_hold task (wdb w)) as [h|] eqn:Hh.
    + rewrite (process_task_held _ _ _ _ h) in E by done. injection E as _ <-.
      apply settled_put; [done|]. apply later_not_eligible. unfold held_until.
      rewrite instant_max, instant_add. unfold seconds. lia.
    + apply process_task_free in E as [(w2 & H2 & _ & ->)|(e & _ & ?)]; [|done..].
      destruct (dispose_once_spec _ _ _ _ _ _ Hok H2) as (_ & E & _).
      apply settled_put; [done|]. by vm_compute.
  - intros H. pose proof (process_body_ok _ _ _ _ _ _ _ Hok E) as He.
    exact (process_failed_settles e (MkWorld (wdb w) (wfs w1)) task r w' Hok He Ht H).
Qed.
End settle.

(** A settled task leaves the due ones, which are otherwise the same. *)
Lemma settled_due now k d d' : settled now k d d' -> due_tasks now d' = delete k (due_tasks now d).
Proof.
  intros [Hne Hk]. apply map_eq. intros k'. destruct (decide (k' = k)) as [->|Hn].
  - rewrite lookup_delete_eq. apply map_lookup_filter_None. right. intros t Ht%Hk. cbn. congruence.
  - rewrite lookup_delete_ne by done. unfold due_tasks. apply option_eq. intros t.
    by rewrite !map_lookup_filter_Some, Hne.
Qed.

(** The next task is a due one, and there is one as long as any is due. *)
Lemma next_due now d : keys_ok d ->
  match next_task ∅ now d with
  | Some t => due_tasks now d !! LifecycleTask.id t = Some t
  | None => due_tasks now d = ∅
  end.
Proof.
  intros Hk. destruct (next_task ∅ now d) as [t|] eqn:E.
  - pose proof (next_task_some _ _ _ _ E) as ([k Hl] & He & _).
    pose proof (Hk TLifecycleTask _ _ Hl) as Hid. change (LifecycleTask.id t = k) in Hid. subst k.
    by apply map_lookup_filter_Some.
  - apply map_empty. intros k. apply map_lookup_filter_None. right. intros t Hl He. cbn in He.
    unfold next_task in E. apply first_by_none in E.
    match type of E with ?s = _ => assert (t ∈ s) as Hin; [|rewrite E in Hin; by apply elem_of_nil in Hin] end.
    apply (elem_of_select TLifecycleTask). split; [by exists k|]. rewrite He. by rewrite bool_decide_false by set_solver.
Qed.

(** A loop with room for the due tasks settles them all, each in one iteration. *)
Lemma run_loop_drains ex now env n result w :
  executor_ok ex -> 0 < lease_seconds ex ->
  (forall k, (env k).1 = ∅ /\ len (new_claim_token (env k).2) <= 36) -> retention_ok (wdb w) ->
  (size (due_tasks now (wdb w)) <= n)%nat ->
  exists result' w', run_loop ex now env n result w = (Ok result', w') /\
    due_tasks now (wdb w') = ∅ /\ retention_ok (wdb w') /\
    tally result' = tally result + Z.of_nat (size (due_tasks now (wdb w))).
Proof.
  intros Hex Hlease. revert env result w. induction n as [|n IH]; intros env result w Henv Hok Hn.
  { exists result, w. assert (size (due_tasks now (wdb w)) = 0%nat) as E by lia.
    split_and!; [done|by apply map_size_empty_iff|done|rewrite E; lia]. }
  cbn [run_loop]. pose proof (Henv 0%nat) as [Hlock Htok]. destruct (env 0%nat) as [locked dr].
  simpl in Hlock, Htok. subst locked. pose proof (claim_one_eq ex ∅ now _ w Hex Htok Hok) as Ec.
  pose proof (next_due now (wdb w) (ret_keys _ Hok)) as Hdue.
  destruct (next_task ∅ now (wdb w)) as [t|] eqn:En; rewrite (act_bind_run _ _ _ _ _ Ec).
  2: { exists result, w. rewrite Hdue, map_size_empty. split_and!; [done|done|done|lia]. }
  pose proof (claim_one_ok ex ∅ now _ w _ _ Hex Htok Hok Ec) as [Hok1 _].
  match goal with |- context[process ex ?x now dr] => set (c := x) in *;
    set (w1 := set_db _ _) in *; destruct (process ex c now dr w1) as [ro w2] eqn:Ep end.
  destruct (process_ok _ _ _ _ _ _ _ Hok1 Ep) as (Hok2 & o & ->).
  rewrite (act_bind_run _ _ _ _ _ Ep).
  assert (settled now (LifecycleTask.id t) (wdb w) (wdb w2)) as Hset.
  { apply (process_settles ex c now dr Hlease _ (leased ex now (new_claim_token dr) t)) in Ep as [Hne Hk];
      [|exact Hok1|by apply leased_task_spec; split_and!; [exact (put_lookup TLifecycleTask (LifecycleTask.id t) _ (wdb w) w)|..]].
    split; [|exact Hk]. intros k' Hk'. rewrite Hne by exact Hk'. unfold w1, set_db. cbn [wdb].
    by rewrite tbl_put_eq, lookup_insert_ne by congruence. }
  apply settled_due in Hset.
  assert (size (due_tasks now (wdb w)) = S (size (due_tasks now (wdb w2)))) as Hsize.
  { rewrite Hset. rewrite map_size_delete_Some by (by eexists).
    assert (size (due_tasks now (wdb w)) <> 0%nat); [|lia]. intros E%map_size_empty_iff. by rewrite E in Hdue. }
  destruct (IH (fun k => env (S k)) (count o result) w2) as (r' & w' & E & Hd & Hok' & Ht); [auto|done|lia|].
  exists r', w'. split_and!; [exact E|done|done|].
  rewrite Ht, Hsize. unfold tally. destruct o; simpl; lia.
Qed.

(** C27: A run makes all the progress there is: when its limit covers the tasks that
    are due after discovery, and no other transaction holds one locked, each of
    them is counted once as disposed, held, retried or dead-lettered, and none is
    due at the instant of the run afterwards. *)
Theorem run_once_drains ex limit now ids env w n w1 :
  executor_ok ex -> 0 < lease_seconds ex ->
  (forall k, (env k).1 = ∅ /\ len (new_claim_token (env k).2) <= 36) -> retention_ok (wdb w) ->
  1 <= limit <= 1000 -> discover (Z.to_nat limit) (utc now) ids w = (Ok n, w1) ->
  Z.of_nat (size (due_tasks (utc now) (wdb w1))) <= limit ->
  exists result w', run_once ex limit now ids env w = (Ok result, w') /\
    due_tasks (utc now) (wdb w') = ∅ /\ tally result = Z.of_nat (size (due_tasks (utc now) (wdb w1))).
Proof.
  intros Hex Hlease Henv Hok Hlimit Hd Hdue. unfold run_once.
  rewrite (proj2 (Z.ltb_ge limit 1)), (proj2 (Z.ltb_ge 1000 limit)) by lia. cbn [orb]. cbv zeta.
  rewrite (act_bind_run _ _ _ _ _ Hd). pose proof (discover_ok _ _ _ _ _ _ Hok Hd) as (Hok1 & _).
  destruct (run_loop_drains ex (utc now) env (Z.to_nat limit) (MkRunResult n 0 0 0 0) w1)
    as (result & w' & E & Hnone & _ & Ht); [done..|lia|].
  exists result, w'. split_and!; [exact E|done|exact Ht].
Qed.

(** One expired notification, discovered and disposed of. *)
Lemma run_once_drains_witness :
  exists result w', run_once Demo.ex 5 Demo.now (fun _ => u "task") (fun _ => (∅, Demo.dr)) Demo.w0 = (Ok result, w') /\
    due_tasks (utc Demo.now) (wdb w') = ∅ /\ tally result = 1.
Proof.
  destruct (run_once_drains Demo.ex 5 Demo.now (fun _ => u "task") (fun _ => (∅, Demo.dr)) Demo.w0 1 Demo.w1)
    as (result & w' & E & Hd & Ht).
  - exact Demo.executor.
  - reflexivity.
  - intros k. split; [reflexivity|exact Demo.token_fits].
  - exact Demo.w0_ok.
  - lia.
  - rewrite run_pair at 1. apply (f_equal2 pair); [by vm_compute|reflexivity].
  - by vm_compute.
  - exists result, w'. split; [exact E|]. split; [exact Hd|]. rewrite Ht. by vm_compute.
Defined.
