(* ===== verification/PostModeration.v ===== *)
(** * Post-moderation transitions (src/apps/api/app/services/post_moderation.py)

    Evidence manifests and their digest, the locked review bundles, and the two
    transitions [decide_case] and [review_appeal].  The caller commits: a
    transition is one transaction, and the INSERTs and UPDATEs it queues are
    flushed with it.  Random ids and the clock are arguments. *)
From S2P Require Import Prelude PyTime Json Models Database Sha256 Storage JsonText World.
Local Open Scope Z_scope.

(** ** Data *)

(** The canonical Markdown validator (markdown.py), as the moderation service
    relies on it: it fails with [MarkdownValidationError] only. *)
Class CanonicalMarkdown : Type := {
  validate_canonical : str -> str -> Res (list (str * pyval) * str);
  validate_canonical_error kind markdown e :
    validate_canonical kind markdown = Raise e -> exists message, e = MarkdownValidationError message
}.

Definition _REASON_CODES : list string :=
  ["spam"; "harassment"; "misinformation"; "privacy"; "illegal_content"; "other"].
Definition _SYSTEM_CHANGE_ACTOR : str := u "system:post-moderation".

(** The settings the service reads (config.py). *)
Record Settings : Type := MkSettings {
  post_moderator_id : option str;
  post_moderator_role : option str;
  setting_appeal_reviewer_id : option str;
  setting_appeal_reviewer_role : option str
}.
Record ModerationAuthorities : Type := MkAuthorities {
  auth_moderator_id : str;
  auth_moderator_role : str;
  auth_appeal_reviewer_id : str;
  auth_appeal_reviewer_role : str
}.
Record ModerationEvidenceSnapshot : Type := MkSnapshot {
  snapshot_markdown : str; snapshot_manifest : pyval; snapshot_sha256 : str
}.
Record ModerationCaseBundle : Type := MkCaseBundle {
  cb_post : Post; cb_case : ModerationCase; cb_reports : list PostReport;
  cb_decision : option ModerationDecision; cb_appeal : option ModerationAppeal
}.
Record ModerationAppealBundle : Type := MkAppealBundle {
  ab_post : Post; ab_case : ModerationCase; ab_decision : ModerationDecision;
  ab_appeal : ModerationAppeal; ab_reports : list PostReport
}.
Record ModerationDecisionResult : Type := MkDecisionResult {
  dr_post : Post; dr_case : ModerationCase; dr_decision : ModerationDecision;
  dr_evidence : ModerationEvidenceSnapshot; dr_reports : list PostReport
}.
Record ModerationAppealResult : Type := MkAppealResult {
  ar_post : Post; ar_case : ModerationCase; ar_decision : ModerationDecision;
  ar_appeal : ModerationAppeal; ar_evidence : ModerationEvidenceSnapshot;
  ar_reports : list PostReport
}.

(** [not x] for an optional string. *)
Definition falsy (x : option str) : bool := match x with None | Some [] => true | _ => false end.

(** [configured_moderation_authorities] *)
Definition configured_moderation_authorities (settings : Settings) : Res ModerationAuthorities :=
  if falsy (post_moderator_id settings)
     || negb (bool_decide (post_moderator_role settings = Some (u "content_moderator")))
     || falsy (setting_appeal_reviewer_id settings)
     || negb (bool_decide (setting_appeal_reviewer_role settings = Some (u "appeal_reviewer")))
     || bool_decide (post_moderator_id settings = setting_appeal_reviewer_id settings)
  then Raise (PostModerationConfigurationError
                (u "independent post moderation authorities are not pre-provisioned"))
  else Ok (MkAuthorities (default [] (post_moderator_id settings)) (u "content_moderator")
             (default [] (setting_appeal_reviewer_id settings)) (u "appeal_reviewer")).

(** ** Evidence manifests *)

Definition aware (value : datetime) : datetime :=
  match tzoffset value with Some _ => value | None => replace_utc value end.
Definition opt_str (x : option str) : pyval := match x with Some s => PStr s | None => PNone end.
(** [_utc_text] *)
Definition utc_text (value : option datetime) : pyval :=
  match value with None => PNone | Some value => PStr (isoformat_z (aware value)) end.
(** [_text_digest] *)
Definition text_digest (value : option str) : Res pyval :=
  match value with
  | None => Ok PNone
  | Some value => let? b := encode value in Ok (PStr (sha256_hex b))
  end.
(** [_subject_binding] *)
Definition subject_binding (values : list str) : Res pyval :=
  let? b := encode (join [0] values) in Ok (PStr (sha256_hex b)).

(** [[f(x) for x in xs]] *)
Fixpoint map_res {A B : Type} (f : A -> Res B) (xs : list A) : Res (list B) :=
  match xs with
  | [] => Ok []
  | x :: xs => let? y := f x in let? ys := map_res f xs in Ok (y :: ys)
  end.

(** [_report_manifest] *)
Definition report_manifest (report : PostReport) : Res pyval :=
  let? narrative := text_digest (PostReport.narrative report) in
  Ok (PDict [(u "id", PStr (PostReport.id report));
             (u "reason_code", PStr (PostReport.reason_code report));
             (u "narrative_sha256", narrative);
             (u "created_at", utc_text (Some (PostReport.created_at report)))]).
Definition case_manifest (case : ModerationCase) (post : Post) (binding : pyval) : pyval :=
  PDict
    [(u "id", PStr (ModerationCase.id case));
     (u "post_id", PStr (ModerationCase.post_id case));
     (u "status", PStr (ModerationCase.status case));
     (u "created_at", utc_text (Some (ModerationCase.created_at case)));
     (u "updated_at", utc_text (Some (ModerationCase.updated_at case)));
     (u "closed_at", utc_text (ModerationCase.closed_at case));
     (u "retention_expires_at", utc_text (ModerationCase.retention_expires_at case));
     (u "sensitive_purged_at", utc_text (ModerationCase.sensitive_purged_at case));
     (u "subject_matches_post_owner",
        PBool (bool_decide (ModerationCase.subject_owner_id case = Post.owner_id post)));
     (u "subject_binding_sha256", binding)].
Definition post_manifest (post : Post) : pyval :=
  PDict
    [(u "id", PStr (Post.id post));
     (u "status", PStr (Post.status post));
     (u "current_version", PInt (Post.current_version post));
     (u "sha256", PStr (Post.sha256 post));
     (u "published_at", utc_text (Some (Post.published_at post)));
     (u "updated_at", utc_text (Some (Post.updated_at post)));
     (u "withdrawn_at", utc_text (Post.withdrawn_at post));
     (u "withheld_at", utc_text (Post.withheld_at post))].
(** [_base_evidence_manifest] *)
Definition base_evidence_manifest (case : ModerationCase) (post : Post)
  (reports : list PostReport) : Res (list (str * pyval)) :=
  let? binding := subject_binding [ModerationCase.subject_owner_id case; Post.owner_id post] in
  let? reports := map_res report_manifest reports in
  Ok [(u "schema", PStr (u "connect.md/post-moderation-evidence"));
      (u "schema_version", PInt 1);
      (u "case", case_manifest case post binding);
      (u "post", post_manifest post);
      (u "reports", PList reports)].
(** [case_evidence_manifest] *)
Definition case_evidence_manifest (case : ModerationCase) (post : Post)
  (reports : list PostReport) : Res pyval :=
  let? manifest := base_evidence_manifest case post reports in
  Ok (PDict (manifest ++ [(u "purpose", PStr (u "initial_decision"));
                          (u "decision", PNone); (u "appeal", PNone)])).
Definition decision_manifest (case : ModerationCase) (post : Post) (decision : ModerationDecision) :
  Res pyval :=
  let? explanation := text_digest (Some (ModerationDecision.subject_explanation decision)) in
  let? rationale := text_digest (ModerationDecision.internal_rationale decision) in
  let? evidence := text_digest (ModerationDecision.evidence decision) in
  Ok (PDict
    [(u "id", PStr (ModerationDecision.id decision));
     (u "case_matches",
        PBool (bool_decide (ModerationDecision.case_id decision = ModerationCase.id case)));
     (u "post_matches", PBool (bool_decide (ModerationDecision.post_id decision = Post.id post)));
     (u "moderator_role", PStr (ModerationDecision.moderator_role decision));
     (u "action", PStr (ModerationDecision.action decision));
     (u "reason_code", PStr (ModerationDecision.reason_code decision));
     (u "subject_explanation_sha256", explanation);
     (u "internal_rationale_sha256", rationale);
     (u "evidence_sha256", evidence);
     (u "evidence_snapshot_sha256", opt_str (ModerationDecision.evidence_snapshot_sha256 decision));
     (u "decided_at", utc_text (Some (ModerationDecision.decided_at decision)))]).
Definition appeal_manifest (case : ModerationCase) (post : Post) (decision : ModerationDecision)
  (appeal : ModerationAppeal) : Res pyval :=
  let? binding := subject_binding [ModerationAppeal.subject_owner_id appeal;
                                   ModerationCase.subject_owner_id case; Post.owner_id post] in
  let? rationale := text_digest (ModerationAppeal.rationale appeal) in
  let? explanation := text_digest (ModerationAppeal.subject_explanation appeal) in
  let? internal := text_digest (ModerationAppeal.internal_rationale appeal) in
  Ok (PDict
    [(u "id", PStr (ModerationAppeal.id appeal));
     (u "case_matches",
        PBool (bool_decide (ModerationAppeal.case_id appeal = ModerationCase.id case)));
     (u "decision_matches",
        PBool (bool_decide (ModerationAppeal.decision_id appeal = ModerationDecision.id decision)));
     (u "subject_matches_case",
        PBool (bool_decide (ModerationAppeal.subject_owner_id appeal
                            = ModerationCase.subject_owner_id case)));
     (u "subject_binding_sha256", binding);
     (u "rationale_sha256", rationale);
     (u "status", PStr (ModerationAppeal.status appeal));
     (u "submitted_at", utc_text (Some (ModerationAppeal.submitted_at appeal)));
     (u "reviewed_at", utc_text (ModerationAppeal.reviewed_at appeal));
     (u "appeal_reviewer_role", opt_str (ModerationAppeal.appeal_reviewer_role appeal));
     (u "subject_explanation_sha256", explanation);
     (u "internal_rationale_sha256", internal);
     (u "review_snapshot_sha256", opt_str (ModerationAppeal.review_snapshot_sha256 appeal))]).
(** [appeal_evidence_manifest] *)
Definition appeal_evidence_manifest (case : ModerationCase) (post : Post)
  (reports : list PostReport) (decision : ModerationDecision) (appeal : ModerationAppeal) :
  Res pyval :=
  let? manifest := base_evidence_manifest case post reports in
  let? decision_part := decision_manifest case post decision in
  let? appeal_part := appeal_manifest case post decision appeal in
  Ok (PDict (manifest ++ [(u "purpose", PStr (u "appeal_review"));
                          (u "decision", decision_part); (u "appeal", appeal_part)])).
(** [evidence_manifest_sha256] *)
Definition evidence_manifest_sha256 (manifest : pyval) : Res str :=
  let? canonical := encode (dumps false manifest) in Ok (sha256_hex canonical).

(** ** Verified evidence *)
Section service.
Context `{CM : CanonicalMarkdown}.

Definition malformed_timestamp : exn :=
  StorageIntegrityError (u "canonical post timestamp is malformed").
(** The [try] body of [_verified_snapshot]. *)
Definition verify_post (store : VersionStore) (post : Post) (f : fs) : Res str :=
  let? markdown := read_verified store (Post.storage_path post) (Post.sha256 post) f in
  let? (frontmatter, _) := validate_canonical (u "post") markdown in
  match dict_get (u "published_at") frontmatter with
  | Some (PStr published_at) =>
      let? canonical_published_at :=
        map_exn (fun e => match e with ValueError _ => malformed_timestamp | _ => e end)
          (fromisoformat (replace_char 90 (u "+00:00") published_at)) in
      if bool_decide (tzoffset canonical_published_at = None)
      then Raise (StorageIntegrityError (u "canonical post timestamp lacks a timezone"))
      else if negb (Post.current_version post =? 1)
              || negb (is_str (dict_get (u "id") frontmatter) (Post.id post))
              || negb (is_str (dict_get (u "author_profile_handle") frontmatter)
                         (Post.author_profile_handle post))
              || negb (equals_one (dict_get (u "version") frontmatter))
              || negb (dt_eqb canonical_published_at (aware (Post.published_at post)))
      then Raise (StorageIntegrityError
                    (u "canonical post Markdown does not match its ledger row"))
      else Ok markdown
  | _ => Raise malformed_timestamp
  end.
Definition storage_error (e : exn) : exn :=
  match e with
  | StorageIntegrityError _ | MarkdownValidationError _ =>
      PostModerationStorageError (u "canonical post storage failed verification")
  | _ => e
  end.
(** [_verified_snapshot] *)
Definition verified_snapshot (store : VersionStore) (post : Post) (manifest : pyval) (f : fs) :
  Res ModerationEvidenceSnapshot :=
  let? markdown := map_exn storage_error (verify_post store post f) in
  let? digest := evidence_manifest_sha256 manifest in
  Ok (MkSnapshot markdown manifest digest).
(** [case_evidence_snapshot] *)
Definition case_evidence_snapshot (store : VersionStore) (bundle : ModerationCaseBundle) (f : fs) :
  Res ModerationEvidenceSnapshot :=
  let? manifest := case_evidence_manifest (cb_case bundle) (cb_post bundle) (cb_reports bundle) in
  verified_snapshot store (cb_post bundle) manifest f.
(** [appeal_evidence_snapshot] *)
Definition appeal_evidence_snapshot (store : VersionStore) (bundle : ModerationAppealBundle)
  (f : fs) : Res ModerationEvidenceSnapshot :=
  let? manifest := appeal_evidence_manifest (ab_case bundle) (ab_post bundle) (ab_reports bundle)
                     (ab_decision bundle) (ab_appeal bundle) in
  verified_snapshot store (ab_post bundle) manifest f.

(** [_require_expected_snapshot] *)
Definition require_expected_snapshot (expected : option str) (actual : str) : Res unit :=
  match expected with
  | None => Ok tt
  | Some expected =>
      if negb (len expected =? 64)
         || existsb (fun c => negb (is_hex_lower c)) expected
         || negb (bool_decide (expected = actual))
      then Raise (PostModerationPreconditionError
                    (u "moderation evidence snapshot precondition failed"))
      else Ok tt
  end.

(** [_validate_reports]; the type checks hold of every row. *)
Definition validate_reports (case : ModerationCase) (post : Post) (reports : list PostReport) :
  Res unit :=
  if 1000 <? len reports
  then Raise (PostModerationStorageError (u "moderation report evidence exceeds the review bound"))
  else if existsb (fun report =>
            negb (bool_decide (PostReport.case_id report = ModerationCase.id case))
            || negb (bool_decide (PostReport.post_id report = Post.id post))
            || negb (one_of (PostReport.reason_code report) _REASON_CODES)) reports
  then Raise (PostModerationStorageError (u "moderation report evidence is inconsistent"))
  else Ok tt.

(** ** Locked review bundles *)

(** [select(PostReport).where(case_id).order_by(created_at, id).limit(1001)] *)
Definition case_reports (case_id : str) (d : db) : list PostReport :=
  take 1001 (sort_by (fun a b => dt_id_before (PostReport.created_at a, PostReport.id a)
                                   (PostReport.created_at b, PostReport.id b))
    (select TPostReport (fun r => bool_decide (PostReport.case_id r = case_id)) d)).
Definition case_decision (case_id : str) (d : db) : option ModerationDecision :=
  head (select TModerationDecision (fun x => bool_decide (ModerationDecision.case_id x = case_id)) d).
Definition decision_appeal (decision_id : str) (d : db) : option ModerationAppeal :=
  head (select TModerationAppeal
    (fun a => bool_decide (ModerationAppeal.decision_id a = decision_id)) d).
Definition not_open : exn :=
  PostModerationConflictError (u "only an open moderation case can receive an initial decision").
(** The decision and its appeal belong to this case, post and subject. *)
Definition decision_consistent (case : ModerationCase) (post : Post)
  (decision : ModerationDecision) (appeal : option ModerationAppeal) : bool :=
  bool_decide (ModerationDecision.case_id decision = ModerationCase.id case)
  && bool_decide (ModerationDecision.post_id decision = Post.id post)
  && match appeal with
     | None => true
     | Some appeal =>
         bool_decide (ModerationAppeal.case_id appeal = ModerationCase.id case)
         && bool_decide (ModerationAppeal.decision_id appeal = ModerationDecision.id decision)
         && bool_decide (ModerationAppeal.subject_owner_id appeal
                         = ModerationCase.subject_owner_id case)
     end.
Definition subject_consistent (case : ModerationCase) (post : Post) : bool :=
  bool_decide (ModerationCase.post_id case = Post.id post)
  && bool_decide (ModerationCase.subject_owner_id case = Post.owner_id post).

(** [lock_case_review_bundle] *)
Definition lock_case_review_bundle (d : db) (case_id : str) (expected_post_id : option str)
  (allow_existing_decision : bool) : Res ModerationCaseBundle :=
  match tbl d TModerationCase !! case_id with
  | None => Raise (PostModerationNotFoundError (u "moderation case was not found"))
  | Some case =>
      let post_id := if falsy expected_post_id then ModerationCase.post_id case
                     else default [] expected_post_id in
      match tbl d TPost !! post_id with
      | None => Raise (PostModerationStorageError (u "case does not match the post subject"))
      | Some post =>
          if negb (subject_consistent case post)
          then Raise (PostModerationStorageError (u "case does not match the post subject"))
          else
            let decision := case_decision (ModerationCase.id case) d in
            let appeal := decision ≫= fun x => decision_appeal (ModerationDecision.id x) d in
            if bool_decide (decision <> None) && negb allow_existing_decision then Raise not_open
            else if match decision with
                    | None => false
                    | Some x => negb (decision_consistent case post x appeal)
                    end
            then Raise (PostModerationStorageError
                          (u "moderation decision authority records are inconsistent"))
            else
              let reports := case_reports (ModerationCase.id case) d in
              let? _ := validate_reports case post reports in
              Ok (MkCaseBundle post case reports decision appeal)
      end
  end.

Definition inconsistent : exn :=
  PostModerationStorageError (u "appeal authority records are inconsistent").
(** [lock_appeal_review_bundle] *)
Definition lock_appeal_review_bundle (d : db) (appeal_id : str) : Res ModerationAppealBundle :=
  match tbl d TModerationAppeal !! appeal_id with
  | None => Raise (PostModerationNotFoundError (u "moderation appeal was not found"))
  | Some appeal =>
      match tbl d TModerationCase !! ModerationAppeal.case_id appeal with
      | None => Raise inconsistent
      | Some case =>
          match tbl d TPost !! ModerationCase.post_id case,
                tbl d TModerationDecision !! ModerationAppeal.decision_id appeal with
          | Some post, Some decision =>
              if negb (subject_consistent case post)
                 || negb (decision_consistent case post decision (Some appeal))
              then Raise inconsistent
              else
                let reports := case_reports (ModerationCase.id case) d in
                let? _ := validate_reports case post reports in
                Ok (MkAppealBundle post case decision appeal reports)
          | _, _ => Raise inconsistent
          end
      end
  end.

(** ** Transitions *)

Definition system_change (post : Post) (event_type : string) (occurred_at : datetime)
  (sequence : Z) : ChangeEvent :=
  ChangeEvent.Mk sequence (Post.owner_id post) (u event_type) (u "post") (Post.id post)
    _SYSTEM_CHANGE_ACTOR (u "system") None (u "{}") occurred_at.
Definition audit_metadata (actor_method : str) : str :=
  dumps true (PDict [(u "actor_method", PStr actor_method)]).
Definition withheld_post (occurred_at : datetime) (post : Post) : Post :=
  post <| Post.status := u "withheld" |> <| Post.withheld_at := Some occurred_at |>
    <| Post.updated_at := occurred_at |>.
Definition restored_post (occurred_at : datetime) (post : Post) : Post :=
  post <| Post.status := u "published" |> <| Post.withheld_at := None |>
    <| Post.updated_at := occurred_at |>.
Definition closed_case (status : string) (occurred_at : datetime) (case : ModerationCase) :
  ModerationCase :=
  case <| ModerationCase.status := u status |> <| ModerationCase.updated_at := occurred_at |>
    <| ModerationCase.closed_at := Some occurred_at |>
    <| ModerationCase.retention_expires_at := Some (dt_add occurred_at (days 90)) |>.
Definition explanation_ok (subject_explanation : str) : bool :=
  (1 <=? len subject_explanation) && (len subject_explanation <=? 500).

Record DecideRequest : Type := MkDecide {
  dq_case_id : str; dq_expected_post_id : option str; dq_action : str; dq_reason_code : str;
  dq_subject_explanation : str; dq_actor_method : str;
  dq_expected_snapshot_sha256 : option str; dq_now : option datetime
}.
(** The guards of [decide_case], up to its first write. *)
Definition decide_guards (store : VersionStore) (settings : Settings) (q : DecideRequest)
  (w : world) : Res (ModerationAuthorities * ModerationCaseBundle * ModerationEvidenceSnapshot) :=
  let? authorities := configured_moderation_authorities settings in
  if negb (one_of (dq_action q) ["dismiss"; "withhold"])
  then Raise (PostModerationInputError (u "moderation action is invalid"))
  else if negb (one_of (dq_reason_code q) _REASON_CODES)
  then Raise (PostModerationInputError (u "moderation reason code is invalid"))
  else if negb (explanation_ok (dq_subject_explanation q))
  then Raise (PostModerationInputError (u "subject explanation must be 1-500 characters"))
  else
    let? bundle := lock_case_review_bundle (wdb w) (dq_case_id q) (dq_expected_post_id q) false in
    let post := cb_post bundle in
    let case := cb_case bundle in
    if bool_decide (ModerationCase.subject_owner_id case = auth_moderator_id authorities)
    then Raise (PostModerationConflictError
                  (u "post moderator is not independent for this case"))
    else if negb (eqs (ModerationCase.status case) "open") then Raise not_open
    else if eqs (dq_action q) "withhold" && negb (eqs (Post.status post) "published")
    then Raise (PostModerationConflictError (u "only a published post can be withheld"))
    else
      let? evidence := case_evidence_snapshot store bundle (wfs w) in
      let? _ := require_expected_snapshot (dq_expected_snapshot_sha256 q) (snapshot_sha256 evidence) in
      Ok (authorities, bundle, evidence).
(** The rows [decide_case] writes. *)
Definition withholds (q : DecideRequest) : bool := eqs (dq_action q) "withhold".
Definition decided_post (q : DecideRequest) (occurred_at : datetime) (post : Post) : Post :=
  if withholds q then withheld_post occurred_at post else post.
Definition decided_case (q : DecideRequest) (occurred_at : datetime) (case : ModerationCase) :
  ModerationCase :=
  closed_case (if withholds q then "withheld" else "dismissed") occurred_at case.
Definition decision_row (q : DecideRequest) (id : str) (authorities : ModerationAuthorities)
  (bundle : ModerationCaseBundle) (digest : str) (occurred_at : datetime) : ModerationDecision :=
  ModerationDecision.Mk id (ModerationCase.id (cb_case bundle)) (Post.id (cb_post bundle))
    (auth_moderator_id authorities) (auth_moderator_role authorities)
    (u (if withholds q then "withhold" else "no_action")) (dq_reason_code q)
    (dq_subject_explanation q) None None (Some digest) occurred_at.
Definition decision_audit (q : DecideRequest) (id : str) (authorities : ModerationAuthorities)
  (bundle : ModerationCaseBundle) (occurred_at : datetime) : ModerationAuditEvent :=
  ModerationAuditEvent.Mk id (ModerationCase.id (cb_case bundle)) (Post.id (cb_post bundle))
    (u (if withholds q then "decision_withheld" else "decision_no_action"))
    (auth_moderator_id authorities) (auth_moderator_role authorities)
    (audit_metadata (dq_actor_method q)) occurred_at.
(** [decide_case]; [clock] is [datetime.now(UTC)], [new_id] the two fresh ids. *)
Definition decide_case (store : VersionStore) (settings : Settings) (q : DecideRequest)
  (clock : datetime) (new_id : str * str) : act world ModerationDecisionResult :=
  let! checked := (fun w => (decide_guards store settings q w, w)) in
  let '(authorities, bundle, evidence) := checked in
  let occurred_at := default clock (dq_now q) in
  let post := decided_post q occurred_at (cb_post bundle) in
  let case := decided_case q occurred_at (cb_case bundle) in
  let decision := decision_row q new_id.1 authorities bundle (snapshot_sha256 evidence) occurred_at in
  let audit := decision_audit q new_id.2 authorities bundle occurred_at in
  (if withholds q
   then on_db (session_save TPost post) ;;;
        write_db (add_change_event (system_change post "post.withheld" occurred_at))
   else ret tt) ;;;
  on_db (session_save TModerationCase case) ;;;
  on_db (session_add TModerationDecision decision) ;;;
  on_db (session_add TModerationAuditEvent audit) ;;;
  ret (MkDecisionResult post case decision evidence (cb_reports bundle)).

Record ReviewRequest : Type := MkReview {
  rq_appeal_id : str; rq_action : str; rq_subject_explanation : str; rq_actor_method : str;
  rq_expected_snapshot_sha256 : option str; rq_now : option datetime
}.
Definition not_awaiting : exn :=
  PostModerationConflictError (u "appeal is not awaiting independent review").
(** The guards of [review_appeal], up to its first write. *)
Definition review_guards (store : VersionStore) (settings : Settings) (q : ReviewRequest)
  (w : world) : Res (ModerationAuthorities * ModerationAppealBundle * ModerationEvidenceSnapshot) :=
  let? authorities := configured_moderation_authorities settings in
  if negb (one_of (rq_action q) ["uphold"; "overturn"])
  then Raise (PostModerationInputError (u "appeal action is invalid"))
  else if negb (explanation_ok (rq_subject_explanation q))
  then Raise (PostModerationInputError (u "subject explanation must be 1-500 characters"))
  else
    let? bundle := lock_appeal_review_bundle (wdb w) (rq_appeal_id q) in
    let post := ab_post bundle in
    let case := ab_case bundle in
    let decision := ab_decision bundle in
    if negb (eqs (ModerationAppeal.status (ab_appeal bundle)) "submitted")
       || negb (eqs (ModerationCase.status case) "appealed")
       || negb (eqs (ModerationDecision.action decision) "withhold")
    then Raise not_awaiting
    else if bool_decide (auth_appeal_reviewer_id authorities
                         = ModerationDecision.moderator_id decision)
            || bool_decide (auth_appeal_reviewer_id authorities
                            = ModerationCase.subject_owner_id case)
    then Raise (PostModerationConflictError
                  (u "appeal reviewer is not independent for this case"))
    else if negb (one_of (Post.status post) ["withheld"; "withdrawn"])
    then Raise (PostModerationConflictError (u "appeal authority records are inconsistent"))
    else
      let? evidence := appeal_evidence_snapshot store bundle (wfs w) in
      let? _ := require_expected_snapshot (rq_expected_snapshot_sha256 q) (snapshot_sha256 evidence) in
      Ok (authorities, bundle, evidence).
(** The rows [review_appeal] writes. *)
Definition overturns (q : ReviewRequest) : bool := eqs (rq_action q) "overturn".
Definition review_outcome (q : ReviewRequest) : string :=
  if overturns q then "appeal_overturned" else "appeal_upheld".
Definition restores (q : ReviewRequest) (post : Post) : bool :=
  overturns q && eqs (Post.status post) "withheld".
Definition reviewed_post (q : ReviewRequest) (occurred_at : datetime) (post : Post) : Post :=
  if restores q post then restored_post occurred_at post else post.
Definition reviewed_case (q : ReviewRequest) (occurred_at : datetime) (case : ModerationCase) :
  ModerationCase := closed_case (review_outcome q) occurred_at case.
Definition reviewed_appeal (q : ReviewRequest) (authorities : ModerationAuthorities)
  (digest : str) (occurred_at : datetime) (appeal : ModerationAppeal) : ModerationAppeal :=
  appeal <| ModerationAppeal.status := u (if overturns q then "overturned" else "upheld") |>
    <| ModerationAppeal.reviewed_at := Some occurred_at |>
    <| ModerationAppeal.appeal_reviewer_id := Some (auth_appeal_reviewer_id authorities) |>
    <| ModerationAppeal.appeal_reviewer_role := Some (auth_appeal_reviewer_role authorities) |>
    <| ModerationAppeal.subject_explanation := Some (rq_subject_explanation q) |>
    <| ModerationAppeal.internal_rationale := None |>
    <| ModerationAppeal.review_snapshot_sha256 := Some digest |>.
Definition review_audit (q : ReviewRequest) (id : str) (authorities : ModerationAuthorities)
  (bundle : ModerationAppealBundle) (occurred_at : datetime) : ModerationAuditEvent :=
  ModerationAuditEvent.Mk id (ModerationCase.id (ab_case bundle)) (Post.id (ab_post bundle))
    (u (review_outcome q)) (auth_appeal_reviewer_id authorities)
    (auth_appeal_reviewer_role authorities) (audit_metadata (rq_actor_method q)) occurred_at.
(** [review_appeal] *)
Definition review_appeal (store : VersionStore) (settings : Settings) (q : ReviewRequest)
  (clock : datetime) (new_id : str) : act world ModerationAppealResult :=
  let! checked := (fun w => (review_guards store settings q w, w)) in
  let '(authorities, bundle, evidence) := checked in
  let occurred_at := default clock (rq_now q) in
  let appeal := reviewed_appeal q authorities (snapshot_sha256 evidence) occurred_at
                  (ab_appeal bundle) in
  let case := reviewed_case q occurred_at (ab_case bundle) in
  let post := reviewed_post q occurred_at (ab_post bundle) in
  let audit := review_audit q new_id authorities bundle occurred_at in
  on_db (session_save TModerationAppeal appeal) ;;;
  on_db (session_save TModerationCase case) ;;;
  (if restores q (ab_post bundle)
   then on_db (session_save TPost post) ;;;
        write_db (add_change_event (system_change post "post.restored" occurred_at))
   else ret tt) ;;;
  on_db (session_add TModerationAuditEvent audit) ;;;
  ret (MkAppealResult post case (ab_decision bundle) appeal evidence (ab_reports bundle)).
End service.
