(* ===== verification/PostModerationSafety.v ===== *)
(** * Safety of the post-moderation transitions

    What a successful decision or review checked and wrote, the separation of
    duties over every sequence of transitions, finality, the binding of the
    expected snapshot to the evidence, and the error paths. *)
From S2P Require Import Prelude PyTime Json Models Database Sha256 Storage JsonText World PostModeration.
Local Open Scope Z_scope.

(** ** Lookups by foreign key *)
Lemma unique_ok_put t k r d :
  unique_ok d ->
  (forall k' r', tbl d t !! k' = Some r' -> k' <> k ->
     row_conflict t r r' = false /\ row_conflict t r' r = false) ->
  unique_ok (put t k r d).
Proof.
  intros H Hr t' k1 k2 r1 r2. destruct (decide (t = t')) as [<-|Hne].
  - rewrite tbl_put_eq, !lookup_insert. intros E1 E2 Hc.
    destruct (decide (k = k1)) as [<-|N1], (decide (k = k2)) as [<-|N2];
      repeat case_decide; simplify_eq; try done.
    + destruct (Hr _ _ E2 (not_eq_sym N2)); congruence.
    + destruct (Hr _ _ E1 (not_eq_sym N1)); congruence.
    + by eapply (H t).
  - rewrite tbl_put_ne by done. apply H.
Qed.
Lemma unique_ok_add t r d :
  unique_ok d -> (forall a b, row_conflict t a b = row_conflict t b a) ->
  can_insert t r d = true -> unique_ok (put t (row_id t r) r d).
Proof.
  intros H Hs Hc. unfold can_insert in Hc. bool_facts. apply unique_ok_put; [done|].
  intros k' r' Hr' _. rewrite (Hs r' r). match goal with H : map_Forall _ _ |- _ => by specialize (H _ _ Hr') end.
Qed.
Lemma conflict_sym_decision a b :
  row_conflict TModerationDecision a b = row_conflict TModerationDecision b a.
Proof. apply bool_decide_ext. split; congruence. Qed.

Section head.
Context {t : table} (p : row t -> bool) (d : db).
Lemma head_select r : head (select t p d) = Some r -> (exists k, tbl d t !! k = Some r) /\ p r = true.
Proof. intros H. apply elem_of_select. destruct (select t p d); [done|]. injection H as ->. left. Qed.
Lemma head_select_none k r : head (select t p d) = None -> tbl d t !! k = Some r -> p r = false.
Proof.
  intros H Hr. destruct (p r) eqn:E; [|done].
  assert (r ∈ select t p d) as Hin by (apply elem_of_select; eauto).
  destruct (select t p d); [by apply elem_of_nil in Hin|done].
Qed.
End head.

Section service.
Context `{CM : CanonicalMarkdown} (store : VersionStore) (settings : Settings).

(** ** What the guards establish *)
Lemma configured_ok a :
  configured_moderation_authorities settings = Ok a ->
  post_moderator_id settings = Some (auth_moderator_id a) /\
  setting_appeal_reviewer_id settings = Some (auth_appeal_reviewer_id a) /\
  auth_moderator_role a = u "content_moderator" /\
  auth_appeal_reviewer_role a = u "appeal_reviewer" /\
  auth_moderator_id a <> auth_appeal_reviewer_id a.
Proof.
  unfold configured_moderation_authorities. destruct (_ || _) eqn:E; [done|].
  intros [= <-]. simpl. bool_facts.
  destruct (post_moderator_id settings) as [m|], (setting_appeal_reviewer_id settings) as [v|];
    try done. simpl. split_and!; congruence.
Qed.

(** The rows of a case that belong together. *)
Definition case_linked (d : db) (case : ModerationCase) (post : Post) : Prop :=
  tbl d TPost !! ModerationCase.post_id case = Some post /\
  ModerationCase.post_id case = Post.id post /\
  ModerationCase.subject_owner_id case = Post.owner_id post.
(** The post's Markdown is stored where its row says, with its row's digest. *)
Definition markdown_stored (post : Post) (f : fs) : Prop :=
  exists target payload, absolute_target store (Post.storage_path post) f = Ok target /\
    lstat f target = Some (NReg payload) /\ sha256_hex payload = Post.sha256 post.

Lemma subject_consistent_ok case post :
  subject_consistent case post = true ->
  ModerationCase.post_id case = Post.id post /\
  ModerationCase.subject_owner_id case = Post.owner_id post.
Proof. unfold subject_consistent. intros H. by bool_facts. Qed.

Lemma lock_case_ok d case_id expected b :
  keys_ok d ->
  lock_case_review_bundle d case_id expected false = Ok b ->
  tbl d TModerationCase !! case_id = Some (cb_case b) /\
  case_linked d (cb_case b) (cb_post b) /\
  (forall k x, tbl d TModerationDecision !! k = Some x -> ModerationDecision.case_id x <> case_id) /\
  cb_reports b = case_reports case_id d.
Proof.
  intros Hk. unfold lock_case_review_bundle.
  destruct (tbl d TModerationCase !! case_id) as [case|] eqn:Hc; [|done].
  destruct (tbl d TPost !! _) as [post|] eqn:Hp; [|done].
  destruct (negb (subject_consistent case post)) eqn:Hs; [done|].
  destruct (case_decision (ModerationCase.id case) d) as [x|] eqn:Hnone; [done|]. simpl.
  intros H. apply res_bind_ok in H as ([] & _ & [= <-]). simpl.
  bool_facts. apply subject_consistent_ok in Hs as [Hs1 Hs2].
  pose proof (Hk TPost _ _ Hp) as Hpid. cbn [row_id] in Hpid.
  pose proof (Hk TModerationCase _ _ Hc) as Hcid. change (ModerationCase.id case = case_id) in Hcid.
  split; [done|]. split; [|split].
  - unfold case_linked. split; [|done]. rewrite Hs1, Hpid. done.
  - intros k x Hx. pose proof (head_select_none (t:=TModerationDecision) _ d _ _ Hnone Hx) as E.
    apply bool_decide_eq_false in E. by rewrite <- Hcid.
  - by rewrite Hcid.
Qed.

Lemma lock_appeal_ok d appeal_id b :
  keys_ok d ->
  lock_appeal_review_bundle d appeal_id = Ok b ->
  tbl d TModerationAppeal !! appeal_id = Some (ab_appeal b) /\
  tbl d TModerationCase !! ModerationAppeal.case_id (ab_appeal b) = Some (ab_case b) /\
  tbl d TModerationDecision !! ModerationAppeal.decision_id (ab_appeal b) = Some (ab_decision b) /\
  case_linked d (ab_case b) (ab_post b) /\
  ModerationDecision.case_id (ab_decision b) = ModerationAppeal.case_id (ab_appeal b) /\
  ab_reports b = case_reports (ModerationAppeal.case_id (ab_appeal b)) d.
Proof.
  intros Hk. unfold lock_appeal_review_bundle.
  destruct (tbl d TModerationAppeal !! appeal_id) as [appeal|] eqn:Ha; [|done].
  destruct (tbl d TModerationCase !! _) as [case|] eqn:Hc; [|done].
  destruct (tbl d TPost !! _) as [post|] eqn:Hp; [|done].
  destruct (tbl d TModerationDecision !! _) as [decision|] eqn:Hd; [|done].
  destruct (negb (subject_consistent case post) || _) eqn:Hs; [done|].
  intros H. apply res_bind_ok in H as ([] & _ & [= <-]). simpl.
  apply orb_false_iff in Hs as [Hs1 Hs2]. apply negb_false_iff in Hs1, Hs2.
  apply subject_consistent_ok in Hs1 as [Hs1 Hs1'].
  pose proof (Hk TModerationCase _ _ Hc) as Hcid. cbn [row_id] in Hcid.
  unfold decision_consistent in Hs2. bool_facts.
  split_and!; try done; congruence.
Qed.

(** A verified snapshot comes with the stored Markdown and the manifest's digest. *)
Lemma read_verified_stored rel sha f md :
  read_verified store rel sha f = Ok md ->
  exists target payload, absolute_target store rel f = Ok target /\
    lstat f target = Some (NReg payload) /\ sha256_hex payload = sha.
Proof.
  unfold read_verified. intros Hr. apply res_bind_ok in Hr as (target & Ht & Hr).
  destruct (lstat f target) as [[payload| |]|] eqn:Hl; try discriminate Hr.
  destruct (decide (sha256_hex payload = sha)) as [E|E].
  - exists target, payload. done.
  - rewrite bool_decide_false in Hr by exact E. discriminate Hr.
Qed.
Lemma verify_post_stored post f md :
  verify_post store post f = Ok md -> markdown_stored post f.
Proof.
  unfold verify_post. intros Hv. apply res_bind_ok in Hv as (text & Hr & _).
  by apply read_verified_stored in Hr.
Qed.
Lemma verified_snapshot_ok post manifest f e :
  verified_snapshot store post manifest f = Ok e ->
  markdown_stored post f /\ evidence_manifest_sha256 manifest = Ok (snapshot_sha256 e).
Proof.
  unfold verified_snapshot. intros H. apply res_bind_ok in H as (md & Hv & H).
  apply res_bind_ok in H as (digest & Hd & H). injection H as <-. split; [|exact Hd].
  apply map_exn_ok, verify_post_stored in Hv. exact Hv.
Qed.
Lemma require_expected_ok expected actual :
  require_expected_snapshot expected actual = Ok tt ->
  forall s, expected = Some s -> s = actual.
Proof.
  intros H s ->. unfold require_expected_snapshot in H. destruct (_ || _) eqn:E; [done|].
  by bool_facts.
Qed.

(** Everything a decision checked before its first write. *)
Record decide_checked (q : DecideRequest) (w : world) (a : ModerationAuthorities)
  (b : ModerationCaseBundle) (e : ModerationEvidenceSnapshot) : Prop := {
  dc_authorities : configured_moderation_authorities settings = Ok a;
  dc_action : dq_action q = u "dismiss" \/ dq_action q = u "withhold";
  dc_reason : one_of (dq_reason_code q) _REASON_CODES = true;
  dc_explanation : 1 <= len (dq_subject_explanation q) <= 500;
  dc_case : tbl (wdb w) TModerationCase !! dq_case_id q = Some (cb_case b);
  dc_linked : case_linked (wdb w) (cb_case b) (cb_post b);
  dc_undecided k x : tbl (wdb w) TModerationDecision !! k = Some x ->
    ModerationDecision.case_id x <> dq_case_id q;
  dc_reports : cb_reports b = case_reports (dq_case_id q) (wdb w);
  dc_independent : auth_moderator_id a <> ModerationCase.subject_owner_id (cb_case b);
  dc_open : ModerationCase.status (cb_case b) = u "open";
  dc_published : dq_action q = u "withhold" -> Post.status (cb_post b) = u "published";
  dc_stored : markdown_stored (cb_post b) (wfs w);
  dc_evidence : exists m, case_evidence_manifest (cb_case b) (cb_post b) (cb_reports b) = Ok m /\
    evidence_manifest_sha256 m = Ok (snapshot_sha256 e);
  dc_expected s : dq_expected_snapshot_sha256 q = Some s -> s = snapshot_sha256 e
}.
Lemma one_of_two x s1 s2 : one_of x [s1; s2] = true -> x = u s1 \/ x = u s2.
Proof. rewrite one_of_true, !Exists_cons, Exists_nil. tauto. Qed.
Lemma decide_guards_ok q w a b e :
  keys_ok (wdb w) -> decide_guards store settings q w = Ok (a, b, e) -> decide_checked q w a b e.
Proof.
  intros Hk. unfold decide_guards, explanation_ok. intros H.
  apply res_bind_ok in H as (a' & Ha & H). inv_steps. bool_facts.
  match goal with x : unit |- _ => destruct x end.
  match goal with H : lock_case_review_bundle _ _ _ _ = _ |- _ =>
    apply lock_case_ok in H as (? & ? & ? & ?); [|done] end.
  match goal with H : case_evidence_snapshot _ _ _ = _ |- _ =>
    unfold case_evidence_snapshot in H; apply res_bind_ok in H as (m & Hm & H);
    apply verified_snapshot_ok in H as [? ?] end.
  split; try done.
  - by apply one_of_two.
  - intros E. rewrite E, eqs_refl in Heqb5. cbn [andb] in Heqb5. by bool_facts.
  - eauto.
  - by apply require_expected_ok.
Qed.

(** Everything a review checked before its first write. *)
Record review_checked (q : ReviewRequest) (w : world) (a : ModerationAuthorities)
  (b : ModerationAppealBundle) (e : ModerationEvidenceSnapshot) : Prop := {
  rc_authorities : configured_moderation_authorities settings = Ok a;
  rc_action : rq_action q = u "uphold" \/ rq_action q = u "overturn";
  rc_explanation : 1 <= len (rq_subject_explanation q) <= 500;
  rc_appeal : tbl (wdb w) TModerationAppeal !! rq_appeal_id q = Some (ab_appeal b);
  rc_case : tbl (wdb w) TModerationCase !! ModerationAppeal.case_id (ab_appeal b) = Some (ab_case b);
  rc_decision : tbl (wdb w) TModerationDecision !! ModerationAppeal.decision_id (ab_appeal b)
    = Some (ab_decision b);
  rc_linked : case_linked (wdb w) (ab_case b) (ab_post b);
  rc_same_case : ModerationDecision.case_id (ab_decision b) = ModerationAppeal.case_id (ab_appeal b);
  rc_reports : ab_reports b = case_reports (ModerationAppeal.case_id (ab_appeal b)) (wdb w);
  rc_submitted : ModerationAppeal.status (ab_appeal b) = u "submitted";
  rc_appealed : ModerationCase.status (ab_case b) = u "appealed";
  rc_withheld : ModerationDecision.action (ab_decision b) = u "withhold";
  rc_not_moderator : auth_appeal_reviewer_id a <> ModerationDecision.moderator_id (ab_decision b);
  rc_not_subject : auth_appeal_reviewer_id a <> ModerationCase.subject_owner_id (ab_case b);
  rc_post : Post.status (ab_post b) = u "withheld" \/ Post.status (ab_post b) = u "withdrawn";
  rc_stored : markdown_stored (ab_post b) (wfs w);
  rc_evidence : exists m,
    appeal_evidence_manifest (ab_case b) (ab_post b) (ab_reports b) (ab_decision b) (ab_appeal b)
      = Ok m /\ evidence_manifest_sha256 m = Ok (snapshot_sha256 e);
  rc_expected s : rq_expected_snapshot_sha256 q = Some s -> s = snapshot_sha256 e
}.
Lemma review_guards_ok q w a b e :
  keys_ok (wdb w) -> review_guards store settings q w = Ok (a, b, e) -> review_checked q w a b e.
Proof.
  intros Hk. unfold review_guards, explanation_ok. intros H.
  apply res_bind_ok in H as (a' & Ha & H). inv_steps. bool_facts.
  match goal with x : unit |- _ => destruct x end.
  match goal with H : lock_appeal_review_bundle _ _ = _ |- _ =>
    apply lock_appeal_ok in H as (? & ? & ? & ? & ? & ?); [|done] end.
  match goal with H : appeal_evidence_snapshot _ _ _ = _ |- _ =>
    unfold appeal_evidence_snapshot in H; apply res_bind_ok in H as (m & Hm & H);
    apply verified_snapshot_ok in H as [? ?] end.
  split; try done; eauto using one_of_two, require_expected_ok.
Qed.

(** ** What the transitions write *)

Definition post_writes (changed : bool) (event : string) (at_ : datetime) (post : Post) (d : db) : db :=
  if changed then add_change_event (system_change post event at_) (put TPost (row_id TPost post) post d)
  else d.
Definition decide_writes (q : DecideRequest) (id : str * str) (at_ : datetime)
  (a : ModerationAuthorities) (b : ModerationCaseBundle) (digest : str) (d : db) : db :=
  let case := decided_case q at_ (cb_case b) in
  let decision := decision_row q id.1 a b digest at_ in
  let audit := decision_audit q id.2 a b at_ in
  put TModerationAuditEvent (row_id TModerationAuditEvent audit) audit
   (put TModerationDecision (row_id TModerationDecision decision) decision
     (put TModerationCase (row_id TModerationCase case) case
       (post_writes (withholds q) "post.withheld" at_ (decided_post q at_ (cb_post b)) d))).
Definition review_writes (q : ReviewRequest) (id : str) (at_ : datetime)
  (a : ModerationAuthorities) (b : ModerationAppealBundle) (digest : str) (d : db) : db :=
  let appeal := reviewed_appeal q a digest at_ (ab_appeal b) in
  let case := reviewed_case q at_ (ab_case b) in
  let audit := review_audit q id a b at_ in
  put TModerationAuditEvent (row_id TModerationAuditEvent audit) audit
   (post_writes (restores q (ab_post b)) "post.restored" at_ (reviewed_post q at_ (ab_post b))
     (put TModerationCase (row_id TModerationCase case) case
       (put TModerationAppeal (row_id TModerationAppeal appeal) appeal d))).

Lemma ret_ok {A : Type} (x y : A) (w w' : world) : ret x w = (Ok y, w') -> y = x /\ w' = w.
Proof. by intros [= -> ->]. Qed.
Lemma set_db_set_db d d' w : set_db d (set_db d' w) = set_db d w.
Proof. done. Qed.
Lemma wdb_set_db d w : wdb (set_db d w) = d.
Proof. done. Qed.
Lemma on_db_save_ok t r w x w' :
  on_db (session_save t r) w = (Ok x, w') ->
  row_ok t r = true /\ w' = set_db (put t (row_id t r) r (wdb w)) w.
Proof.
  unfold on_db. destruct (session_save t r (wdb w)) as [r1 d1] eqn:E. intros [= -> <-].
  apply session_save_spec in E as [(_ & H & ->)|([=] & _)]. done.
Qed.
Lemma on_db_add_ok t r w x w' :
  on_db (session_add t r) w = (Ok x, w') ->
  can_insert t r (wdb w) = true /\ w' = set_db (put t (row_id t r) r (wdb w)) w.
Proof.
  unfold on_db. destruct (session_add t r (wdb w)) as [r1 d1] eqn:E. intros [= -> <-].
  apply session_add_spec in E as [(_ & H & ->)|([=] & _)]. done.
Qed.
Lemma post_writes_ok (changed : bool) event at_ post w x w' :
  (if changed then on_db (session_save TPost post) ;;;
     write_db (add_change_event (system_change post event at_)) else ret tt) w = (Ok x, w') ->
  (changed = true -> row_ok TPost post = true) /\
  w' = set_db (post_writes changed event at_ post (wdb w)) w.
Proof.
  destruct changed.
  - intros H. apply act_bind_ok in H as (? & w1 & H1 & H2).
    apply on_db_save_ok in H1 as [Hr ->]. injection H2 as _ <-. done.
  - intros [= _ <-]. by destruct w.
Qed.

Lemma can_insert_ext t r d d' : tbl d t = tbl d' t -> can_insert t r d = can_insert t r d'.
Proof. unfold can_insert. by intros ->. Qed.
Lemma can_insert_fresh t r d : can_insert t r d = true ->
  row_ok t r = true /\ tbl d t !! row_id t r = None.
Proof. unfold can_insert. intros H. by bool_facts. Qed.
Lemma tbl_post_writes changed event at_ post d t :
  t <> TPost -> tbl (post_writes changed event at_ post d) t = tbl d t.
Proof.
  intros H. unfold post_writes. destruct changed; [|done]. unfold add_change_event.
  rewrite tbl_set_change_events. by apply tbl_put_ne.
Qed.
(** A successful decision is its checks followed by its writes. *)
Lemma decide_case_ok q clock id w r w' :
  keys_ok (wdb w) -> decide_case store settings q clock id w = (Ok r, w') ->
  exists a b e, decide_checked q w a b e /\
    let at_ := default clock (dq_now q) in
    r = MkDecisionResult (decided_post q at_ (cb_post b)) (decided_case q at_ (cb_case b))
          (decision_row q id.1 a b (snapshot_sha256 e) at_) e (cb_reports b) /\
    w' = set_db (decide_writes q id at_ a b (snapshot_sha256 e) (wdb w)) w /\
    (withholds q = true -> row_ok TPost (dr_post r) = true) /\
    row_ok TModerationCase (dr_case r) = true /\
    can_insert TModerationDecision (dr_decision r) (wdb w) = true /\
    row_ok TModerationAuditEvent (decision_audit q id.2 a b at_) = true /\
    tbl (wdb w) TModerationAuditEvent !! id.2 = None.
Proof.
  unfold decide_case. intros Hk H. apply act_bind_ok in H as ([[a b] e] & w1 & Hg & H). injection Hg as Hg <-.
  apply decide_guards_ok in Hg; [|done]. exists a, b, e. split; [done|]. cbv zeta in H |- *.
  apply act_bind_ok in H as (? & w1 & H1 & H). apply post_writes_ok in H1 as [Hp ->].
  apply act_bind_ok in H as (? & w2 & H2 & H). apply on_db_save_ok in H2 as [Hc ->].
  apply act_bind_ok in H as (? & w3 & H3 & H). apply on_db_add_ok in H3 as [Hd ->].
  apply act_bind_ok in H as (? & w4 & H4 & H). apply on_db_add_ok in H4 as [Ha ->].
  rewrite !set_db_set_db, !wdb_set_db in *. apply ret_ok in H as [-> ->].
  split; [reflexivity|]. split; [reflexivity|]. split; [assumption|]. split; [exact Hc|]. split.
  - erewrite can_insert_ext; [exact Hd|].
    rewrite tbl_put_ne, tbl_post_writes by done. done.
  - apply can_insert_fresh in Ha as [Ha1 Ha2]. split; [exact Ha1|].
    rewrite !tbl_put_ne, tbl_post_writes in Ha2 by done. exact Ha2.
Qed.
Lemma review_appeal_ok q clock id w r w' :
  keys_ok (wdb w) -> review_appeal store settings q clock id w = (Ok r, w') ->
  exists a b e, review_checked q w a b e /\
    let at_ := default clock (rq_now q) in
    r = MkAppealResult (reviewed_post q at_ (ab_post b)) (reviewed_case q at_ (ab_case b))
          (ab_decision b) (reviewed_appeal q a (snapshot_sha256 e) at_ (ab_appeal b)) e
          (ab_reports b) /\
    w' = set_db (review_writes q id at_ a b (snapshot_sha256 e) (wdb w)) w /\
    (restores q (ab_post b) = true -> row_ok TPost (ar_post r) = true) /\
    row_ok TModerationCase (ar_case r) = true /\
    row_ok TModerationAppeal (ar_appeal r) = true /\
    row_ok TModerationAuditEvent (review_audit q id a b at_) = true /\
    tbl (wdb w) TModerationAuditEvent !! id = None.
Proof.
  unfold review_appeal. intros Hk H. apply act_bind_ok in H as ([[a b] e] & w1 & Hg & H).
  injection Hg as Hg <-.
  apply review_guards_ok in Hg; [|done]. exists a, b, e. split; [done|]. cbv zeta in H |- *.
  apply act_bind_ok in H as (? & w1 & H1 & H). apply on_db_save_ok in H1 as [Hp ->].
  apply act_bind_ok in H as (? & w2 & H2 & H). apply on_db_save_ok in H2 as [Hc ->].
  apply act_bind_ok in H as (? & w3 & H3 & H). apply post_writes_ok in H3 as [Hd ->].
  apply act_bind_ok in H as (? & w4 & H4 & H). apply on_db_add_ok in H4 as [Ha ->].
  rewrite !set_db_set_db, !wdb_set_db in *. apply ret_ok in H as [-> ->].
  split; [reflexivity|]. split; [reflexivity|]. split; [exact Hd|]. split; [exact Hc|]. split; [exact Hp|].
  apply can_insert_fresh in Ha as [Ha1 Ha2]. split; [exact Ha1|].
  rewrite tbl_post_writes, !tbl_put_ne in Ha2 by done. exact Ha2.
Qed.

(** ** Well-formedness *)
Definition db_ok (d : db) : Prop := keys_ok d /\ rows_ok d /\ unique_ok d.
Lemma db_ok_put t r d :
  db_ok d -> row_ok t r = true ->
  (forall k' r', tbl d t !! k' = Some r' -> k' <> row_id t r ->
     row_conflict t r r' = false /\ row_conflict t r' r = false) ->
  db_ok (put t (row_id t r) r d).
Proof.
  intros (Hk & Hr & Hu) H Hc.
  split_and!; [by apply keys_ok_put|by apply rows_ok_put|by apply unique_ok_put].
Qed.
Lemma db_ok_post_writes changed event at_ post d :
  db_ok d -> (changed = true -> row_ok TPost post = true) ->
  db_ok (post_writes changed event at_ post d).
Proof.
  intros H Hp. unfold post_writes. destruct changed; [|done].
  change (db_ok (put TPost (row_id TPost post) post d)). apply db_ok_put; [done|by apply Hp|done].
Qed.
Lemma closed_no_conflict status at_ case other :
  eqs (u status) "open" = false ->
  row_conflict TModerationCase (closed_case status at_ case) other = false /\
  row_conflict TModerationCase other (closed_case status at_ case) = false.
Proof.
  intros H. assert (eqs (ModerationCase.status (closed_case status at_ case)) "open" = false) as E
    by exact H. unfold row_conflict. rewrite E. by rewrite !andb_false_r, !andb_false_l.
Qed.

Lemma decide_writes_ok q id at_ a b digest d :
  db_ok d ->
  (withholds q = true -> row_ok TPost (decided_post q at_ (cb_post b)) = true) ->
  row_ok TModerationCase (decided_case q at_ (cb_case b)) = true ->
  can_insert TModerationDecision (decision_row q id.1 a b digest at_) d = true ->
  row_ok TModerationAuditEvent (decision_audit q id.2 a b at_) = true ->
  db_ok (decide_writes q id at_ a b digest d).
Proof.
  intros H Hp Hc Hd Ha. unfold decide_writes. cbv zeta.
  apply db_ok_put; [|exact Ha|done]. set (d1 := post_writes _ _ _ _ _).
  assert (db_ok d1) as H1 by by apply db_ok_post_writes.
  set (d2 := put TModerationCase _ _ _).
  assert (db_ok d2) as H2.
  { apply db_ok_put; [done|exact Hc|]. intros k' r' _ _. apply closed_no_conflict.
    by destruct (withholds q). }
  apply db_ok_put; [done|by apply can_insert_fresh in Hd as [? _]|].
  intros k' r' Hr' _. unfold d2, d1 in Hr'. rewrite tbl_put_ne, tbl_post_writes in Hr' by done.
  rewrite (conflict_sym_decision r'). unfold can_insert in Hd. bool_facts.
  match goal with H : map_Forall _ _ |- _ => by specialize (H _ _ Hr') end.
Qed.
Lemma review_writes_ok q id at_ a b digest d :
  db_ok d -> tbl d TModerationAppeal !! ModerationAppeal.id (ab_appeal b) = Some (ab_appeal b) ->
  (restores q (ab_post b) = true -> row_ok TPost (reviewed_post q at_ (ab_post b)) = true) ->
  row_ok TModerationCase (reviewed_case q at_ (ab_case b)) = true ->
  row_ok TModerationAppeal (reviewed_appeal q a digest at_ (ab_appeal b)) = true ->
  row_ok TModerationAuditEvent (review_audit q id a b at_) = true ->
  db_ok (review_writes q id at_ a b digest d).
Proof.
  intros H Hl Hp Hc Happ Ha. unfold review_writes. cbv zeta.
  apply db_ok_put; [|exact Ha|done]. apply db_ok_post_writes; [|done].
  apply db_ok_put; [|exact Hc|].
  - apply db_ok_put; [done|exact Happ|]. intros k' r' Hr' Hne.
    destruct H as (_ & _ & Hu). pose proof (Hu TModerationAppeal _ _ _ _ Hl Hr') as Hc1.
    cbn [row_conflict row_id] in *. change (ModerationAppeal.id (reviewed_appeal q a digest at_ (ab_appeal b)))
      with (ModerationAppeal.id (ab_appeal b)) in Hne.
    change (ModerationAppeal.decision_id (reviewed_appeal q a digest at_ (ab_appeal b)))
      with (ModerationAppeal.decision_id (ab_appeal b)).
    split; apply bool_decide_eq_false; intros E; apply Hne; symmetry; apply Hc1;
      by apply bool_decide_eq_true.
  - intros k' r' _ _. apply closed_no_conflict. unfold review_outcome. by destruct (overturns q).
Qed.

(** ** Table-wise effect of the writes *)
Lemma decide_writes_tbl q id at_ a b digest d t :
  let case := decided_case q at_ (cb_case b) in
  tbl (decide_writes q id at_ a b digest d) t =
  match t return gmap str (row t) with
  | TModerationCase => <[ModerationCase.id (cb_case b) := case]> (tbl d TModerationCase)
  | TModerationDecision =>
      <[id.1 := decision_row q id.1 a b digest at_]> (tbl d TModerationDecision)
  | TModerationAuditEvent => <[id.2 := decision_audit q id.2 a b at_]> (tbl d TModerationAuditEvent)
  | TPost => if withholds q then <[Post.id (cb_post b) := withheld_post at_ (cb_post b)]> (tbl d TPost)
             else tbl d TPost
  | t => tbl d t
  end.
Proof.
  cbv zeta. unfold decide_writes, post_writes, decided_post. cbv zeta.
  destruct t, (withholds q); unfold add_change_event; db_simpl; done.
Qed.
Lemma review_writes_tbl q id at_ a b digest d t :
  let case := reviewed_case q at_ (ab_case b) in
  let appeal := reviewed_appeal q a digest at_ (ab_appeal b) in
  tbl (review_writes q id at_ a b digest d) t =
  match t return gmap str (row t) with
  | TModerationCase => <[ModerationCase.id (ab_case b) := case]> (tbl d TModerationCase)
  | TModerationAppeal => <[ModerationAppeal.id (ab_appeal b) := appeal]> (tbl d TModerationAppeal)
  | TModerationAuditEvent => <[id := review_audit q id a b at_]> (tbl d TModerationAuditEvent)
  | TPost => if restores q (ab_post b)
             then <[Post.id (ab_post b) := restored_post at_ (ab_post b)]> (tbl d TPost)
             else tbl d TPost
  | t => tbl d t
  end.
Proof.
  cbv zeta. unfold review_writes, post_writes, reviewed_post. cbv zeta.
  destruct t, (restores q (ab_post b)); unfold add_change_event; db_simpl; done.
Qed.
Lemma post_writes_events changed event at_ post d :
  change_events (post_writes changed event at_ post d) =
  if changed then <[next_sequence d := system_change post event at_ (next_sequence d)]> (change_events d)
  else change_events d.
Proof. by destruct changed. Qed.
Lemma decide_writes_events q id at_ a b digest d :
  change_events (decide_writes q id at_ a b digest d) =
  if withholds q
  then <[next_sequence d := system_change (decided_post q at_ (cb_post b)) "post.withheld" at_
           (next_sequence d)]> (change_events d)
  else change_events d.
Proof. apply post_writes_events. Qed.
Lemma review_writes_events q id at_ a b digest d :
  change_events (review_writes q id at_ a b digest d) =
  if restores q (ab_post b)
  then <[next_sequence d := system_change (reviewed_post q at_ (ab_post b)) "post.restored" at_
           (next_sequence d)]> (change_events d)
  else change_events d.
Proof. refine (eq_trans (post_writes_events _ _ _ _ _) _). by destruct (restores _ _). Qed.

(** ** Separation of duties *)

(** Decisions close their case and are made by someone other than its subject;
    a reviewed appeal was reviewed by neither the moderator nor the subject. *)
Definition decided_ok (d : db) : Prop := forall k x,
  tbl d TModerationDecision !! k = Some x ->
  exists case, tbl d TModerationCase !! ModerationDecision.case_id x = Some case /\
    ModerationCase.status case <> u "open" /\
    ModerationDecision.moderator_id x <> ModerationCase.subject_owner_id case.
Definition reviewed_ok (d : db) : Prop := forall k appeal,
  tbl d TModerationAppeal !! k = Some appeal ->
  exists x, tbl d TModerationDecision !! ModerationAppeal.decision_id appeal = Some x /\
    ModerationDecision.case_id x = ModerationAppeal.case_id appeal /\
    forall reviewer, ModerationAppeal.appeal_reviewer_id appeal = Some reviewer ->
      ModerationAppeal.status appeal <> u "submitted" /\
      reviewer <> ModerationDecision.moderator_id x /\
      forall case, tbl d TModerationCase !! ModerationDecision.case_id x = Some case ->
        reviewer <> ModerationCase.subject_owner_id case.
Definition moderation_ok (d : db) : Prop := db_ok d /\ decided_ok d /\ reviewed_ok d.

(** A committed transition, or a change of the file store by anyone. *)
Inductive moderation_step (w : world) : world -> Prop :=
| step_decide q clock id res w' :
    transaction (decide_case store settings q clock id) w = (res, w') -> moderation_step w w'
| step_review q clock id res w' :
    transaction (review_appeal store settings q clock id) w = (res, w') -> moderation_step w w'
| step_files f : moderation_step w (MkWorld (wdb w) f).

Lemma closed_not_open status at_ case :
  eqs (u status) "open" = false -> ModerationCase.status (closed_case status at_ case) <> u "open".
Proof. by intros H%eqs_false. Qed.
Lemma decide_keeps_separation q id at_ a b e w :
  moderation_ok (wdb w) -> decide_checked q w a b e ->
  tbl (wdb w) TModerationDecision !! id.1 = None ->
  decided_ok (decide_writes q id at_ a b (snapshot_sha256 e) (wdb w)) /\
  reviewed_ok (decide_writes q id at_ a b (snapshot_sha256 e) (wdb w)).
Proof.
  intros ((Hk & _) & Hdec & Hrev) [] Hfresh.
  assert (ModerationCase.id (cb_case b) = dq_case_id q) as Hid by exact (Hk TModerationCase _ _ dc_case0).
  split.
  - intros k x. rewrite !decide_writes_tbl. cbv zeta. rewrite Hid, lookup_insert.
    case_decide as E; [intros [= <-]|intros Hx].
    + exists (decided_case q at_ (cb_case b)). cbn [ModerationDecision.case_id decision_row].
      rewrite Hid, lookup_insert_eq. split_and!; [done|apply closed_not_open|done].
      by destruct (withholds q).
    + destruct (Hdec _ _ Hx) as (case & Hc & ?). exists case. split; [|done].
      rewrite lookup_insert_ne; [done|]. intros E'. by apply (dc_undecided0 _ _ Hx).
  - intros k appeal. rewrite !decide_writes_tbl. intros Ha. destruct (Hrev _ _ Ha) as (x & Hx & Hxa & H).
    exists x. rewrite lookup_insert_ne by (intros E; rewrite E in Hfresh; discriminate (eq_trans (eq_sym Hfresh) Hx)).
    split_and!; [done..|]. intros reviewer Hr. destruct (H _ Hr) as (? & ? & Hs). split_and!; [done..|].
    intros case. rewrite Hid, lookup_insert_ne; [apply Hs|]. intros E. by apply (dc_undecided0 _ _ Hx).
Qed.
Lemma review_keeps_separation q id at_ a b e w :
  moderation_ok (wdb w) -> review_checked q w a b e ->
  decided_ok (review_writes q id at_ a b (snapshot_sha256 e) (wdb w)) /\
  reviewed_ok (review_writes q id at_ a b (snapshot_sha256 e) (wdb w)).
Proof.
  intros ((Hk & _) & Hdec & Hrev) [].
  assert (ModerationCase.id (ab_case b) = ModerationAppeal.case_id (ab_appeal b)) as Hid
    by exact (Hk TModerationCase _ _ rc_case0).
  assert (ModerationAppeal.id (ab_appeal b) = rq_appeal_id q) as Haid
    by exact (Hk TModerationAppeal _ _ rc_appeal0).
  assert (forall i case, <[ModerationCase.id (ab_case b) := reviewed_case q at_ (ab_case b)]>
    (tbl (wdb w) TModerationCase) !! i = Some case ->
    exists old, tbl (wdb w) TModerationCase !! i = Some old /\
      ModerationCase.subject_owner_id old = ModerationCase.subject_owner_id case) as Hold.
  { intros i case. rewrite Hid, lookup_insert. case_decide as E; [subst i|eauto].
    intros H. injection H as <-. eauto. }
  split.
  - intros k x. rewrite !review_writes_tbl. cbv zeta. intros Hx.
    destruct (Hdec _ _ Hx) as (case & Hc & Hne & Hs). rewrite Hid, lookup_insert. case_decide as E.
    + exists (reviewed_case q at_ (ab_case b)). split; [done|]. split.
      * apply closed_not_open. unfold review_outcome. by destruct (overturns q).
      * rewrite <- E, rc_case0 in Hc. injection Hc as <-. exact Hs.
    + exists case. done.
  - intros k appeal. rewrite !review_writes_tbl. cbv zeta. rewrite Haid, lookup_insert.
    case_decide as E; [intros Ha|intros Ha].
    + injection Ha as <-. exists (ab_decision b). split; [done|]. split; [done|].
      intros reviewer Hr. injection Hr as <-. split.
      { change (u (if overturns q then "overturned" else "upheld") <> u "submitted").
        by destruct (overturns q). }
      split; [done|]. intros case Hc. apply Hold in Hc as (old & Ho & <-).
      rewrite rc_same_case0 in Ho. rewrite rc_case0 in Ho. injection Ho as <-. done.
    + destruct (Hrev _ _ Ha) as (x & Hx & Hxa & H). exists x. split_and!; [done..|].
      intros reviewer Hr. destruct (H _ Hr) as (? & ? & Hs). split_and!; [done..|].
      intros case Hc. apply Hold in Hc as (old & Ho & <-). by apply Hs.
Qed.

Lemma transaction_cases {A : Type} (m : act world A) w res w' :
  transaction m w = (res, w') ->
  (exists x, res = Ok x /\ m w = (Ok x, w')) \/ wdb w' = wdb w.
Proof. unfold transaction. destruct (m w) as [[x|e] w1]; intros [= <- <-]; [left; eauto|by right]. Qed.
(** What a decision and a review keep: the invariant, the earlier decisions and
    the reviewed appeals. *)
Definition records_stay (d d' : db) : Prop :=
  (forall k x, tbl d TModerationDecision !! k = Some x -> tbl d' TModerationDecision !! k = Some x) /\
  (forall k appeal, tbl d TModerationAppeal !! k = Some appeal ->
     ModerationAppeal.status appeal <> u "submitted" -> tbl d' TModerationAppeal !! k = Some appeal).
Lemma records_stay_refl d : records_stay d d.
Proof. by split. Qed.
Lemma records_stay_trans d1 d2 d3 : records_stay d1 d2 -> records_stay d2 d3 -> records_stay d1 d3.
Proof. intros [H1 H2] [H3 H4]. split; eauto. Qed.
#[local] Hint Resolve records_stay_refl : core.
Lemma decide_keeps q clock id w r w' :
  moderation_ok (wdb w) -> decide_case store settings q clock id w = (Ok r, w') ->
  moderation_ok (wdb w') /\ records_stay (wdb w) (wdb w').
Proof.
  intros Hok H. pose proof (proj1 (proj1 Hok)) as Hk.
  apply decide_case_ok in H as (a & b & e & Hc & -> & -> & Hp & Hcase & Hd & Haudit & Hfa); [|done].
  rewrite !wdb_set_db. pose proof (can_insert_fresh _ _ _ Hd) as [_ Hfresh].
  cbn [dr_post dr_case dr_decision] in Hp, Hcase, Hd. split; [split|].
  - apply decide_writes_ok; [exact (proj1 Hok)|done..].
  - by apply decide_keeps_separation.
  - split; [|intros k x; by rewrite decide_writes_tbl].
    intros k x Hx. rewrite decide_writes_tbl. cbv zeta. rewrite lookup_insert_ne; [exact Hx|].
    intros <-. discriminate (eq_trans (eq_sym Hfresh) Hx).
Qed.
Lemma review_keeps q clock id w r w' :
  moderation_ok (wdb w) -> review_appeal store settings q clock id w = (Ok r, w') ->
  moderation_ok (wdb w') /\ records_stay (wdb w) (wdb w').
Proof.
  intros Hok H. pose proof (proj1 (proj1 Hok)) as Hk.
  apply review_appeal_ok in H as (a & b & e & Hc & -> & -> & Hp & Hcase & Happ & Haudit & _); [|done].
  rewrite !wdb_set_db. cbn [ar_post ar_case ar_appeal] in Hp, Hcase, Happ. split; [split|].
  - apply review_writes_ok; try done; [exact (proj1 Hok)|].
    pose proof (rc_appeal _ _ _ _ _ Hc) as Ha. pose proof (Hk TModerationAppeal _ _ Ha) as E.
    cbn [row_id] in E. by rewrite E.
  - by apply review_keeps_separation.
  - split; [intros k x; by rewrite review_writes_tbl|]. intros k x Hx Hs.
    rewrite review_writes_tbl. cbv zeta. rewrite lookup_insert_ne; [exact Hx|]. intros <-.
    pose proof (rc_appeal _ _ _ _ _ Hc) as Ha. pose proof (Hk TModerationAppeal _ _ Ha) as E.
    cbn [row_id] in E. rewrite <- E in Ha. pose proof (eq_trans (eq_sym Ha) Hx) as E'.
    injection E' as E'. apply Hs. rewrite <- E'. exact (rc_submitted _ _ _ _ _ Hc).
Qed.

Lemma moderation_steps_keep w w' :
  moderation_ok (wdb w) -> rtc moderation_step w w' ->
  moderation_ok (wdb w') /\ records_stay (wdb w) (wdb w').
Proof.
  intros H Hs. induction Hs as [w|w w1 w' Hstep _ IH]; [done|].
  assert (moderation_ok (wdb w1) /\ records_stay (wdb w) (wdb w1)) as [H1 S1].
  { destruct Hstep as [q clock id res w1 Ht|q clock id res w1 Ht|f]; [| |done].
    - apply transaction_cases in Ht as [(x & _ & Ht)|E]; [by eapply decide_keeps|by rewrite E].
    - apply transaction_cases in Ht as [(x & _ & Ht)|E]; [by eapply review_keeps|by rewrite E]. }
  destruct (IH H1) as [H2 S2]. split; [exact H2|]. by apply records_stay_trans with (wdb w1).
Qed.
(** C30: Over every sequence of committed or rolled back moderation decisions and
    appeal reviews, the rows stay well formed and within the UNIQUE constraints,
    every decided case is closed and was decided by someone other than its
    subject, every reviewed appeal was reviewed by neither the deciding moderator
    nor the subject, and recorded decisions and reviewed appeals are never
    changed or removed. *)
Theorem moderation_invariant w w' :
  moderation_ok (wdb w) -> rtc moderation_step w w' ->
  moderation_ok (wdb w') /\ records_stay (wdb w) (wdb w').
Proof. apply moderation_steps_keep. Qed.

(** C31: A successful decision passed every check (independent moderator, open
    undecided case, stored Markdown of a published post, expected snapshot); it
    closes the case for ninety days' retention, records exactly one decision bound
    to the evidence digest and one audit event, withholds the post with one change
    event only when asked to, and touches nothing else. *)
Theorem decide_case_spec q clock id w r w' :
  keys_ok (wdb w) -> decide_case store settings q clock id w = (Ok r, w') ->
  exists a b e, decide_checked q w a b e /\
  let at_ := default clock (dq_now q) in
  wfs w' = wfs w /\
  tbl (wdb w') TModerationCase = <[dq_case_id q := dr_case r]> (tbl (wdb w) TModerationCase) /\
  ModerationCase.status (dr_case r) = u (if withholds q then "withheld" else "dismissed") /\
  ModerationCase.closed_at (dr_case r) = Some at_ /\
  ModerationCase.retention_expires_at (dr_case r) = Some (dt_add at_ (days 90)) /\
  tbl (wdb w) TModerationDecision !! id.1 = None /\
  tbl (wdb w') TModerationDecision = <[id.1 := dr_decision r]> (tbl (wdb w) TModerationDecision) /\
  ModerationDecision.case_id (dr_decision r) = dq_case_id q /\
  ModerationDecision.moderator_id (dr_decision r) = auth_moderator_id a /\
  ModerationDecision.evidence_snapshot_sha256 (dr_decision r) = Some (snapshot_sha256 e) /\
  (exists audit, tbl (wdb w') TModerationAuditEvent
     = <[id.2 := audit]> (tbl (wdb w) TModerationAuditEvent) /\
     ModerationAuditEvent.actor_id audit = auth_moderator_id a) /\
  (if withholds q
   then tbl (wdb w') TPost = <[ModerationCase.post_id (cb_case b) := dr_post r]> (tbl (wdb w) TPost) /\
        Post.status (dr_post r) = u "withheld" /\ Post.withheld_at (dr_post r) = Some at_ /\
        change_events (wdb w') = <[next_sequence (wdb w) :=
          system_change (dr_post r) "post.withheld" at_ (next_sequence (wdb w))]> (change_events (wdb w))
   else tbl (wdb w') TPost = tbl (wdb w) TPost /\ change_events (wdb w') = change_events (wdb w)) /\
  forall t, t <> TModerationCase -> t <> TModerationDecision -> t <> TModerationAuditEvent ->
    t <> TPost -> tbl (wdb w') t = tbl (wdb w) t.
Proof.
  intros Hk H. apply decide_case_ok in H as (a & b & e & Hc & -> & -> & _ & _ & Hd & _); [|done].
  exists a, b, e. split; [done|]. cbv zeta. cbn [dr_post dr_case dr_decision] in *.
  pose proof (Hk TModerationCase _ _ (dc_case _ _ _ _ _ Hc)) as Hid. cbn [row_id] in Hid.
  pose proof (can_insert_fresh _ _ _ Hd) as [_ Hfresh].
  destruct (dc_linked _ _ _ _ _ Hc) as (_ & Hpost & _).
  rewrite !wdb_set_db, !decide_writes_tbl. cbv zeta. rewrite Hid, Hpost. split_and!; try done.
  - by eexists.
  - rewrite decide_writes_events. unfold decided_post. destruct (withholds q); done.
  - intros t ????. rewrite decide_writes_tbl. by destruct t.
Qed.

(** C32: A successful review passed every check (submitted appeal of a withhold
    decision, reviewer distinct from moderator and subject, stored Markdown,
    expected snapshot); it closes the appeal and the case with the requested
    outcome, republishes the post only when a withheld post's decision is
    overturned, leaves the decision alone, and touches nothing else. *)
Theorem review_appeal_spec q clock id w r w' :
  keys_ok (wdb w) -> review_appeal store settings q clock id w = (Ok r, w') ->
  exists a b e, review_checked q w a b e /\
  let at_ := default clock (rq_now q) in
  wfs w' = wfs w /\
  tbl (wdb w') TModerationAppeal = <[rq_appeal_id q := ar_appeal r]> (tbl (wdb w) TModerationAppeal) /\
  ModerationAppeal.status (ar_appeal r) = u (if overturns q then "overturned" else "upheld") /\
  ModerationAppeal.appeal_reviewer_id (ar_appeal r) = Some (auth_appeal_reviewer_id a) /\
  ModerationAppeal.review_snapshot_sha256 (ar_appeal r) = Some (snapshot_sha256 e) /\
  tbl (wdb w') TModerationCase
    = <[ModerationAppeal.case_id (ab_appeal b) := ar_case r]> (tbl (wdb w) TModerationCase) /\
  ModerationCase.status (ar_case r)
    = u (if overturns q then "appeal_overturned" else "appeal_upheld") /\
  ModerationCase.retention_expires_at (ar_case r) = Some (dt_add at_ (days 90)) /\
  (exists audit, tbl (wdb w') TModerationAuditEvent
     = <[id := audit]> (tbl (wdb w) TModerationAuditEvent) /\
     ModerationAuditEvent.actor_id audit = auth_appeal_reviewer_id a) /\
  (if overturns q && eqs (Post.status (ab_post b)) "withheld"
   then tbl (wdb w') TPost = <[ModerationCase.post_id (ab_case b) := ar_post r]> (tbl (wdb w) TPost) /\
        Post.status (ar_post r) = u "published" /\ Post.withheld_at (ar_post r) = None /\
        change_events (wdb w') = <[next_sequence (wdb w) :=
          system_change (ar_post r) "post.restored" at_ (next_sequence (wdb w))]> (change_events (wdb w))
   else tbl (wdb w') TPost = tbl (wdb w) TPost /\ change_events (wdb w') = change_events (wdb w)) /\
  forall t, t <> TModerationCase -> t <> TModerationAppeal -> t <> TModerationAuditEvent ->
    t <> TPost -> tbl (wdb w') t = tbl (wdb w) t.
Proof.
  intros Hk H. apply review_appeal_ok in H as (a & b & e & Hc & -> & -> & _); [|done].
  exists a, b, e. split; [done|]. cbv zeta. cbn [ar_post ar_case ar_appeal].
  pose proof (Hk TModerationCase _ _ (rc_case _ _ _ _ _ Hc)) as Hid. cbn [row_id] in Hid.
  pose proof (Hk TModerationAppeal _ _ (rc_appeal _ _ _ _ _ Hc)) as Haid. cbn [row_id] in Haid.
  destruct (rc_linked _ _ _ _ _ Hc) as (_ & Hpost & _).
  rewrite !wdb_set_db, !review_writes_tbl. cbv zeta. rewrite Hid, Haid, Hpost. split_and!; try done.
  - by eexists.
  - rewrite review_writes_events. unfold reviewed_post. fold (restores q (ab_post b)).
    destruct (restores q (ab_post b)); done.
  - intros t ????. rewrite review_writes_tbl. by destruct t.
Qed.

(** ** Finality *)
Lemma decide_refused q clock id w :
  keys_ok (wdb w) ->
  (forall a b e, ~ decide_checked q w a b e) ->
  exists e, decide_case store settings q clock id w = (Raise e, w).
Proof.
  intros Hk H. destruct (decide_guards store settings q w) as [[[a b] e]|e] eqn:Hg.
  - destruct (H a b e). by apply decide_guards_ok.
  - exists e. unfold decide_case. by rewrite (act_bind_fail _ _ _ e w) by by rewrite Hg.
Qed.
Lemma review_refused q clock id w :
  keys_ok (wdb w) ->
  (forall a b e, ~ review_checked q w a b e) ->
  exists e, review_appeal store settings q clock id w = (Raise e, w).
Proof.
  intros Hk H. destruct (review_guards store settings q w) as [[[a b] e]|e] eqn:Hg.
  - destruct (H a b e). by apply review_guards_ok.
  - exists e. unfold review_appeal. by rewrite (act_bind_fail _ _ _ e w) by by rewrite Hg.
Qed.
(** Once a case has been decided, every later decision on it, in any state
    that later transitions lead to, is refused and changes nothing. *)
Theorem decided_once q clock id w r w1 w2 q' clock' id' :
  moderation_ok (wdb w) -> decide_case store settings q clock id w = (Ok r, w1) ->
  rtc moderation_step w1 w2 -> dq_case_id q' = dq_case_id q ->
  exists e, decide_case store settings q' clock' id' w2 = (Raise e, w2).
Proof.
  intros Hok H Hs Eq. pose proof (decide_keeps _ _ _ _ _ _ Hok H) as [H1 _].
  assert (exists x, tbl (wdb w1) TModerationDecision !! id.1 = Some x /\
    ModerationDecision.case_id x = dq_case_id q) as (x & Hx & Hcase).
  { pose proof (proj1 (proj1 Hok)) as Hk.
    apply decide_case_ok in H as (a & b & e & Hc & _ & -> & _); [|done].
    rewrite wdb_set_db, decide_writes_tbl. cbv zeta. rewrite lookup_insert_eq.
    exists (decision_row q id.1 a b (snapshot_sha256 e) (default clock (dq_now q))). split; [done|].
    exact (Hk TModerationCase _ _ (dc_case _ _ _ _ _ Hc)). }
  destruct (moderation_steps_keep _ _ H1 Hs) as [H2 S2]. apply decide_refused; [exact (proj1 (proj1 H2))|].
  intros a b e Hc. apply (dc_undecided _ _ _ _ _ Hc _ _ (proj1 S2 _ _ Hx)). by rewrite Eq.
Qed.

(** Once an appeal has been reviewed, every further review of it, in any state
    that later transitions lead to, is refused and changes nothing. *)
Theorem reviewed_once q clock id w r w1 w2 q' clock' id' :
  moderation_ok (wdb w) -> review_appeal store settings q clock id w = (Ok r, w1) ->
  rtc moderation_step w1 w2 -> rq_appeal_id q' = rq_appeal_id q ->
  exists e, review_appeal store settings q' clock' id' w2 = (Raise e, w2).
Proof.
  intros Hok H Hs Eq. pose proof (review_keeps _ _ _ _ _ _ Hok H) as [H1 _].
  pose proof (proj1 (proj1 Hok)) as Hk.
  assert (exists x, tbl (wdb w1) TModerationAppeal !! rq_appeal_id q = Some x /\
    ModerationAppeal.status x <> u "submitted") as (x & Hx & Hst).
  { apply review_appeal_ok in H as (a & b & e & Hc & _ & -> & _); [|done].
    pose proof (Hk TModerationAppeal _ _ (rc_appeal _ _ _ _ _ Hc)) as Haid. cbn [row_id] in Haid.
    rewrite wdb_set_db, review_writes_tbl. cbv zeta. rewrite Haid, lookup_insert_eq.
    eexists. split; [reflexivity|].
    change (u (if overturns q then "overturned" else "upheld") <> u "submitted").
    by destruct (overturns q). }
  destruct (moderation_steps_keep _ _ H1 Hs) as [H2 S2]. apply review_refused; [exact (proj1 (proj1 H2))|].
  intros a b e Hc. pose proof (rc_appeal _ _ _ _ _ Hc) as Ha. rewrite Eq in Ha.
  pose proof (eq_trans (eq_sym (proj2 S2 _ _ Hx Hst)) Ha) as E. injection E as ->.
  exact (Hst (rc_submitted _ _ _ _ _ Hc)).
Qed.

(** ** Error paths *)
Definition res_raises {A : Type} (P : exn -> Prop) (m : Res A) : Prop := forall e, m = Raise e -> P e.
Lemma res_raises_bind {A B : Type} (P : exn -> Prop) (m : Res A) (k : A -> Res B) :
  res_raises P m -> (forall a, res_raises P (k a)) -> res_raises P (res_bind m k).
Proof. intros Hm Hk e. destruct m as [a|e']; simpl; [by apply Hk|]. intros [= ->]. by apply Hm. Qed.
Lemma res_raises_ok {A : Type} (P : exn -> Prop) (a : A) : res_raises P (Ok a).
Proof. by intros e. Qed.
Lemma res_raises_raise {A : Type} (P : exn -> Prop) e : P e -> res_raises P (Raise e : Res A).
Proof. by intros H e' [= <-]. Qed.

(** Storage and Markdown failures are reported as moderation errors. *)
Definition sanitized (e : exn) : Prop :=
  match e with StorageIntegrityError _ | MarkdownValidationError _ => False | _ => True end.
Lemma encode_sanitized s : res_raises sanitized (encode s).
Proof. intros e. unfold encode. destruct (utf8_encode s); [done|]. by intros [= <-]. Qed.
#[local] Hint Resolve res_raises_ok encode_sanitized : raises.
Ltac res_step :=
  first [ solve [eauto with raises]
        | apply res_raises_raise; exact I
        | apply res_raises_bind; [|intros ?]
        | case_match ].
Lemma text_digest_sanitized o : res_raises sanitized (text_digest o).
Proof. unfold text_digest. repeat res_step. Qed.
Lemma binding_sanitized l : res_raises sanitized (subject_binding l).
Proof. unfold subject_binding. repeat res_step. Qed.
#[local] Hint Resolve text_digest_sanitized binding_sanitized : raises.
Lemma reports_sanitized l : res_raises sanitized (map_res report_manifest l).
Proof.
  induction l as [|x l IH]; simpl; [apply res_raises_ok|]. apply res_raises_bind.
  - unfold report_manifest. repeat res_step.
  - intros y. repeat res_step.
Qed.
Lemma base_sanitized case post reports :
  res_raises sanitized (base_evidence_manifest case post reports).
Proof.
  unfold base_evidence_manifest. apply res_raises_bind; [apply binding_sanitized|]. intros b.
  apply res_raises_bind; [apply reports_sanitized|]. intros rs. apply res_raises_ok.
Qed.
#[local] Hint Resolve base_sanitized : raises.
Lemma snapshot_sanitized post manifest f : res_raises sanitized (verified_snapshot store post manifest f).
Proof.
  unfold verified_snapshot. apply res_raises_bind.
  - intros e. destruct (verify_post store post f) as [x|e']; [done|].
    change (@Raise str (storage_error e') = Raise e -> sanitized e). intros H. injection H as <-.
    by destruct e'.
  - intros md. unfold evidence_manifest_sha256. repeat res_step.
Qed.
Lemma expected_sanitized expected actual : res_raises sanitized (require_expected_snapshot expected actual).
Proof. unfold require_expected_snapshot. repeat res_step. Qed.
Lemma configured_sanitized : res_raises sanitized (configured_moderation_authorities settings).
Proof. unfold configured_moderation_authorities. repeat res_step. Qed.
Lemma validate_sanitized case post reports : res_raises sanitized (validate_reports case post reports).
Proof. unfold validate_reports. repeat res_step. Qed.
#[local] Hint Resolve snapshot_sanitized expected_sanitized configured_sanitized validate_sanitized : raises.
Lemma lock_case_sanitized d case_id expected allow :
  res_raises sanitized (lock_case_review_bundle d case_id expected allow).
Proof. unfold lock_case_review_bundle. repeat res_step. Qed.
Lemma lock_appeal_sanitized d appeal_id : res_raises sanitized (lock_appeal_review_bundle d appeal_id).
Proof. unfold lock_appeal_review_bundle. repeat res_step. Qed.
#[local] Hint Resolve lock_case_sanitized lock_appeal_sanitized : raises.
Lemma decide_guards_sanitized q w : res_raises sanitized (decide_guards store settings q w).
Proof.
  unfold decide_guards, case_evidence_snapshot, case_evidence_manifest. repeat res_step.
Qed.
Lemma review_guards_sanitized q w : res_raises sanitized (review_guards store settings q w).
Proof.
  unfold review_guards, appeal_evidence_snapshot, appeal_evidence_manifest, decision_manifest,
    appeal_manifest. repeat res_step.
Qed.
Lemma raises_session_save (P : exn -> Prop) t r :
  P IntegrityError -> raises_in P (on_db (session_save t r)).
Proof.
  intros H w e w'. unfold on_db. destruct (session_save t r (wdb w)) eqn:E.
  apply session_save_spec in E as [(-> & _)|(-> & _)]; [done|]. by intros [= <- _].
Qed.
Lemma post_writes_raises (changed : bool) event at_ post :
  raises_in (eq IntegrityError) (if changed then on_db (session_save TPost post) ;;;
    write_db (add_change_event (system_change post event at_)) else ret tt).
Proof.
  destruct changed; [|apply raises_ret]. apply raises_bind; [|intros _; apply raises_write_db].
  by apply raises_session_save.
Qed.
Lemma checked_raises {A B : Type} (g : world -> Res A) (k : A -> act world B) w e w' :
  (forall a, raises_in (eq IntegrityError) (k a)) ->
  act_bind (fun w => (g w, w)) k w = (Raise e, w') ->
  (g w = Raise e /\ w' = w) \/ e = IntegrityError.
Proof.
  intros Hk. unfold act_bind. destruct (g w) as [a|e'] eqn:E.
  - intros H. right. symmetry. by eapply Hk.
  - intros [= -> ->]. by left.
Qed.

(** A decision or a review that fails has either failed a check, before any
    write, or a database constraint; and it never lets a storage or Markdown
    validation failure escape unsanitized. *)
Theorem moderation_errors w e w' :
  (forall q clock id, decide_case store settings q clock id w = (Raise e, w') ->
     sanitized e /\ (e <> IntegrityError -> w' = w)) /\
  (forall q clock id, review_appeal store settings q clock id w = (Raise e, w') ->
     sanitized e /\ (e <> IntegrityError -> w' = w)).
Proof.
  split; intros q clock id H.
  - apply checked_raises in H as [[Hg ->]| ->]; [|by split|].
    + split; [by apply decide_guards_sanitized in Hg|done].
    + intros [[a b] ev]. cbv zeta. apply raises_bind; [apply post_writes_raises|intros _].
      repeat (apply raises_bind; [first [by apply raises_session_add|by apply raises_session_save]|intros _]).
      apply raises_ret.
  - apply checked_raises in H as [[Hg ->]| ->]; [|by split|].
    + split; [by apply review_guards_sanitized in Hg|done].
    + intros [[a b] ev]. cbv zeta.
      do 2 (apply raises_bind; [by apply raises_session_save|intros _]).
      apply raises_bind; [apply post_writes_raises|intros _].
      apply raises_bind; [by apply raises_session_add|intros _]. apply raises_ret.
Qed.
End service.

(** ** A concrete case: withheld, appealed, overturned *)
Module ModDemo.
(** A validator that knows one post. *)
Definition frontmatter : list (str * pyval) :=
  [(u "id", PStr (u "p")); (u "author_profile_handle", PStr (u "ann")); (u "version", PInt 1);
   (u "published_at", PStr (u "1970-01-01T00:00:00Z"))].
#[global] Program Instance demo_markdown : CanonicalMarkdown := {|
  validate_canonical kind markdown :=
    if eqs kind "post" then Ok (frontmatter, markdown) else Raise (MarkdownValidationError (u "kind"))
|}.
Next Obligation. intros kind markdown e. simpl. destruct (eqs kind "post"); [done|]. intros [= <-]. eauto. Qed.
Definition t0 : datetime := MkDatetime 0 (Some 0).
Definition now : datetime := MkDatetime 10000000 (Some 0).
Definition settings : Settings :=
  MkSettings (Some (u "mod")) (Some (u "content_moderator")) (Some (u "rev"))
    (Some (u "appeal_reviewer")).
Definition store : VersionStore := StoreDemo.store.
Definition post : Post :=
  Post.Mk (u "p") (u "owner") (u "doc") (u "ann") (u "published") 1 StoreDemo.digest StoreDemo.rel
    t0 t0 t0 None None.
Definition case : ModerationCase :=
  ModerationCase.Mk (u "c") (u "p") (u "owner") (u "open") t0 t0 None None None.
Definition report : PostReport :=
  PostReport.Mk (u "r") (u "p") (u "c") (u "reporter") (u "spam") (Some (u "ads")) t0.
Definition db0 : db :=
  put TPostReport (u "r") report (put TModerationCase (u "c") case (put TPost (u "p") post empty_db)).
Definition w0 : world := MkWorld db0 StoreDemo.written.
Definition ok_or {A : Type} (default : A) (m : Res A) : A :=
  match m with Ok a => a | Raise _ => default end.
Definition manifest : pyval := ok_or PNone (case_evidence_manifest case post [report]).
Definition seen : str := ok_or [] (evidence_manifest_sha256 manifest).
Definition q : DecideRequest :=
  MkDecide (u "c") None (u "withhold") (u "spam") (u "ads") (u "human") (Some seen) (Some now).
Definition decide : act world ModerationDecisionResult :=
  decide_case store settings q now (u "d", u "audit").
Definition w1 : world := (decide w0).2.
(* the subject has appealed *)
Definition decision : ModerationDecision :=
  ModerationDecision.Mk (u "d") (u "c") (u "p") (u "mod") (u "content_moderator") (u "withhold")
    (u "spam") (u "ads") None None None now.
Definition appeal : ModerationAppeal :=
  ModerationAppeal.Mk (u "a") (u "c") (u "d") (u "owner") (Some (u "why")) (u "submitted") now
    None None None None None None.
Definition appealed_case : ModerationCase :=
  ModerationCase.Mk (u "c") (u "p") (u "owner") (u "appealed") t0 t0 None None None.
Definition held_post : Post := withheld_post now post.
Definition db_appealed : db :=
  put TModerationAppeal (u "a") appeal (put TModerationDecision (u "d") decision
    (put TModerationCase (u "c") appealed_case
      (put TPost (u "p") held_post empty_db))).
Definition w2 : world := MkWorld db_appealed StoreDemo.written.
Definition rq : ReviewRequest :=
  MkReview (u "a") (u "overturn") (u "restored") (u "human") None (Some now).
Definition review : act world ModerationAppealResult :=
  review_appeal store settings rq now (u "audit").
Definition w3 : world := (review w2).2.

Lemma empty_ok : db_ok empty_db.
Proof.
  split_and!; intros t k r; try (intros ? ? H); try intros H;
    by destruct (lookup_empty_Some (M:=gmap str) k r).
Qed.
(* a first row in each table *)
Lemma first_row t r d : db_ok d -> tbl d t = ∅ -> row_ok t r = true -> db_ok (put t (row_id t r) r d).
Proof.
  intros Hd He Hr. apply db_ok_put; [done..|]. intros k' r' H _. exfalso. rewrite He in H.
  exact (lookup_empty_Some (M:=gmap str) k' r' H).
Qed.
Ltac fresh_table := rewrite ?tbl_put_ne by discriminate; reflexivity.
Lemma w0_db_ok : db_ok (wdb w0).
Proof.
  apply (first_row TPostReport report); [|fresh_table|by vm_compute].
  apply (first_row TModerationCase case); [|fresh_table|by vm_compute].
  apply (first_row TPost post); [apply empty_ok|fresh_table|by vm_compute].
Qed.
Lemma empty_table d t : tbl d t = ∅ -> forall k r, tbl d t !! k = Some r -> False.
Proof. intros E k r H. rewrite E in H. exact (lookup_empty_Some (M:=gmap str) k r H). Qed.
Lemma case_open_ok : moderation_ok (wdb w0).
Proof.
  split; [exact w0_db_ok|]. split; intros k x H; exfalso.
  - refine (empty_table _ TModerationDecision _ k x H). fresh_table.
  - refine (empty_table _ TModerationAppeal _ k x H). fresh_table.
Qed.
Lemma w2_db_ok : db_ok (wdb w2).
Proof.
  apply (first_row TModerationAppeal appeal); [|fresh_table|by vm_compute].
  apply (first_row TModerationDecision decision); [|fresh_table|by vm_compute].
  apply (first_row TModerationCase appealed_case);
    [|fresh_table|by vm_compute].
  apply (first_row TPost held_post); [apply empty_ok|fresh_table|by vm_compute].
Qed.
Lemma one_row t k (r x : row t) i : (<[k := r]> (∅ : gmap str (row t))) !! i = Some x -> i = k /\ x = r.
Proof. intros H. apply lookup_insert_Some in H as [[-> ->]|[_ H]]; [done|]. by apply lookup_empty_Some in H. Qed.
Lemma case_appealed_ok : moderation_ok (wdb w2).
Proof.
  split; [exact w2_db_ok|]. split; intros k x H.
  - apply (one_row TModerationDecision (u "d") decision x k) in H as [-> ->].
    exists appealed_case.
    split_and!; [reflexivity|vm_compute; discriminate..].
  - apply (one_row TModerationAppeal (u "a") appeal x k) in H as [-> ->]. exists decision.
    split_and!; [reflexivity|reflexivity|discriminate].
Qed.
Lemma decided : exists r, decide w0 = (Ok r, w1).
Proof.
  assert (is_ok (decide w0).1 = true) as H by by vm_compute.
  destruct ((decide w0).1) as [r|e] eqn:E; [|discriminate H]. exists r.
  exact (eq_trans (run_pair decide w0) (f_equal (fun x => (x, w1)) E)).
Qed.
Lemma reviewed : exists r, review w2 = (Ok r, w3).
Proof.
  assert (is_ok (review w2).1 = true) as H by by vm_compute.
  destruct ((review w2).1) as [r|e] eqn:E; [|discriminate H]. exists r.
  exact (eq_trans (run_pair review w2) (f_equal (fun x => (x, w3)) E)).
Qed.
Lemma manifest_ok : case_evidence_manifest case post [report] = Ok manifest.
Proof. vm_compute. reflexivity. Qed.
Lemma seen_ok : evidence_manifest_sha256 manifest = Ok seen.
Proof. vm_compute. reflexivity. Qed.
(* a decision by the subject itself *)
Definition own_settings : Settings :=
  MkSettings (Some (u "owner")) (Some (u "content_moderator")) (Some (u "rev"))
    (Some (u "appeal_reviewer")).
Definition own_decide : act world ModerationDecisionResult :=
  decide_case store own_settings q now (u "d", u "audit").
Definition independent_error : exn :=
  PostModerationConflictError (u "post moderator is not independent for this case").
Lemma own_refused : own_decide w0 = (Raise independent_error, (own_decide w0).2).
Proof. refine (eq_trans (run_pair own_decide w0) (f_equal (fun x => (x, _)) _)). by vm_compute. Qed.
Lemma decide_step : rtc (moderation_step store settings) w0 w1.
Proof.
  destruct decided as [r H]. apply rtc_once. eapply (step_decide store settings w0 q now (u "d", u "audit")).
  by apply transaction_ok.
Qed.
End ModDemo.
#[local] Opaque ModDemo.w1 ModDemo.w3 ModDemo.seen ModDemo.manifest.

Lemma moderation_invariant_witness :
  moderation_ok (wdb ModDemo.w1) /\ records_stay (wdb ModDemo.w0) (wdb ModDemo.w1).
Proof.
  exact (moderation_invariant ModDemo.store ModDemo.settings ModDemo.w0 ModDemo.w1 ModDemo.case_open_ok
    ModDemo.decide_step).
Defined.
Lemma decide_case_spec_witness :
  exists r, tbl (wdb ModDemo.w1) TModerationCase
    = <[dq_case_id ModDemo.q := dr_case r]> (tbl (wdb ModDemo.w0) TModerationCase).
Proof.
  destruct ModDemo.decided as [r H]. unfold ModDemo.decide in H. exists r.
  destruct (decide_case_spec ModDemo.store ModDemo.settings ModDemo.q ModDemo.now (u "d", u "audit")
    ModDemo.w0 r ModDemo.w1 (proj1 ModDemo.w0_db_ok) H) as (a & b & e & _ & _ & E & _). exact E.
Defined.
Lemma review_appeal_spec_witness :
  exists r, tbl (wdb ModDemo.w3) TModerationAppeal
    = <[rq_appeal_id ModDemo.rq := ar_appeal r]> (tbl (wdb ModDemo.w2) TModerationAppeal).
Proof.
  destruct ModDemo.reviewed as [r H]. unfold ModDemo.review in H. exists r.
  destruct (review_appeal_spec ModDemo.store ModDemo.settings ModDemo.rq ModDemo.now (u "audit")
    ModDemo.w2 r ModDemo.w3 (proj1 ModDemo.w2_db_ok) H) as (a & b & e & _ & _ & E & _). exact E.
Defined.
Lemma decided_once_witness :
  exists e, decide_case ModDemo.store ModDemo.settings ModDemo.q ModDemo.t0 (u "d2", u "audit2")
    ModDemo.w1 = (Raise e, ModDemo.w1).
Proof.
  destruct ModDemo.decided as [r H]. unfold ModDemo.decide in H.
  exact (decided_once ModDemo.store ModDemo.settings ModDemo.q ModDemo.now (u "d", u "audit")
    ModDemo.w0 r ModDemo.w1 ModDemo.w1 ModDemo.q ModDemo.t0 (u "d2", u "audit2") ModDemo.case_open_ok H
    (rtc_refl _ _) eq_refl).
Defined.
Lemma reviewed_once_witness :
  exists e, review_appeal ModDemo.store ModDemo.settings ModDemo.rq ModDemo.t0 (u "audit2")
    ModDemo.w3 = (Raise e, ModDemo.w3).
Proof.
  destruct ModDemo.reviewed as [r H]. unfold ModDemo.review in H.
  exact (reviewed_once ModDemo.store ModDemo.settings ModDemo.rq ModDemo.now (u "audit")
    ModDemo.w2 r ModDemo.w3 ModDemo.w3 ModDemo.rq ModDemo.t0 (u "audit2") ModDemo.case_appealed_ok H
    (rtc_refl _ _) eq_refl).
Defined.
Lemma moderation_errors_witness : (ModDemo.own_decide ModDemo.w0).2 = ModDemo.w0.
Proof.
  apply (proj1 (moderation_errors ModDemo.store ModDemo.own_settings ModDemo.w0
    ModDemo.independent_error (ModDemo.own_decide ModDemo.w0).2) _ _ _ ModDemo.own_refused).
  discriminate.
Defined.
