(* ===== verification/ModerationEvidence.v ===== *)
(** * What an evidence snapshot binds

    The digest a moderator or appeal reviewer approves is the SHA-256 of the
    canonical JSON of a manifest.  Its text is read back by the JSON parser, so
    equal digests mean equal manifests unless two known texts collide. *)
From S2P Require Import Prelude PyTime Json Models Database Sha256 Storage JsonText World PostModeration PostModerationSafety.
Local Open Scope Z_scope.

(** ** The manifests are plain JSON values *)
Lemma plain_utc o : plain (utc_text o).
Proof. destruct o; simpl; [apply text_iso|done]. Qed.
Lemma plain_text_digest o v : text_digest o = Ok v -> plain v.
Proof.
  unfold text_digest. destruct o; [|by intros [= <-]]. intros H.
  apply res_bind_ok in H as (b & _ & H). injection H as <-. apply text_digest_hex.
Qed.
Lemma canon_text_digest o v : text_digest o = Ok v -> canon v = v.
Proof.
  unfold text_digest. destruct o; [|by intros [= <-]]. intros H.
  apply res_bind_ok in H as (b & _ & H). by injection H as <-.
Qed.
Lemma plain_binding l v : subject_binding l = Ok v -> plain v.
Proof.
  unfold subject_binding. intros H. apply res_bind_ok in H as (b & _ & H). injection H as <-.
  apply text_digest_hex.
Qed.
#[local] Hint Resolve plain_utc : text.

(** The text columns a case manifest carries verbatim. *)
Definition case_text (case : ModerationCase) : Prop :=
  text (ModerationCase.id case) /\ text (ModerationCase.post_id case) /\
  text (ModerationCase.status case).
Definition post_text (post : Post) : Prop :=
  text (Post.id post) /\ text (Post.status post) /\ text (Post.sha256 post).
Definition report_text (report : PostReport) : Prop :=
  text (PostReport.id report) /\ text (PostReport.reason_code report).

Lemma plain_report report v : report_text report -> report_manifest report = Ok v -> plain v.
Proof.
  intros [Hid Hreason] H. apply res_bind_ok in H as (n & Hn & H). injection H as <-.
  apply plain_text_digest in Hn.
  plain_members; try done. apply text_iso.
Qed.
Lemma plain_case case post b : case_text case -> plain b -> plain (case_manifest case post b).
Proof. intros (? & ? & ?) Hb. plain_members; try done; try apply text_iso; apply plain_utc. Qed.
Lemma plain_post post : post_text post -> plain (post_manifest post).
Proof. intros (? & ? & ?). plain_members; try done; try apply text_iso; apply plain_utc. Qed.
Lemma map_res_ok {A B : Type} (f : A -> Res B) l l' :
  map_res f l = Ok l' -> Forall2 (fun x y => f x = Ok y) l l'.
Proof.
  revert l'. induction l as [|x l IH]; simpl; intros l' H; [injection H as <-; constructor|].
  apply res_bind_ok in H as (y & Hy & H). apply res_bind_ok in H as (ys & Hys & H).
  injection H as <-. constructor; [done|by apply IH].
Qed.
(** The evidence a case snapshot shows: rows whose text is Python text. *)
Definition evidence_text (case : ModerationCase) (post : Post) (reports : list PostReport) : Prop :=
  case_text case /\ post_text post /\ Forall report_text reports.

Lemma case_manifest_inv case post reports m :
  case_evidence_manifest case post reports = Ok m ->
  exists binding rs, subject_binding [ModerationCase.subject_owner_id case; Post.owner_id post]
      = Ok binding /\ map_res report_manifest reports = Ok rs /\
    m = PDict [(u "schema", PStr (u "connect.md/post-moderation-evidence"));
               (u "schema_version", PInt 1); (u "case", case_manifest case post binding);
               (u "post", post_manifest post); (u "reports", PList rs);
               (u "purpose", PStr (u "initial_decision")); (u "decision", PNone);
               (u "appeal", PNone)].
Proof.
  intros H. apply res_bind_ok in H as (base & Hb & H). injection H as <-.
  apply res_bind_ok in Hb as (binding & Hbind & Hb). apply res_bind_ok in Hb as (rs & Hrs & Hb).
  injection Hb as <-. by exists binding, rs.
Qed.
Lemma case_manifest_plain case post reports m :
  evidence_text case post reports -> case_evidence_manifest case post reports = Ok m -> plain m.
Proof.
  intros (Hc & Hp & Hr) H. apply case_manifest_inv in H as (binding & rs & Hb & Hrs & ->).
  apply plain_binding in Hb. apply map_res_ok in Hrs. plain_members; try done; try apply text_u.
  - by apply plain_case.
  - by apply plain_post.
  - apply plain_list. clear - Hr Hrs. induction Hrs as [|r v rs' vs Hv _ IH]; [constructor|].
    apply Forall_cons in Hr as [Hr1 Hr2]. constructor; [by eapply plain_report|by apply IH].
Qed.

(** ** What equal digests mean *)
Definition report_evidence (report : PostReport) : str * str * Res pyval :=
  (PostReport.id report, PostReport.reason_code report, text_digest (PostReport.narrative report)).
(** The facts a moderator rules on. *)
Definition same_evidence (case : ModerationCase) (post : Post) (reports : list PostReport)
  (case' : ModerationCase) (post' : Post) (reports' : list PostReport) : Prop :=
  ModerationCase.id case = ModerationCase.id case' /\
  ModerationCase.status case = ModerationCase.status case' /\
  Post.id post = Post.id post' /\ Post.status post = Post.status post' /\
  Post.current_version post = Post.current_version post' /\
  Post.sha256 post = Post.sha256 post' /\
  map report_evidence reports = map report_evidence reports'.
(** Two different texts with the same SHA-256. *)
Definition collision (m m' : pyval) : Prop :=
  exists b b', encode (dumps false m) = Ok b /\ encode (dumps false m') = Ok b' /\
    b <> b' /\ sha256_hex b = sha256_hex b'.

(** Equal digests: the same manifest up to key order, or a collision. *)
Lemma digest_binds m m' s :
  plain m -> plain m' ->
  evidence_manifest_sha256 m = Ok s -> evidence_manifest_sha256 m' = Ok s ->
  canon m = canon m' \/ collision m m'.
Proof.
  intros Hm Hm' H H'. apply res_bind_ok in H as (b & Hb & H). apply res_bind_ok in H' as (b' & Hb' & H').
  destruct (decide (b = b')) as [<-|Hne].
  - left. apply dumps_injective; [done..|].
    apply encode_inj with b; [by apply text_dumps..|exact Hb|exact Hb'].
  - right. exists b, b'. split_and!; [done..|]. congruence.
Qed.
Lemma reports_bound reports reports' rs rs' :
  Forall report_text reports -> Forall report_text reports' ->
  map_res report_manifest reports = Ok rs -> map_res report_manifest reports' = Ok rs' ->
  map canon rs = map canon rs' -> map report_evidence reports = map report_evidence reports'.
Proof.
  intros Ht Ht' H%map_res_ok H'%map_res_ok. revert reports' rs' Ht' H'.
  induction H as [|r v reports rs Hv _ IH]; intros reports' rs' Ht' H'; inversion H'; subst; try done.
  intros E. injection E as E1 E2. apply Forall_cons in Ht as [Hr Ht], Ht' as [Hr' Ht'].
  cbn [map]. f_equal; [|by eapply IH].
  pose proof (plain_report _ _ Hr Hv) as Hp. pose proof (plain_report _ _ Hr' H) as Hp'.
  apply res_bind_ok in Hv as (n & Hn & Hv). injection Hv as <-.
  apply res_bind_ok in H as (n' & Hn' & H). injection H as <-.
  pose proof (canon_member (u "narrative_sha256") _ _ (plain_keys _ Hp) (plain_keys _ Hp') E1) as M.
  unfold report_evidence. f_equal; [f_equal|].
  - eapply (canon_str (u "id")); [exact Hp|exact Hp'|exact E1|reflexivity..].
  - eapply (canon_str (u "reason_code")); [exact Hp|exact Hp'|exact E1|reflexivity..].
  - rewrite Hn, Hn'. f_equal. cbn in M. injection M as M.
    by rewrite <- (canon_text_digest _ _ Hn), <- (canon_text_digest _ _ Hn').
Qed.
Lemma case_evidence_bound case post reports case' post' reports' m m' :
  evidence_text case post reports -> evidence_text case' post' reports' ->
  case_evidence_manifest case post reports = Ok m ->
  case_evidence_manifest case' post' reports' = Ok m' -> canon m = canon m' ->
  same_evidence case post reports case' post' reports'.
Proof.
  intros Ht Ht' H H' E.
  pose proof (case_manifest_plain _ _ _ _ Ht H) as Hp.
  pose proof (case_manifest_plain _ _ _ _ Ht' H') as Hp'.
  destruct Ht as (Hc & Hpo & Hr), Ht' as (Hc' & Hpo' & Hr').
  apply case_manifest_inv in H as (b & rs & Hb & Hrs & ->).
  apply case_manifest_inv in H' as (b' & rs' & Hb' & Hrs' & ->).
  apply plain_binding in Hb, Hb'.
  pose proof (fun k => canon_member k _ _ (plain_keys _ Hp) (plain_keys _ Hp') E) as M.
  assert (canon (case_manifest case post b) = canon (case_manifest case' post' b')) as Ec
    by exact (inj Some _ _ (M (u "case"))).
  assert (canon (post_manifest post) = canon (post_manifest post')) as Ep
    by exact (inj Some _ _ (M (u "post"))).
  assert (map canon rs = map canon rs') as Er
    by (pose proof (M (u "reports")) as M1; by injection M1).
  pose proof (plain_case case post b Hc Hb) as P1. pose proof (plain_case case' post' b' Hc' Hb') as P1'.
  pose proof (plain_post post Hpo) as P2. pose proof (plain_post post' Hpo') as P2'.
  unfold same_evidence. split_and!.
  - exact (canon_str (u "id") _ _ _ _ P1 P1' Ec eq_refl eq_refl).
  - exact (canon_str (u "status") _ _ _ _ P1 P1' Ec eq_refl eq_refl).
  - exact (canon_str (u "id") _ _ _ _ P2 P2' Ep eq_refl eq_refl).
  - exact (canon_str (u "status") _ _ _ _ P2 P2' Ep eq_refl eq_refl).
  - pose proof (canon_member (u "current_version") _ _ (plain_keys _ P2) (plain_keys _ P2') Ep) as M1.
    by injection M1.
  - exact (canon_str (u "sha256") _ _ _ _ P2 P2' Ep eq_refl eq_refl).
  - by eapply reports_bound.
Qed.

(** The text columns of the moderation tables hold Python text. *)
Definition db_text (d : db) : Prop :=
  (forall k case, tbl d TModerationCase !! k = Some case -> case_text case) /\
  (forall k post, tbl d TPost !! k = Some post -> post_text post) /\
  (forall k report, tbl d TPostReport !! k = Some report -> report_text report).
Lemma case_reports_text i d : db_text d -> Forall report_text (case_reports i d).
Proof.
  intros (_ & _ & H). unfold case_reports. apply Forall_take. rewrite sort_by_perm.
  apply Forall_forall. intros r Hr. apply (elem_of_select TPostReport) in Hr as [[k Hk] _]. by eapply H.
Qed.

(** C33: A moderator who saw a case, its post and its reports, and sends the digest
    of that evidence as the precondition, can only decide on that same evidence:
    if the decision succeeds, the case status, the post's status, version and
    content digest, and the reports, are those seen, unless the two manifests'
    texts are an explicit SHA-256 collision. *)
Theorem snapshot_precondition `{CM : CanonicalMarkdown} store settings q clock id w r w'
  case post reports m seen :
  keys_ok (wdb w) -> db_text (wdb w) ->
  evidence_text case post reports ->
  case_evidence_manifest case post reports = Ok m -> evidence_manifest_sha256 m = Ok seen ->
  dq_expected_snapshot_sha256 q = Some seen ->
  decide_case store settings q clock id w = (Ok r, w') ->
  exists case' post' m', tbl (wdb w) TModerationCase !! dq_case_id q = Some case' /\
    tbl (wdb w) TPost !! ModerationCase.post_id case' = Some post' /\
    case_evidence_manifest case' post' (case_reports (dq_case_id q) (wdb w)) = Ok m' /\
    (same_evidence case post reports case' post' (case_reports (dq_case_id q) (wdb w))
     \/ collision m m').
Proof.
  intros Hk Ht Htext Hm Hseen Hexp H.
  apply decide_case_ok in H as (a & b & e & Hc & _); [|done].
  destruct (dc_evidence _ _ _ _ _ _ _ Hc) as (m' & Hm' & He).
  pose proof (dc_case _ _ _ _ _ _ _ Hc) as Hcase.
  destruct (dc_linked _ _ _ _ _ _ _ Hc) as (Hpost & _).
  rewrite (dc_reports _ _ _ _ _ _ _ Hc) in Hm'.
  rewrite <- (dc_expected _ _ _ _ _ _ _ Hc _ Hexp) in He.
  exists (cb_case b), (cb_post b), m'. split_and!; [done..|].
  assert (evidence_text (cb_case b) (cb_post b) (case_reports (dq_case_id q) (wdb w))) as Htext'.
  { split; [|split]; [exact (proj1 Ht _ _ Hcase)|exact (proj1 (proj2 Ht) _ _ Hpost)|].
    by apply case_reports_text. }
  pose proof (case_manifest_plain _ _ _ _ Htext Hm) as Hp.
  pose proof (case_manifest_plain _ _ _ _ Htext' Hm') as Hp'.
  destruct (digest_binds m m' seen Hp Hp' Hseen He) as [E|E]; [|by right].
  left. exact (case_evidence_bound _ _ _ _ _ _ _ _ Htext Htext' Hm Hm' E).
Qed.

Lemma demo_db_text : db_text (wdb ModDemo.w0).
Proof.
  unfold ModDemo.w0, ModDemo.db0. cbn [wdb].
  assert (forall t k (r x : row t) i, (<[k := r]> (∅ : gmap str (row t))) !! i = Some x -> x = r) as H1
    by (intros t k r x i H; by apply ModDemo.one_row in H as [_ ->]).
  split; [|split]; intros k x H; db_simpl.
  - apply (H1 TModerationCase) in H as ->. split_and!; apply text_u.
  - apply (H1 TPost) in H as ->. split; [apply text_u|]. split; [apply text_u|].
    apply text_digest_hex.
  - apply (H1 TPostReport) in H as ->. split; apply text_u.
Qed.
Lemma demo_reports : case_reports (u "c") (wdb ModDemo.w0) = [ModDemo.report].
Proof. vm_compute. reflexivity. Qed.
Lemma snapshot_precondition_witness :
  exists case' post' m', tbl (wdb ModDemo.w0) TModerationCase !! u "c" = Some case' /\
    tbl (wdb ModDemo.w0) TPost !! ModerationCase.post_id case' = Some post' /\
    case_evidence_manifest case' post' (case_reports (u "c") (wdb ModDemo.w0)) = Ok m' /\
    (same_evidence ModDemo.case ModDemo.post [ModDemo.report] case' post'
       (case_reports (u "c") (wdb ModDemo.w0)) \/ collision ModDemo.manifest m').
Proof.
  destruct ModDemo.decided as [r H]. unfold ModDemo.decide in H.
  assert (evidence_text ModDemo.case ModDemo.post [ModDemo.report]) as Ht.
  { pose proof (case_reports_text (u "c") _ demo_db_text) as Hr. rewrite demo_reports in Hr.
    split; [|split]; [|split_and!; [apply text_u..|apply text_digest_hex]|exact Hr].
    split_and!; apply text_u. }
  exact (snapshot_precondition ModDemo.store ModDemo.settings ModDemo.q ModDemo.now (u "d", u "audit")
    ModDemo.w0 r ModDemo.w1 ModDemo.case ModDemo.post [ModDemo.report] ModDemo.manifest ModDemo.seen
    (proj1 ModDemo.w0_db_ok) demo_db_text Ht ModDemo.manifest_ok ModDemo.seen_ok eq_refl H).
Defined.
