(* ===== verification/ProtocolArguments.v ===== *)
(** * Protocol argument validation (src/apps/api/app/protocol_arguments.py)

    The pure functions the HTTP, MCP and A2A edges share.  Arguments are decoded
    JSON ([pyval]); a dict is an association list with distinct keys.  The
    pydantic model of an outreach message is a parameter. *)
From S2P Require Import Prelude Json Sha256 Storage.
Local Open Scope Z_scope.

(** ** Python primitives on JSON values *)
Definition dict : Type := list (str * pyval).
(** [arguments.get(name, default)] *)
Definition get (name : string) (default_ : pyval) (arguments : dict) : pyval :=
  default default_ (dict_get (u name) arguments).
(** [set(arguments) - allowed] is not empty. *)
Definition unknown_fields (allowed : list string) (arguments : dict) : bool :=
  existsb (fun kv => negb (one_of kv.1 allowed)) arguments.
(** [set(arguments) != fields] *)
Definition fields_differ (fields : list string) (arguments : dict) : bool :=
  unknown_fields fields arguments || existsb (fun f => negb (has_key (u f) arguments)) fields.
(** [v in {...}]: a list or a dict is not hashable. *)
Definition member (none : bool) (names : list string) (v : pyval) : Res bool :=
  match v with
  | PList _ | PDict _ => Raise TypeError
  | PNone => Ok none
  | PStr s => Ok (one_of s names)
  | PBool _ | PInt _ | PFloat _ => Ok false
  end.
Definition is_none (v : pyval) : bool := match v with PNone => true | _ => false end.
(** [isinstance(v, int)] and not a bool, within bounds. *)
Definition int_within (lo hi : Z) (v : pyval) : bool :=
  match v with PInt n => (lo <=? n) && (n <=? hi) | _ => false end.
(** [isinstance(v, str) and lo <= len(v.strip()) <= hi] *)
Definition strip_within (lo hi : Z) (v : pyval) : bool :=
  match v with PStr s => (lo <=? len (strip s)) && (len (strip s) <=? hi) | _ => false end.
(** [isinstance(v, str) and lo <= len(v) <= hi] *)
Definition str_within (lo hi : Z) (v : pyval) : bool :=
  match v with PStr s => (lo <=? len s) && (len s <=? hi) | _ => false end.
Definition strip_value (v : pyval) : pyval := match v with PStr s => PStr (strip s) | _ => v end.
Definition blank (v : pyval) : bool :=
  match v with PStr s => bool_decide (strip s = []) | _ => false end.
(** [cursor is not None and (not str or not cursor.strip() or len(cursor) > max)] *)
Definition bad_cursor (max : Z) (v : pyval) : bool :=
  negb (is_none v) && (negb (str_within 0 max v) || blank v).
Definition text_of (v : pyval) : str := match v with PStr s => s | _ => [] end.
Definition int_of (v : pyval) : Z := match v with PInt n => n | _ => 0 end.
Definition opt_text (v : pyval) : option str := match v with PStr s => Some s | _ => None end.

(** ** Canonical UUIDs *)
Definition hex_digit_value (c : Z) : Z :=
  if c <=? 57 then c - 48 else if c <=? 70 then c - 55 else c - 87.
(** [UUID(value).int], for a value that parses: blanks, sign, [0x] and
    underscores do not contribute. *)
Definition uuid_int (value : str) : Z :=
  fold_left (fun acc c => acc * 16 + hex_digit_value c)
    (filter (fun c => is_hex_digit c = true) (uuid_hex value)) 0.
(** [str(uuid)] *)
Definition uuid_text (n : Z) : str :=
  let h := hex (be_bytes 16 n) in
  take 8 h ++ [45] ++ take 4 (drop 8 h) ++ [45] ++ take 4 (drop 12 h) ++ [45]
  ++ take 4 (drop 16 h) ++ [45] ++ drop 20 h.
Definition not_canonical : exn :=
  ValueError (u "agent outreach request id must be a canonical UUID").
(** [canonical_agent_outreach_request_id] *)
Definition canonical_agent_outreach_request_id (value : pyval) : Res str :=
  match value with
  | PStr s =>
      if negb (len s =? 36) then Raise not_canonical
      else if negb (uuid_parses s) then Raise not_canonical
      else if bool_decide (uuid_text (uuid_int s) = s) then Ok s else Raise not_canonical
  | _ => Raise not_canonical
  end.

Example canonical_uuid_example :
  canonical_agent_outreach_request_id (PStr (u "0b0e7a64-0000-4000-8000-00000000000f"))
  = Ok (u "0b0e7a64-0000-4000-8000-00000000000f").
Proof. vm_compute. reflexivity. Qed.
Example canonical_uuid_upper :
  canonical_agent_outreach_request_id (PStr (u "0B0e7a64-0000-4000-8000-00000000000f"))
  = Raise not_canonical.
Proof. vm_compute. reflexivity. Qed.

(** ** Search *)
Definition search_fields : list string :=
  ["mode"; "q"; "query"; "kind"; "skills"; "location"; "occupation_ids"; "industry_ids"; "skill_ids";
   "language_ids"; "location_id"; "location_country_code"; "location_region"; "location_city";
   "seniority_ids"; "seniority_id"; "work_modes"; "availability_status"; "availability_from";
   "open_to"; "open_to_ids"; "organization_ids"; "representative_ids"; "representation_status";
   "contact_disclosure"; "agent_capability"; "updated_after"; "updated_before"; "sort_updated";
   "facets"; "offset"; "limit"; "cursor"; "facet_limit"].
Definition list_bounds : list (string * (Z * Z)) :=
  [("skills", (50, 80)); ("occupation_ids", (50, 336)); ("industry_ids", (50, 336));
   ("skill_ids", (50, 336)); ("language_ids", (50, 336)); ("seniority_ids", (50, 336));
   ("work_modes", (20, 80)); ("open_to", (50, 336)); ("open_to_ids", (50, 336));
   ("organization_ids", (50, 336)); ("representative_ids", (50, 336)); ("facets", (30, 80))].
Definition scalar_bounds : list (string * Z) :=
  [("location_id", 336); ("location_region", 160); ("location_city", 160); ("seniority_id", 336);
   ("availability_status", 80); ("availability_from", 40); ("representation_status", 80);
   ("contact_disclosure", 80); ("updated_after", 40); ("updated_before", 40)].
Definition invalid : exn := ValueError (u "search fields are invalid").

(** [_ensure_search_repeated_value_cap] *)
Definition repeated_values (arguments : dict) : Z :=
  fold_right (fun kv acc => match kv.2 with PList l => len l + acc | _ => acc end) 0 arguments
  + (if is_none (get "seniority_id" PNone arguments) then 0 else 1).
Definition ensure_search_repeated_value_cap (arguments : dict) (max_repeated_values : Z) : Res unit :=
  if max_repeated_values <? repeated_values arguments
  then Raise (ValueError (u "search contains too many repeated taxonomy values"))
  else Ok tt.

Definition list_ok (maximum value_length : Z) (value : pyval) : bool :=
  match value with
  | PList items => (len items <=? maximum) && forallb (strip_within 1 value_length) items
  | _ => false
  end.
Definition strip_items (value : pyval) : pyval :=
  match value with PList items => PList (map strip_value items) | _ => value end.
(** The loop over [list_bounds]. *)
Fixpoint normalize_lists (bounds : list (string * (Z * Z))) (arguments normalized : dict) : Res dict :=
  match bounds with
  | [] => Ok normalized
  | (name, (maximum, value_length)) :: bounds =>
      let value := get name (PList []) arguments in
      if negb (list_ok maximum value_length value) then Raise invalid
      else normalize_lists bounds arguments (dict_set (u name) (strip_items value) normalized)
  end.
(** The loop over [scalar_bounds]. *)
Fixpoint normalize_scalars (bounds : list (string * Z)) (arguments normalized : dict) : Res dict :=
  match bounds with
  | [] => Ok normalized
  | (name, maximum) :: bounds =>
      let value := get name PNone arguments in
      if negb (is_none value) && negb (strip_within 1 maximum value) then Raise invalid
      else normalize_scalars bounds arguments (dict_set (u name) (strip_value value) normalized)
  end.

(** [protocol_search_arguments] *)
Definition protocol_search_arguments (value : pyval) (internal_contact_request_capability : str)
  (max_repeated_values : Z) : Res dict :=
  match value with
  | PDict arguments =>
      if unknown_fields search_fields arguments
      then Raise (ValueError (u "search contains unknown fields"))
      else if has_key (u "q") arguments && has_key (u "query") arguments
      then Raise (ValueError (u "q and query cannot both be supplied"))
      else
      let raw_query := get "q" (get "query" (PStr []) arguments) arguments in
      if negb (str_within 0 200 raw_query) then Raise invalid
      else
      let kind := get "kind" PNone arguments in
      let location := get "location" PNone arguments in
      let? kind_ok := member true ["profile"; "resume"] kind in
      if negb kind_ok || negb (is_none location) && negb (strip_within 0 160 location)
      then Raise invalid
      else
      let mode := get "mode" (PStr (u "projection")) arguments in
      let? mode_ok := member false ["projection"; "exact"] mode in
      if negb mode_ok then Raise invalid
      else
      let normalized := [(u "mode", mode); (u "q", strip_value raw_query); (u "kind", kind);
                         (u "location", strip_value location)] in
      let? normalized := normalize_lists list_bounds arguments normalized in
      let seniority_id := get "seniority_id" PNone arguments in
      let cap_arguments := if is_none seniority_id then normalized
                           else dict_set (u "seniority_id") seniority_id normalized in
      let? _ := map_exn (fun _ => invalid)
                  (ensure_search_repeated_value_cap cap_arguments max_repeated_values) in
      let? normalized := normalize_scalars scalar_bounds arguments normalized in
      let location_country_code := get "location_country_code" PNone arguments in
      if negb (is_none location_country_code) && negb (strip_within 1 3 location_country_code)
      then Raise invalid
      else
      let normalized := dict_set (u "location_country_code") (strip_value location_country_code)
                          normalized in
      let sort_updated := get "sort_updated" PNone arguments in
      let normalized := dict_set (u "sort_updated") sort_updated normalized in
      let? sort_ok := member true ["asc"; "desc"] sort_updated in
      if negb sort_ok then Raise invalid
      else
      let offset := get "offset" (PInt 0) arguments in
      let limit := get "limit" (PInt 20) arguments in
      if negb (int_within 0 1000 offset) || negb (int_within 1 50 limit) then Raise invalid
      else
      let normalized := dict_set (u "limit") limit (dict_set (u "offset") offset normalized) in
      let cursor := get "cursor" PNone arguments in
      if bad_cursor 2048 cursor then Raise invalid
      else
      let normalized := dict_set (u "cursor") cursor normalized in
      let facet_limit := get "facet_limit" (PInt 100) arguments in
      if negb (int_within 1 500 facet_limit) then Raise invalid
      else
      let normalized := dict_set (u "facet_limit") facet_limit normalized in
      let agent_capability := get "agent_capability" PNone arguments in
      if negb (is_none agent_capability)
         && negb (bool_decide (opt_text agent_capability = Some internal_contact_request_capability))
      then Raise invalid
      else Ok (dict_set (u "agent_capability") agent_capability normalized)
  | _ => Raise invalid
  end.

(** ** Agent listings *)
(** [protocol_profile_agents_arguments] *)
Definition protocol_profile_agents_arguments (arguments : dict) : Res (str * Z * option str) :=
  if unknown_fields ["profile_handle"; "limit"; "cursor"] arguments
  then Raise (ValueError (u "profile-agent listing contains unknown fields"))
  else
  let profile_handle := get "profile_handle" PNone arguments in
  let limit := get "limit" (PInt 20) arguments in
  let cursor := get "cursor" PNone arguments in
  if negb (str_within 1 100 profile_handle) || blank profile_handle || negb (int_within 1 50 limit)
     || bad_cursor 500 cursor
  then Raise (ValueError (u "profile-agent listing fields are invalid"))
  else Ok (strip (text_of profile_handle), int_of limit, opt_text cursor).

(** [protocol_agent_directory_arguments] *)
Definition protocol_agent_directory_arguments (arguments : dict) :
  Res (str * option str * Z * option str) :=
  if unknown_fields ["q"; "profile_handle"; "limit"; "cursor"] arguments
  then Raise (ValueError (u "agent-directory listing contains unknown fields"))
  else
  let query := get "q" (PStr []) arguments in
  let profile_handle := get "profile_handle" PNone arguments in
  let limit := get "limit" (PInt 20) arguments in
  let cursor := get "cursor" PNone arguments in
  if negb (str_within 0 100 query)
     || negb (is_none profile_handle) && negb (strip_within 1 100 profile_handle)
     || negb (int_within 1 50 limit) || bad_cursor 500 cursor
  then Raise (ValueError (u "agent-directory listing fields are invalid"))
  else Ok (strip (text_of query), opt_text (strip_value profile_handle), int_of limit, opt_text cursor).

(** [[a-z0-9](?:[a-z0-9-]{0,98}[a-z0-9])?] *)
Definition handle_char (c : Z) : bool := (97 <=? c) && (c <=? 122) || (48 <=? c) && (c <=? 57).
Definition is_handle (s : str) : bool :=
  match s with
  | [] => false
  | [c] => handle_char c
  | c :: t =>
      handle_char c && (len s <=? 100) && forallb (fun c => handle_char c || (c =? 45)) t
      && match last t with Some z => handle_char z | None => false end
  end.
(** [protocol_agent_identity_argument] *)
Definition protocol_agent_identity_argument (arguments : dict) : Res str :=
  if fields_differ ["agent_handle"] arguments
  then Raise (ValueError (u "agent identity lookup contains unknown fields"))
  else
  let handle := get "agent_handle" PNone arguments in
  if negb (str_within 1 100 handle) || negb (is_handle (text_of handle))
  then Raise (ValueError (u "agent identity handle is invalid"))
  else Ok (text_of handle).

(** ** MCP tools *)
(** [IDEMPOTENCY_KEY_RE.fullmatch(key)] *)
Definition idempotency_key_ok (key : str) : bool :=
  (1 <=? len key) && (len key <=? 128) && forallb (fun c => (33 <=? c) && (c <=? 126)) key.
(** [mcp_idempotency_argument] *)
Definition mcp_idempotency_argument (arguments : dict) : Res str :=
  if negb (has_key (u "idempotency_key") arguments)
  then Raise (HTTPException 428 (u "Idempotency-Key is required for this operation"))
  else
  let key := get "idempotency_key" PNone arguments in
  match key with
  | PStr key =>
      if idempotency_key_ok key then Ok key
      else Raise (HTTPException 400 (u "Idempotency-Key must contain 1-128 visible ASCII characters"))
  | _ => Raise (HTTPException 400 (u "Idempotency-Key must contain 1-128 visible ASCII characters"))
  end.
(** [mcp_raw_markdown_is_bounded] *)
Definition mcp_raw_markdown_is_bounded (value : pyval) (max_upload_bytes : Z) : bool :=
  match value with
  | PStr s => match utf8_encode s with
              | Some b => (1 <=? len b) && (len b <=? max_upload_bytes)
              | None => false
              end
  | _ => false
  end.
(** [isinstance(kind, str) and kind in {"profile", "resume"}] *)
Definition document_kind (kind : pyval) : bool :=
  match kind with PStr s => one_of s ["profile"; "resume"] | _ => false end.
Definition unprocessable {A : Type} (detail : str) : Res A := Raise (HTTPException 422 detail).

(** The guard that reports a missing key before anything else. *)
Definition key_first (arguments : dict) : Res unit :=
  if has_key (u "idempotency_key") arguments then Ok tt
  else let? _ := mcp_idempotency_argument arguments in Ok tt.
(** [mcp_create_arguments] *)
Definition mcp_create_arguments (arguments : dict) (max_upload_bytes : Z) : Res (str * str * str) :=
  let? _ := key_first arguments in
  if fields_differ ["kind"; "markdown"; "idempotency_key"] arguments
  then unprocessable (u "create_document arguments do not match its advertised schema")
  else
  let kind := get "kind" PNone arguments in
  let markdown := get "markdown" PNone arguments in
  if negb (document_kind kind) || negb (mcp_raw_markdown_is_bounded markdown max_upload_bytes)
  then unprocessable (u "kind and markdown must be bounded valid values")
  else
    let? key := mcp_idempotency_argument arguments in
    Ok (text_of kind, text_of markdown, key).

(** [STRONG_DOCUMENT_ETAG_PATTERN] (services/documents.py) *)
Definition strong_etag_ok (value : pyval) : bool :=
  match value with
  | PStr s => match s with
              | 34 :: t => starts_with (u "sha256-") t
                           && hexes 64 (removelast (drop 7 t))
                           && match last t with Some c => c =? 34 | None => false end
              | _ => false
              end
  | _ => false
  end.
(** [strong_etag] (services/documents.py) *)
Definition strong_etag (digest : str) : str := [34] ++ u "sha256-" ++ digest ++ [34].

(** [mcp_update_arguments] *)
Definition mcp_update_arguments (arguments : dict) (operation : str) (max_upload_bytes : Z) :
  Res (str * str * str * str * str) :=
  let? _ := key_first arguments in
  if negb (has_key (u "if_match") arguments)
  then
    let kind := get "kind" PNone arguments in
    let status_code := if eqs operation "update_document" then 428 else 422 in
    let? named := (if status_code =? 428 then member false ["profile"; "resume"] kind else Ok false) in
    Raise (HTTPException status_code
             (if named then u "If-Match is required to update " ++ text_of kind
              else u "if_match is required for this proposal"))
  else if fields_differ ["kind"; "identifier"; "markdown"; "if_match"; "idempotency_key"] arguments
  then unprocessable (operation ++ u " arguments do not match its advertised schema")
  else
  let kind := get "kind" PNone arguments in
  let identifier := get "identifier" PNone arguments in
  let markdown := get "markdown" PNone arguments in
  let if_match := get "if_match" PNone arguments in
  if negb (document_kind kind) || negb (str_within 1 100 identifier)
     || negb (mcp_raw_markdown_is_bounded markdown max_upload_bytes)
  then unprocessable (u "kind, identifier, and markdown must be bounded valid values")
  else if negb (strong_etag_ok if_match)
  then unprocessable (u "if_match must be an exact strong document ETag")
  else
    let? key := mcp_idempotency_argument arguments in
    Ok (text_of kind, text_of identifier, text_of markdown, text_of if_match, key).

(** [mcp_list_my_documents_arguments] *)
Definition mcp_list_my_documents_arguments (arguments : dict) : Res (option str * Z * option str) :=
  if unknown_fields ["kind"; "limit"; "cursor"] arguments
  then unprocessable (u "list_my_documents arguments do not match its advertised schema")
  else
  let kind := get "kind" PNone arguments in
  let limit := get "limit" (PInt 25) arguments in
  let cursor := get "cursor" PNone arguments in
  let? kind_ok := member true ["profile"; "resume"] kind in
  if negb kind_ok then unprocessable (u "kind must be profile or resume")
  else if negb (int_within 1 100 limit) then unprocessable (u "limit must be between 1 and 100")
  else if negb (is_none cursor) && negb (str_within 1 500 cursor)
  then unprocessable (u "cursor is malformed")
  else Ok (opt_text kind, int_of limit, opt_text cursor).

(** [mcp_read_document_arguments] *)
Definition mcp_read_document_arguments (arguments : dict) : Res (str * str) :=
  if fields_differ ["kind"; "identifier"] arguments
  then unprocessable (u "read_document arguments do not match its advertised schema")
  else
  let kind := get "kind" PNone arguments in
  let identifier := get "identifier" PNone arguments in
  if negb (document_kind kind) || negb (str_within 1 100 identifier)
  then unprocessable (u "kind and identifier must be bounded valid values")
  else Ok (text_of kind, text_of identifier).

(** [mcp_get_changes_arguments] *)
Definition mcp_get_changes_arguments (arguments : dict) : Res (Z * Z) :=
  if unknown_fields ["after_sequence"; "limit"] arguments
  then unprocessable (u "get_changes arguments do not match its advertised schema")
  else
  let after_sequence := get "after_sequence" (PInt 0) arguments in
  let limit := get "limit" (PInt 50) arguments in
  if match after_sequence with PInt n => n <? 0 | _ => true end || negb (int_within 1 100 limit)
  then unprocessable (u "after_sequence and limit must match their advertised bounds")
  else Ok (int_of after_sequence, int_of limit).

(** [AgentOutreachCreate] (schemas.py); validation is pydantic's, which accepts a
    message only within the declared lengths. *)
Record AgentOutreachCreate : Type := MkOutreach {
  target_agent_handle : str; purpose : str; outreach_message : str
}.
Definition outreach_within (body : AgentOutreachCreate) : bool :=
  (1 <=? len (target_agent_handle body)) && (len (target_agent_handle body) <=? 100)
  && (1 <=? len (purpose body)) && (len (purpose body) <=? 160)
  && (1 <=? len (outreach_message body)) && (len (outreach_message body) <=? 2000).
Class OutreachModel : Type := {
  model_validate : pyval -> pyval -> pyval -> option AgentOutreachCreate;
  model_validate_within h p m body : model_validate h p m = Some body -> outreach_within body = true
}.
(** [mcp_agent_outreach_arguments] *)
Definition mcp_agent_outreach_arguments `{OutreachModel} (arguments : dict) :
  Res (AgentOutreachCreate * str) :=
  let? key := mcp_idempotency_argument arguments in
  if fields_differ ["target_agent_handle"; "purpose"; "message"; "idempotency_key"] arguments
  then unprocessable (u "send_agent_outreach arguments do not match its advertised schema")
  else
    match model_validate (get "target_agent_handle" PNone arguments) (get "purpose" PNone arguments)
            (get "message" PNone arguments) with
    | Some body => Ok (body, key)
    | None => unprocessable (u "agent outreach arguments are invalid")
    end.

(** [mcp_agent_outreach_status_argument] *)
Definition mcp_agent_outreach_status_argument (arguments : dict) : Res str :=
  if fields_differ ["request_id"] arguments
  then unprocessable (u "get_agent_outreach_status arguments do not match its advertised schema")
  else map_exn (fun e => match e with
                         | ValueError _ => HTTPException 422 (u "request_id must be a UUID")
                         | _ => e
                         end)
         (canonical_agent_outreach_request_id (get "request_id" PNone arguments)).
