(* ===== verification/ProtocolArgumentsFacts.v ===== *)
(** * What protocol argument validation guarantees

    The search envelope as one boolean check and one normal form, its
    idempotence and bounds; the grammar of canonical request ids; the exceptions
    the MCP tools can raise. *)
From S2P Require Import Prelude Json Sha256 Storage ProtocolArguments.
Local Open Scope Z_scope.

(** ** The search envelope, declaratively *)
Definition raw_query (a : dict) : pyval := get "q" (get "query" (PStr []) a) a.
Definition is_member (none : bool) (names : list string) (v : pyval) : bool :=
  match member none names v with Ok b => b | Raise _ => false end.
Definition optional (p : pyval -> bool) (v : pyval) : bool := is_none v || p v.
Definition list_field (a : dict) (name : string) : pyval := get name (PList []) a.
Definition scalar_field (a : dict) (name : string) : pyval := get name PNone a.
Definition list_len (v : pyval) : Z := match v with PList l => len l | _ => 0 end.
Definition repeated (a : dict) : Z :=
  fold_right (fun b acc => list_len (list_field a b.1) + acc) 0 list_bounds
  + (if is_none (scalar_field a "seniority_id") then 0 else 1).
Definition list_check (a : dict) (b : string * (Z * Z)) : bool :=
  list_ok b.2.1 b.2.2 (list_field a b.1).
Definition scalar_check (a : dict) (b : string * Z) : bool :=
  optional (strip_within 1 b.2) (scalar_field a b.1).
Definition capability_check (capability : str) (v : pyval) : bool :=
  optional (fun v => bool_decide (opt_text v = Some capability)) v.

(** Every condition a search request must meet. *)
Definition search_checks (capability : str) (max_repeated_values : Z) (a : dict) : bool :=
  negb (unknown_fields search_fields a) && negb (has_key (u "q") a && has_key (u "query") a)
  && str_within 0 200 (raw_query a)
  && is_member true ["profile"; "resume"] (scalar_field a "kind")
  && optional (strip_within 0 160) (scalar_field a "location")
  && is_member false ["projection"; "exact"] (get "mode" (PStr (u "projection")) a)
  && forallb (list_check a) list_bounds && (repeated a <=? max_repeated_values)
  && forallb (scalar_check a) scalar_bounds
  && optional (strip_within 1 3) (scalar_field a "location_country_code")
  && is_member true ["asc"; "desc"] (scalar_field a "sort_updated")
  && int_within 0 1000 (get "offset" (PInt 0) a) && int_within 1 50 (get "limit" (PInt 20) a)
  && negb (bad_cursor 2048 (scalar_field a "cursor"))
  && int_within 1 500 (get "facet_limit" (PInt 100) a)
  && capability_check capability (scalar_field a "agent_capability").

Definition head_fields (a : dict) : dict :=
  [(u "mode", get "mode" (PStr (u "projection")) a); (u "q", strip_value (raw_query a));
   (u "kind", scalar_field a "kind"); (u "location", strip_value (scalar_field a "location"))].
Definition tail_fields (a : dict) : dict :=
  [(u "location_country_code", strip_value (scalar_field a "location_country_code"));
   (u "sort_updated", scalar_field a "sort_updated");
   (u "offset", get "offset" (PInt 0) a); (u "limit", get "limit" (PInt 20) a);
   (u "cursor", scalar_field a "cursor"); (u "facet_limit", get "facet_limit" (PInt 100) a);
   (u "agent_capability", scalar_field a "agent_capability")].
Definition list_fields (f : string -> pyval) : dict := map (fun b => (u b.1, f b.1)) list_bounds.
Definition scalar_fields (f : string -> pyval) : dict := map (fun b => (u b.1, f b.1)) scalar_bounds.
(** The normal form of a request. *)
Definition envelope (a : dict) : dict :=
  head_fields a ++ list_fields (fun n => strip_items (list_field a n))
  ++ scalar_fields (fun n => strip_value (scalar_field a n)) ++ tail_fields a.

(** ** The loops *)
Lemma normalize_lists_eq bounds a n :
  normalize_lists bounds a n =
  if forallb (list_check a) bounds
  then Ok (fold_left (fun n b => dict_set (u b.1) (strip_items (list_field a b.1)) n) bounds n)
  else Raise invalid.
Proof.
  revert n. induction bounds as [|[name [m l]] bounds IH]; intros n; [done|].
  cbn [normalize_lists forallb fold_left fst snd]. rewrite IH.
  change (list_ok m l (get name (PList []) a)) with (list_check a (name, (m, l))).
  by destruct (list_check a (name, (m, l))).
Qed.
Lemma normalize_scalars_eq bounds a n :
  normalize_scalars bounds a n =
  if forallb (scalar_check a) bounds
  then Ok (fold_left (fun n b => dict_set (u b.1) (strip_value (scalar_field a b.1)) n) bounds n)
  else Raise invalid.
Proof.
  revert n. induction bounds as [|[name m] bounds IH]; intros n; [done|].
  cbn [normalize_scalars forallb fold_left fst snd]. rewrite IH.
  change (scalar_check a (name, m)) with (optional (strip_within 1 m) (get name PNone a)).
  unfold optional. by destruct (is_none (get name PNone a)), (strip_within 1 m (get name PNone a)).
Qed.
Lemma set_lists v1 v2 v3 v4 (f : string -> pyval) :
  fold_left (fun n b => dict_set (u b.1) (f b.1) n) list_bounds
    [(u "mode", v1); (u "q", v2); (u "kind", v3); (u "location", v4)]
  = [(u "mode", v1); (u "q", v2); (u "kind", v3); (u "location", v4)] ++ list_fields f.
Proof. vm_compute. reflexivity. Qed.
Lemma set_scalars v1 v2 v3 v4 (f g : string -> pyval) :
  fold_left (fun n b => dict_set (u b.1) (g b.1) n) scalar_bounds
    ([(u "mode", v1); (u "q", v2); (u "kind", v3); (u "location", v4)] ++ list_fields f)
  = [(u "mode", v1); (u "q", v2); (u "kind", v3); (u "location", v4)] ++ list_fields f
    ++ scalar_fields g.
Proof. vm_compute. reflexivity. Qed.

(** ** The repeated-value cap *)
Lemma list_len_strip v : list_len (strip_items v) = list_len v.
Proof. destruct v; try done. cbn [strip_items list_len]. unfold len. by rewrite length_map. Qed.
Definition no_list (v : pyval) : Prop := forall l, v <> PList l.
Lemma member_no_list none names v : is_member none names v = true -> no_list v.
Proof. by destruct v. Qed.
Lemma strip_within_no_list lo hi v : strip_within lo hi v = true -> no_list v.
Proof. by destruct v. Qed.
Definition dict_repeats (d : dict) : Z :=
  fold_right (fun kv acc => match kv.2 with PList l => len l + acc | _ => acc end) 0 d.
Lemma dict_repeats_cons k v d :
  dict_repeats ((k, v) :: d) = list_len v + dict_repeats d.
Proof. cbn [dict_repeats fold_right snd]. destruct v; try done; cbn [list_len]; fold (dict_repeats d); lia. Qed.
Lemma no_list_len v : no_list v -> list_len v = 0.
Proof. intros H. destruct v; try done. by destruct (H l). Qed.
Lemma dict_repeats_app d e : dict_repeats (d ++ e) = dict_repeats d + dict_repeats e.
Proof. induction d as [|[k v] d IH]; [done|]. rewrite <- app_comm_cons, !dict_repeats_cons, IH. lia. Qed.
Lemma dict_repeats_fields a :
  dict_repeats (list_fields (fun n => strip_items (list_field a n)))
  = fold_right (fun b acc => list_len (list_field a b.1) + acc) 0 list_bounds.
Proof.
  unfold list_fields. induction list_bounds as [|b l IH]; [done|].
  cbn [map fold_right]. by rewrite dict_repeats_cons, list_len_strip, IH.
Qed.
(** The cap the code computes on the partly normalized dict is [repeated]. *)
Lemma repeated_values_eq a (v1 v2 v3 v4 : pyval) :
  no_list v1 -> no_list v2 -> no_list v3 -> no_list v4 -> no_list (scalar_field a "seniority_id") ->
  let n := [(u "mode", v1); (u "q", v2); (u "kind", v3); (u "location", v4)]
           ++ list_fields (fun n => strip_items (list_field a n)) in
  let seniority_id := scalar_field a "seniority_id" in
  repeated_values (if is_none seniority_id then n else dict_set (u "seniority_id") seniority_id n)
  = repeated a.
Proof.
  intros H1 H2 H3 H4 H5. cbv zeta. set (n := _ ++ _).
  assert (dict_repeats n = fold_right (fun b acc => list_len (list_field a b.1) + acc) 0 list_bounds) as E.
  { unfold n. rewrite dict_repeats_app, dict_repeats_fields, !dict_repeats_cons, !no_list_len by done.
    cbn [dict_repeats fold_right]. lia. }
  unfold repeated_values. change (fold_right _ 0 ?d) with (dict_repeats d). unfold repeated.
  destruct (is_none (scalar_field a "seniority_id")) eqn:Hn.
  - rewrite E. by assert (get "seniority_id" PNone n = PNone) as -> by reflexivity.
  - assert (forall f v, dict_set (u "seniority_id") v ([(u "mode", v1); (u "q", v2); (u "kind", v3);
      (u "location", v4)] ++ list_fields f) = ([(u "mode", v1); (u "q", v2); (u "kind", v3);
      (u "location", v4)] ++ list_fields f) ++ [(u "seniority_id", v)]) as Hset
      by (intros; vm_compute; reflexivity).
    unfold n. rewrite Hset. fold n. rewrite dict_repeats_app, E, dict_repeats_cons, no_list_len by done.
    assert (get "seniority_id" PNone (n ++ [(u "seniority_id", scalar_field a "seniority_id")])
      = scalar_field a "seniority_id") as -> by reflexivity.
    rewrite Hn. cbn [dict_repeats fold_right]. lia.
Qed.

(** ** The code is its declarative reading *)
Lemma member_cases none names v :
  member none names v = Ok (is_member none names v) \/
  (exists e, member none names v = Raise e) /\ is_member none names v = false.
Proof. destruct v; (by left) || (right; split; [by eexists|done]). Qed.
Lemma scalars_no_list a :
  forallb (scalar_check a) scalar_bounds = true -> no_list (scalar_field a "seniority_id").
Proof.
  intros H. rewrite forallb_forall in H. specialize (H ("seniority_id", 336) ltac:(cbn; tauto)).
  unfold scalar_check, optional in H. cbn [fst snd] in H.
  destruct (scalar_field a "seniority_id"); try done.
Qed.
Lemma optional_no_list p v : (forall l, p (PList l) = false) -> optional p v = true -> no_list v.
Proof. intros Hp H l ->. unfold optional in H. by rewrite Hp in H. Qed.

Lemma search_spec a capability m :
  if search_checks capability m a
  then protocol_search_arguments (PDict a) capability m = Ok (envelope a)
  else exists e, protocol_search_arguments (PDict a) capability m = Raise e.
Proof.
  unfold search_checks, protocol_search_arguments.
  destruct (unknown_fields search_fields a); [by eexists|].
  destruct (has_key (u "q") a && has_key (u "query") a); [by eexists|]. cbn [negb andb].
  change (get "q" (get "query" (PStr []) a) a) with (raw_query a).
  destruct (str_within 0 200 (raw_query a)) eqn:Hq; [|by eexists]. cbn [negb andb].
  change (get "kind" PNone a) with (scalar_field a "kind").
  destruct (member_cases true ["profile"; "resume"] (scalar_field a "kind")) as [->|[[e ->] ->]];
    [|by eexists].
  destruct (is_member true ["profile"; "resume"] (scalar_field a "kind")) eqn:Hk; [|by eexists].
  cbn [res_bind negb orb andb]. change (get "location" PNone a) with (scalar_field a "location").
  rewrite <- negb_orb. change (is_none ?v || strip_within 0 160 ?v) with (optional (strip_within 0 160) v).
  destruct (optional (strip_within 0 160) (scalar_field a "location")) eqn:Hl; [|by eexists].
  cbn [negb andb]. set (mode := get "mode" _ a).
  destruct (member_cases false ["projection"; "exact"] mode) as [->|[[e ->] ->]]; [|by eexists].
  destruct (is_member false ["projection"; "exact"] mode) eqn:Hm; [|by eexists].
  cbn [res_bind negb andb]. rewrite normalize_lists_eq.
  destruct (forallb (list_check a) list_bounds) eqn:Hlists; [|by eexists]. cbn [res_bind andb].
  pose proof (fun v1 v2 v3 v4 => set_lists v1 v2 v3 v4 (fun n => strip_items (list_field a n))) as E.
  cbv beta in E. rewrite E. clear E. rewrite normalize_scalars_eq.
  change (get "seniority_id" PNone a) with (scalar_field a "seniority_id").
  destruct (forallb (scalar_check a) scalar_bounds) eqn:Hscalars.
  2: { rewrite andb_false_r. destruct (map_exn _ _); by eexists. }
  unfold ensure_search_repeated_value_cap. rewrite repeated_values_eq; [|..|by apply scalars_no_list].
  2: { by eapply member_no_list. }
  2: { intros l E. destruct (raw_query a); done. }
  2: { by eapply member_no_list. }
  2: { intros l E. apply (optional_no_list _ _ (fun _ => eq_refl) Hl l).
       destruct (scalar_field a "location"); done. }
  rewrite andb_true_r. rewrite Z.ltb_antisym. destruct (repeated a <=? m); [|by eexists].
  cbn [negb map_exn res_bind andb].
  pose proof (fun v1 v2 v3 v4 => set_scalars v1 v2 v3 v4 (fun n => strip_items (list_field a n))
    (fun n => strip_value (scalar_field a n))) as E. cbv beta in E. rewrite E. clear E.
  change (get "location_country_code" PNone a) with (scalar_field a "location_country_code").
  rewrite <- negb_orb. change (is_none ?v || strip_within 1 3 ?v) with (optional (strip_within 1 3) v).
  destruct (optional (strip_within 1 3) (scalar_field a "location_country_code")); [|by eexists].
  cbn [negb andb]. change (get "sort_updated" PNone a) with (scalar_field a "sort_updated").
  destruct (member_cases true ["asc"; "desc"] (scalar_field a "sort_updated")) as [->|[[e ->] ->]];
    [|by eexists].
  destruct (is_member true ["asc"; "desc"] (scalar_field a "sort_updated")); [|by eexists].
  cbn [res_bind negb andb]. rewrite <- negb_andb.
  destruct (int_within 0 1000 (get "offset" (PInt 0) a)), (int_within 1 50 (get "limit" (PInt 20) a));
    try by eexists.
  cbn [negb andb]. change (get "cursor" PNone a) with (scalar_field a "cursor").
  destruct (bad_cursor 2048 (scalar_field a "cursor")); [by eexists|]. cbn [negb andb].
  destruct (int_within 1 500 (get "facet_limit" (PInt 100) a)); [|by eexists]. cbn [negb andb].
  change (get "agent_capability" PNone a) with (scalar_field a "agent_capability").
  unfold capability_check, optional. rewrite <- negb_orb.
  destruct (is_none (scalar_field a "agent_capability") || _); [|by eexists]. cbn [negb].
  reflexivity.
Qed.

(** C34: The search validator accepts exactly the requests that meet every condition
    of the declarative check, and then returns their normal form. *)
Theorem search_arguments_spec value capability m n :
  protocol_search_arguments value capability m = Ok n <->
  exists a, value = PDict a /\ search_checks capability m a = true /\ n = envelope a.
Proof.
  split.
  - intros H. destruct value as [| | | | | |a]; try discriminate H. exists a.
    pose proof (search_spec a capability m) as S. destruct (search_checks capability m a).
    + rewrite S in H. by injection H as <-.
    + destruct S as [e S]. by rewrite S in H.
  - intros (a & -> & H & ->). pose proof (search_spec a capability m) as S. by rewrite H in S.
Qed.

(** ** Idempotence *)
Lemma strip_value_idem v : strip_value (strip_value v) = strip_value v.
Proof. destruct v; try done. cbn [strip_value]. by rewrite strip_idem. Qed.
Lemma strip_items_idem v : strip_items (strip_items v) = strip_items v.
Proof.
  destruct v; try done. cbn [strip_items]. rewrite map_map. f_equal. apply map_ext.
  intros v. apply strip_value_idem.
Qed.
Lemma strip_within_strip lo hi v : strip_within lo hi (strip_value v) = strip_within lo hi v.
Proof. destruct v; try done. cbn [strip_value strip_within]. by rewrite strip_idem. Qed.
Lemma optional_strip lo hi v :
  optional (strip_within lo hi) (strip_value v) = optional (strip_within lo hi) v.
Proof. unfold optional. rewrite strip_within_strip. by destruct v. Qed.
Lemma list_ok_strip m l v : list_ok m l (strip_items v) = list_ok m l v.
Proof.
  destruct v as [| | | | |items|]; try done. cbn [strip_items list_ok]. f_equal.
  - unfold len. by rewrite length_map.
  - induction items as [|v items IH]; [done|]. cbn [map forallb]. by rewrite strip_within_strip, IH.
Qed.
Lemma str_within_strip hi v : str_within 0 hi v = true -> str_within 0 hi (strip_value v) = true.
Proof.
  destruct v as [| | | |s| |]; try done. cbn [strip_value str_within]. unfold len.
  pose proof (zlen_strip s). rewrite !andb_true_iff, !Z.leb_le. lia.
Qed.

(** Fields of the normal form. *)
Lemma envelope_list a name : name ∈ map fst list_bounds ->
  list_field (envelope a) name = strip_items (list_field a name).
Proof.
  cbn [map list_bounds fst]. rewrite !elem_of_cons, elem_of_nil. intros H.
  repeat destruct H as [->|H]; [reflexivity..|done].
Qed.
Lemma envelope_scalar a name : name ∈ map fst scalar_bounds ->
  scalar_field (envelope a) name = strip_value (scalar_field a name).
Proof.
  cbn [map scalar_bounds fst]. rewrite !elem_of_cons, elem_of_nil. intros H.
  repeat destruct H as [->|H]; [reflexivity..|done].
Qed.
Lemma envelope_known a : unknown_fields search_fields (envelope a) = false.
Proof.
  assert (forall v1 v2 v3 v4 (f g : string -> pyval) w1 w2 w3 w4 w5 w6 w7,
    unknown_fields search_fields ([(u "mode", v1); (u "q", v2); (u "kind", v3); (u "location", v4)]
      ++ list_fields f ++ scalar_fields g
      ++ [(u "location_country_code", w1); (u "sort_updated", w2); (u "offset", w3); (u "limit", w4);
        (u "cursor", w5); (u "facet_limit", w6); (u "agent_capability", w7)]) = false) as H
    by (intros; vm_compute; reflexivity).
  apply H.
Qed.
Lemma envelope_query a : has_key (u "query") (envelope a) = false.
Proof.
  unfold has_key. apply bool_decide_eq_false. intros H.
  assert ((envelope a).*1 = (envelope []).*1) as E by reflexivity. rewrite E in H.
  revert H. apply (bool_decide_unpack (u "query" ∉ _)). by vm_compute.
Qed.
Lemma fold_lists_ext (f g : string -> Z) (l : list (string * (Z * Z))) :
  (forall name, name ∈ map fst l -> f name = g name) ->
  fold_right (fun b acc => f b.1 + acc) 0 l = fold_right (fun b acc => g b.1 + acc) 0 l.
Proof.
  induction l as [|b l IH]; intros H; [done|]. cbn [fold_right]. rewrite H by left.
  rewrite IH; [done|]. intros name Hn. apply H. by right.
Qed.
Lemma fields_ext {B : Type} (f g : string -> pyval) (l : list (string * B)) :
  (forall name, name ∈ map fst l -> f name = g name) ->
  map (fun b => (u b.1, f b.1)) l = map (fun b => (u b.1, g b.1)) l.
Proof.
  induction l as [|b l IH]; intros H; [done|]. cbn [map]. rewrite H by left.
  rewrite IH; [done|]. intros name Hn. apply H. by right.
Qed.
Lemma envelope_idem a : envelope (envelope a) = envelope a.
Proof.
  unfold envelope at 1. unfold envelope at 5. f_equal; [|f_equal; [|f_equal]].
  - unfold head_fields at 1.
    change (raw_query (envelope a)) with (strip_value (raw_query a)).
    change (scalar_field (envelope a) "location") with (strip_value (scalar_field a "location")).
    by rewrite !strip_value_idem.
  - apply fields_ext. intros name Hn. by rewrite envelope_list, strip_items_idem.
  - apply fields_ext. intros name Hn. by rewrite envelope_scalar, strip_value_idem.
  - unfold tail_fields at 1.
    change (scalar_field (envelope a) "location_country_code")
      with (strip_value (scalar_field a "location_country_code")).
    by rewrite strip_value_idem.
Qed.
Lemma repeated_envelope a : repeated (envelope a) = repeated a.
Proof.
  unfold repeated. f_equal.
  - apply (fold_lists_ext (fun n => list_len (list_field (envelope a) n))
      (fun n => list_len (list_field a n))). intros name Hn. by rewrite envelope_list, list_len_strip.
  - rewrite envelope_scalar by (cbn; set_solver). by destruct (scalar_field a "seniority_id").
Qed.
Lemma forallb_ext_in {A : Type} (f g : A -> bool) l :
  (forall x, x ∈ l -> f x = g x) -> forallb f l = forallb g l.
Proof.
  induction l as [|x l IH]; intros H; [done|]. cbn [forallb]. rewrite H by left.
  rewrite IH; [done|]. intros y Hy. apply H. by right.
Qed.
Lemma checks_envelope a capability m :
  search_checks capability m a = true -> search_checks capability m (envelope a) = true.
Proof.
  unfold search_checks. rewrite envelope_known, envelope_query, andb_false_r, repeated_envelope.
  rewrite (forallb_ext_in (list_check (envelope a)) (list_check a)).
  2: { intros b Hb. unfold list_check. rewrite envelope_list, list_ok_strip; [done|].
       apply (list_elem_of_fmap_2 fst _ _ Hb). }
  rewrite (forallb_ext_in (scalar_check (envelope a)) (scalar_check a)).
  2: { intros b Hb. unfold scalar_check. rewrite envelope_scalar, optional_strip; [done|].
       apply (list_elem_of_fmap_2 fst _ _ Hb). }
  change (raw_query (envelope a)) with (strip_value (raw_query a)).
  change (scalar_field (envelope a) "location") with (strip_value (scalar_field a "location")).
  change (scalar_field (envelope a) "location_country_code")
    with (strip_value (scalar_field a "location_country_code")).
  rewrite !optional_strip. generalize (forallb (list_check a) list_bounds) as lists.
  generalize (forallb (scalar_check a) scalar_bounds) as scalars. intros scalars lists H. bool_facts.
  repeat (apply andb_true_iff; split); try assumption; try reflexivity.
  - by apply str_within_strip.
  - apply Z.leb_le. done.
  - by apply negb_true_iff.
Qed.

(** Validating a validated search request changes nothing: the normal form is a
    fixed point of the validator, so the HTTP, MCP and A2A edges can each apply it. *)
Theorem search_arguments_idempotent value capability m n :
  protocol_search_arguments value capability m = Ok n ->
  protocol_search_arguments (PDict n) capability m = Ok n.
Proof.
  intros H. destruct value as [| | | | | |a]; try discriminate H.
  pose proof (search_spec a capability m) as S.
  destruct (search_checks capability m a) eqn:Hc.
  - rewrite S in H. injection H as <-. pose proof (search_spec (envelope a) capability m) as S'.
    by rewrite (checks_envelope _ _ _ Hc), envelope_idem in S'.
  - destruct S as [e S]. by rewrite S in H.
Qed.

(** ** Canonical request ids *)

(** The text of a UUID: 32 lower-case hexadecimal digits, grouped by hyphens. *)
Definition dashed (h : str) : str :=
  take 8 h ++ [45] ++ take 4 (drop 8 h) ++ [45] ++ take 4 (drop 12 h) ++ [45]
  ++ take 4 (drop 16 h) ++ [45] ++ drop 20 h.

Lemma be_bytes_snoc n z : be_bytes (S n) z = be_bytes n (z / 256) ++ [z mod 256].
Proof.
  unfold be_bytes. cbn [seq rev]. rewrite map_app. f_equal.
  - rewrite <- seq_shift, <- map_rev, map_map. apply map_ext. intros i.
    rewrite Z.div_div by lia. do 2 f_equal. rewrite <- (Z.pow_add_r 2 8) by lia. f_equal. lia.
  - cbn [map]. by rewrite Z.div_1_r.
Qed.
Lemma hex_snoc b x : hex (b ++ [x]) = hex b ++ [hex_char (x / 16); hex_char (x mod 16)].
Proof. unfold hex. by rewrite flat_map_app. Qed.
Lemma hex_lower_value c : is_hex_lower c = true ->
  0 <= hex_digit_value c < 16 /\ hex_char (hex_digit_value c) = c.
Proof.
  unfold is_hex_lower, hex_digit_value, hex_char. intros H.
  apply orb_true_iff in H as [H|H]; bool_facts.
  - rewrite (proj2 (Z.leb_le c 57)) by lia. rewrite (proj2 (Z.ltb_lt _ 10)) by lia. lia.
  - rewrite (proj2 (Z.leb_gt c 57)), (proj2 (Z.leb_gt c 70)), (proj2 (Z.ltb_ge _ 10)) by lia. lia.
Qed.
Definition hex_number (h : str) : Z := fold_left (fun acc c => acc * 16 + hex_digit_value c) h 0.
(** Printing the number that hexadecimal digits denote gives the digits back. *)
Lemma hex_number_text n h :
  length h = (2 * n)%nat -> forallb is_hex_lower h = true -> hex (be_bytes n (hex_number h)) = h.
Proof.
  revert h. induction n as [|n IH]; intros h Hl Hh; [by destruct h|].
  destruct h as [|x h' _] using rev_ind; [done|]. destruct h' as [|y h _] using rev_ind.
  { rewrite length_app in Hl. simpl in Hl. lia. }
  rewrite !length_app in Hl. cbn [length] in Hl. rewrite !forallb_app in Hh. cbn [forallb] in Hh.
  bool_facts. rewrite be_bytes_snoc, hex_snoc.
  destruct (hex_lower_value x) as [Hx Ex]; [done|]. destruct (hex_lower_value y) as [Hy Ey]; [done|].
  unfold hex_number. rewrite !fold_left_app. cbn [fold_left]. fold (hex_number h).
  set (k := hex_number h).
  replace ((k * 16 + hex_digit_value y) * 16 + hex_digit_value x)
    with ((hex_digit_value y * 16 + hex_digit_value x) + k * 256) by lia.
  rewrite Z.div_add, Z.mod_add by lia.
  rewrite (Z.div_small (_ * 16 + _)), (Z.mod_small (_ * 16 + _)) by lia. unfold k. rewrite Z.add_0_l, IH by (done || lia).
  rewrite <- app_assoc. f_equal. cbn [app].
  assert ((hex_digit_value y * 16 + hex_digit_value x) / 16 = hex_digit_value y) as -> by zlia.
  assert ((hex_digit_value y * 16 + hex_digit_value x) mod 16 = hex_digit_value x) as -> by zlia.
  by rewrite Ex, Ey.
Qed.

Lemma remove_all_id c p fuel s : c ∉ s -> remove_all (c :: p) fuel s = s.
Proof.
  revert s. induction fuel as [|fuel IH]; intros s Hs; [done|]. destruct s as [|x s]; [done|].
  cbn [remove_all starts_with]. apply not_elem_of_cons in Hs as [Hne Hs].
  rewrite (proj2 (Z.eqb_neq c x)) by done. cbn [andb]. f_equal. by apply IH.
Qed.
Lemma strip_by_id p (s : str) : Forall (fun c => p c = false) s -> strip_by p s = s.
Proof.
  intros H. assert (forall t, Forall (fun c => p c = false) t -> lstrip_by p t = t) as Hid.
  { intros t Ht. apply lstrip_by_id. intros c t' ->. by apply Forall_cons in Ht as [? _]. }
  unfold strip_by, rstrip_by. rewrite (Hid s H), Hid, rev_involutive; [done|]. by apply Forall_rev.
Qed.
Lemma hex_lower_range c : is_hex_lower c = true -> 48 <= c <= 57 \/ 97 <= c <= 102.
Proof. unfold is_hex_lower. intros [H|H]%orb_true_iff; bool_facts; lia. Qed.

Section dashed.
Context (h : str) (Hh : forallb is_hex_lower h = true).
Lemma hex_chars : Forall (fun c => 48 <= c <= 57 \/ 97 <= c <= 102) h.
Proof.
  apply Forall_forall. intros c Hc. apply hex_lower_range. rewrite forallb_forall in Hh.
  by apply Hh, list_elem_of_In.
Qed.
Lemma dashed_chars : Forall (fun c => 48 <= c <= 57 \/ 97 <= c <= 102 \/ c = 45) (dashed h).
Proof.
  assert (Forall (fun c => 48 <= c <= 57 \/ 97 <= c <= 102 \/ c = 45) h) as H
    by (eapply Forall_impl; [apply hex_chars|]; cbv beta; lia).
  unfold dashed. repeat (apply Forall_app; split);
    first [by auto using Forall_take, Forall_drop|constructor; [lia|constructor]].
Qed.
Lemma length_dashed : length h = 32%nat -> length (dashed h) = 36%nat.
Proof. intros Hl. unfold dashed. repeat rewrite ?length_app, ?length_take, ?length_drop, ?Hl. done. Qed.
Lemma undash : filter (fun c => c <> 45) (dashed h) = h.
Proof.
  assert (forall l, Forall (fun c => 48 <= c <= 57 \/ 97 <= c <= 102) l -> filter (fun c : Z => c <> 45) l = l) as Hid.
  { induction 1 as [|c l Hc _ IH]; [done|]. rewrite filter_cons_True by lia. by rewrite IH. }
  assert (filter (fun c : Z => c <> 45) [45] = []) as Hsep by reflexivity.
  pose proof hex_chars as H. unfold dashed. rewrite !(filter_app (fun c : Z => c <> 45)), !Hsep.
  rewrite !Hid by auto using Forall_take, Forall_drop. cbn [app].
  assert (forall n, take 4 (drop n h) ++ drop (n + 4) h = drop n h) as Hjoin
    by (intros n; rewrite <- drop_drop; apply take_drop).
  change (drop 20 h) with (drop (16 + 4) h). rewrite Hjoin.
  change (drop 16 h) with (drop (12 + 4) h). rewrite Hjoin.
  change (drop 12 h) with (drop (8 + 4) h). rewrite Hjoin. apply take_drop.
Qed.
End dashed.

(** A canonical text parses to the number it denotes. *)
Lemma uuid_hex_dashed h :
  length h = 32%nat -> forallb is_hex_lower h = true -> uuid_hex (dashed h) = h.
Proof.
  intros Hl Hh. pose proof (dashed_chars h Hh) as Hc. unfold uuid_hex.
  assert (forall c, c = 117 \/ c = 123 \/ c = 125 -> c ∉ dashed h) as Hno.
  { intros c H Hin. rewrite Forall_forall in Hc. specialize (Hc c Hin). lia. }
  change (u "urn:") with (117 :: u "rn:"). change (u "uuid:") with (117 :: u "uid:").
  rewrite (remove_all_id 117 (u "rn:")) by auto. rewrite (remove_all_id 117 (u "uid:")) by auto.
  rewrite strip_by_id; [by apply undash|].
  eapply Forall_impl; [exact Hc|]. cbv beta. intros c H.
  apply orb_false_iff. rewrite !Z.eqb_neq. lia.
Qed.
Lemma hex_digits_ok_lower h : h <> [] -> forallb is_hex_lower h = true -> hex_digits_ok h = true.
Proof.
  intros Hne Hh. assert (forall c, is_hex_lower c = true -> is_hex_digit c = true /\ c <> 95) as Hc.
  { intros c H%hex_lower_range. unfold is_hex_digit. lia. }
  induction h as [|c h IH]; [done|]. cbn [forallb] in Hh. bool_facts.
  destruct (Hc c) as [Hd _]; [done|]. destruct h as [|c' h]; [exact Hd|].
  cbn [hex_digits_ok]. rewrite Hd. cbn [andb]. cbn [forallb] in *. bool_facts.
  destruct (Hc c') as [_ Hne']; [done|]. rewrite (proj2 (Z.eqb_neq c' 95)) by done.
  apply IH; [done|]. by apply andb_true_iff.
Qed.
Lemma no_plus (s : str) : Forall (fun c => c <> 43) s -> match s with 43 :: t => t | _ => s end = s.
Proof.
  destruct s as [|c s]; [done|]. intros [Hc _]%Forall_cons.
  destruct c as [|p|p]; try done. do 6 (destruct p as [p|p|]; try done).
Qed.
Lemma int16_parses_lower h : h <> [] -> forallb is_hex_lower h = true -> int16_parses h = true.
Proof.
  intros Hne Hh. unfold int16_parses.
  assert (Forall (fun c => 48 <= c <= 57 \/ 97 <= c <= 102) h) as Hr by by apply hex_chars.
  assert (strip h = h) as ->.
  { apply strip_by_id. eapply Forall_impl; [exact Hr|]. cbv beta. intros c Hc. unfold py_isspace. lia. }
  assert (forall (p : str) x, x ∈ p -> 102 < x \/ 57 < x < 97 -> starts_with p h = false) as Hno.
  { intros p x Hx Hb. apply not_true_iff_false. intros [k E]%starts_with_spec.
    rewrite E, Forall_app in Hr. destruct Hr as [Hr _]. rewrite Forall_forall in Hr.
    specialize (Hr _ Hx). lia. }
  rewrite no_plus by by eapply Forall_impl; [exact Hr|cbv beta; lia].
  rewrite (Hno (u "0x") 120), (Hno (u "0X") 88)
    by first [lia|apply (bool_decide_unpack (_ ∈ _)); by vm_compute].
  by apply hex_digits_ok_lower.
Qed.

Lemma uuid_int_dashed h :
  length h = 32%nat -> forallb is_hex_lower h = true -> uuid_int (dashed h) = hex_number h.
Proof.
  intros Hl Hh. unfold uuid_int, hex_number. rewrite uuid_hex_dashed by done. f_equal.
  assert (Forall (fun c => is_hex_digit c = true) h) as Hd.
  { eapply Forall_impl; [apply (hex_chars h Hh)|]. cbv beta. unfold is_hex_digit. lia. }
  clear - Hd. induction Hd as [|c h Hc _ IH]; [done|].
  refine (eq_trans (filter_cons_True (fun c => is_hex_digit c = true) c h Hc) _). by f_equal.
Qed.
(** A request id is accepted exactly when it is the canonical text of a UUID:
    thirty-two lower-case hexadecimal digits grouped 8-4-4-4-12. *)
Theorem canonical_request_id value s :
  canonical_agent_outreach_request_id value = Ok s <->
  value = PStr s /\ exists h, length h = 32%nat /\ forallb is_hex_lower h = true /\ s = dashed h.
Proof.
  split.
  - intros H. destruct value as [| | | |v| |]; try discriminate H.
    unfold canonical_agent_outreach_request_id in H.
    destruct (negb _); [done|]. destruct (negb _); [done|].
    destruct (bool_decide _) eqn:E; [|done]. injection H as ->. bool_facts. split; [done|].
    exists (hex (be_bytes 16 (uuid_int s))). split; [|split].
    + rewrite length_hex. unfold be_bytes. by rewrite length_map, length_rev, length_seq.
    + apply hex_lower, be_bytes_byte.
    + symmetry. exact E.
  - intros (-> & h & Hl & Hh & ->). unfold canonical_agent_outreach_request_id.
    assert (h <> []) as Hne by by intros ->.
    assert (len (dashed h) = 36) as -> by (unfold len; by rewrite length_dashed).
    assert (uuid_parses (dashed h) = true) as ->.
    { unfold uuid_parses. rewrite uuid_hex_dashed, int16_parses_lower by done. unfold len. by rewrite Hl. }
    assert (uuid_text (uuid_int (dashed h)) = dashed h) as E.
    { rewrite uuid_int_dashed by done. change (dashed (hex (be_bytes 16 (hex_number h))) = dashed h).
      by rewrite hex_number_text. }
    by rewrite bool_decide_true.
Qed.

(** ** The MCP tools *)

(** A strong document ETag names a SHA-256 digest. *)
Lemma strong_etag_iff s :
  strong_etag_ok (PStr s) = true <-> exists d, hexes 64 d = true /\ s = strong_etag d.
Proof.
  split.
  - cbn [strong_etag_ok]. intros H. destruct s as [|c t]; [done|].
    assert (c = 34) as -> by (destruct c as [|p|p]; try done; do 6 (destruct p as [p|p|]; try done)).
    bool_facts. match goal with H : starts_with _ t = true |- _ => apply starts_with_spec in H as [k ->] end.
    change (drop 7 (u "sha256-" ++ k)) with k in *.
    destruct (last (u "sha256-" ++ k)) as [z|] eqn:E; [|done]. bool_facts. subst z.
    destruct k as [|z k _] using rev_ind; [done|]. rewrite removelast_last in *.
    rewrite app_assoc, last_snoc in E. injection E as ->. exists k. split; [done|].
    unfold strong_etag. done.
  - intros (d & Hd & ->). unfold strong_etag. cbn [app strong_etag_ok].
    change (drop 7 (u "sha256-" ++ d ++ [34])) with (d ++ [34]).
    rewrite removelast_last, Hd, app_assoc, last_snoc.
    assert (starts_with (u "sha256-") ((u "sha256-" ++ d) ++ [34]) = true) as ->; [|done].
    apply starts_with_spec. rewrite <- app_assoc. by eexists.
Qed.

(** A rejection the client can act on. *)
Definition client_error (e : exn) : Prop :=
  match e with HTTPException code _ => code = 400 \/ code = 422 \/ code = 428 | _ => False end.
Definition hashable (v : pyval) : bool := match v with PList _ | PDict _ => false | _ => true end.
Lemma key_errors a e : mcp_idempotency_argument a = Raise e -> client_error e.
Proof.
  unfold mcp_idempotency_argument. intros E. repeat case_match; try discriminate E;
    injection E as <-; cbn; auto.
Qed.
Lemma key_first_errors a e : key_first a = Raise e -> client_error e.
Proof.
  unfold key_first. destruct (has_key _ a); [done|].
  destruct (mcp_idempotency_argument a) eqn:E; [done|]. cbn [res_bind]. intros [= <-].
  by apply key_errors in E.
Qed.
Lemma unprocessable_error {A : Type} detail e : (unprocessable detail : Res A) = Raise e -> client_error e.
Proof. intros [= <-]. cbn. auto. Qed.
#[local] Hint Resolve key_errors key_first_errors : core.
(** Follow a validator to the exception it raised. *)
Ltac error_step :=
  match goal with
  | H : unprocessable _ = Raise _ |- _ => by apply unprocessable_error in H
  | H : (if ?b then _ else _) = Raise _ |- _ => destruct b eqn:?
  | H : res_bind ?m _ = Raise _ |- _ => destruct m eqn:?; cbn [res_bind] in H
  | H : Raise _ = Raise _ |- _ => injection H as <-
  | H : Ok _ = Raise _ |- _ => discriminate H
  end.

(** The MCP tool validators reject with a client error (400, 422 or 428) and
    nothing else, except that a [kind] that is a JSON list or object raises
    [TypeError] where it is tested for membership before its type. *)
Theorem mcp_argument_errors `{OutreachModel} a max_bytes operation e :
  (mcp_create_arguments a max_bytes = Raise e -> client_error e) /\
  (mcp_update_arguments a operation max_bytes = Raise e -> client_error e \/
     e = TypeError /\ hashable (scalar_field a "kind") = false /\ operation = u "update_document") /\
  (mcp_list_my_documents_arguments a = Raise e -> client_error e \/
     e = TypeError /\ hashable (scalar_field a "kind") = false) /\
  (mcp_read_document_arguments a = Raise e -> client_error e) /\
  (mcp_get_changes_arguments a = Raise e -> client_error e) /\
  (mcp_agent_outreach_arguments a = Raise e -> client_error e) /\
  (mcp_agent_outreach_status_argument a = Raise e -> client_error e).
Proof.
  split_and!.
  - unfold mcp_create_arguments. intros E. repeat error_step; eauto.
  - unfold mcp_update_arguments. intros E.
    repeat first [solve [left; error_step]|error_step]; eauto; try (left; cbn; auto; fail).
    + left. cbn. destruct (eqs operation "update_document"); auto.
    + right. bool_facts. destruct (eqs operation "update_document") eqn:Eo; [|done]. bool_facts.
      match goal with E : member _ _ _ = Raise _ |- _ =>
        change (get "kind" PNone a) with (scalar_field a "kind") in E;
        destruct (scalar_field a "kind"); try discriminate E; injection E as <- end; done.
  - unfold mcp_list_my_documents_arguments. intros E.
    repeat first [solve [left; error_step]|error_step].
    right. match goal with E : member _ _ _ = Raise _ |- _ =>
        change (get "kind" PNone a) with (scalar_field a "kind") in E;
        destruct (scalar_field a "kind"); try discriminate E; injection E as <- end; done.
  - unfold mcp_read_document_arguments. intros E. repeat error_step.
  - unfold mcp_get_changes_arguments. intros E. repeat error_step.
  - unfold mcp_agent_outreach_arguments. intros E. repeat error_step; eauto.
    case_match; [done|]. by apply unprocessable_error in E.
  - unfold mcp_agent_outreach_status_argument. intros E. repeat error_step.
    unfold canonical_agent_outreach_request_id in E.
    repeat case_match; try discriminate E; injection E as <-; cbn; auto.
Qed.

(** A JSON list (or object) as [kind] makes the search validator, the document
    listing and the missing-[If-Match] report raise [TypeError] instead of the
    [ValueError] or HTTP 422 their callers handle. *)
Theorem unhashable_kind_escapes (items : list pyval) capability m (key : pyval) max_bytes :
  protocol_search_arguments (PDict [(u "kind", PList items)]) capability m = Raise TypeError /\
  mcp_list_my_documents_arguments [(u "kind", PList items)] = Raise TypeError /\
  mcp_update_arguments [(u "idempotency_key", key); (u "kind", PList items)]
    (u "update_document") max_bytes = Raise TypeError.
Proof. split_and!; reflexivity. Qed.

Lemma document_kind_ok v : document_kind v = true -> exists k, v = PStr k /\ (k = u "profile" \/ k = u "resume").
Proof.
  destruct v as [| | | |k| |]; try done. intros H. exists k. split; [done|].
  cbn [document_kind] in H. unfold one_of in H. cbn [existsb] in H.
  rewrite orb_false_r in H. apply orb_true_iff in H as [H|H]; bool_facts; auto.
Qed.
Lemma str_within_ok lo hi v : str_within lo hi v = true -> exists s, v = PStr s /\ lo <= len s <= hi.
Proof. destruct v as [| | | |s| |]; try done. cbn [str_within]. intros H. bool_facts. by exists s. Qed.
Lemma markdown_ok v m : mcp_raw_markdown_is_bounded v m = true ->
  exists s b, v = PStr s /\ utf8_encode s = Some b /\ 1 <= len b <= m.
Proof.
  destruct v as [| | | |s| |]; try done. cbn [mcp_raw_markdown_is_bounded].
  destruct (utf8_encode s) as [b|] eqn:E; [|done]. intros H. bool_facts. by exists s, b.
Qed.
Lemma key_ok a key : mcp_idempotency_argument a = Ok key ->
  1 <= len key <= 128 /\ Forall (fun c => 33 <= c <= 126) key.
Proof.
  unfold mcp_idempotency_argument. destruct (negb _); [done|].
  destruct (get "idempotency_key" PNone a) as [| | | |s| |]; try done.
  destruct (idempotency_key_ok s) eqn:E; [|done]. intros [= <-]. unfold idempotency_key_ok in E.
  bool_facts. split; [done|]. apply Forall_forall. intros c Hc%list_elem_of_In.
  match goal with H : forallb _ _ = true |- _ => rewrite forallb_forall in H; specialize (H c Hc) end.
  bool_facts. lia.
Qed.

(** C35: An accepted update carries a document kind, an identifier of 1 to 100
    characters, Markdown whose UTF-8 form is non-empty and within the upload bound,
    the strong ETag of a SHA-256 digest, and a visible-ASCII idempotency key; the
    request names exactly these five fields. *)
Theorem mcp_update_accepts a operation max_bytes kind identifier markdown if_match key :
  mcp_update_arguments a operation max_bytes = Ok (kind, identifier, markdown, if_match, key) ->
  (kind = u "profile" \/ kind = u "resume") /\ 1 <= len identifier <= 100 /\
  (exists b, utf8_encode markdown = Some b /\ 1 <= len b <= max_bytes) /\
  (exists digest, hexes 64 digest = true /\ if_match = strong_etag digest) /\
  1 <= len key <= 128 /\ Forall (fun c => 33 <= c <= 126) key /\
  fields_differ ["kind"; "identifier"; "markdown"; "if_match"; "idempotency_key"] a = false.
Proof.
  unfold mcp_update_arguments. intros H. inv_step. destruct (negb _); [by inv_steps|].
  destruct (fields_differ _ a) eqn:Hf; [done|]. destruct (_ || _) eqn:Hb; [done|].
  destruct (negb (strong_etag_ok _)) eqn:He; [done|]. inv_steps. bool_facts.
  match goal with H : document_kind _ = true |- _ => apply document_kind_ok in H as (k & -> & ?) end.
  match goal with H : str_within _ _ _ = true |- _ => apply str_within_ok in H as (i & -> & ?) end.
  match goal with H : mcp_raw_markdown_is_bounded _ _ = true |- _ =>
    apply markdown_ok in H as (md & b & -> & ? & ?) end.
  match goal with H : mcp_idempotency_argument _ = _ |- _ => apply key_ok in H as [? ?] end.
  destruct (get "if_match" PNone a) as [| | | |etag| |]; try discriminate He.
  apply strong_etag_iff in He as (d & Hd & ->). cbn [text_of]. split_and!; eauto; lia.
Qed.

Lemma int_within_ok lo hi v : int_within lo hi v = true -> lo <= int_of v <= hi.
Proof. destruct v; try done. cbn [int_within int_of]. intros H. bool_facts. lia. Qed.
Lemma cursor_ok max v : bad_cursor max v = false ->
  opt_text v = None \/ exists c, opt_text v = Some c /\ strip c <> [] /\ len c <= max.
Proof.
  unfold bad_cursor. destruct v as [| | | |s| |]; try done; [by left|]. cbn [is_none negb andb].
  intros H. right. exists s. cbn [str_within blank opt_text] in *. bool_facts. done.
Qed.
(** What an agent listing passes on: a trimmed handle and bounded paging. *)
Definition paging_ok (max_cursor : Z) (limit : Z) (cursor : option str) : Prop :=
  1 <= limit <= 50 /\ (cursor = None \/ exists c, cursor = Some c /\ strip c <> [] /\ len c <= max_cursor).

(** The agent listing validators return a trimmed, non-empty handle of at most
    100 characters, a limit between 1 and 50 and a non-blank cursor of at most 500
    characters, and fail only with [ValueError]. *)
Theorem listing_arguments_bounded a :
  match protocol_profile_agents_arguments a with
  | Ok (handle, limit, cursor) =>
      strip handle = handle /\ 1 <= len handle <= 100 /\ paging_ok 500 limit cursor
  | Raise e => exists message, e = ValueError message
  end /\
  match protocol_agent_directory_arguments a with
  | Ok (query, handle, limit, cursor) =>
      strip query = query /\ len query <= 100 /\
      (forall h, handle = Some h -> strip h = h /\ 1 <= len h <= 100) /\ paging_ok 500 limit cursor
  | Raise e => exists message, e = ValueError message
  end.
Proof.
  split.
  - unfold protocol_profile_agents_arguments. destruct (unknown_fields _ a); [by eexists|].
    destruct (_ || _) eqn:H; [by eexists|]. bool_facts.
    match goal with H : str_within _ _ _ = true |- _ => apply str_within_ok in H as (s & Es & ?) end.
    rewrite Es in *. cbn [text_of blank] in *. bool_facts. split; [apply strip_idem|].
    split; [|split; [by apply int_within_ok|by apply cursor_ok]].
    pose proof (zlen_strip s). unfold len in *. split; [|lia].
    destruct (strip s); [done|]. cbn [length]. lia.
  - unfold protocol_agent_directory_arguments. destruct (unknown_fields _ a); [by eexists|].
    destruct (_ || _) eqn:H; [by eexists|].
    apply orb_false_iff in H as [H Hcur]. apply orb_false_iff in H as [H Hlim].
    apply orb_false_iff in H as [Hq Hh]. bool_facts.
    apply str_within_ok in Hq as (s & Es & ?). rewrite Es. cbn [text_of].
    split; [apply strip_idem|]. split; [pose proof (zlen_strip s); unfold len in *; lia|].
    split; [|split; [by apply int_within_ok|by apply cursor_ok]].
    intros h E. destruct (get "profile_handle" PNone a) as [| | | |x| |]; try discriminate E.
    cbn [strip_value opt_text] in E. injection E as <-. split; [apply strip_idem|].
    cbn [is_none negb andb strip_within] in Hh. bool_facts. lia.
Qed.

(** ** Concrete requests *)
Module ArgumentsDemo.
Definition capability : str := u "internal_contact_request".
Definition request : pyval :=
  PDict [(u "query", PStr (u "  rust ")); (u "skills", PList [PStr (u " go "); PStr (u "c")]);
         (u "limit", PInt 5)].
Definition fields : dict := match request with PDict a => a | _ => [] end.
Definition digest : str := sha256_hex [].
Definition update : dict :=
  [(u "kind", PStr (u "profile")); (u "identifier", PStr (u "ann")); (u "markdown", PStr (u "# Ann"));
   (u "if_match", PStr (strong_etag digest)); (u "idempotency_key", PStr (u "k1"))].
Lemma accepted : protocol_search_arguments request capability 100 = Ok (envelope fields).
Proof. vm_compute. reflexivity. Qed.
Lemma updated : mcp_update_arguments update (u "update_document") 1000
  = Ok (u "profile", u "ann", u "# Ann", strong_etag digest, u "k1").
Proof. vm_compute. reflexivity. Qed.
(** A model that checks the declared lengths of three strings. *)
Definition validate (h p m : pyval) : option AgentOutreachCreate :=
  match h, p, m with
  | PStr h, PStr p, PStr m =>
      let body := MkOutreach h p m in if outreach_within body then Some body else None
  | _, _, _ => None
  end.
Lemma validate_within h p m body : validate h p m = Some body -> outreach_within body = true.
Proof.
  destruct h as [| | | |h'| |], p as [| | | |p'| |], m as [| | | |m'| |]; try done.
  cbn [validate]. destruct (outreach_within (MkOutreach h' p' m')) eqn:E; [|done]. intros H.
  injection H as <-. exact E.
Qed.
#[global] Instance demo_outreach : OutreachModel :=
  {| model_validate := validate; model_validate_within := validate_within |}.
End ArgumentsDemo.

Lemma search_arguments_idempotent_witness :
  protocol_search_arguments (PDict (envelope ArgumentsDemo.fields)) ArgumentsDemo.capability 100
  = Ok (envelope ArgumentsDemo.fields).
Proof. exact (search_arguments_idempotent _ _ _ _ ArgumentsDemo.accepted). Defined.
Lemma mcp_argument_errors_witness :
  mcp_create_arguments [] 10
    = Raise (HTTPException 428 (u "Idempotency-Key is required for this operation")) /\
  client_error (HTTPException 428 (u "Idempotency-Key is required for this operation")).
Proof.
  split; [reflexivity|].
  apply (proj1 (mcp_argument_errors [] 10 (u "update_document")
    (HTTPException 428 (u "Idempotency-Key is required for this operation")))).
  reflexivity.
Defined.
Lemma mcp_update_accepts_witness :
  exists d, hexes 64 d = true /\ strong_etag ArgumentsDemo.digest = strong_etag d.
Proof. exact (proj1 (proj2 (proj2 (proj2 (mcp_update_accepts _ _ _ _ _ _ _ _ ArgumentsDemo.updated))))). Defined.
