(* ===== verification/Cursors.v ===== *)
(** * Signed cursors (src/apps/api/app/services/cursors.py)

    A cursor is the URL-safe base64 of a canonical JSON envelope that carries its
    scope, a digest of its bindings and an HMAC over the rest.  [json.loads] on
    bytes is read as strict UTF-8: every other encoding it would guess gives a
    value whose canonical form differs from the bytes received, which is rejected
    with the same error.  Floats keep their text: [float_repr] is
    [repr(float(text))]. *)
From S2P Require Import Prelude Json Sha256 JsonText Base64.
Local Open Scope Z_scope.

Definition _CURSOR_VERSION : Z := 1.
Definition _CURSOR_MAX_LENGTH : Z := 2048.
(** [_SCOPE_PATTERN.fullmatch(scope)] *)
Definition scope_ok (scope : str) : bool :=
  match scope with
  | [] => false
  | c :: t => alphanumeric c && (len t <=? 255)
              && forallb (fun c => alphanumeric c || (c =? 58) || (c =? 95) || (c =? 45)) t
  end.
(** [_BASE64URL_PATTERN.fullmatch(value)] *)
Definition base64url_ok (s : str) : bool := negb (bool_decide (s = [])) && forallb base64url_char s.
Definition _META_KEYS : list string := ["__cursor_v"; "__cursor_scope"; "__cursor_binding"; "__cursor_sig"].

(** ** Canonical JSON *)
Definition cursor_error (message : string) : exn := CursorError (u message).
Definition malformed : exn := cursor_error "cursor is malformed".
(** A NaN or an infinity anywhere ([allow_nan=False]). *)
Fixpoint non_finite (v : pyval) : bool :=
  match v with
  | PFloat repr => one_of repr ["nan"; "inf"; "-inf"]
  | PList l => existsb non_finite l
  | PDict d => existsb (fun kv => non_finite kv.2) d
  | _ => false
  end.
(** [_canonical_json] *)
Definition canonical_json (v : pyval) : Res bytes :=
  if non_finite v then Raise (cursor_error "cursor payload is not canonical JSON")
  else match utf8_encode (dumps false v) with
       | Some b => Ok b
       | None => Raise (cursor_error "cursor payload is not canonical JSON")
       end.
(** [_reject_duplicate_json_keys] *)
Definition reject_duplicate_json_keys (pairs : list (str * pyval)) : option (list (str * pyval)) :=
  if bool_decide (NoDup pairs.*1) then Some pairs else None.
(** [_binding_digest] *)
Definition binding_digest (bindings : list str) : Res str :=
  if 16 <? len bindings then Raise (cursor_error "cursor bindings are malformed")
  else if existsb (fun value => 2048 <? len value) bindings
  then Raise (cursor_error "cursor bindings are malformed")
  else
    let? canonical := canonical_json (PList (map PStr bindings)) in
    Ok (sha256_hex canonical).

(** ** The codec *)
Record CursorCodec : Type := MkCodec { secret : bytes; max_length : Z }.
(** [CursorCodec.__init__] *)
Definition cursor_codec (secret_ : bytes) (max_length_ : Z) : Res CursorCodec :=
  if len secret_ <? 32 then Raise (ValueError (u "cursor secret must contain at least 32 bytes"))
  else if (max_length_ <? 128) || (_CURSOR_MAX_LENGTH <? max_length_)
  then Raise (ValueError (u "cursor max length is invalid"))
  else Ok (MkCodec secret_ max_length_).

Definition is_meta (key : str) : bool := one_of key _META_KEYS.
(** The HMAC over the base64 of an envelope without its signature. *)
Definition signature (codec : CursorCodec) (envelope : list (str * pyval)) : Res str :=
  let? canonical := canonical_json (PDict envelope) in
  Ok (b64_encode (hmac_sha256 (secret codec) (b64_encode canonical))).
(** The unsigned envelope of a payload. *)
Definition unsigned_envelope (payload : list (str * pyval)) (binding scope : str) : list (str * pyval) :=
  dict_set (u "__cursor_v") (PInt _CURSOR_VERSION)
    (dict_set (u "__cursor_scope") (PStr scope)
      (dict_set (u "__cursor_binding") (PStr binding) payload)).
(** [CursorCodec.encode] *)
Definition cursor_encode (codec : CursorCodec) (payload : list (str * pyval)) (scope : str)
  (bindings : list str) : Res str :=
  if negb (scope_ok scope) then Raise (cursor_error "cursor scope is malformed")
  else if existsb (fun kv => is_meta kv.1) payload
  then Raise (cursor_error "cursor payload is malformed")
  else
    let? binding := binding_digest bindings in
    let envelope := unsigned_envelope payload binding scope in
    let? sig := signature codec envelope in
    let? outer := canonical_json (PDict (dict_set (u "__cursor_sig") (PStr sig) envelope)) in
    let result := b64_encode outer in
    if max_length codec <? len result
    then Raise (cursor_error "cursor exceeds the maximum length")
    else Ok result.

Section decode.
Context (float_repr : str -> str).
(** [raw_decode] and [json.loads] with the two hooks; a constant is rejected. *)
Definition parse_envelope (cursor : str) : option (bytes * list (str * pyval)) :=
  raw ← b64_decode cursor;
  if bool_decide (b64_encode raw = cursor)
  then
    text ← utf8_decode raw;
    v ← loads float_repr (fun _ => None) reject_duplicate_json_keys text;
    match v with
    | PDict envelope =>
        if forallb (fun k => has_key (u k) envelope) _META_KEYS then Some (raw, envelope) else None
    | _ => None
    end
  else None.
(** [CursorCodec.decode] *)
Definition cursor_decode (codec : CursorCodec) (cursor : str) (scope : str) (bindings : list str) :
  Res (list (str * pyval)) :=
  if bool_decide (cursor = []) || (max_length codec <? len cursor) || negb (scope_ok scope)
     || negb (base64url_ok cursor)
  then Raise malformed
  else
    match parse_envelope cursor with
    | None => Raise malformed
    | Some (raw, envelope) =>
        match canonical_json (PDict envelope) with
        | Raise _ => Raise malformed
        | Ok canonical_outer =>
            if negb (bool_decide (raw = canonical_outer)) then Raise malformed
            else
              match dict_get (u "__cursor_sig") envelope with
              | Some (PStr supplied_signature) =>
                  if negb (base64url_ok supplied_signature) then Raise malformed
                  else
                    let envelope := dict_pop (u "__cursor_sig") envelope in
                    let? expected_signature := signature codec envelope in
                    if negb (bool_decide (supplied_signature = expected_signature))
                    then Raise malformed
                    else if negb (equals_one (dict_get (u "__cursor_v") envelope))
                            || negb (is_str (dict_get (u "__cursor_scope") envelope) scope)
                    then Raise malformed
                    else
                      match binding_digest bindings, dict_get (u "__cursor_binding") envelope with
                      | Ok digest, Some (PStr binding) =>
                          if bool_decide (binding = digest)
                          then Ok (filter (fun kv => is_meta kv.1 = false) envelope)
                          else Raise malformed
                      | _, _ => Raise malformed
                      end
              | _ => Raise malformed
              end
        end
    end.
End decode.
