(* ===== verification/CursorSafety.v ===== *)
(** * Safety of signed cursors

    A cursor decodes to the payload it was made from; what decodes carries the
    HMAC of its own canonical envelope under the codec's secret, with the expected
    scope and bindings; every rejection is the same error. *)
From S2P Require Import Prelude Json Sha256 JsonText Base64 Cursors.
Local Open Scope Z_scope.

(** ** Canonical bytes *)
Lemma utf8_char_bytes c : code_point c -> Forall is_byte (utf8_char c).
Proof.
  unfold code_point, utf8_char, is_byte. intros H.
  repeat case_match; bool_facts; repeat constructor; zlia.
Qed.
Lemma utf8_bytes s b : text s -> utf8_encode s = Some b -> Forall is_byte b.
Proof.
  unfold utf8_encode. destruct (existsb _ s); [done|]. intros H [= <-].
  induction H as [|c s Hc _ IH]; [constructor|]. cbn [flat_map]. apply Forall_app.
  split; [by apply utf8_char_bytes|done].
Qed.
Lemma plain_finite v : plain v -> non_finite v = false.
Proof.
  induction v as [|b|n|r|s|l IH|d IH] using pyval_nested_ind; intros Hv; try done.
  - apply plain_list in Hv. cbn [non_finite]. apply not_true_iff_false.
    intros (v & Hin%list_elem_of_In & H)%existsb_exists. rewrite Forall_forall in IH, Hv.
    rewrite IH in H by auto. done.
  - apply plain_dict in Hv as [_ Hv]. cbn [non_finite]. apply not_true_iff_false.
    intros (kv & Hin%list_elem_of_In & H)%existsb_exists. rewrite Forall_forall in IH, Hv.
    destruct (Hv kv Hin). rewrite IH in H by auto. done.
Qed.
Lemma canonical_json_plain v : plain v ->
  canonical_json v = match utf8_encode (dumps false v) with
                     | Some b => Ok b
                     | None => Raise (cursor_error "cursor payload is not canonical JSON")
                     end.
Proof. intros H. unfold canonical_json. by rewrite plain_finite. Qed.
Lemma canonical_json_eq v w : plain v -> plain w -> dumps false v = dumps false w ->
  canonical_json v = canonical_json w.
Proof. intros Hv Hw E. rewrite !canonical_json_plain by done. by rewrite E. Qed.
Lemma canonical_json_ok v b : plain v -> canonical_json v = Ok b ->
  utf8_encode (dumps false v) = Some b /\ Forall is_byte b.
Proof.
  intros Hv. rewrite canonical_json_plain by done. destruct (utf8_encode _) as [b'|] eqn:E; [|done].
  intros [= ->]. split; [done|]. by apply (utf8_bytes _ _ (text_dumps v Hv)).
Qed.
(** Canonical bytes determine the value. *)
Lemma canonical_json_inj v w b : plain v -> plain w ->
  canonical_json v = Ok b -> canonical_json w = Ok b -> canon v = canon w.
Proof.
  intros Hv Hw [Ev _]%canonical_json_ok [Ew _]%canonical_json_ok; [|done..].
  apply (utf8_roundtrip _ _ (text_dumps v Hv)) in Ev. apply (utf8_roundtrip _ _ (text_dumps w Hw)) in Ew.
  apply dumps_injective; [done|done|congruence].
Qed.
Lemma hook_distinct pairs : NoDup pairs.*1 -> reject_duplicate_json_keys pairs = Some pairs.
Proof. intros H. unfold reject_duplicate_json_keys. by rewrite bool_decide_true. Qed.
(** What a canonical text parses to. *)
Lemma loads_canonical float_repr v b :
  plain v -> canonical_json v = Ok b ->
  utf8_decode b = Some (dumps false v) /\
  loads float_repr (fun _ => None) reject_duplicate_json_keys (dumps false v) = Some (canon v).
Proof.
  intros Hv Hb. apply canonical_json_ok in Hb as [Hb _]; [|done]. split.
  - by apply (utf8_roundtrip _ _ (text_dumps v Hv)).
  - apply loads_dumps; [apply hook_distinct|done].
Qed.

(** ** Envelopes *)
Definition meta_free (d : list (str * pyval)) : Prop := Forall (fun kv => is_meta kv.1 = false) d.
Lemma meta_free_ok d : existsb (fun kv => is_meta kv.1) d = false <-> meta_free d.
Proof.
  unfold meta_free. induction d as [|kv d IH]; cbn [existsb]; [by split|].
  rewrite orb_false_iff, Forall_cons, IH. done.
Qed.
Lemma meta_free_not_in d k : meta_free d -> is_meta k = true -> k ∉ d.*1.
Proof.
  intros H Hk (kv & -> & Hin)%list_elem_of_fmap. unfold meta_free in H. rewrite Forall_forall in H.
  rewrite (H kv Hin) in Hk. done.
Qed.
Definition metas (binding scope : str) : list (str * pyval) :=
  [(u "__cursor_binding", PStr binding); (u "__cursor_scope", PStr scope);
   (u "__cursor_v", PInt _CURSOR_VERSION)].
Definition signed (d : list (str * pyval)) (sig : str) : list (str * pyval) :=
  d ++ [(u "__cursor_sig", PStr sig)].

Section envelope.
Context (p : list (str * pyval)) (binding scope : str).
Context (Hp : plain (PDict p)) (Hm : meta_free p) (Hb : text binding) (Hs : text scope).
Lemma unsigned_eq : unsigned_envelope p binding scope = p ++ metas binding scope.
Proof.
  pose proof (fun k => meta_free_not_in p k Hm) as Hno. unfold unsigned_envelope.
  rewrite (dict_set_fresh (u "__cursor_binding")) by (apply Hno; reflexivity).
  rewrite (dict_set_fresh (u "__cursor_scope")).
  2: { rewrite fmap_app, not_elem_of_app. split; [apply Hno; reflexivity|].
       apply (bool_decide_unpack (_ ∉ _)). by vm_compute. }
  rewrite (dict_set_fresh (u "__cursor_v")); [by rewrite <- !app_assoc|].
  rewrite !fmap_app, !not_elem_of_app. split; [split; [apply Hno; reflexivity|]|];
    apply (bool_decide_unpack (_ ∉ _)); by vm_compute.
Qed.
Lemma unsigned_plain : plain (PDict (p ++ metas binding scope)).
Proof.
  apply plain_dict in Hp as [Hnd Hv]. apply (proj2 (plain_dict _)). split.
  - rewrite fmap_app. apply NoDup_app. split; [done|]. split.
    + intros k Hk Hin. assert (is_meta k = true) as Hmeta.
      { cbn in Hin. rewrite !elem_of_cons, elem_of_nil in Hin.
        by destruct Hin as [->|[->|[->|[]]]]. }
      by apply (meta_free_not_in p k Hm).
    + apply (bool_decide_unpack (NoDup _)). by vm_compute.
  - apply Forall_app. split; [done|].
    repeat (apply Forall_cons; split; [split; [apply text_u|done]|]). constructor.
Qed.
Lemma sig_fresh : u "__cursor_sig" ∉ (p ++ metas binding scope).*1.
Proof.
  rewrite fmap_app, not_elem_of_app. split; [apply (meta_free_not_in p _ Hm); reflexivity|].
  apply (bool_decide_unpack (_ ∉ _)). by vm_compute.
Qed.
Lemma signed_plain sig : text sig -> plain (PDict (signed (p ++ metas binding scope) sig)).
Proof.
  intros Hsig. pose proof unsigned_plain as [Hnd Hv]%plain_dict. apply (proj2 (plain_dict _)). split.
  - unfold signed. rewrite fmap_app. apply NoDup_app. split; [done|]. split.
    + intros k Hk Hin. cbn in Hin. apply list_elem_of_singleton in Hin as ->. by apply sig_fresh.
    + apply NoDup_singleton.
  - apply Forall_app. split; [done|]. constructor; [split; [apply text_u|done]|constructor].
Qed.
End envelope.

(** The parsed envelope: the canonical members in key order. *)
Definition parsed (d : list (str * pyval)) : list (str * pyval) := sort_keys (canon_members d).
Lemma parsed_perm d : parsed d ≡ₚ canon_members d.
Proof. apply sort_keys_perm. Qed.
Lemma parsed_keys d : (parsed d).*1 ≡ₚ d.*1.
Proof. by rewrite parsed_perm, canon_keys. Qed.
Lemma parsed_get k d : NoDup d.*1 -> dict_get k (parsed d) = canon <$> dict_get k d.
Proof.
  intros Hnd. rewrite <- dict_get_map. apply dict_get_perm; [|apply parsed_perm]. by rewrite parsed_keys.
Qed.
Lemma has_key_perm k (d d' : list (str * pyval)) : d.*1 ≡ₚ d'.*1 -> has_key k d = has_key k d'.
Proof. intros H. unfold has_key. apply bool_decide_ext. by rewrite H. Qed.
Lemma pop_signed d sig : u "__cursor_sig" ∉ d.*1 ->
  dict_pop (u "__cursor_sig") (parsed (signed d sig)) ≡ₚ canon_members d.
Proof.
  intros H. unfold dict_pop. rewrite parsed_perm. unfold signed, canon_members. rewrite map_app, filter_app.
  cbn [map]. rewrite filter_cons_False by (cbn; tauto). rewrite filter_nil, app_nil_r.
  change (map (fun kv => (kv.1, canon kv.2)) d) with (canon_members d).
  assert (Forall (fun kv : str * pyval => kv.1 <> u "__cursor_sig") (canon_members d)) as Hall.
  { apply Forall_forall. intros kv Hin E. apply H. rewrite <- (canon_keys d), <- E. by apply (list_elem_of_fmap_2 fst). }
  clear H. induction Hall as [|kv l Hkv _ IH]; [done|]. rewrite filter_cons_True by done. by rewrite IH.
Qed.
Lemma plain_perm d d' : d ≡ₚ d' -> plain (PDict d) -> plain (PDict d').
Proof.
  intros Hp [Hnd Hv]%plain_dict. apply (proj2 (plain_dict _)). by rewrite <- Hp.
Qed.
Lemma plain_canon_members d : plain (PDict d) -> plain (PDict (canon_members d)).
Proof. intros H. eapply plain_perm; [apply parsed_perm|]. exact (plain_canon _ H). Qed.
Lemma dumps_canon_members d : plain (PDict d) ->
  dumps false (PDict (canon_members d)) = dumps false (PDict d).
Proof.
  intros H. rewrite <- (dumps_canon (PDict d)) by done. apply dumps_perm; [by rewrite <- (parsed_perm d)|].
  rewrite canon_keys. by apply plain_keys.
Qed.
(** An envelope reordered and with canonical members is signed as the original. *)
Lemma signature_canon codec d d' : plain (PDict d) -> d' ≡ₚ canon_members d ->
  signature codec d' = signature codec d.
Proof.
  intros Hd Hp. unfold signature. pose proof (plain_canon_members _ Hd) as Hc.
  rewrite (canonical_json_eq (PDict d') (PDict d)); [done|by eapply plain_perm; [symmetry|]|done|].
  rewrite <- (dumps_canon_members d) by done. symmetry. apply dumps_perm; [done|by apply plain_keys].
Qed.
Lemma filter_metas p binding scope : meta_free p ->
  filter (fun kv : str * pyval => is_meta kv.1 = false) (canon_members (p ++ metas binding scope))
  = canon_members p.
Proof.
  intros H. unfold canon_members. rewrite map_app, filter_app.
  assert (filter (fun kv : str * pyval => is_meta kv.1 = false)
    (map (fun kv => (kv.1, canon kv.2)) (metas binding scope)) = []) as ->.
  { cbn [map metas]. repeat rewrite filter_cons_False by (vm_compute; discriminate). done. }
  rewrite app_nil_r. induction H as [|kv p Hkv _ IH]; [done|]. cbn [map].
  rewrite filter_cons_True by done. by rewrite IH.
Qed.
Lemma scope_text scope : scope_ok scope = true -> text scope.
Proof.
  unfold scope_ok. destruct scope as [|c t]; [done|]. intros H. bool_facts.
  assert (forall c, alphanumeric c = true -> code_point c) as Ha
    by (intros x; unfold alphanumeric, code_point; lia).
  constructor; [by apply Ha|]. apply Forall_forall. intros x Hx%list_elem_of_In.
  match goal with H : forallb _ _ = true |- _ => rewrite forallb_forall in H; specialize (H x Hx) end.
  unfold alphanumeric, code_point in *. lia.
Qed.
Lemma base64_text s : forallb base64url_char s = true -> text s.
Proof.
  intros H. rewrite forallb_forall in H. apply Forall_forall. intros x Hx%list_elem_of_In%H.
  unfold base64url_char, alphanumeric, code_point in *. lia.
Qed.
Lemma hmac_bytes key msg : Forall is_byte (hmac_sha256 key msg).
Proof. apply sha256_byte. Qed.
Lemma signature_ok codec d sig : signature codec d = Ok sig ->
  base64url_ok sig = true /\ text sig /\
  exists canonical, canonical_json (PDict d) = Ok canonical /\
    sig = b64_encode (hmac_sha256 (secret codec) (b64_encode canonical)).
Proof.
  unfold signature. intros H. apply res_bind_ok in H as (canonical & Hc & H). injection H as <-.
  pose proof (b64_encode_chars _ (hmac_bytes (secret codec) (b64_encode canonical))) as Hchars.
  split; [|split; [by apply base64_text|eauto]]. unfold base64url_ok. rewrite Hchars, andb_true_r.
  apply negb_true_iff, bool_decide_eq_false. intros E%b64_encode_nil.
  pose proof (length_sha256 (map (Z.lxor 92) (let k0 := if 64 <? len (secret codec) then sha256 (secret codec)
    else secret codec in k0 ++ replicate (64 - length k0) 0) ++ sha256 (map (Z.lxor 54)
    (let k0 := if 64 <? len (secret codec) then sha256 (secret codec) else secret codec in
     k0 ++ replicate (64 - length k0) 0) ++ b64_encode canonical))) as Hl.
  change (length (hmac_sha256 (secret codec) (b64_encode canonical)) = 32%nat) in Hl. by rewrite E in Hl.
Qed.
Lemma binding_text bindings digest : binding_digest bindings = Ok digest -> text digest.
Proof.
  unfold binding_digest. intros H. inv_steps. apply text_digest_hex.
Qed.

(** What [encode] returns. *)
Lemma cursor_encode_ok codec p scope bindings c :
  cursor_encode codec p scope bindings = Ok c ->
  exists digest sig outer, scope_ok scope = true /\ meta_free p /\ binding_digest bindings = Ok digest /\
    let d := p ++ metas digest scope in
    signature codec d = Ok sig /\ canonical_json (PDict (signed d sig)) = Ok outer /\
    c = b64_encode outer /\ len c <= max_length codec.
Proof.
  unfold cursor_encode. intros H. inv_step. inv_step.
  match goal with H : existsb _ _ = false |- _ => apply meta_free_ok in H as Hm end.
  apply res_bind_ok in H as (digest & Hd & H). apply res_bind_ok in H as (sig & Hsig & H).
  apply res_bind_ok in H as (outer & Ho & H). inv_step. injection H as <-. bool_facts.
  rewrite unsigned_eq in Hsig, Ho by done.
  rewrite dict_set_fresh in Ho by by apply sig_fresh.
  exists digest, sig, outer. by split_and!.
Qed.

(** ** What decodes *)
(** A parsed top-level object passed the duplicate check. *)
Lemma loads_distinct float_repr text d :
  loads float_repr (fun _ => None) reject_duplicate_json_keys text = Some (PDict d) -> NoDup d.*1.
Proof.
  apply (loads_dict _ _ _ (fun d => NoDup d.*1)); [done|].
  unfold reject_duplicate_json_keys. intros l e H. case_match; [|done]. injection H as <-. by bool_facts.
Qed.
Lemma filter_not_sig (env : list (str * pyval)) k :
  k <> u "__cursor_sig" -> dict_get k (dict_pop (u "__cursor_sig") env) = dict_get k env.
Proof.
  intros Hk. unfold dict_pop. induction env as [|[k' v] env IH]; [done|]. cbn [dict_get].
  destruct (decide (k' = u "__cursor_sig")) as [->|Hne].
  - rewrite filter_cons_False by (cbn; tauto). by rewrite bool_decide_false.
  - rewrite filter_cons_True by done. cbn [dict_get]. by rewrite IH.
Qed.
(** Everything [decode] has checked of an accepted cursor. *)
Record accepted float_repr codec cursor scope bindings (env : list (str * pyval)) (sig digest : str) : Prop := {
  acc_parse : exists raw, parse_envelope float_repr cursor = Some (raw, env) /\ cursor = b64_encode raw
    /\ canonical_json (PDict env) = Ok raw /\ NoDup env.*1;
  acc_length : len cursor <= max_length codec;
  acc_scope_ok : scope_ok scope = true;
  acc_sig : dict_get (u "__cursor_sig") env = Some (PStr sig);
  acc_signed : signature codec (dict_pop (u "__cursor_sig") env) = Ok sig;
  acc_version : equals_one (dict_get (u "__cursor_v") env) = true;
  acc_scope : dict_get (u "__cursor_scope") env = Some (PStr scope);
  acc_digest : binding_digest bindings = Ok digest;
  acc_binding : dict_get (u "__cursor_binding") env = Some (PStr digest)
}.
Lemma parse_envelope_ok float_repr cursor raw env :
  parse_envelope float_repr cursor = Some (raw, env) -> cursor = b64_encode raw /\ NoDup env.*1.
Proof.
  unfold parse_envelope. intros H. apply bind_Some in H as (raw' & _ & H).
  case_match; [|done]. apply bind_Some in H as (text & _ & H). apply bind_Some in H as (v & Hl & H).
  destruct v as [| | | | | |d]; try done. case_match; [|done]. injection H as -> ->. bool_facts.
  split; [done|]. by eapply loads_distinct.
Qed.
Lemma cursor_decode_ok float_repr codec cursor scope bindings d :
  cursor_decode float_repr codec cursor scope bindings = Ok d ->
  exists env sig digest, accepted float_repr codec cursor scope bindings env sig digest /\
    d = filter (fun kv => is_meta kv.1 = false) (dict_pop (u "__cursor_sig") env).
Proof.
  unfold cursor_decode. intros H. inv_step.
  destruct (parse_envelope float_repr cursor) as [[raw env]|] eqn:Hp; [|done].
  destruct (canonical_json (PDict env)) as [outer|] eqn:Hc; [|done]. inv_step.
  destruct (dict_get (u "__cursor_sig") env) as [[| | | |sig| |]|] eqn:Hs; try done. inv_step.
  apply res_bind_ok in H as (sig' & Hsig & H). inv_step. inv_step.
  destruct (binding_digest bindings) as [digest|] eqn:Hd; [|done].
  destruct (dict_get (u "__cursor_binding") _) as [[| | | |b| |]|] eqn:Hb; try done.
  case_match; [|done]. injection H as <-. bool_facts. subst.
  rewrite !filter_not_sig in * by (vm_compute; congruence).
  destruct (parse_envelope_ok _ _ _ _ Hp) as [E Hnd].
  exists env, sig', digest. split; [|done]. split; try done; [by exists outer|by apply is_str_true].
Qed.

(** ** Reordered envelopes *)
Lemma existsb_perm {A : Type} (f : A -> bool) l l' : l ≡ₚ l' -> existsb f l = existsb f l'.
Proof.
  induction 1 as [|x l l' _ IH|x y l|l1 l2 l3 _ IH1 _ IH2]; cbn [existsb]; [done|by rewrite IH| |congruence].
  by rewrite !orb_assoc, (orb_comm (f y)).
Qed.
Lemma canonical_json_perm d d' : d ≡ₚ d' -> NoDup d.*1 -> canonical_json (PDict d) = canonical_json (PDict d').
Proof.
  intros Hp Hnd. unfold canonical_json. rewrite (dumps_perm d d') by done. cbn [non_finite].
  by rewrite (existsb_perm _ d d').
Qed.
Lemma signature_perm codec d d' : d ≡ₚ d' -> NoDup d.*1 -> signature codec d = signature codec d'.
Proof. intros Hp Hnd. unfold signature. by rewrite (canonical_json_perm d d'). Qed.
Lemma dict_pop_keys k d : NoDup d.*1 -> NoDup (dict_pop k d).*1 /\ k ∉ (dict_pop k d).*1.
Proof.
  intros H. split.
  - unfold dict_pop. induction d as [|kv d IH]; [constructor|]. cbn in H. apply NoDup_cons in H as [Hk H].
    rewrite filter_cons. case_decide; [|auto]. cbn. constructor; [|auto].
    intros (x & E & Hx)%list_elem_of_fmap. apply list_elem_of_filter in Hx as [_ Hx].
    apply Hk. rewrite E. by apply (list_elem_of_fmap_2 fst).
  - intros (x & E & Hx)%list_elem_of_fmap. apply list_elem_of_filter in Hx as [Hx _]. by apply Hx.
Qed.
Lemma dict_pop_split k v d : NoDup d.*1 -> dict_get k d = Some v -> d ≡ₚ dict_pop k d ++ [(k, v)].
Proof.
  intros Hnd Hg%dict_get_elem; [|done]. destruct (dict_pop_keys k d Hnd) as [Hnd' Hk].
  apply NoDup_Permutation.
  - by apply (NoDup_fmap_1 fst).
  - apply NoDup_app. split; [by apply (NoDup_fmap_1 fst)|]. split; [|apply NoDup_singleton].
    intros x Hx ->%list_elem_of_singleton. apply Hk. by apply (list_elem_of_fmap_2 fst) in Hx.
  - intros x. rewrite elem_of_app, list_elem_of_singleton. unfold dict_pop. rewrite list_elem_of_filter.
    destruct (decide (x.1 = k)) as [E|E]; [|naive_solver].
    split; [|intros [[]| ->]; done]. intros Hx. right. destruct x as [k' v']. cbn in E. subst k'.
    apply dict_get_elem in Hx, Hg; [congruence|done..].
Qed.
Lemma is_meta_cases k : is_meta k = true -> k = u "__cursor_v" \/ k = u "__cursor_scope"
  \/ k = u "__cursor_binding" \/ k = u "__cursor_sig".
Proof.
  unfold is_meta, _META_KEYS. rewrite one_of_true, !Exists_cons, Exists_nil. tauto.
Qed.
(** The members of an accepted envelope are its payload and the three bound ones. *)
Lemma accepted_members float_repr codec cursor scope bindings env sig digest :
  accepted float_repr codec cursor scope bindings env sig digest ->
  dict_get (u "__cursor_v") env = Some (PInt _CURSOR_VERSION) ->
  let d := filter (fun kv => is_meta kv.1 = false) (dict_pop (u "__cursor_sig") env) in
  NoDup (dict_pop (u "__cursor_sig") env).*1 /\ meta_free d /\
  dict_pop (u "__cursor_sig") env ≡ₚ d ++ metas digest scope.
Proof.
  intros H Hv d. destruct H as [(raw & _ & _ & _ & Hnd) _ _ _ _ _ Hs _ Hb].
  destruct (dict_pop_keys (u "__cursor_sig") env Hnd) as [Hnd' Hk].
  assert (meta_free d) as Hm by (apply Forall_forall; intros x Hx; by apply list_elem_of_filter in Hx as [? _]).
  rewrite <- (filter_not_sig env) in Hv, Hs, Hb by (vm_compute; congruence).
  split; [done|]. split; [done|]. revert Hnd' Hk Hv Hs Hb. subst d.
  generalize (dict_pop (u "__cursor_sig") env) as e. intros e Hnd' Hk Hv Hs Hb.
  apply dict_get_elem in Hv, Hs, Hb; [|done..].
  apply NoDup_Permutation; [by apply (NoDup_fmap_1 fst)| |].
  - apply NoDup_app. split; [by apply NoDup_filter, (NoDup_fmap_1 fst)|]. split.
    + intros x [Hx _]%list_elem_of_filter Hin. revert Hx. unfold metas in Hin.
      rewrite !elem_of_cons, elem_of_nil in Hin. by destruct Hin as [->|[->|[->|[]]]].
    + apply (NoDup_fmap_1 fst). apply (bool_decide_unpack (NoDup _)). by vm_compute.
  - intros x. rewrite elem_of_app, list_elem_of_filter. unfold metas. rewrite !elem_of_cons, elem_of_nil.
    split; [|intros [[]|[->|[->|[->|[]]]]]; done].
    intros Hx. destruct (is_meta x.1) eqn:Ex; [right|by left]. destruct x as [k v]. cbn [fst] in Ex.
    apply is_meta_cases in Ex as [->|[->|[->| ->]]];
      [| | |by destruct Hk; apply (list_elem_of_fmap_2 fst) in Hx];
      apply dict_get_elem in Hx, Hv, Hs, Hb; try done;
      first [rewrite Hv in Hx|rewrite Hs in Hx|rewrite Hb in Hx]; injection Hx as <-; tauto.
Qed.

(** ** Rejections *)
Lemma surrogate_free s : utf8_encode s = None <-> existsb is_surrogate s = true.
Proof. unfold utf8_encode. by destruct (existsb is_surrogate s). Qed.
Lemma existsb_join sep l :
  existsb is_surrogate sep = false ->
  existsb is_surrogate (join sep l) = existsb (existsb is_surrogate) l.
Proof.
  intros Hs. induction l as [|x l IH]; [done|]. destruct l as [|y l]; [cbn; by rewrite orb_false_r|].
  change (join sep (x :: y :: l)) with (x ++ sep ++ join sep (y :: l)).
  rewrite !existsb_app, Hs, IH. done.
Qed.
Lemma dumps_surrogates d : existsb is_surrogate (dumps false (PDict d)) =
  existsb (fun kv => existsb is_surrogate (quote false kv.1) || existsb is_surrogate (dumps false kv.2)) d.
Proof.
  rewrite dumps_dict_text, !existsb_app, existsb_join by done.
  change (existsb is_surrogate (u "{")) with false. change (existsb is_surrogate (u "}")) with false.
  rewrite orb_false_r. cbn [orb].
  rewrite (existsb_perm _ _ _ (fmap_Permutation member_of _ _ (sort_keys_perm _))).
  induction d as [|kv d IH]; [done|]. cbn [map fmap list_fmap existsb]. f_equal; [|exact IH].
  unfold member_of. cbn [fst snd]. rewrite !existsb_app. done.
Qed.
Lemma existsb_filter_false {A : Type} (P : A -> Prop) `{!forall x, Decision (P x)} (f : A -> bool) l :
  existsb f l = false -> existsb f (filter P l) = false.
Proof.
  rewrite <- !not_true_iff_false, !existsb_exists. setoid_rewrite <- list_elem_of_In.
  setoid_rewrite list_elem_of_filter. naive_solver.
Qed.
Lemma canonical_json_pop k d raw : canonical_json (PDict d) = Ok raw ->
  is_ok (canonical_json (PDict (dict_pop k d))) = true.
Proof.
  unfold canonical_json. cbn [non_finite]. destruct (existsb _ d) eqn:Hf; [done|].
  destruct (utf8_encode (dumps false (PDict d))) eqn:Hu; [intros _|done].
  unfold dict_pop. rewrite existsb_filter_false by done.
  destruct (utf8_encode (dumps false (PDict (filter _ d)))) eqn:Hu'; [done|].
  apply surrogate_free in Hu'. rewrite dumps_surrogates, existsb_filter_false in Hu'; [done|].
  rewrite <- dumps_surrogates. apply not_true_iff_false. intros E%surrogate_free. congruence.
Qed.

(** ** Theorems *)

(** The decoder reads back the signed envelope it was issued with. *)
Lemma parse_issued float_repr payload digest scope sig outer (e := payload ++ metas digest scope) :
  plain (PDict (signed e sig)) -> canonical_json (PDict (signed e sig)) = Ok outer ->
  parse_envelope float_repr (b64_encode outer) = Some (outer, parsed (signed e sig)).
Proof.
  intros Hsp Ho. pose proof (canonical_json_ok _ _ Hsp Ho) as [_ Hbytes].
  pose proof (loads_canonical float_repr _ _ Hsp Ho) as [Hdec Hloads].
  unfold parse_envelope. rewrite b64_roundtrip by done. cbn [mbind option_bind].
  rewrite bool_decide_true by done. rewrite Hdec. cbn [mbind option_bind]. rewrite Hloads.
  cbn [mbind option_bind canon]. fold (canon_members (signed e sig)) (parsed (signed e sig)).
  assert (forallb (fun k => has_key (u k) (parsed (signed e sig))) _META_KEYS = true) as ->; [|done].
  unfold e, signed, metas, has_key. cbn [forallb _META_KEYS]. rewrite !bool_decide_true; [done|..];
    rewrite parsed_keys, !fmap_app, !elem_of_app; cbn; rewrite !elem_of_cons; tauto.
Qed.

(** A cursor issued by a codec decodes, under the same secret, scope and
    bindings, to the payload it was issued for, in canonical form. *)
Theorem cursor_roundtrip float_repr codec payload scope bindings cursor
  (Hplain : plain (PDict payload))
  (Hencode : cursor_encode codec payload scope bindings = Ok cursor) :
  exists d, cursor_decode float_repr codec cursor scope bindings = Ok d /\ d ≡ₚ canon_members payload.
Proof.
  apply cursor_encode_ok in Hencode as (digest & sig & outer & Hscope & Hm & Hd & Hsig & Ho & -> & Hlen).
  pose proof (binding_text _ _ Hd) as Htd. pose proof (scope_text _ Hscope) as Hts.
  pose proof (signature_ok _ _ _ Hsig) as (Hb64 & Htsig & _).
  set (e := payload ++ metas digest scope) in *.
  pose proof (unsigned_plain payload digest scope Hplain Hm Htd Hts) as He.
  pose proof (sig_fresh payload digest scope Hm) as Hfresh. fold e in He, Hfresh.
  pose proof (signed_plain payload digest scope Hplain Hm Htd Hts sig Htsig) as Hsp. fold e in Hsp.
  pose proof (canonical_json_ok _ _ Hsp Ho) as [_ Hbytes].
  pose proof (plain_keys _ Hsp) as Hnd.
  pose proof (loads_canonical float_repr _ _ Hsp Ho) as [Hdec Hloads].
  assert (forall k v, dict_get k (signed e sig) = Some v -> dict_get k (parsed (signed e sig)) = Some (canon v)) as Hget.
  { intros k v E. by rewrite parsed_get, E. }
  pose proof (parse_issued float_repr payload digest scope sig outer Hsp Ho) as Hparse. fold e in Hparse.
  assert (canonical_json (PDict (parsed (signed e sig))) = Ok outer) as Hcanon.
  { rewrite <- Ho. apply (canonical_json_eq (canon (PDict (signed e sig)))); [by apply plain_canon|done|].
    by apply dumps_canon. }
  assert (forall k v, (k, v) ∈ signed e sig -> dict_get k (parsed (signed e sig)) = Some (canon v)) as Hin.
  { intros k v H. apply Hget. by apply dict_get_elem. }
  pose proof (pop_signed e sig Hfresh) as Hpop.
  eexists. split; [|rewrite <- (filter_metas payload digest scope Hm); fold e; by rewrite <- Hpop].
  unfold cursor_decode. rewrite Hparse, Hcanon, Hscope.
  assert (b64_encode outer <> []) as Hne.
  { intros E%b64_encode_nil. subst outer. by destruct Hparse. }
  rewrite (bool_decide_false (b64_encode outer = [])) by done.
  rewrite (proj2 (Z.ltb_ge _ _) Hlen). unfold base64url_ok at 1.
  rewrite b64_encode_chars, (bool_decide_false (b64_encode outer = [])), bool_decide_true by done. cbn [orb negb andb].
  rewrite (Hin (u "__cursor_sig") (PStr sig)) by (apply elem_of_app; right; by left). cbn [canon].
  rewrite Hb64, (signature_canon codec e), Hsig by done. cbn [negb res_bind].
  rewrite bool_decide_true, !filter_not_sig by (done || (vm_compute; congruence)). cbn [negb].
  rewrite (Hin (u "__cursor_v") (PInt _CURSOR_VERSION)), (Hin (u "__cursor_scope") (PStr scope)),
    (Hin (u "__cursor_binding") (PStr digest))
    by (unfold signed, e, metas; rewrite !elem_of_app, !elem_of_cons; tauto).
  cbn [canon equals_one is_str _CURSOR_VERSION]. rewrite Hd, !bool_decide_true by done. done.
Qed.

(** C36: Only issued cursors are accepted: a cursor that decodes, with the version
    as an integer, is the one [encode] makes of the decoded payload under the same
    secret, scope and bindings. *)
Theorem cursor_decode_reencodes float_repr codec cursor scope bindings raw env d
  (Hparse : parse_envelope float_repr cursor = Some (raw, env))
  (Hversion : dict_get (u "__cursor_v") env = Some (PInt _CURSOR_VERSION))
  (Hdecode : cursor_decode float_repr codec cursor scope bindings = Ok d) :
  cursor_encode codec d scope bindings = Ok cursor.
Proof.
  apply cursor_decode_ok in Hdecode as (env' & sig & digest & Hacc & ->).
  pose proof (acc_parse _ _ _ _ _ _ _ _ Hacc) as (raw' & Hparse' & Hcur & Hcanon & Hnd).
  assert (env' = env) as -> by congruence.
  destruct (accepted_members _ _ _ _ _ _ _ _ Hacc Hversion) as (Hnd' & Hm & Hp).
  set (d := filter _ (dict_pop (u "__cursor_sig") env)) in *.
  assert (existsb (fun kv => is_meta kv.1) d = false) as Hm' by by apply meta_free_ok.
  destruct Hacc as [_ Hlen Hscope Hsig Hsigned _ _ Hdigest _].
  assert (NoDup (d ++ metas digest scope).*1) as Hnd2 by by rewrite <- Hp.
  unfold cursor_encode. rewrite Hscope, Hm', Hdigest. cbn [negb res_bind].
  rewrite unsigned_eq by done. rewrite <- (signature_perm codec _ _ Hp Hnd'), Hsigned. cbn [res_bind].
  rewrite dict_set_fresh by by apply sig_fresh.
  rewrite <- (canonical_json_perm env), Hcanon; [cbn [res_bind]| |done].
  - rewrite <- Hcur. by rewrite (proj2 (Z.ltb_ge _ _) Hlen).
  - rewrite <- Hp. by apply dict_pop_split.
Qed.

(** Scope and bindings separate cursors: a cursor accepted for two scopes and
    two binding lists has one scope, and one binding list unless two different
    canonical texts have the same SHA-256. *)
Theorem cursor_separation float_repr codec codec' cursor scope scope' bindings bindings' d d'
  (Htext : Forall text bindings) (Htext' : Forall text bindings')
  (Hdecode : cursor_decode float_repr codec cursor scope bindings = Ok d)
  (Hdecode' : cursor_decode float_repr codec' cursor scope' bindings' = Ok d') :
  d = d' /\ scope = scope' /\
  (bindings = bindings' \/
   exists b b', b <> b' /\ canonical_json (PList (map PStr bindings)) = Ok b /\
     canonical_json (PList (map PStr bindings')) = Ok b' /\ sha256_hex b = sha256_hex b').
Proof.
  apply cursor_decode_ok in Hdecode as (env & sig & digest & [(raw & Hp & _) _ _ _ _ _ Hs Hd Hb] & ->).
  apply cursor_decode_ok in Hdecode' as (env' & sig' & digest' & [(raw' & Hp' & _) _ _ _ _ _ Hs' Hd' Hb'] & ->).
  assert (env' = env) as -> by congruence. split; [done|].
  rewrite Hs in Hs'. injection Hs' as ->. split; [done|].
  rewrite Hb in Hb'. injection Hb' as ->.
  assert (forall l, Forall text l -> plain (PList (map PStr l))) as Hplain
    by (intros l Hl; apply plain_list; by apply Forall_map).
  unfold binding_digest in Hd, Hd'. inv_steps.
  match goal with H : canonical_json (PList (map PStr bindings)) = Ok ?b, H' : canonical_json _ = Ok ?b' |- _ =>
    destruct (decide (b = b')) as [E|]; [left|right; by exists b, b'] end. subst.
  match goal with H : canonical_json (PList (map PStr bindings)) = Ok _, H' : canonical_json _ = Ok _ |- _ =>
    pose proof (canonical_json_inj _ _ _ (Hplain _ Htext) (Hplain _ Htext') H H') as E end.
  cbn [canon] in E. rewrite !map_map in E.
  injection E as E. revert E. clear. revert bindings'.
  induction bindings as [|x l IH]; intros [|y l']; cbn; [done..|]. intros [= -> ?]. f_equal. auto.
Qed.

(** Every cursor that is not accepted is refused with the same error. *)
Theorem cursor_rejections float_repr codec cursor scope bindings e :
  cursor_decode float_repr codec cursor scope bindings = Raise e -> e = malformed.
Proof.
  unfold cursor_decode. case_match; [congruence|]. clear.
  destruct (parse_envelope float_repr cursor) as [[raw env]|]; [|congruence].
  destruct (canonical_json (PDict env)) as [outer|] eqn:Hc; [|congruence].
  case_match; [congruence|]. destruct (dict_get (u "__cursor_sig") env) as [[]|]; try congruence.
  case_match; [congruence|]. unfold signature.
  pose proof (canonical_json_pop (u "__cursor_sig") env outer Hc) as Hok.
  destruct (canonical_json (PDict (dict_pop _ env))); [|done]. cbn [res_bind].
  repeat case_match; congruence.
Qed.

Module CursorDemo.
Definition codec : CursorCodec := MkCodec (u "0123456789abcdef0123456789abcdef") 2048.
Definition payload : list (str * pyval) := [(u "after", PInt 42); (u "id", PStr (u "b2"))].
Definition scope : str := u "documents:list".
Definition bindings : list str := [u "owner"; u "en"].
Definition value (r : Res str) : str := match r with Ok c => c | Raise _ => [] end.
Definition cursor : str := value (cursor_encode codec payload scope bindings).
Definition other : CursorCodec := MkCodec (u "0123456789abcdef0123456789abcdeF") 2048.
Definition parsed : bytes * list (str * pyval) := default ([], []) (parse_envelope id cursor).
Example other_secret : cursor_decode id other cursor scope bindings = Raise malformed.
Proof. vm_compute. reflexivity. Qed.
End CursorDemo.

Lemma cursor_roundtrip_witness :
  exists d, cursor_decode id CursorDemo.codec CursorDemo.cursor CursorDemo.scope CursorDemo.bindings = Ok d
    /\ d ≡ₚ canon_members CursorDemo.payload.
Proof.
  apply (cursor_roundtrip id CursorDemo.codec CursorDemo.payload).
  - plain_members; [exact I|apply text_u].
  - vm_compute. reflexivity.
Defined.
Lemma cursor_decode_reencodes_witness :
  cursor_encode CursorDemo.codec CursorDemo.payload CursorDemo.scope CursorDemo.bindings = Ok CursorDemo.cursor.
Proof.
  apply (cursor_decode_reencodes id CursorDemo.codec CursorDemo.cursor CursorDemo.scope CursorDemo.bindings
    CursorDemo.parsed.1 CursorDemo.parsed.2 CursorDemo.payload); vm_compute; reflexivity.
Defined.
Lemma cursor_separation_witness :
  CursorDemo.payload = CursorDemo.payload /\ CursorDemo.scope = CursorDemo.scope /\
  (CursorDemo.bindings = CursorDemo.bindings \/
   exists b b', b <> b' /\ canonical_json (PList (map PStr CursorDemo.bindings)) = Ok b /\
     canonical_json (PList (map PStr CursorDemo.bindings)) = Ok b' /\ sha256_hex b = sha256_hex b').
Proof.
  apply (cursor_separation id CursorDemo.codec CursorDemo.codec CursorDemo.cursor);
    [by repeat apply Forall_cons_2; try apply text_u|by repeat apply Forall_cons_2; try apply text_u|vm_compute; reflexivity..].
Defined.
Lemma cursor_rejections_witness : malformed = malformed.
Proof.
  apply (cursor_rejections id CursorDemo.other CursorDemo.cursor CursorDemo.scope CursorDemo.bindings).
  vm_compute. reflexivity.
Defined.
