(* ===== verification/BackupArchive.v ===== *)
(** * Backup archives (src/apps/api/app/services/backup_archive.py)

    The validator of a restore archive.  [tarfile] is read as the stream of
    members it yields and the exception, if any, that ends the stream; the member
    checks, the name normalisation and the bounds are the program's. *)
From S2P Require Import Prelude Storage.
Local Open Scope Z_scope.

Definition MAX_ARCHIVE_MEMBERS : Z := 200000.
Definition MAX_ARCHIVE_BYTES : Z := 64 * 1024 * 1024 * 1024.
Definition MAX_ARCHIVE_EXPANDED_BYTES : Z := 64 * 1024 * 1024 * 1024.

Definition archive_error (code : string) : exn := BackupArchiveError (u code).

(** [any(ord(character) < 32 or ord(character) == 127 ...)] *)
Definition control_character (c : Z) : bool := (c <? 32) || (c =? 127).
(** A leading [./], and the final [/] of a directory. *)
Definition strip_dot (raw : str) : str := if starts_with (u "./") raw then drop 2 raw else raw.
Definition strip_slash (is_directory : bool) (c : str) : str :=
  if is_directory && ends_with (u "/") c then removelast c else c.
(** [_canonical_member_name] *)
Definition canonical_member_name (raw_name : str) (is_directory : bool) : Res str :=
  if bool_decide (raw_name = []) || bool_decide (backslash ∈ raw_name)
  then Raise (archive_error "member_name_invalid")
  else if existsb control_character raw_name then Raise (archive_error "member_name_invalid")
  else if existsb (fun c => 128 <=? c) raw_name then Raise (archive_error "member_name_invalid")
  else
    let candidate := strip_dot raw_name in
    if one_of candidate [""; "."]
    then if is_directory && one_of raw_name ["."; "./"] then Ok (u ".")
         else Raise (archive_error "member_name_invalid")
    else
      let candidate := strip_slash is_directory candidate in
      if posix_is_absolute candidate || existsb (fun part => one_of part [""; "."; ".."]) (posix_parts candidate)
      then Raise (archive_error "member_name_invalid")
      else
        let canonical := as_posix (posix_parts candidate) in
        if negb (bool_decide (candidate = canonical)) then Raise (archive_error "member_name_invalid")
        else Ok canonical.

(** ** Members *)
Inductive member_type : Type := Regular | Directory | OtherType.
Global Instance member_type_eq_dec : EqDecision member_type.
Proof. solve_decision. Defined.
Record TarInfo : Type := MkTarInfo
  { name : str; type : member_type; size : Z; sparse : option (list (Z * Z)) }.
Definition isdir (m : TarInfo) : bool := bool_decide (type m = Directory).
Definition isreg (m : TarInfo) : bool := bool_decide (type m = Regular).

(** [PurePosixPath(canonical).parents], nearest first, by name. *)
Fixpoint parents_from (fuel : nat) (parts : list str) : list str :=
  match fuel, parts with
  | S fuel, _ :: _ => as_posix (removelast parts) :: parents_from fuel (removelast parts)
  | _, _ => []
  end.
Definition parents (canonical : str) : list str :=
  let parts := posix_parts canonical in parents_from (length parts) parts.
(** [members.get(name) is False] *)
Definition is_file_member (members : list (str * bool)) (n : str) : bool :=
  bool_decide ((n, false) ∈ members).
(** The loop over the parents; it stops at the root. *)
Fixpoint under_file (members : list (str * bool)) (names : list str) : bool :=
  match names with
  | [] => false
  | n :: names => if eqs n "." then false
                  else if is_file_member members n then true else under_file members names
  end.
(** [any(name.startswith(f"{canonical}/") for name in members)] *)
Definition above_member (members : list (str * bool)) (canonical : str) : bool :=
  existsb (fun m => starts_with (canonical ++ u "/") m.1) members.

(** What the loop carries: [members] in insertion order, [member_count],
    [expanded_bytes]. *)
Record Progress : Type := MkProgress
  { members : list (str * bool); member_count : Z; expanded_bytes : Z }.
Definition start : Progress := MkProgress [] 0 0.
(** One iteration of the loop. *)
Definition check_member (max_members max_expanded_bytes : Z) (p : Progress) (m : TarInfo) : Res Progress :=
  let count := member_count p + 1 in
  if max_members <? count then Raise (archive_error "member_count_exceeded")
  else if negb (isdir m || isreg m) then Raise (archive_error "member_type_invalid")
  else if bool_decide (is_Some (sparse m)) then Raise (archive_error "member_type_invalid")
  else if isdir m && negb (size m =? 0) then Raise (archive_error "member_size_invalid")
  else
    let? canonical := canonical_member_name (name m) (isdir m) in
    if bool_decide (canonical ∈ (members p).*1) then Raise (archive_error "duplicate_member")
    else if negb (eqs canonical ".")
            && (under_file (members p) (parents canonical)
                || isreg m && above_member (members p) canonical)
    then Raise (archive_error "member_structure_invalid")
    else
      let expanded := if isreg m then expanded_bytes p + size m else expanded_bytes p in
      if isreg m && (max_expanded_bytes <? expanded)
      then Raise (archive_error "expanded_size_exceeded")
      else Ok (MkProgress (members p ++ [(canonical, isdir m)]) count expanded).
Fixpoint check_members (max_members max_expanded_bytes : Z) (p : Progress) (stream : list TarInfo) :
  Res Progress :=
  match stream with
  | [] => Ok p
  | m :: stream =>
      let? p := check_member max_members max_expanded_bytes p m in
      check_members max_members max_expanded_bytes p stream
  end.

(** What the operating system and [tarfile] report of the archive. *)
Record Archive : Type := MkArchive
  { is_symlink_ : Res bool; is_file_ : Res bool; st_size : Res Z;
    stream : list TarInfo; stream_error : option exn }.
(** The [except] clauses: expected failures become one code, others escape. *)
Definition reraise (e : exn) : exn :=
  match e with
  | BackupArchiveError code => BackupArchiveError code
  | OSError | FileExistsError | TarError | UnicodeEncodeError | ValueError _ =>
      archive_error "archive_unreadable"
  | e => e
  end.
(** [validate_backup_archive] *)
Definition validate_backup_archive (archive : Archive)
  (max_members max_archive_bytes max_expanded_bytes : Z) : Res unit :=
  if (max_members <? 1) || (max_archive_bytes <? 1) || (max_expanded_bytes <? 1)
  then Raise (ValueError (u "archive validation bounds must be positive"))
  else map_exn reraise (
    let? symlink := is_symlink_ archive in
    let? file := if symlink : bool then Ok false else is_file_ archive in
    if negb file then Raise (archive_error "archive_unreadable")
    else
      let? bytes_ := st_size archive in
      if max_archive_bytes <? bytes_ then Raise (archive_error "archive_size_exceeded")
      else
        let? _ := check_members max_members max_expanded_bytes start (stream archive) in
        match stream_error archive with Some e => Raise e | None => Ok tt end).

(** The exit status of the command. *)
Definition main (archive : Archive) : Res Z :=
  match validate_backup_archive archive MAX_ARCHIVE_MEMBERS MAX_ARCHIVE_BYTES MAX_ARCHIVE_EXPANDED_BYTES with
  | Raise (BackupArchiveError _) => Ok 1
  | Raise e => Raise e
  | Ok _ => Ok 0
  end.

Example name_variants :
  map (fun n => canonical_member_name (u n) true) ["./a/b/"; "a"; "./"; "./."; "a/../b"; "a//b"; "/a"; "a//"]
  = [Ok (u "a/b"); Ok (u "a"); Ok (u ".")] ++ replicate 5 (Raise (archive_error "member_name_invalid")).
Proof. vm_compute. reflexivity. Qed.
