(* ===== verification/BackupArchiveFacts.v ===== *)
(** * What the backup archive validator accepts

    Accepted names are the spellings of safe relative paths; an accepted archive is
    a bounded list of plain files and directories with distinct names in which no
    file lies above another member, whatever their order. *)
From S2P Require Import Prelude Storage BackupArchive.
Local Open Scope Z_scope.

(** ** Paths as text *)
Lemma split_on_join (ws : list str) : ws <> [] -> Forall (fun w => slash ∉ w) ws ->
  split_on slash (join [slash] ws) = ws.
Proof.
  intros Hne H. induction H as [|w ws Hw Hws IH]; [done|]. clear Hne.
  assert (split_on slash w = [w]) as Hs.
  { clear -Hw. induction w as [|c w IH]; [done|]. cbn [split_on].
    apply not_elem_of_cons in Hw as [Hc Hw]. destruct (Z.eqb_spec c slash); [done|]. by rewrite IH. }
  destruct ws as [|w' ws]; [exact Hs|]. change (join [slash] (w :: w' :: ws)) with (w ++ slash :: join [slash] (w' :: ws)).
  specialize (IH ltac:(done)). revert IH. generalize (join [slash] (w' :: ws)) as t. intros t IH.
  clear -Hw IH. induction w as [|c w IHw]; cbn [app split_on]; [by rewrite IH|].
  apply not_elem_of_cons in Hw as [Hc Hw]. destruct (Z.eqb_spec c slash); [done|]. by rewrite IHw.
Qed.
Lemma split_on_app (x y : str) : split_on slash (x ++ slash :: y) = split_on slash x ++ split_on slash y.
Proof.
  induction x as [|c x IH]; [done|]. cbn [app split_on]. destruct (Z.eqb_spec c slash).
  - by rewrite IH.
  - rewrite IH. destruct (split_on slash x) eqn:E; [by apply split_on_nonempty in E|]. done.
Qed.
(** A path component that means itself. *)
Definition plain_part (w : str) : bool := negb (one_of w [""; "."; ".."]).
(** A safe relative path: components that mean themselves, plain_text ASCII. *)
Definition safe_path (c : str) : bool :=
  forallb plain_part (split_on slash c)
  && forallb (fun x => (32 <=? x) && (x <? 127) && negb (x =? backslash)) c.
Lemma plain_part_ok w : plain_part w = true -> w <> [] /\ w <> u "." /\ w <> u "..".
Proof.
  unfold plain_part. rewrite negb_true_iff, <- not_true_iff_false, one_of_true, !Exists_cons, Exists_nil.
  change (u "") with (@nil Z). tauto.
Qed.
Lemma plain_parts c : forallb plain_part (split_on slash c) = true -> posix_parts c = split_on slash c.
Proof.
  unfold posix_parts. intros H. rewrite forallb_forall in H.
  assert (forall l : list str, (forall w, In w l -> plain_part w = true) ->
    filter (fun w => w <> [] /\ w <> u ".") l = l) as Hf.
  { induction l as [|w l IH]; [done|]. intros Hl. rewrite filter_cons_True.
    - f_equal. apply IH. intros v Hv. apply Hl. by right.
    - destruct (plain_part_ok w); [apply Hl; by left|tauto]. }
  by apply Hf.
Qed.
Lemma as_posix_parts c : forallb plain_part (split_on slash c) = true -> as_posix (posix_parts c) = c.
Proof.
  intros H. rewrite plain_parts by done. unfold as_posix.
  destruct (split_on slash c) as [|w ws] eqn:E; [by apply split_on_nonempty in E|].
  rewrite <- E. apply join_split.
Qed.

(** ** Parents *)
Lemma parents_from_elem n parts q : (length parts <= n)%nat ->
  q ∈ parents_from n parts <-> exists p s, parts = p ++ s /\ s <> [] /\ q = as_posix p.
Proof.
  revert parts. induction n as [|n IH]; intros parts Hn.
  - destruct parts; [|cbn in Hn; lia]. cbn. rewrite elem_of_nil. split; [done|].
    intros (p & s & E & Hs & _). symmetry in E. apply app_eq_nil in E as [_ ->]. done.
  - destruct parts as [|w ws]; [cbn; rewrite elem_of_nil; split; [done|];
      intros (p & s & E & Hs & _); symmetry in E; apply app_eq_nil in E as [_ ->]; done|].
    cbn [parents_from]. rewrite elem_of_cons. pose proof (app_removelast_last [] (l:=w :: ws) ltac:(done)) as Hl.
    revert Hl. generalize (removelast (w :: ws)) as r, (List.last (w :: ws) []) as z. intros r z Hl. rewrite IH.
    2: { apply (f_equal length) in Hl. rewrite length_app in Hl. cbn in Hl, Hn. lia. }
    split.
    + intros [->|(p & s & E & Hs & ->)]; [by exists r, [z]|].
      exists p, (s ++ [z]). rewrite app_assoc, <- E. split_and!; [done| |done].
      by destruct s.
    + intros (p & s & E & Hs & ->). rewrite Hl in E.
      destruct s as [|x s _] using rev_ind; [done|]. rewrite app_assoc in E.
      apply app_inj_tail in E as [E _]. destruct s as [|y s]; [left; by rewrite E, app_nil_r|].
      right. by exists p, (y :: s).
Qed.
(** [x] names a directory above [y]. *)
Definition below (x y : str) : Prop := starts_with (x ++ u "/") y = true.
Lemma below_eq x y : below x y <-> exists k, y = x ++ slash :: k.
Proof.
  unfold below. rewrite starts_with_spec. change (u "/") with [slash].
  split; intros [k ->]; exists k; by rewrite <- app_assoc.
Qed.
Lemma parents_from_root n parts l1 q l2 : Forall (fun w => plain_part w = true /\ slash ∉ w) parts ->
  parents_from n parts = l1 ++ q :: l2 -> q = u "." -> l2 = [].
Proof.
  revert parts l1. induction n as [|n IH]; intros parts l1 Hp; [by destruct l1|].
  destruct parts as [|w ws]; [by destruct l1|]. cbn [parents_from].
  assert (Forall (fun w => plain_part w = true /\ slash ∉ w) (removelast (w :: ws))) as Hr.
  { rewrite (app_removelast_last [] (l:=w :: ws)) in Hp by done. by apply Forall_app in Hp as [? _]. }
  revert Hr. generalize (removelast (w :: ws)) as r. intros r Hr.
  destruct l1 as [|x l1]; cbn [app]; intros [= Hx E] Hq; [|by eapply IH]. subst q.
  destruct r as [|v vs]; [by destruct n|]. exfalso.
  unfold as_posix in Hq. apply Forall_cons in Hr as [[Hv _] _]. apply plain_part_ok in Hv as (Hv1 & Hv2 & _).
  destruct vs; cbn in Hq; [congruence|]. destruct v as [|c v]; [done|]. cbn in Hq. injection Hq as _ Hq.
  destruct v; cbn in Hq; done.
Qed.

(** ** Names *)
(** The spellings of a canonical name. *)
Definition spells (raw : str) (is_directory : bool) (c : str) : Prop :=
  (c = u "." /\ is_directory = true /\ (raw = u "." \/ raw = u "./" \/ raw = u "././")) \/
  (safe_path c = true /\
   (raw = c \/ raw = u "./" ++ c \/
    is_directory = true /\ (raw = c ++ u "/" \/ raw = u "./" ++ c ++ u "/"))).
Lemma ends_with_slash s : ends_with (u "/") s = true <-> exists c, s = c ++ [slash].
Proof.
  unfold ends_with. rewrite starts_with_spec. change (rev (u "/")) with [slash]. split.
  - intros [k E]. exists (rev k). by rewrite <- (rev_involutive s), E.
  - intros [c ->]. exists (rev c). by rewrite rev_app_distr.
Qed.
Lemma absolute_parts c : forallb plain_part (split_on slash c) = true -> posix_is_absolute c = false.
Proof. 
  destruct c as [|x c]; [done|]. unfold posix_is_absolute. cbn [starts_with split_on].
  rewrite (Z.eqb_sym slash). by destruct (Z.eqb_spec x slash) as [->|].
 Qed.
(** A candidate is its own canonical form exactly when its parts are plain. *)
Lemma candidate_ok c : c <> u "." ->
  posix_is_absolute c || existsb (fun part => one_of part [""; "."; ".."]) (posix_parts c)
    || negb (bool_decide (c = as_posix (posix_parts c))) = negb (forallb plain_part (split_on slash c)).
Proof.
  intros Hd. destruct (forallb plain_part (split_on slash c)) eqn:E; cbn [negb].
  - rewrite absolute_parts, as_posix_parts, bool_decide_true, orb_false_r by done. cbn [orb].
    rewrite plain_parts by done. rewrite forallb_forall in E. apply not_true_iff_false.
    intros (w & Hw & H)%existsb_exists. apply E in Hw. unfold plain_part in Hw. by rewrite H in Hw.
  - apply not_false_iff_true. intros H. bool_facts.
    match goal with H : c = _ |- _ => rename H into Hc end.
    destruct (posix_parts c) as [|w ws] eqn:Ep; [done|]. rewrite Hc in E. cbn [as_posix] in E.
    assert (Forall (fun v => slash ∉ v) (w :: ws)) as Hn.
    { rewrite <- Ep. unfold posix_parts. apply Forall_forall. intros v [_ Hv]%list_elem_of_filter.
      by apply split_on_no_sep in Hv. }
    change (as_posix (w :: ws)) with (join [slash] (w :: ws)) in E.
    rewrite split_on_join in E by done. apply not_true_iff_false in E. apply E.
    apply forallb_forall. intros v Hv. unfold plain_part. apply negb_true_iff.
    match goal with H : existsb _ (w :: ws) = false |- _ => rename H into He end.
    apply not_true_iff_false. intros Hone. apply not_true_iff_false in He. apply He, existsb_exists. eauto.
Qed.
Definition plain_text (s : str) : bool := forallb (fun x => (32 <=? x) && (x <? 127) && negb (x =? backslash)) s.
Lemma printable_ok s : bool_decide (backslash ∈ s) || existsb control_character s || existsb (fun c => 128 <=? c) s
  = negb (plain_text s).
Proof.
  unfold plain_text. induction s as [|x s IH]; [done|]. cbn [existsb forallb]. rewrite negb_andb, <- IH.
  rewrite (bool_decide_ext (backslash ∈ x :: s) (x = backslash \/ backslash ∈ s)) by (rewrite elem_of_cons; naive_solver).
  rewrite bool_decide_or. change (control_character x) with ((x <? 32) || (x =? 127)).
  destruct (Z.eqb_spec x backslash) as [->|Hne]; [by rewrite bool_decide_true|]. rewrite (bool_decide_false (x = backslash)) by done.
  cbn [negb]. rewrite andb_true_r.
  assert ((x <? 32) || (x =? 127) || (128 <=? x) = negb ((32 <=? x) && (x <? 127))) as <- by lia.
  generalize (bool_decide (backslash ∈ s)), (existsb control_character s), (existsb (fun c => 128 <=? c) s), (x <? 32), (x =? 127), (128 <=? x).
  by intros [] [] [] [] [] [].
Qed.
Lemma plain_text_app s t : plain_text (s ++ t) = plain_text s && plain_text t.
Proof. apply forallb_app. Qed.
Lemma safe_path_eq c : safe_path c = forallb plain_part (split_on slash c) && plain_text c.
Proof. done. Qed.
Lemma safe_path_shape c : safe_path c = true ->
  c <> [] /\ c <> u "." /\ starts_with (u "./") c = false /\ ends_with (u "/") c = false.
Proof.
  rewrite safe_path_eq. intros [H _]%andb_true_iff. rewrite forallb_forall in H.
  assert (forall k, c = u "./" ++ k -> False) as Hdot.
  { intros k ->. change (u "./" ++ k) with (u "." ++ slash :: k) in H. rewrite split_on_app in H.
    by discriminate (H (u ".") (or_introl eq_refl)). }
  assert (forall k, c = k ++ [slash] -> False) as Hend.
  { intros k ->. change [slash] with (slash :: []) in H. rewrite split_on_app in H.
    by discriminate (H [] ltac:(apply in_or_app; right; by left)). }
  split_and!.
  - intros ->. by discriminate (H [] (or_introl eq_refl)).
  - intros ->. by discriminate (H (u ".") (or_introl eq_refl)).
  - apply not_true_iff_false. intros [k Hk]%starts_with_spec. by apply (Hdot k).
  - apply not_true_iff_false. intros [k Hk]%ends_with_slash. by apply (Hend k).
Qed.
(** [canonical_member_name] on names that are not the root. *)
Lemma member_name_eq raw is_directory : raw <> [] ->
  one_of (strip_dot raw) [""; "."] = false ->
  canonical_member_name raw is_directory =
    let c := strip_slash is_directory (strip_dot raw) in
    if plain_text raw && (eqs c "." || forallb plain_part (split_on slash c)) then Ok c
    else Raise (archive_error "member_name_invalid").
Proof.
  intros Hne Hroot. unfold canonical_member_name. rewrite (bool_decide_false (raw = [])) by done.
  cbv zeta. rewrite Hroot.
  set (c := strip_slash is_directory (strip_dot raw)). pose proof (printable_ok raw) as Hp.
  destruct (plain_text raw); cbn [negb andb orb] in *; bool_facts.
  - rewrite bool_decide_false by done.
    repeat match goal with H : existsb _ raw = false |- _ => rewrite H; clear H end.
    destruct (eqs c ".") eqn:Ec; cbn [orb]; [apply eqs_true in Ec; rewrite Ec; by vm_compute|].
    apply eqs_false in Ec. pose proof (candidate_ok c Ec) as Hc.
    destruct (posix_is_absolute c || existsb _ (posix_parts c)) eqn:Ea; cbn [orb] in *.
    { by destruct (forallb _ _). }
    destruct (bool_decide_reflect (c = as_posix (posix_parts c))) as [<-|]; cbn [negb] in *; by destruct (forallb _ _).
  - destruct (decide (backslash ∈ raw)); [by rewrite bool_decide_true|].
    rewrite bool_decide_false in Hp by done. rewrite bool_decide_false by done. cbn [orb] in Hp |- *.
    destruct (existsb control_character raw); [done|]. cbn [orb] in Hp. by rewrite Hp.
Qed.
Lemma strip_dot_cases raw c : strip_dot raw = c -> raw = c \/ raw = u "./" ++ c.
Proof.
  unfold strip_dot. destruct (starts_with (u "./") raw) eqn:E; [|by left].
  apply starts_with_spec in E as [k ->]. intros <-. by right.
Qed.
Lemma strip_slash_cases d s c : strip_slash d s = c -> s = c \/ d = true /\ s = c ++ u "/".
Proof.
  unfold strip_slash. destruct d; [|by left]. destruct (ends_with (u "/") s) eqn:E; [|by left].
  apply ends_with_slash in E as [k ->]. cbn [andb]. rewrite removelast_last. intros <-. by right.
Qed.

Lemma strip_dot_app c : strip_dot (u "./" ++ c) = c.
Proof.
  unfold strip_dot. rewrite (proj2 (starts_with_spec _ _)) by eauto. done.
Qed.
Lemma strip_slash_app c : strip_slash true (c ++ u "/") = c.
Proof.
  unfold strip_slash. rewrite (proj2 (ends_with_slash _)) by eauto. apply removelast_last.
Qed.
Lemma names_not_root c : c <> [] -> c <> u "." -> one_of c [""; "."] = false.
Proof.
  intros H1 H2. rewrite <- not_true_iff_false, one_of_true, !Exists_cons, Exists_nil.
  change (u "") with (@nil Z). tauto.
Qed.
Lemma one_of_root c : one_of c [""; "."] = true -> c = [] \/ c = u ".".
Proof. rewrite one_of_true, !Exists_cons, Exists_nil. change (u "") with (@nil Z). tauto. Qed.
(** Any spelling of a safe path strips to it. *)
Lemma spelled_name raw d c tail : safe_path c = true ->
  (tail = [] \/ d = true /\ tail = u "/") -> (raw = c ++ tail \/ raw = u "./" ++ c ++ tail) ->
  canonical_member_name raw d = Ok c.
Proof.
  intros Hs Ht Hraw. pose proof (safe_path_shape c Hs) as (Hne & Hdot & Hst & Hend).
  rewrite safe_path_eq in Hs. apply andb_true_iff in Hs as [Hplain Hpr].
  assert (strip_dot (c ++ tail) = c ++ tail) as Hsd.
  { unfold strip_dot. destruct (starts_with (u "./") (c ++ tail)) eqn:E; [|done]. exfalso.
    change (u "./") with [46; 47] in *. destruct c as [|x [|y c]]; [done| |].
    - cbn [starts_with app] in E. destruct (Z.eqb_spec 46 x) as [<-|]; [by apply Hdot|done].
    - cbn [starts_with app] in E, Hst. congruence. }
  assert (strip_dot raw = c ++ tail) as Hd by (destruct Hraw as [->| ->]; [done|apply strip_dot_app]).
  assert (strip_slash d (c ++ tail) = c) as Hsl.
  { destruct Ht as [->|[-> ->]]; [|apply strip_slash_app]. rewrite app_nil_r. unfold strip_slash.
    by rewrite Hend, andb_false_r. }
  assert (plain_text raw = true) as Hp.
  { destruct Hraw as [->| ->]; rewrite ?plain_text_app, Hpr; destruct Ht as [->|[_ ->]]; done. }
  assert (c ++ tail <> []) as Hct by (by destruct c).
  rewrite member_name_eq; cbv zeta; rewrite ?Hd, ?Hsl.
  - rewrite Hp, Hplain, orb_true_r. done.
  - destruct Hraw as [->| ->]; [done|]. by intros [? _]%app_eq_nil.
  - apply names_not_root; [done|]. destruct Ht as [->|[_ ->]]; [by rewrite app_nil_r|].
    destruct c as [|x [|y c]]; done.
Qed.

(** A member name is accepted exactly when it is a spelling of a safe relative
    path (or of the archive's root, for a directory), and is reduced to that path. *)
Lemma canonical_member_name_spec raw is_directory c :
  canonical_member_name raw is_directory = Ok c <-> spells raw is_directory c.
Proof.
  split.
  - intros H. destruct (decide (raw = [])) as [->|Hne]; [done|].
    destruct (one_of (strip_dot raw) [""; "."]) eqn:Hroot.
    + left. unfold canonical_member_name in H. cbv zeta in H. rewrite Hroot in H. inv_steps.
      destruct (is_directory && _) eqn:E; [|done]. injection H as <-.
      apply andb_true_iff in E as [-> E]. rewrite one_of_true, !Exists_cons, Exists_nil in E. tauto.
    + rewrite member_name_eq in H by done. cbv zeta in H. case_match eqn:E; [|done].
      injection H as Hc. apply andb_true_iff in E as [Hp E]. rewrite Hc in E.
      destruct (strip_slash_cases _ _ _ Hc) as [Hd|[-> Hd]];
        destruct (strip_dot_cases _ _ Hd) as [Hr|Hr]; apply orb_true_iff in E as [E%eqs_true|E].
      all: try (right; split; [rewrite safe_path_eq, E; rewrite Hr, ?plain_text_app in Hp; by bool_facts|tauto]).
      all: subst c; rewrite Hd in Hroot; try done.
      * subst raw. by vm_compute in Hd.
      * left. tauto.
  - intros [(-> & -> & [->|[->| ->]])|[Hs Hr]]; [by vm_compute..|].
    destruct Hr as [->|[->|[-> [->| ->]]]].
    + apply (spelled_name _ _ c []); [done|by left|left; by rewrite app_nil_r].
    + apply (spelled_name _ _ c []); [done|by left|right; by rewrite app_nil_r].
    + by apply (spelled_name _ _ c (u "/")); [|right|left].
    + by apply (spelled_name _ _ c (u "/")); [|right|right].
Qed.

(** ** Parents that are files *)
Lemma join_app (ps ss : list str) : ps <> [] -> ss <> [] ->
  join [slash] (ps ++ ss) = join [slash] ps ++ slash :: join [slash] ss.
Proof.
  intros Hp Hs. induction ps as [|p ps IH]; [done|]. destruct ps as [|q ps].
  - cbn [app join]. by destruct ss.
  - change (join [slash] ((p :: q :: ps) ++ ss)) with (p ++ [slash] ++ join [slash] ((q :: ps) ++ ss)).
    rewrite IH by done. change (join [slash] (p :: q :: ps)) with (p ++ [slash] ++ join [slash] (q :: ps)).
    by rewrite <- !app_assoc.
Qed.
Lemma under_file_true members names : under_file members names = true ->
  exists n, n ∈ names /\ n <> u "." /\ is_file_member members n = true.
Proof.
  induction names as [|n names IH]; cbn [under_file]; [done|].
  destruct (eqs n ".") eqn:E; [done|]. destruct (is_file_member members n) eqn:Ef.
  - intros _. exists n. split_and!; [left|by apply eqs_false|done].
  - intros (m & Hm & H)%IH. exists m. split; [by right|done].
Qed.
Lemma under_file_app members l1 n l2 : u "." ∉ l1 -> n <> u "." -> is_file_member members n = true ->
  under_file members (l1 ++ n :: l2) = true.
Proof.
  intros Hl Hn Hf. induction l1 as [|x l1 IH]; cbn [app under_file].
  - apply eqs_false in Hn. by rewrite Hn, Hf.
  - apply not_elem_of_cons in Hl as [Hx Hl]. rewrite (proj2 (eqs_false x ".")) by done.
    rewrite IH by done. by case_match.
Qed.
Lemma below_strict x : ~ below x x.
Proof. intros [k E]%below_eq. apply (f_equal length) in E. rewrite length_app in E. cbn in E. lia. Qed.
Lemma safe_no_dot x c : safe_path c = true -> below x c -> x <> u ".".
Proof.
  intros (_ & _ & H & _)%safe_path_shape [k ->]%below_eq ->.
  change (u "." ++ slash :: k) with (u "./" ++ k) in H. revert H. rewrite (proj2 (starts_with_spec _ _)) by eauto. done.
Qed.
Lemma under_file_spec members c : safe_path c = true -> (u ".", false) ∉ members ->
  under_file members (parents c) = true <-> exists x, (x, false) ∈ members /\ below x c.
Proof.
  intros Hs Hroot. pose proof Hs as Hs'. rewrite safe_path_eq in Hs'. apply andb_true_iff in Hs' as [Hp _].
  unfold parents. rewrite plain_parts by done. split.
  - intros (n & Hn & Hne & Hf)%under_file_true. unfold is_file_member in Hf. bool_facts.
    exists n. split; [done|]. apply parents_from_elem in Hn as (p & s & E & Hsn & ->); [|done].
    apply below_eq. destruct p as [|q p]; [done|]. exists (join [slash] s).
    rewrite <- (join_split slash c), E. by apply join_app.
  - intros (x & Hx & Hb). pose proof (safe_no_dot x c Hs Hb) as Hne.
    apply below_eq in Hb as [k Hk].
    assert (x ∈ parents_from (length (split_on slash c)) (split_on slash c)) as Hin.
    { apply parents_from_elem; [done|]. exists (split_on slash x), (split_on slash k).
      split; [by rewrite Hk, split_on_app|]. split; [apply split_on_nonempty|].
      unfold as_posix. destruct (split_on slash x) eqn:E; [by apply split_on_nonempty in E|].
      by rewrite <- E, join_split. }
    apply list_elem_of_split in Hin as (l1 & l2 & El). rewrite El. apply under_file_app; [|done|].
    + intros (a & b & Eab)%list_elem_of_split. subst l1. rewrite <- app_assoc in El.
      apply parents_from_root in El; [by destruct b|apply Forall_forall|done].
      intros w Hw. split; [|by apply split_on_no_sep in Hw].
      rewrite forallb_forall in Hp. by apply Hp, list_elem_of_In.
    + unfold is_file_member. by apply bool_decide_eq_true.
Qed.

(** ** Archives *)
(** An entry: a member with the path it stands for. *)
Definition entry : Type := TarInfo * str.
Definition entry_ok (e : entry) : Prop :=
  (isreg e.1 = true \/ isdir e.1 = true /\ size e.1 = 0) /\ sparse e.1 = None /\ spells (name e.1) (isdir e.1) e.2.
Definition total (l : list entry) : Z := foldr (fun e acc => if isreg e.1 then size e.1 + acc else acc) 0 l.
(** A bounded list of files and directories with distinct paths in which no file
    lies above another entry. *)
Record tree_archive (max_members max_expanded : Z) (l : list entry) : Prop := {
  tree_entries : Forall entry_ok l;
  tree_count : len l <= max_members;
  tree_distinct : NoDup l.*2;
  tree_structure : forall x y, x ∈ l -> y ∈ l -> isreg x.1 = true -> ~ below x.2 y.2;
  tree_size : forall k, total (take k l) <= max_expanded
}.

(** The loop's progress after a list of entries. *)
Definition progress_of (l : list entry) : Progress :=
  MkProgress (map (fun e => (e.2, isdir e.1)) l) (len l) (total l).
Lemma total_snoc l e : total (l ++ [e]) = total l + (if isreg e.1 then size e.1 else 0).
Proof.
  induction l as [|x l IH]; cbn [app total foldr]; [by destruct (isreg e.1); lia|].
  fold (total (l ++ [e])) (total l). rewrite IH. destruct (isreg x.1); lia.
Qed.
Lemma members_names l : (members (progress_of l)).*1 = l.*2.
Proof. cbn. induction l as [|e l IH]; [done|]. cbn. by rewrite IH. Qed.
Lemma entry_name e : entry_ok e -> e.2 = u "." /\ isdir e.1 = true /\ isreg e.1 = false
  \/ safe_path e.2 = true.
Proof.
  intros (_ & _ & [(Hc & Hd & _)|[Hs _]]); [|by right]. left. split_and!; [done|done|].
  unfold isreg, isdir in *. bool_facts. rewrite Hd. done.
Qed.
Lemma not_below_root x y : entry_ok x -> entry_ok y -> (x.2 = u "." \/ y.2 = u ".") -> ~ below x.2 y.2.
Proof.
  intros Hx Hy Hr Hb. destruct (entry_name y Hy) as [[Ey _]|Hs].
  - apply below_eq in Hb as [k Hk]. rewrite Ey in Hk. destruct (entry_name x Hx) as [[Ex _]|Hs]; [by rewrite Ex in Hk|].
    apply safe_path_shape in Hs as [Hne _]. destruct (x.2) as [|a [|b c]]; [done| |]; by destruct k.
  - destruct Hr as [Hr|Hr]; [by apply (safe_no_dot _ _ Hs Hb)|]. rewrite Hr in Hs. by vm_compute in Hs.
Qed.
Lemma file_members l x : (x, false) ∈ members (progress_of l) <-> exists e, e ∈ l /\ e.2 = x /\ isdir e.1 = false.
Proof.
  cbn [members progress_of]. rewrite list_elem_of_fmap. split; intros (e & H1 & H2).
  - injection H1 as -> Hd. eauto.
  - exists e. destruct H2 as [<- <-]. done.
Qed.
Lemma isdir_false e : entry_ok e -> isdir e.1 = false <-> isreg e.1 = true.
Proof.
  intros [[H|[H _]] _]; unfold isreg, isdir in *; bool_facts; rewrite H; by split.
Qed.
Lemma above_member_spec l c : above_member (members (progress_of l)) c = true <-> exists y, y ∈ l /\ below c y.2.
Proof.
  unfold above_member. rewrite existsb_exists. cbn [members progress_of]. setoid_rewrite <- list_elem_of_In.
  setoid_rewrite list_elem_of_fmap. split.
  - intros (m & (y & -> & Hy) & H). by exists y.
  - intros (y & Hy & H). exists (y.2, isdir y.1). eauto.
Qed.
(** The checks of one member against the entries before it. *)
Definition admits (max_members max_expanded : Z) (l : list entry) (e : entry) : Prop :=
  entry_ok e /\ len l + 1 <= max_members /\ e.2 ∉ l.*2 /\
  (forall x, x ∈ l -> isreg x.1 = true -> ~ below x.2 e.2) /\
  (isreg e.1 = true -> forall y, y ∈ l -> ~ below e.2 y.2) /\
  (isreg e.1 = true -> total (l ++ [e]) <= max_expanded).
Lemma structure_check l e : Forall entry_ok l -> entry_ok e ->
  negb (eqs e.2 ".") && (under_file (members (progress_of l)) (parents e.2)
    || isreg e.1 && above_member (members (progress_of l)) e.2) = false <->
  (forall x, x ∈ l -> isreg x.1 = true -> ~ below x.2 e.2) /\
  (isreg e.1 = true -> forall y, y ∈ l -> ~ below e.2 y.2).
Proof.
  intros Hl He. rewrite Forall_forall in Hl. destruct (eqs e.2 ".") eqn:Ed; cbn [negb andb].
  - apply eqs_true in Ed. split; [intros _|done].
    split; intros; apply not_below_root; auto.
  - apply eqs_false in Ed. destruct (entry_name e He) as [[? _]|Hs]; [done|].
    rewrite orb_false_iff, andb_false_iff, <- !not_true_iff_false, above_member_spec, under_file_spec; [|done|].
    + setoid_rewrite file_members. split.
      * intros [H1 H2]. split; [|intros Hr y Hy Hb; destruct H2 as [H2|H2]; [done|eauto]].
        intros x Hx Hr Hb. apply H1. exists x.2. split; [|done]. exists x. split_and!; [done|done|].
        by apply isdir_false; [apply Hl|].
      * intros [H1 H2]. split.
        -- intros (n & (x & Hx & <- & Hd) & Hb). apply (H1 x); [done| |done]. by apply isdir_false; [apply Hl|].
        -- destruct (isreg e.1); [right|by left]. intros (y & Hy & Hb). by apply (H2 eq_refl y).
    + rewrite file_members. intros (x & Hx & Exd & Hd).
      destruct (entry_name x (Hl x Hx)) as [(_ & Hd' & _)|Hsx]; [congruence|]. rewrite Exd in Hsx. by vm_compute in Hsx.
Qed.
Lemma check_member_ok mm me l m p : Forall entry_ok l ->
  check_member mm me (progress_of l) m = Ok p <->
  exists c, admits mm me l (m, c) /\ p = progress_of (l ++ [(m, c)]).
Proof.
  intros Hl. assert (forall c, progress_of (l ++ [(m, c)]) =
    MkProgress (members (progress_of l) ++ [(c, isdir m)]) (len l + 1)
      (if isreg m then total l + size m else total l)) as Hp.
  { intros c. unfold progress_of. rewrite map_app, total_snoc. cbn [members map fst snd]. f_equal.
    - unfold len. rewrite length_app. cbn [length]. lia.
    - destruct (isreg m); lia. }
  split.
  - unfold check_member. cbv zeta. intros H. do 4 (inv_step; []). apply res_bind_ok in H as (c & Hc & H).
    do 3 (inv_step; []). injection H as <-. exists c. rewrite Hp. split; [|done].
    apply canonical_member_name_spec in Hc.
    assert (entry_ok (m, c)) as He.
    { unfold entry_ok. cbn [fst snd]. split; [|split; [bool_facts; by apply eq_None_not_Some|done]].
      destruct (isdir m) eqn:Ed, (isreg m) eqn:Er; cbn in *; bool_facts; auto. }
    pose proof (proj1 (structure_check l (m, c) Hl He)) as Hst. cbn [fst snd] in Hst.
    destruct Hst as [H1 H2]; [done|]. rewrite members_names in *. cbn [member_count progress_of] in *.
    unfold admits. cbn [fst snd]. bool_facts.
    do 5 (split; [first [done|lia]|]). intros Hr. rewrite total_snoc. cbn [fst]. rewrite Hr in *. cbn in *. lia.
  - intros (c & (He & Hn & Hf & H1 & H2 & H3) & ->). rewrite Hp.
    pose proof (proj2 (structure_check l (m, c) Hl He) (conj H1 H2)) as Hst. cbn [fst snd] in *.
    destruct He as (Hty & Hsp & Hname). cbn [fst snd] in *. apply canonical_member_name_spec in Hname.
    unfold check_member. cbn [member_count progress_of]. rewrite (proj2 (Z.ltb_ge _ _)) by lia.
    assert (isdir m || isreg m = true) as -> by (destruct Hty as [->|[-> _]]; [by rewrite orb_true_r|done]).
    rewrite Hsp. cbn [negb]. rewrite (bool_decide_false (is_Some None)) by (intros [? [=]]).
    assert (isdir m && negb (size m =? 0) = false) as ->.
    { destruct Hty as [Hr|[_ ->]]; [|by rewrite andb_false_r]. apply andb_false_iff. left.
      unfold isreg, isdir in *. bool_facts. by rewrite Hr. }
    rewrite Hname. cbn [res_bind]. fold (progress_of l). rewrite members_names, bool_decide_false by done.
    rewrite Hst. cbn [expanded_bytes progress_of]. destruct (isreg m) eqn:Er; cbn [andb]; [|done].
    rewrite total_snoc in H3. cbn [fst] in H3. rewrite Er in H3.
    rewrite (proj2 (Z.ltb_ge _ _)) by (apply H3; done). done.
Qed.
Lemma check_members_app mm me p l1 l2 :
  check_members mm me p (l1 ++ l2) = let? p := check_members mm me p l1 in check_members mm me p l2.
Proof.
  revert p. induction l1 as [|m l1 IH]; intros p; cbn [app check_members]; [done|].
  destruct (check_member mm me p m); cbn [res_bind]; [apply IH|done].
Qed.
Lemma tree_nil mm me : 0 <= mm -> 0 <= me -> tree_archive mm me [].
Proof.
  intros ??. split; [constructor|done|constructor|set_solver|]. intros k. by rewrite take_nil.
Qed.
Lemma tree_snoc mm me l e : tree_archive mm me (l ++ [e]) <-> tree_archive mm me l /\ admits mm me l e.
Proof.
  assert (len (l ++ [e]) = len l + 1) as Hlen by (unfold len; rewrite length_app; cbn; lia). split.
  - intros [He Hc Hd Hs Ht]. apply Forall_app in He as [Hl He]. apply Forall_cons in He as [He _].
    rewrite fmap_app in Hd. apply NoDup_app in Hd as (Hd & Hno & _). split.
    + split; [done|lia|done| |]; [by intros; apply Hs; [apply elem_of_app; left..|]|].
      intros k. destruct (decide (k <= length l)%nat) as [Hk|Hk].
      * specialize (Ht k). by rewrite take_app_le in Ht.
      * specialize (Ht (length l)). rewrite take_app_length in Ht. by rewrite take_ge by lia.
    + split; [done|]. split; [lia|]. split; [intros Hin; apply (Hno _ Hin); by left|].
      split; [intros; apply Hs; [by apply elem_of_app; left|apply elem_of_app; right; by left|done]|].
      split; [intros; apply Hs; [apply elem_of_app; right; by left|by apply elem_of_app; left|done]|].
      intros _. specialize (Ht (length (l ++ [e]))). by rewrite take_ge in Ht.
  - intros [[Hl Hc Hd Hs Ht] (He & Hn & Hno & H1 & H2 & H3)]. split.
    + apply Forall_app. by split; [|constructor].
    + lia.
    + rewrite fmap_app. apply NoDup_app. split; [done|]. split; [|apply NoDup_singleton].
      by intros x Hx ->%list_elem_of_singleton.
    + intros x y [Hx| ->%list_elem_of_singleton]%elem_of_app [Hy| ->%list_elem_of_singleton]%elem_of_app Hr;
        [by apply Hs|by apply H1|by apply H2|apply below_strict].
    + intros k. destruct (decide (k <= length l)%nat) as [Hk|Hk]; [by rewrite take_app_le|].
      rewrite take_ge by (rewrite length_app; cbn; lia). destruct (isreg e.1) eqn:Er; [auto|].
      rewrite total_snoc, Er. specialize (Ht (length l)). rewrite take_ge in Ht by done. lia.
Qed.
Lemma check_members_ok mm me ms p : 0 <= mm -> 0 <= me ->
  check_members mm me start ms = Ok p <->
  exists l, l.*1 = ms /\ tree_archive mm me l /\ p = progress_of l.
Proof.
  intros Hm He. revert p. induction ms as [|m ms IH] using rev_ind; intros p.
  - split; [intros [= <-]; exists []; split_and!; [done|by apply tree_nil|done]|].
    intros (l & El & _ & ->). by apply fmap_nil_inv in El as ->.
  - rewrite check_members_app, res_bind_ok. setoid_rewrite IH. split.
    + intros (q & (l & <- & Ht & ->) & H). cbn [check_members] in H.
      apply res_bind_ok in H as (q & Hq & [= <-]). apply check_member_ok in Hq as (c & Ha & ->); [|apply Ht].
      exists (l ++ [(m, c)]). rewrite fmap_app, tree_snoc. done.
    + intros (l & El & Ht & ->). destruct l as [|[m' c] l _] using rev_ind; [by destruct ms|].
      rewrite fmap_app in El. apply app_inj_tail in El as [El [= ->]].
      apply tree_snoc in Ht as [Ht Ha]. exists (progress_of l). split; [eauto|]. cbn [check_members].
      apply res_bind_ok. exists (progress_of (l ++ [(m, c)])). split; [|done].
      apply check_member_ok; [apply Ht|eauto].
Qed.

(** C37: An archive is accepted exactly when it is a regular file within the size
    bound whose members, in any order, are a bounded list of plain files and
    directories with distinct safe paths in which no file lies above another
    entry and no prefix exceeds the expanded size. *)
Theorem validate_backup_archive_spec archive max_members max_archive_bytes max_expanded_bytes :
  validate_backup_archive archive max_members max_archive_bytes max_expanded_bytes = Ok tt <->
  1 <= max_members /\ 1 <= max_archive_bytes /\ 1 <= max_expanded_bytes /\
  is_symlink_ archive = Ok false /\ is_file_ archive = Ok true /\
  (exists n, st_size archive = Ok n /\ n <= max_archive_bytes) /\
  stream_error archive = None /\
  exists entries, entries.*1 = stream archive /\ tree_archive max_members max_expanded_bytes entries.
Proof.
  unfold validate_backup_archive. split.
  - intros H. inv_step. bool_facts. do 3 (split; [lia|]). apply map_exn_ok in H.
    apply res_bind_ok in H as (sl & Hsl & H). apply res_bind_ok in H as (file & Hf & H).
    inv_step. bool_facts. subst file. destruct sl; [done|]. apply res_bind_ok in H as (n & Hn & H). inv_step.
    apply res_bind_ok in H as (p & Hp & H). apply check_members_ok in Hp as (l & El & Ht & _); [|lia..].
    bool_facts. destruct (stream_error archive); [done|]. eauto 9.
  - intros (H1 & H2 & H3 & Hsl & Hf & (n & Hn & Hle) & Hs & l & El & Ht).
    rewrite !(proj2 (Z.ltb_ge _ 1)) by lia. cbn [orb]. apply map_exn_ok. rewrite Hsl, Hs. cbn [res_bind].
    rewrite Hf. cbn [res_bind negb]. rewrite Hn. cbn [res_bind]. rewrite (proj2 (Z.ltb_ge max_archive_bytes n)) by lia.
    rewrite (proj2 (check_members_ok max_members max_expanded_bytes (stream archive) (progress_of l)
      ltac:(lia) ltac:(lia))); [done|eauto].
Qed.

(** The guard on the root's spellings admits one more than it names. *)
Example root_spelled_twice : canonical_member_name (u "././") true = Ok (u ".").
Proof. vm_compute. reflexivity. Qed.

Module ArchiveDemo.
Definition dir (n : string) : TarInfo := MkTarInfo (u n) Directory 0 None.
Definition file (n : string) (size : Z) : TarInfo := MkTarInfo (u n) Regular size None.
Definition archive (l : list TarInfo) : Archive := MkArchive (Ok false) (Ok true) (Ok 4096) l None.
Definition outcome (l : list TarInfo) : Res Z := main (archive l).
Example archive_accepted : outcome [dir "."; file "./a/b.md" 10; dir "./a/"; file "a-b" 5] = Ok 0.
Proof. vm_compute. reflexivity. Qed.
Example file_below_file : outcome [file "a/b" 1; file "a/b/c" 1] = Ok 1.
Proof. vm_compute. reflexivity. Qed.
Example file_above_file : outcome [file "a/b/c" 1; file "a" 1] = Ok 1.
Proof. vm_compute. reflexivity. Qed.
End ArchiveDemo.
