(* ===== verification/ArtifactStaging.v ===== *)
(** * Staged artifacts (the staging half of src/apps/api/app/services/storage.py)

    A staged artifact is a pair of files, a payload and its descriptor, in a
    directory per intent below [.connectmd-artifact-staging/v1]; promotion links the
    payload to its canonical path, retirement removes the pair.  As in [Storage], the
    file system is quiescent during an operation and POSIX. *)
From S2P Require Import Prelude PyTime Sha256 Storage.
Local Open Scope Z_scope.

(** ** Names *)
Definition STAGE_ROOT : list str := map u [".connectmd-artifact-staging"; "v1"]%string.
Definition ARTIFACT_STAGE_SCAN_MAX : Z := 100.
Definition ARTIFACT_DESCRIPTOR_MAX_BYTES : Z := 16384.
(** [_ARTIFACT_STAGE_FILE.fullmatch(name)]: the creation time, the stem and the suffix. *)
Definition stage_stem_length : nat := 56.
Definition stage_file (name : str) : option (Z * str * str) :=
  let stem := take stage_stem_length name in
  let created := take 19 name in
  let suffix := drop stage_stem_length name in
  if forallb is_digit created && starts_with (u "-") (drop 19 stem) && uuid4_shape (drop 20 stem)
     && one_of suffix [".bin"; ".json"]
  then Some (decimal created, stem, drop 1 suffix) else None.
Definition staging_target_unavailable : exn := StorageIntegrityError (u "artifact staging target is unavailable").
Definition promotion_unavailable : exn := StorageIntegrityError (u "artifact promotion is unavailable").
Definition cleanup_failed : exn := StorageIntegrityError (u "artifact staging cleanup is unavailable").
Definition as_error (message : exn) (e : exn) : exn :=
  match e with OSError | FileExistsError => message | e => e end.

(** [_strict_stage_target] *)
Definition strict_stage_target (st : VersionStore) (relative : str) (suffix : string) (f : fs) : Res (list str) :=
  let parts := posix_parts relative in
  match parts with
  | [a; b; intent; name] =>
      let named := match stage_file name with Some (_, _, s) => eqs s suffix | None => false end in
      if posix_is_absolute relative || bool_decide (backslash ∈ relative)
         || negb (bool_decide ([a; b] = STAGE_ROOT)) || negb named || negb (uuid_parses intent)
         || negb (bool_decide (as_posix parts = relative))
         || existsb (fun p => exists_ f p && is_symlink f p) (prefixes (root st) [a; b; intent])
      then Raise staging_target_unavailable
      else Ok (root st ++ parts)
  | _ => Raise staging_target_unavailable
  end.

(** [[0-9]{6}\.md], of a version from 1. *)
Definition version_name (name : str) : bool :=
  forallb is_digit (take 6 name) && (length (take 6 name) =? 6)%nat && eqs (drop 6 name) ".md"
  && (1 <=? decimal (take 6 name)).
(** [_canonical_artifact_target] *)
Definition canonical_shape (parts : list str) (expected_sha256 : str) : bool :=
  match parts with
  | [a; i; name] => eqs a "applications" && eqs name "snapshot.md" && uuid_parses i
  | [a; i; b; name] =>
      if eqs a "verification-evidence" then
        bool_decide (name = expected_sha256 ++ u ".bin") && uuid_parses i && uuid_parses b
      else if one_of a ["profiles"; "resumes"] then
        eqs b "versions" && version_name name && uuid4_shape i
      else eqs a "posts" && eqs b "versions" && eqs name "000001.md" && uuid4_shape i
  | _ => false
  end.
Definition canonical_artifact_target (st : VersionStore) (relative expected_sha256 : str) : Res (list str) :=
  let parts := posix_parts relative in
  if posix_is_absolute relative || bool_decide (backslash ∈ relative) || negb (canonical_shape parts expected_sha256)
     || negb (bool_decide (as_posix parts = relative))
  then Raise promotion_unavailable
  else Ok (root st ++ parts).

(** ** Staging a pair *)
(** [unlink(missing_ok=True)] *)
Definition unlink_missing_ok (p : list str) : act fs unit := fun f =>
  match lstat f p with
  | None => (Ok tt, f)
  | Some NDir => (Raise OSError, f)
  | Some _ => unlink p f
  end.
(** [_fsync_directory]: it opens the directory. *)
Definition fsync_directory (p : list str) : act fs unit := fun f =>
  if exists_ f p then (Ok tt, f) else (Raise OSError, f).
(** [VersionStore.stage_artifact]: the paths of the payload and of the descriptor. *)
Definition stage_stem (intent_id : str) (created_ns : Z) (nonce : str) : str :=
  join (u "/") (STAGE_ROOT ++ [intent_id; zfill 19 (dec created_ns) ++ u "-" ++ nonce]).
Definition create_or_undo (payload_target descriptor_target : list str) (descriptor_bytes : bytes) : act fs unit :=
  catch (create_exclusive descriptor_target descriptor_bytes)
    (fun e => unlink_missing_ok payload_target ;;; fsync_directory (removelast payload_target) ;;; raise e).
Definition write_pair (payload_target descriptor_target : list str) (payload descriptor_bytes : bytes) : act fs unit :=
  mkdir_parents_durable (removelast payload_target) ;;;
  create_exclusive payload_target payload ;;;
  create_or_undo payload_target descriptor_target descriptor_bytes ;;;
  fsync_directory (removelast payload_target).
Definition stage_pair (st : VersionStore) (intent_id : str) (payload descriptor_bytes : bytes) (created_ns : Z)
  (nonce : str) : act fs (str * str) :=
  if negb (uuid_parses intent_id) || negb (uuid_parses nonce) || (created_ns <? 1)
     || (ARTIFACT_DESCRIPTOR_MAX_BYTES <? len descriptor_bytes)
  then raise staging_target_unavailable
  else
    let stem := stage_stem intent_id created_ns nonce in
    let payload_path := stem ++ u ".bin" in
    let descriptor_path := stem ++ u ".json" in
    let! f := gets id in
    let! payload_target := lift (strict_stage_target st payload_path "bin" f) in
    let! descriptor_target := lift (strict_stage_target st descriptor_path "json" f) in
    catch (write_pair payload_target descriptor_target payload descriptor_bytes)
      (fun e => raise (as_error staging_target_unavailable e)) ;;;
    ret (payload_path, descriptor_path).

(** ** Promotion *)
(** [open_chain] of [_link_artifact_posix]: with [create], missing directories are made. *)
Fixpoint open_or_create (cur : list str) (parts : list str) : act fs unit :=
  match parts with
  | [] => ret tt
  | part :: parts => fun f =>
      let next := cur ++ [part] in
      match f !! next with
      | None => open_or_create next parts (<[next := NDir]> f)
      | Some NDir => open_or_create next parts f
      | Some _ => (Raise OSError, f)
      end
  end.
Definition open_root (st : VersionStore) : act fs unit := fun f =>
  if is_dir f (root st) then (Ok tt, f) else (Raise OSError, f).
(** [os.link(source, target, follow_symlinks=False)]; an existing target is left. *)
Definition link_missing (source target : list str) : act fs unit := fun f =>
  match f !! source with
  | None | Some NDir => (Raise OSError, f)
  | Some n => match f !! target with None => (Ok tt, <[target := n]> f) | Some _ => (Ok tt, f) end
  end.
(** [_link_artifact_posix]; the arguments are the parts below the root. *)
Definition link_artifact_posix (st : VersionStore) (source_parts target_parts : list str) : act fs unit :=
  open_root st ;;;
  let! f := gets id in
  let! _ := lift (open_chain f (root st) (removelast source_parts)) in
  open_or_create (root st) (removelast target_parts) ;;;
  link_missing (root st ++ source_parts) (root st ++ target_parts).
(** [promote_staged_artifact] *)
Definition read_exact (st : VersionStore) (relative expected_sha256 : str) (expected_size_bytes max_size_bytes : Z) :
  act fs bytes :=
  let! f := gets id in lift (read_verified_bytes st relative expected_sha256 expected_size_bytes max_size_bytes f).
Definition promote_staged_artifact (st : VersionStore) (staged_payload_path canonical_path expected_sha256 : str)
  (expected_size_bytes max_size_bytes : Z) : act fs unit :=
  read_exact st staged_payload_path expected_sha256 expected_size_bytes max_size_bytes ;;;
  let! f := gets id in
  let! _ := lift (strict_stage_target st staged_payload_path "bin" f) in
  let! _ := lift (canonical_artifact_target st canonical_path expected_sha256) in
  catch (link_artifact_posix st (posix_parts staged_payload_path) (posix_parts canonical_path) ;;;
         read_exact st canonical_path expected_sha256 expected_size_bytes max_size_bytes ;;; ret tt)
    (fun e => raise (as_error promotion_unavailable e)).

(** ** Reading and scanning *)
(** [read_staged_descriptor] *)
Definition read_staged_descriptor (st : VersionStore) (relative : str) (f : fs) : Res bytes :=
  let unavailable := StorageIntegrityError (u "artifact staging descriptor is unavailable") in
  let? target := strict_stage_target st relative "json" f in
  let? (parts, _) := verified_byte_target st relative in
  match lstat f target with
  | None => Raise unavailable
  | Some (NReg b) =>
      if (len b <? 1) || (ARTIFACT_DESCRIPTOR_MAX_BYTES <? len b) then Raise unavailable
      else map_exn (as_error unavailable)
             (read_verified_bytes_posix st parts (len b) ARTIFACT_DESCRIPTOR_MAX_BYTES f)
  | Some _ => Raise unavailable
  end.

Record StagedArtifactScan : Type := MkScan
  { descriptors : list str; incomplete_payloads : list str; invalid_entry : bool; overbound : bool }.
(** The loop over the entries of one intent directory: [None] when it runs over
    the bound.  [seen] lists the stems with their suffixes. *)
Record scan_state : Type := MkScanState
  { sc_descriptors : list str; sc_incomplete : list str; sc_invalid : bool; sc_count : Z }.
Definition staged_name (intent name : str) : str := join (u "/") (STAGE_ROOT ++ [intent; name]).
Fixpoint scan_entries (st : VersionStore) (limit : Z) (f : fs) (intent : str) (names : list str)
  (s : scan_state) (seen : list (str * str)) : scan_state * option (list (str * str)) :=
  match names with
  | [] => (s, Some seen)
  | name :: names =>
      let s := MkScanState (sc_descriptors s) (sc_incomplete s) (sc_invalid s) (sc_count s + 1) in
      if limit <? sc_count s then (s, None)
      else
        match stage_file name, f !! (root st ++ STAGE_ROOT ++ [intent; name]) with
        | Some (_, stem, suffix), Some (NReg _) =>
            let descs := if eqs suffix "json" then sc_descriptors s ++ [staged_name intent name] else sc_descriptors s in
            scan_entries st limit f intent names
              (MkScanState descs (sc_incomplete s) (sc_invalid s) (sc_count s)) (seen ++ [(stem, suffix)])
        | _, _ =>
            scan_entries st limit f intent names
              (MkScanState (sc_descriptors s) (sc_incomplete s) true (sc_count s)) seen
        end
  end.
(** The verdict on the suffixes seen of each stem. *)
Definition judge_stem (intent : str) (seen : list (str * str)) (s : scan_state) (stem : str) : scan_state :=
  let has (suffix : string) := existsb (fun p => bool_decide (p.1 = stem) && eqs p.2 suffix) seen in
  if has "bin"%string && negb (has "json"%string)
  then MkScanState (sc_descriptors s) (sc_incomplete s ++ [staged_name intent (stem ++ u ".bin")]) (sc_invalid s) (sc_count s)
  else if negb (has "bin"%string)
  then MkScanState (sc_descriptors s) (sc_incomplete s) true (sc_count s)
  else s.
Fixpoint scan_intents (st : VersionStore) (limit : Z) (f : fs) (intents : list str) (s : scan_state) : scan_state * bool :=
  match intents with
  | [] => (s, false)
  | intent :: intents =>
      let s := MkScanState (sc_descriptors s) (sc_incomplete s) (sc_invalid s) (sc_count s + 1) in
      if limit <? sc_count s then (s, true)
      else if negb (uuid_parses intent) || negb (is_dir f (root st ++ STAGE_ROOT ++ [intent]))
      then scan_intents st limit f intents (MkScanState (sc_descriptors s) (sc_incomplete s) true (sc_count s))
      else
        match scan_entries st limit f intent (entries f (root st ++ STAGE_ROOT ++ [intent])) s [] with
        | (s, None) => (s, true)
        | (s, Some seen) =>
            scan_intents st limit f intents (fold_left (judge_stem intent seen) (remove_dups (map fst seen)) s)
        end
  end.
(** [scan_staged_artifacts] *)
Definition empty_scan (invalid : bool) : StagedArtifactScan := MkScan [] [] invalid false.
Definition scan_staged_artifacts (st : VersionStore) (limit : Z) (f : fs) : Res StagedArtifactScan :=
  if (limit <? 1) || (ARTIFACT_STAGE_SCAN_MAX <? limit)
  then Raise (StorageIntegrityError (u "artifact staging scan is unavailable"))
  else
    (fix components (l : list (list str)) : Res StagedArtifactScan :=
       match l with
       | [] =>
           let '(s, over) := scan_intents st limit f (entries f (root st ++ STAGE_ROOT)) (MkScanState [] [] false 0) in
           if over then Ok (MkScan (sc_descriptors s) (sc_incomplete s) (sc_invalid s) true)
           else Ok (MkScan (sorted_strs (sc_descriptors s)) (sorted_strs (sc_incomplete s)) (sc_invalid s) false)
       | p :: l =>
           if negb (exists_ f p) then Ok (empty_scan false)
           else if negb (is_dir f p) then Ok (empty_scan true)
           else components l
       end) (prefixes (root st) STAGE_ROOT).

(** ** Retirement *)
(** [retire_staged_artifact] *)
Definition retire_staged_artifact (st : VersionStore) (payload_path descriptor_path : str) : act fs unit :=
  let! f := gets id in
  let! payload := lift (strict_stage_target st payload_path "bin" f) in
  let! descriptor := lift (strict_stage_target st descriptor_path "json" f) in
  catch (unlink_missing_ok descriptor ;;; unlink_missing_ok payload ;;; fsync_directory (removelast payload))
    (fun e => raise (as_error cleanup_failed e)).
(** [retire_incomplete_staged_payload] *)
Definition INCOMPLETE_MAX : Z := 262144.
Definition retire_incomplete_staged_payload (st : VersionStore) (payload_path : str) : act fs unit :=
  let! f := gets id in
  let! target := lift (strict_stage_target st payload_path "bin" f) in
  match lstat f target with
  | Some (NReg b) =>
      if (len b <? 1) || (INCOMPLETE_MAX <? len b) then raise cleanup_failed
      else
        let! (parts, _) := lift (verified_byte_target st payload_path) in
        let! payload := lift (map_exn (as_error cleanup_failed)
          (read_verified_bytes_posix st parts (len b) INCOMPLETE_MAX f)) in
        delete_verified_exact st payload_path (sha256_hex payload) (len b) INCOMPLETE_MAX
  | _ => raise cleanup_failed
  end.
