(* ===== verification/ArtifactDurability.v ===== *)
(** * Artifact durability (src/apps/api/app/services/artifact_durability.py)

    Canonical bytes are staged under a signed descriptor before the database
    commits, and promoted to their canonical path; the reconciler later asks the
    database whether the write was committed and retires or deletes accordingly.
    The pepper is its UTF-8 encoding; [float_text] is the text [json.dumps] gives
    the float of a JSON number; clock readings and random names are arguments. *)
From S2P Require Import Prelude PyTime Json Sha256 JsonText JsonBytes Storage ProtocolArguments ArtifactStaging.
Local Open Scope Z_scope.

Definition ARTIFACT_INTENT_DOMAIN : str := u "connect.md/artifact-intent-uuid".
Definition ARTIFACT_INTENT_VERSION : str := u "1".
Definition ARTIFACT_DESCRIPTOR_VERSION : Z := 1.
Definition ARTIFACT_STAGE_GRACE_NS : Z := 60 * 60 * 1000000000.
Definition ARTIFACT_SCAN_LIMIT : Z := 100.
Definition ARTIFACT_FLOWS : list string :=
  ["application_snapshot"; "organization_verification_evidence"; "canonical_document_version"; "professional_post"].
Inductive ArtifactAuthority : Type := Committed | Absent | Uncertain.
Global Instance ArtifactAuthority_eq_dec : EqDecision ArtifactAuthority.
Proof. solve_decision. Defined.
(** [_artifact_max_size] *)
Definition artifact_max_size (flow : str) : Z :=
  if one_of flow ["application_snapshot"; "canonical_document_version"] then 131072
  else if eqs flow "professional_post" then 10240 else 262144.

Record ArtifactDescriptor : Type := MkDescriptor
  { descriptor_version : Z; d_flow : str; intent_id : str; resource_id : str; target_id : str;
    owner_binding : str; request_hash : str; canonical_path : str; payload_sha256 : str;
    payload_size_bytes : Z; staged_payload_path : str; staged_descriptor_path : str; created_ns : Z }.
Global Instance ArtifactDescriptor_eq_dec : EqDecision ArtifactDescriptor.
Proof. solve_decision. Defined.

Definition unavailable_artifact (message : string) : exn := ArtifactDurabilityUnavailable (u message).

(** ** Identities *)
(** [_frame] *)
Definition frame (value : str) : Res bytes :=
  let? encoded := encode value in
  if 4294967296 <=? len encoded then Raise StructError else Ok (be_bytes 4 (len encoded) ++ encoded).
Fixpoint frames (values : list str) : Res bytes :=
  match values with
  | [] => Ok []
  | v :: values => let? b := frame v in let? rest := frames values in Ok (b ++ rest)
  end.
(** The version 4 and variant bits of the first 16 bytes of a digest. *)
Definition uuid4_bytes (digest : bytes) : bytes :=
  let digest := take 16 digest in
  <[8%nat := Z.lor (Z.land (nth 8 digest 0) 63) 128]> (<[6%nat := Z.lor (Z.land (nth 6 digest 0) 15) 64]> digest).
(** [derive_artifact_intent_uuid] *)
Definition derive_artifact_intent_uuid (pepper : bytes) (flow owner_id target_id idempotency_key : str) : Res str :=
  if bool_decide (pepper = []) || bool_decide (owner_id = []) || bool_decide (target_id = [])
     || bool_decide (idempotency_key = [])
  then Raise (ValueError (u "artifact intent inputs are required"))
  else
    let? framed := frames [ARTIFACT_INTENT_DOMAIN; ARTIFACT_INTENT_VERSION; flow; owner_id; target_id; idempotency_key] in
    Ok (uuid_text (be_word (uuid4_bytes (hmac_sha256 pepper framed)))).
(** [_owner_binding] and [descriptor_owner_matches] *)
Definition owner_binding_of (pepper : bytes) (owner_id : str) : Res str :=
  let? framed := frames [u "connect.md/artifact-owner-binding/v1"; owner_id] in
  Ok (hex (hmac_sha256 pepper framed)).
Definition descriptor_owner_matches (descriptor : ArtifactDescriptor) (pepper : bytes) (owner_id : str) : Res bool :=
  let? expected := owner_binding_of pepper owner_id in compare_digest (owner_binding descriptor) expected.
(** [str(UUID(value)) == value] *)
Definition canonical_uuid (value : str) : bool := uuid_parses value && bool_decide (uuid_text (uuid_int value) = value).

(** ** Signed descriptors *)
(** [asdict(descriptor)] *)
Definition asdict (d : ArtifactDescriptor) : list (str * pyval) :=
  [(u "descriptor_version", PInt (descriptor_version d)); (u "flow", PStr (d_flow d));
   (u "intent_id", PStr (intent_id d)); (u "resource_id", PStr (resource_id d)); (u "target_id", PStr (target_id d));
   (u "owner_binding", PStr (owner_binding d)); (u "request_hash", PStr (request_hash d));
   (u "canonical_path", PStr (canonical_path d)); (u "payload_sha256", PStr (payload_sha256 d));
   (u "payload_size_bytes", PInt (payload_size_bytes d)); (u "staged_payload_path", PStr (staged_payload_path d));
   (u "staged_descriptor_path", PStr (staged_descriptor_path d)); (u "created_ns", PInt (created_ns d))].
Definition descriptor_fields : list string :=
  ["descriptor_version"; "flow"; "intent_id"; "resource_id"; "target_id"; "owner_binding"; "request_hash";
   "canonical_path"; "payload_sha256"; "payload_size_bytes"; "staged_payload_path"; "staged_descriptor_path"; "created_ns"].
(** [_descriptor_payload] *)
Definition descriptor_payload (d : ArtifactDescriptor) : Res bytes := encode (dumps true (PDict (asdict d))).
(** The signature of the canonical text of a descriptor. *)
Definition descriptor_signature (pepper : bytes) (canonical : str) : Res str :=
  let? framed := frames [u "connect.md/artifact-stage-descriptor/v1"; canonical] in
  Ok (hex (hmac_sha256 pepper framed)).
Definition json_error : exn := ValueError (u "JSONDecodeError").
(** A [str] and an [int] member; the program signs no bool or float in the place of
    an [int], and one is refused here. *)
Definition str_member (key : string) (d : list (str * pyval)) : option str :=
  match dict_get (u key) d with Some (PStr s) => Some s | _ => None end.
Definition int_member (key : string) (d : list (str * pyval)) : option Z :=
  match dict_get (u key) d with Some (PInt n) => Some n | _ => None end.
(** [ArtifactDescriptor( **fields)] with the types the checks below need. *)
Definition descriptor_of (d : list (str * pyval)) : option ArtifactDescriptor :=
  flow ← str_member "flow" d; intent ← str_member "intent_id" d; resource ← str_member "resource_id" d;
  target ← str_member "target_id" d; owner ← str_member "owner_binding" d; request ← str_member "request_hash" d;
  canonical ← str_member "canonical_path" d; sha ← str_member "payload_sha256" d;
  size ← int_member "payload_size_bytes" d; payload ← str_member "staged_payload_path" d;
  staged ← str_member "staged_descriptor_path" d; created ← int_member "created_ns" d;
  if equals_one (dict_get (u "descriptor_version") d)
  then Some (MkDescriptor 1 flow intent resource target owner request canonical sha size payload staged created)
  else None.

(** [s.removesuffix(suffix)] *)
Definition removesuffix (suffix s : str) : str := if ends_with suffix s then take (length s - length suffix) s else s.
Definition one_flow (d : ArtifactDescriptor) (flows : list string) : bool := one_of (d_flow d) flows.
(** The canonical path the flow asks for. *)
Definition expected_canonical (d : ArtifactDescriptor) : option str :=
  if eqs (d_flow d) "application_snapshot" then Some (u "applications/" ++ resource_id d ++ u "/snapshot.md")
  else if eqs (d_flow d) "organization_verification_evidence" then
    Some (u "verification-evidence/" ++ target_id d ++ u "/" ++ resource_id d ++ u "/" ++ payload_sha256 d ++ u ".bin")
  else if eqs (d_flow d) "canonical_document_version" then
    match split_on slash (canonical_path d) with
    | [directory; resource; versions; name] =>
        if one_of directory ["profiles"; "resumes"] && uuid4_shape resource && eqs versions "versions"
           && version_name name && bool_decide (resource = resource_id d)
        then Some (canonical_path d) else None
    | _ => None
    end
  else
    match split_on slash (canonical_path d) with
    | [posts; resource; versions; name] =>
        if eqs posts "posts" && uuid4_shape resource && eqs versions "versions" && eqs name "000001.md"
           && bool_decide (resource = resource_id d)
        then Some (canonical_path d) else None
    | _ => None
    end.
(** The checks of [parse_signed_descriptor] after the signature's. *)
Definition valid_descriptor (d : ArtifactDescriptor) (expected_descriptor_path : str) : bool :=
  let stem := removesuffix (u ".json") (staged_descriptor_path d) in
  forallb canonical_uuid [intent_id d; resource_id d; target_id d]
  && (descriptor_version d =? ARTIFACT_DESCRIPTOR_VERSION) && one_flow d ARTIFACT_FLOWS
  && (negb (one_flow d ["application_snapshot"; "organization_verification_evidence"])
      || bool_decide (resource_id d = intent_id d))
  && bool_decide (staged_descriptor_path d = expected_descriptor_path)
  && forallb (hexes 64) [owner_binding d; request_hash d; payload_sha256 d]
  && (1 <=? payload_size_bytes d) && (payload_size_bytes d <=? artifact_max_size (d_flow d))
  && (1 <=? created_ns d)
  && ends_with (u ".bin") (staged_payload_path d)
  && starts_with (join (u "/") (STAGE_ROOT ++ [intent_id d; []])) stem
  && bool_decide (staged_payload_path d = stem ++ u ".bin")
  && bool_decide (expected_canonical d = Some (canonical_path d)).

Section artifacts.
Context (float_text : str -> str).

(** [_signed_descriptor] *)
Definition signed_descriptor (d : ArtifactDescriptor) (pepper : bytes) : Res bytes :=
  let? payload := descriptor_payload d in
  match utf8_decode payload with
  | None => Raise UnicodeEncodeError
  | Some canonical =>
      match loads float_text json_constant last_wins canonical with
      | None => Raise json_error
      | Some fields =>
          let? signature := descriptor_signature pepper canonical in
          encode (dumps true (PDict [(u "descriptor", fields); (u "signature", PStr signature)]))
      end
  end.

(** [parse_signed_descriptor]: what fails below the outer handler is [None]. *)
Definition signed_fields (pepper : bytes) (envelope : pyval) : option (list (str * pyval)) :=
  match envelope with
  | PDict members =>
      match dict_get (u "descriptor") members, dict_get (u "signature") members with
      | Some (PDict fields), Some (PStr signature) =>
          if keys_are ["descriptor"; "signature"] members && keys_are descriptor_fields fields then
            match descriptor_signature pepper (dumps true (PDict fields)) with
            | Ok expected =>
                match compare_digest signature expected with Ok true => Some fields | _ => None end
            | Raise _ => None
            end
          else None
      | _, _ => None
      end
  | _ => None
  end.
Definition parse_signed_descriptor (raw pepper : bytes) (expected_descriptor_path : str) : Res ArtifactDescriptor :=
  let parsed :=
    text ← utf8_decode raw;
    envelope ← loads float_text json_constant last_wins text;
    fields ← signed_fields pepper envelope;
    d ← descriptor_of fields;
    if valid_descriptor d expected_descriptor_path then Some d else None in
  match parsed with
  | Some d => Ok d
  | None => Raise (unavailable_artifact "artifact descriptor is unavailable")
  end.

(** ** Staging *)
Record Staging : Type := MkStaging
  { g_flow : str; g_owner : str; g_target : str; g_key : str; g_request_hash : str; g_canonical_path : str;
    g_payload : bytes; g_max_size : Z; g_resource : option str }.
Definition staging_error : exn := unavailable_artifact "artifact staging is unavailable".
(** [except StorageIntegrityError], and [except (ArtifactDurabilityUnavailable,
    StorageIntegrityError)]. *)
Definition hide_storage (e : exn) : exn := match e with StorageIntegrityError _ => staging_error | e => e end.
Definition hide_staging (e : exn) : exn :=
  match e with StorageIntegrityError _ | ArtifactDurabilityUnavailable _ => staging_error | e => e end.
Definition intent_prefix (intent : str) : str := join (u "/") (STAGE_ROOT ++ [intent; []]).
(** [resource_id or intent_id] *)
Definition resource_or (g : Staging) (intent : str) : str :=
  match g_resource g with Some ((_ :: _) as r) => r | _ => intent end.

(** The existing descriptor of the intent: it must be the one of this request. *)
Definition resume_staged (st : VersionStore) (pepper : bytes) (g : Staging) (intent resource path : str) :
  act fs ArtifactDescriptor :=
  let! f := gets id in
  let! existing := lift (let? raw := read_staged_descriptor st path f in parse_signed_descriptor raw pepper path) in
  let! owned := lift (descriptor_owner_matches existing pepper (g_owner g)) in
  if negb (bool_decide (d_flow existing = g_flow g)) || negb (bool_decide (intent_id existing = intent))
     || negb (bool_decide (resource_id existing = resource)) || negb (bool_decide (target_id existing = g_target g))
     || negb owned || negb (bool_decide (request_hash existing = g_request_hash g))
     || negb (bool_decide (canonical_path existing = g_canonical_path g))
  then raise (StorageIntegrityError (u "artifact staging intent is unavailable"))
  else
    read_exact st (staged_payload_path existing) (payload_sha256 existing) (payload_size_bytes existing) (g_max_size g) ;;;
    promote_staged_artifact st (staged_payload_path existing) (canonical_path existing) (payload_sha256 existing)
      (payload_size_bytes existing) (g_max_size g) ;;;
    ret existing.
(** The [try] block before anything is written: an earlier staging of the intent. *)
Definition resume_intent (st : VersionStore) (pepper : bytes) (g : Staging) (intent resource : str) :
  act fs (option ArtifactDescriptor) :=
  let! f := gets id in
  let! scan := lift (scan_staged_artifacts st ARTIFACT_SCAN_LIMIT f) in
  if invalid_entry scan || overbound scan
  then raise (StorageIntegrityError (u "artifact staging inventory is unavailable"))
  else
    let of_intent (path : str) : bool := starts_with (intent_prefix intent) path in
    match List.filter of_intent (incomplete_payloads scan), List.filter of_intent (descriptors scan) with
    | [], [] => ret None
    | [], [path] => let! d := resume_staged st pepper g intent resource path in ret (Some d)
    | _, _ => raise (StorageIntegrityError (u "artifact staging intent is unavailable"))
    end.
(** The descriptor of a first staging. *)
Definition new_descriptor (pepper : bytes) (g : Staging) (intent resource : str) (now_ns : Z) (nonce : str) :
  Res ArtifactDescriptor :=
  let stem := stage_stem intent now_ns nonce in
  let? owner := owner_binding_of pepper (g_owner g) in
  Ok (MkDescriptor ARTIFACT_DESCRIPTOR_VERSION (g_flow g) intent resource (g_target g) owner (g_request_hash g)
        (g_canonical_path g) (sha256_hex (g_payload g)) (len (g_payload g)) (stem ++ u ".bin") (stem ++ u ".json") now_ns).
Definition stage_new (st : VersionStore) (pepper : bytes) (g : Staging) (intent : str) (nonce : str)
  (d : ArtifactDescriptor) : act fs unit :=
  let! signed := lift (signed_descriptor d pepper) in
  let! (payload_path, descriptor_path) := stage_pair st intent (g_payload g) signed (created_ns d) nonce in
  if negb (bool_decide (payload_path = staged_payload_path d)) || negb (bool_decide (descriptor_path = staged_descriptor_path d))
  then raise (StorageIntegrityError (u "artifact staging target is unavailable"))
  else promote_staged_artifact st (staged_payload_path d) (g_canonical_path g) (payload_sha256 d) (payload_size_bytes d)
         (g_max_size g).
(** [stage_artifact] *)
Definition stage_artifact (st : VersionStore) (pepper : bytes) (g : Staging) (now_ns : Z) (nonce : str) :
  act fs ArtifactDescriptor :=
  if bool_decide (g_payload g = []) || (g_max_size g <? len (g_payload g))
     || negb (g_max_size g =? artifact_max_size (g_flow g))
  then raise (unavailable_artifact "artifact payload is unavailable")
  else
    let! intent := lift (derive_artifact_intent_uuid pepper (g_flow g) (g_owner g) (g_target g) (g_key g)) in
    let resource := resource_or g intent in
    if negb (canonical_uuid resource) then raise (unavailable_artifact "artifact resource is unavailable")
    else
      let! existing := catch (resume_intent st pepper g intent resource) (fun e => raise (hide_staging e)) in
      match existing with
      | Some d => ret d
      | None =>
          let! d := lift (new_descriptor pepper g intent resource now_ns nonce) in
          catch (stage_new st pepper g intent nonce d) (fun e => raise (hide_storage e)) ;;;
          ret d
      end.

(** ** Reconciliation *)
Inductive Readiness : Type := Disabled | NotAttempted | Ready | Unavailable.
(** The tree, [ArtifactReconciler.status] and how often the clock was read. *)
Record recon : Type := MkRecon { tree : fs; status : Readiness; reads : nat }.
Definition on_tree {A : Type} (m : act fs A) : act recon A := fun s =>
  let '(r, f) := m (tree s) in (r, MkRecon f (status s) (reads s)).

Section reconciler.
(** [ArtifactReconciler.__init__]: the store, the key, the callbacks that ask the
    database, and [time.time_ns()]. *)
Context (st : VersionStore) (pepper : bytes) (enabled : bool) (clock : nat -> Z)
  (classify : ArtifactDescriptor -> Res ArtifactAuthority)
  (classify_incomplete : option (str -> str -> Res ArtifactAuthority)).

Definition initial_status : Readiness := if enabled then NotAttempted else Disabled.
Definition now : act recon Z := fun s => (Ok (clock (reads s)), MkRecon (tree s) (status s) (S (reads s))).
Definition mark_unavailable : act recon unit :=
  modify (fun s => if enabled then MkRecon (tree s) Unavailable (reads s) else s).
(** [except (ArtifactDurabilityUnavailable, StorageIntegrityError, OSError, ValueError)] *)
Definition expected_failure (e : exn) : bool :=
  match e with
  | ArtifactDurabilityUnavailable _ | StorageIntegrityError _ | OSError | FileExistsError | ValueError _
  | UnicodeEncodeError => true
  | _ => false
  end.
(** The gate of an intent parses its id; its lock is the subject of [IntentGates]. *)
Definition enter_gate (intent : str) : act recon unit :=
  if uuid_parses intent then ret tt else raise (ValueError (u "badly formed hexadecimal UUID string")).
Definition read_payload (d : ArtifactDescriptor) : act fs bytes :=
  read_exact st (staged_payload_path d) (payload_sha256 d) (payload_size_bytes d) (artifact_max_size (d_flow d)).
Definition retire_pair (d : ArtifactDescriptor) : act fs unit :=
  retire_staged_artifact st (staged_payload_path d) (staged_descriptor_path d).
Definition delete_canonical (d : ArtifactDescriptor) : act fs unit :=
  delete_verified_exact st (canonical_path d) (payload_sha256 d) (payload_size_bytes d) (artifact_max_size (d_flow d)).
(** What the verdict of the database does. *)
Definition settle (respect_grace : bool) (d : ArtifactDescriptor) (authority : ArtifactAuthority) : act recon unit :=
  match authority with
  | Committed => on_tree (retire_pair d)
  | Absent => on_tree (delete_canonical d) ;;; on_tree (retire_pair d)
  | Uncertain => if respect_grace then ret tt else mark_unavailable
  end.
(** [ArtifactReconciler.reconcile_descriptor] *)
Definition reconcile_descriptor (d : ArtifactDescriptor) (respect_grace gate_held : bool) : act recon ArtifactAuthority :=
  let! fresh := if respect_grace then (let! t := now in ret (t - created_ns d <? ARTIFACT_STAGE_GRACE_NS)) else ret false in
  if fresh : bool then ret Uncertain
  else
    catch
      ((if gate_held then ret tt else enter_gate (intent_id d)) ;;;
       on_tree (read_payload d) ;;;
       let! authority := lift (classify d) in
       settle respect_grace d authority ;;;
       ret authority)
      (fun e => if expected_failure e
                then (if respect_grace then ret tt else mark_unavailable) ;;; ret Uncertain
                else raise e).

(** The loops of [run_once]; [None] of the first is its early return. *)
Fixpoint parse_staged (paths : list str) : act recon (option (list ArtifactDescriptor)) :=
  match paths with
  | [] => ret (Some [])
  | path :: paths => fun s =>
      match (let? raw := read_staged_descriptor st path (tree s) in parse_signed_descriptor raw pepper path) with
      | Ok d => (let! rest := parse_staged paths in
                 ret (match rest with Some l => Some (d :: l) | None => None end)) s
      | Raise (ArtifactDurabilityUnavailable _ | StorageIntegrityError _) => (Ok None, s)
      | Raise e => (Raise e, s)
      end
  end.
(** The intent and the creation time in the path of a payload; the scan lists only
    names that start with nineteen digits and a hyphen. *)
Definition incomplete_entry (path : str) : option (str * str * Z) :=
  match split_on slash path with
  | _ :: _ :: intent :: name :: _ =>
      match split_on 45 name with
      | digits :: _ =>
          if forallb is_digit digits && negb (bool_decide (digits = [])) && uuid_parses intent
          then Some (path, intent, decimal digits) else None
      | [] => None
      end
  | _ => None
  end.
Fixpoint incomplete_entries (paths : list str) : option (list (str * str * Z)) :=
  match paths with
  | [] => Some []
  | path :: paths => e ← incomplete_entry path; rest ← incomplete_entries paths; Some (e :: rest)
  end.
Fixpoint retire_incomplete (l : list (str * str * Z)) (unavailable_ : bool) : act recon bool :=
  match l with
  | [] => ret unavailable_
  | (path, intent, created) :: l =>
      let! t := now in
      if t - created <? ARTIFACT_STAGE_GRACE_NS then retire_incomplete l unavailable_
      else
        match classify_incomplete with
        | None => retire_incomplete l true
        | Some ask =>
            enter_gate intent ;;;
            let! outcome := lift (ask intent path) in
            if bool_decide (outcome = Absent)
            then on_tree (retire_incomplete_staged_payload st path) ;;; retire_incomplete l unavailable_
            else retire_incomplete l true
        end
  end.
Fixpoint reconcile_all (l : list ArtifactDescriptor) (unavailable_ : bool) : act recon bool :=
  match l with
  | [] => ret unavailable_
  | d :: l =>
      let! outcome := reconcile_descriptor d true false in
      let! stale := if bool_decide (outcome = Uncertain)
                    then (let! t := now in ret (ARTIFACT_STAGE_GRACE_NS <=? t - created_ns d)) else ret false in
      reconcile_all l (unavailable_ || stale)
  end.
(** The [try] body of [run_once]: whether it found the store unavailable. *)
Definition run_body : act recon bool :=
  let! f := gets tree in
  let! scan := lift (scan_staged_artifacts st ARTIFACT_SCAN_LIMIT f) in
  if invalid_entry scan || overbound scan then ret true
  else
    let! parsed := parse_staged (descriptors scan) in
    match parsed, incomplete_entries (incomplete_payloads scan) with
    | Some ds, Some incomplete =>
        let! unavailable_ := retire_incomplete incomplete false in
        reconcile_all ds unavailable_
    | _, _ => ret true
    end.
(** [ArtifactReconciler.run_once]: only a cancellation escapes it. *)
Definition run_once : act recon unit := fun s =>
  if negb enabled then (Ok tt, s)
  else
    let set_status (v : Readiness) (s : recon) := MkRecon (tree s) v (reads s) in
    match run_body s with
    | (Ok unavailable_, s) => (Ok tt, set_status (if unavailable_ : bool then Unavailable else Ready) s)
    | (Raise CancelledError, s) => (Raise CancelledError, set_status Unavailable s)
    | (Raise _, s) => (Ok tt, set_status Unavailable s)
    end.
End reconciler.
End artifacts.
