(* ===== verification/ArtifactFacts.v ===== *)
(** * Staged artifacts: what the operations change

    Each property of a computation over the tree that composes (it keeps
    directories, it only adds nodes, it leaves a set of paths alone) is an instance of
    [Moves] for a preorder on trees. *)
From S2P Require Import Prelude PyTime Json Sha256 JsonText JsonBytes Storage ProtocolArguments ProtocolArgumentsFacts BackupArchiveFacts ArtifactStaging ArtifactDurability.
Local Open Scope Z_scope.

(** ** Computations and preorders on trees *)
Class Moves (R : relation fs) {A : Type} (m : act fs A) : Prop :=
  moves : forall f r f', m f = (r, f') -> R f f'.

Lemma act_bind_cases {S A B : Type} (m : act S A) (k : A -> act S B) s r s' : act_bind m k s = (r, s') ->
  (exists a s1, m s = (Ok a, s1) /\ k a s1 = (r, s')) \/ (exists e, m s = (Raise e, s') /\ r = Raise e).
Proof.
  unfold act_bind. destruct (m s) as [[a|e] s1]; [intros H; left; by exists a, s1|].
  intros [= <- <-]. right. by exists e.
Qed.
Lemma catch_cases {S A : Type} (m : act S A) h s r s' : catch m h s = (r, s') ->
  (exists a, m s = (Ok a, s') /\ r = Ok a) \/ (exists e s1, m s = (Raise e, s1) /\ h e s1 = (r, s')).
Proof.
  unfold catch. destruct (m s) as [[a|e] s1]; [intros [= <- <-]; left; by exists a|].
  intros H. right. by exists e, s1.
Qed.
Section moves.
Context (R : relation fs) `{!PreOrder R}.

#[export] Instance moves_ret {A : Type} (a : A) : Moves R (ret a).
Proof. by intros f r f' [= <- <-]. Qed.
#[export] Instance moves_raise {A : Type} e : Moves R (raise e : act fs A).
Proof. by intros f r f' [= <- <-]. Qed.
#[export] Instance moves_lift {A : Type} (m : Res A) : Moves R (lift m).
Proof. by intros f r f' [= <- <-]. Qed.
#[export] Instance moves_gets {A : Type} (g : fs -> A) : Moves R (gets g).
Proof. by intros f r f' [= <- <-]. Qed.
#[export] Instance moves_bind {A B : Type} (m : act fs A) (k : A -> act fs B) :
  Moves R m -> (forall a, Moves R (k a)) -> Moves R (act_bind m k).
Proof.
  intros Hm Hk f r f' [(a & f1 & E & H)|(e & E & _)]%act_bind_cases; [|exact (Hm _ _ _ E)].
  etrans; [exact (Hm _ _ _ E)|exact (Hk a _ _ _ H)].
Qed.
#[export] Instance moves_catch {A : Type} (m : act fs A) h :
  Moves R m -> (forall e, Moves R (h e)) -> Moves R (catch m h).
Proof.
  intros Hm Hh f r f' [(a & E & _)|(e & f1 & E & H)]%catch_cases; [exact (Hm _ _ _ E)|].
  etrans; [exact (Hm _ _ _ E)|exact (Hh e _ _ _ H)].
Qed.
#[export] Instance moves_if {A : Type} (b : bool) (m1 m2 : act fs A) :
  Moves R m1 -> Moves R m2 -> Moves R (if b then m1 else m2).
Proof. by destruct b. Qed.
End moves.
(** Conditionals and let-bindings on the way to a known computation. *)
Ltac moves_step :=
  match goal with
  | |- PreOrder _ => apply _
  | |- forall _, _ => intros ?
  | |- Moves _ (let _ := _ in _) => cbv zeta
  | |- Moves _ (act_bind _ _) => apply moves_bind
  | |- Moves _ (catch _ _) => apply moves_catch
  | |- Moves _ (match ?x with _ => _ end) => destruct x
  | |- Moves _ _ => apply _
  end.
Ltac solve_moves := repeat moves_step.

(** ** Directories stay *)
Definition dirs_kept (f f' : fs) : Prop := forall p, f !! p = Some NDir -> f' !! p = Some NDir.
#[export] Instance dirs_kept_preorder : PreOrder dirs_kept.
Proof. split; [by intros f p|]. intros f g h H1 H2 p Hp. auto. Qed.
Lemma dirs_kept_insert p n f : f !! p = None -> dirs_kept f (<[p := n]> f).
Proof. intros H q Hq. rewrite lookup_insert_ne; [done|]. intros ->. congruence. Qed.
Lemma dirs_kept_delete p f : f !! p <> Some NDir -> dirs_kept f (delete p f).
Proof. intros H q Hq. rewrite lookup_delete_ne; [done|]. by intros ->. Qed.
Lemma lstat_none f p : lstat f p = None -> f !! p = None.
Proof. by destruct p. Qed.

(** ** Nothing is removed or replaced *)
#[export] Instance subseteq_moves_dirs {A : Type} (m : act fs A) : Moves (⊆) m -> Moves dirs_kept m.
Proof. intros H f r f' E p Hp. eapply lookup_weaken; [done|]. exact (H _ _ _ E). Qed.
Lemma grows (f f' : fs) : (forall q n, f !! q = Some n -> f' !! q = Some n) -> f ⊆ f'.
Proof. apply map_subseteq_spec. Qed.

#[export] Instance mkdir_parents_adds todo : Moves (⊆) (mkdir_parents todo).
Proof. intros f r f' H. apply grows. apply (mkdir_parents_step _ _ _ _ H). Qed.
#[export] Instance mkdir_parents_durable_adds dir : Moves (⊆) (mkdir_parents_durable dir).
Proof. intros f r f' H. by eapply (mkdir_parents_adds _). Qed.
#[export] Instance create_exclusive_adds p b : Moves (⊆) (create_exclusive p b).
Proof.
  intros f r f'. unfold create_exclusive. destruct (lstat f p) eqn:E; [by intros [= <- <-]|].
  destruct (is_dir f _); intros [= <- <-]; [|done]. by apply insert_subseteq, lstat_none.
Qed.
Lemma create_exclusive_raise p b f e f' : create_exclusive p b f = (Raise e, f') -> f' = f.
Proof. unfold create_exclusive. destruct (lstat f p); [|destruct (is_dir f _)]; by intros [= _ <-]. Qed.
Lemma fsync_directory_same p f r f' : fsync_directory p f = (r, f') -> f' = f.
Proof. unfold fsync_directory. by destruct (exists_ f p); intros [= _ <-]. Qed.
#[export] Instance fsync_directory_adds p : Moves (⊆) (fsync_directory p).
Proof. by intros f r f' ->%fsync_directory_same. Qed.
#[export] Instance open_root_adds st : Moves (⊆) (open_root st).
Proof. intros f r f'. unfold open_root. by destruct (is_dir f _); intros [= <- <-]. Qed.
#[export] Instance open_or_create_adds cur parts : Moves (⊆) (open_or_create cur parts).
Proof.
  revert cur. induction parts as [|part parts IH]; intros cur f r f'; cbn [open_or_create]; [by intros [= <- <-]|].
  destruct (f !! (cur ++ [part])) as [[]|] eqn:E; try by intros [= <- <-].
  - apply IH.
  - intros H. etrans; [by apply (insert_subseteq _ (cur ++ [part]) NDir)|by eapply IH].
Qed.
#[export] Instance link_missing_adds source target : Moves (⊆) (link_missing source target).
Proof.
  intros f r f'. unfold link_missing. destruct (f !! source) as [[]|]; try by intros [= <- <-].
  all: destruct (f !! target) eqn:E; intros [= <- <-]; [done|]; by apply insert_subseteq.
Qed.
#[export] Instance link_artifact_adds st source target : Moves (⊆) (link_artifact_posix st source target).
Proof. unfold link_artifact_posix. solve_moves. Qed.
#[export] Instance read_exact_adds st rel sha size max : Moves (⊆) (read_exact st rel sha size max).
Proof. unfold read_exact. solve_moves. Qed.
#[export] Instance promote_adds st path canonical sha size max :
  Moves (⊆) (promote_staged_artifact st path canonical sha size max).
Proof. unfold promote_staged_artifact. solve_moves. Qed.
(** A descriptor that cannot be created takes the new payload with it. *)
Lemma undo_create (p : list str) (n : node) (e : exn) (f : fs) (r : Res unit) (f' : fs) : p <> [] -> f !! p = None -> n <> NDir ->
  (unlink_missing_ok p ;;; fsync_directory (removelast p) ;;; raise e) (<[p := n]> f) = (r, f') ->
  f' = f /\ r <> Ok tt.
Proof.
  intros Hne Hnone Hn.
  assert (unlink_missing_ok p (<[p := n]> f) = (Ok tt, f)) as H.
  { unfold unlink_missing_ok. rewrite lstat_nonempty, lookup_insert_eq by done.
    unfold unlink, modify. by destruct n; rewrite ?delete_insert_id. }
  rewrite (act_bind_run _ _ _ _ _ H). unfold act_bind, fsync_directory. by destruct (exists_ f _); intros [= <- <-].
Qed.
Lemma create_or_undo_cases (payload_target descriptor_target : list str) (payload descriptor : bytes) (f : fs) (r : Res unit) (f' : fs) :
  payload_target <> [] -> f !! payload_target = None ->
  create_or_undo payload_target descriptor_target descriptor (<[payload_target := NReg payload]> f) = (r, f') ->
  (r = Ok tt /\ create_exclusive descriptor_target descriptor (<[payload_target := NReg payload]> f) = (Ok tt, f'))
  \/ (r <> Ok tt /\ f' = f).
Proof.
  intros Hne Hnone [([] & E & ->)|(e & f3 & E & H3)]%catch_cases; [by left|]. right.
  apply create_exclusive_raise in E as ->. by apply undo_create in H3 as [-> ?].
Qed.
#[export] Instance write_pair_adds payload_target descriptor_target payload descriptor :
  payload_target <> [] -> Moves (⊆) (write_pair payload_target descriptor_target payload descriptor).
Proof.
  intros Hne. unfold write_pair. apply moves_bind; [apply _..|]. intros [] f r f' H.
  apply act_bind_cases in H as [([] & f1 & E & H)|(e & E & _)]; [|exact (create_exclusive_adds _ _ _ _ _ E)].
  apply create_exclusive_inv in E as [(_ & Hnone & ->)|[_ [?|?]]]; try done.
  assert (f ⊆ <[payload_target := NReg payload]> f) as Hadd by by apply insert_subseteq.
  assert (forall r f2, create_or_undo payload_target descriptor_target descriptor
    (<[payload_target := NReg payload]> f) = (r, f2) -> f ⊆ f2) as Hc.
  { intros r2 f2 [[_ E]|[_ ->]]%create_or_undo_cases; [|done..]. etrans; [done|exact (create_exclusive_adds _ _ _ _ _ E)]. }
  apply act_bind_cases in H as [([] & f2 & E & H)|(e & E & _)]; [|exact (Hc _ _ E)].
  etrans; [exact (Hc _ _ E)|exact (fsync_directory_adds _ _ _ _ H)].
Qed.
Lemma strict_stage_target_ok st rel suffix f target : strict_stage_target st rel suffix f = Ok target ->
  exists i name created stem, posix_parts rel = STAGE_ROOT ++ [i; name] /\ target = root st ++ STAGE_ROOT ++ [i; name] /\
    as_posix (posix_parts rel) = rel /\ uuid_parses i = true /\ stage_file name = Some (created, stem, u suffix) /\
    (forall p, p ∈ prefixes (root st) (STAGE_ROOT ++ [i]) -> exists_ f p = true -> is_symlink f p = false).
Proof.
  unfold strict_stage_target. destruct (posix_parts rel) as [|a [|b [|i [|name []]]]] eqn:E; try done.
  destruct (stage_file name) as [[[created stem] s]|] eqn:Hs; cbv zeta;
    [|intros H; bool_facts; rewrite !orb_true_r in H; done].
  match goal with |- (if ?b then _ else _) = _ -> _ => destruct b eqn:Hb; [done|] end.
  intros [= <-]. bool_facts. rename H0 into Hlinks, H4 into Hroot.
  change ([a; b; i; name]) with ([a; b] ++ [i; name]). change ([a; b; i]) with ([a; b] ++ [i]) in Hlinks.
  exists i, name, created, stem. subst s. rewrite Hroot in *. do 2 (split; [done|]). split; [by rewrite <- Hroot|].
  do 2 (split; [done|]). intros p Hp Hex.
  apply not_true_is_false. intros Hl. apply not_true_iff_false in Hlinks. apply Hlinks, existsb_exists. exists p.
  split; [by apply list_elem_of_In|by rewrite Hex, Hl].
Qed.
Lemma stage_target_nonempty st rel suffix f target : strict_stage_target st rel suffix f = Ok target -> target <> [].
Proof. intros (i & name & ? & ? & _ & -> & _)%strict_stage_target_ok E. by apply app_eq_nil in E as [_ ?]. Qed.
Lemma lift_cases {S A B : Type} (m : Res A) (k : A -> act S B) s r s' : act_bind (lift m) k s = (r, s') ->
  (exists a, m = Ok a /\ k a s = (r, s')) \/ (exists e, m = Raise e /\ r = Raise e /\ s' = s).
Proof. unfold act_bind, lift. destruct m as [a|e]; [eauto|intros [= <- <-]; eauto]. Qed.
#[export] Instance stage_pair_adds st intent payload descriptor created nonce :
  Moves (⊆) (stage_pair st intent payload descriptor created nonce).
Proof.
  unfold stage_pair. cbv zeta. apply moves_if; [apply _|]. apply moves_bind; [apply _..|]. intros f f1 r f' H.
  apply lift_cases in H as [(payload_target & E1 & H)|(e & _ & _ & ->)]; [|done].
  apply lift_cases in H as [(descriptor_target & _ & H)|(e & _ & _ & ->)]; [|done]. apply stage_target_nonempty in E1.
  revert H. generalize f1 r f'. apply (moves_bind (⊆)); [|solve_moves]. apply (moves_catch (⊆)); [|solve_moves].
  by apply write_pair_adds.
Qed.

(** ** The operations that remove keep directories *)
#[export] Instance unlink_missing_ok_keeps p : Moves dirs_kept (unlink_missing_ok p).
Proof.
  intros f r f'. unfold unlink_missing_ok. destruct (lstat f p) as [n|] eqn:E; [|by intros [= <- <-]].
  destruct n; intros [= <- <-]; try done; apply dirs_kept_delete; destruct p; simpl in E; congruence.
Qed.
#[export] Instance retire_pair_keeps st payload descriptor : Moves dirs_kept (retire_staged_artifact st payload descriptor).
Proof. unfold retire_staged_artifact. solve_moves. Qed.
#[export] Instance delete_verified_exact_keeps st rel sha size max : Moves dirs_kept (delete_verified_exact st rel sha size max).
Proof.
  intros f r f'. unfold delete_verified_exact. destruct (verified_byte_target st rel) as [[parts target]|] eqn:Ht; [|by intros [= <- <-]].
  destruct (verified_byte_target_ok _ _ _ _ Ht) as (_ & -> & _). destruct (negb _); [by intros [= <- <-]|].
  destruct (map_exn _ _) as [b|] eqn:Hr; intros [= <- <-]; [|done].
  apply map_exn_ok, read_verified_bytes_ok in Hr as (parts' & Ht' & _ & _ & Hb & _).
  rewrite Ht in Ht'. injection Ht' as <-. apply dirs_kept_delete. congruence.
Qed.
#[export] Instance retire_incomplete_keeps st path : Moves dirs_kept (retire_incomplete_staged_payload st path).
Proof. unfold retire_incomplete_staged_payload. solve_moves. Qed.
#[export] Instance delete_exact_keeps st rel : Moves dirs_kept (delete_exact st rel).
Proof.
  intros f r f'. unfold delete_exact. repeat (case_match; try by intros [= <- <-]).
  intros [= <- <-]. apply dirs_kept_delete. intros Hn. unfold lstat in *. by case_match; simplify_eq.
Qed.
#[export] Instance remove_new_file_keeps st rel : Moves dirs_kept (remove_new_file st rel).
Proof.
  intros f r f'. unfold remove_new_file. destruct (absolute_target st rel f) as [target|]; [|by intros [= <- <-]].
  destruct (lstat f target) as [[]|] eqn:E; intros [= <- <-]; try done; apply dirs_kept_delete;
    destruct target; simpl in E; congruence.
Qed.
#[export] Instance cleanup_entries_keeps st dir oldest recursive names seen :
  Moves dirs_kept (cleanup_entries st dir oldest recursive names seen).
Proof.
  revert seen. induction names as [|name names IH]; intros seen; cbn [cleanup_entries]; [apply _|].
  apply moves_if; [done|]. apply moves_if; [apply _|]. intros f r f'.
  destruct (f !! (dir ++ [name])) as [[b| |t]|] eqn:E; [| |apply IH|by intros [= <- <-]].
  - destruct (pending_created_ns name) as [created|]; [|apply IH]. destruct (oldest <? created); [apply IH|].
    intros [([] & E1 & H)|(e & _ & _ & ->)]%lift_cases; [|done]. unfold act_bind, unlink, modify in H.
    etrans; [|exact (IH _ _ _ _ H)]. apply dirs_kept_delete. congruence.
  - refine ((_ : Moves dirs_kept (let! (subdirs, n) :=
      cleanup_entries st dir oldest recursive names (seen + 1) in
      ret (if recursive then ((dir ++ [name]) :: subdirs, n) else (subdirs, n)))) f r f'). solve_moves.
Qed.
#[export] Instance cleanup_directories_keeps fuel st oldest recursive dirs seen :
  Moves dirs_kept (cleanup_directories fuel st oldest recursive dirs seen).
Proof.
  revert dirs seen. induction fuel as [|fuel IH]; intros [|dir dirs] seen; cbn [cleanup_directories]; try apply _.
  intros f r f' H. refine ((_ : Moves dirs_kept (let! (subdirs, n) :=
    cleanup_entries st dir oldest recursive (entries f dir) seen in
    cleanup_directories fuel st oldest recursive (rev subdirs ++ dirs) n)) f r f' H). solve_moves.
Qed.
#[export] Instance cleanup_keeps st directory recursive now_ns :
  Moves dirs_kept (cleanup_stale_pending_files st directory recursive now_ns).
Proof.
  intros f r f'. unfold cleanup_stale_pending_files, cleanup_run. cbv zeta.
  destruct (negb _); [by intros [= <- <-]|]. destruct (negb _); [by intros [= <- <-]|].
  apply (moves_catch dirs_kept); solve_moves.
Qed.
#[export] Instance link_or_same_adds target payload : Moves (⊆) (link_or_same target payload).
Proof.
  intros f r f'. unfold link_or_same. destruct (lstat f target) as [[b| |t]|] eqn:E; try by intros [= <- <-].
  - by destruct (bool_decide _); intros [= <- <-].
  - intros [= <- <-]. by apply insert_subseteq, lstat_none.
Qed.
Lemma unlink_pending_keeps p f : dirs_kept f (unlink_pending p f).
Proof.
  unfold unlink_pending, is_dir. destruct (lstat f p) as [[]|] eqn:E; try done; apply dirs_kept_delete;
    destruct p; simpl in E; congruence.
Qed.
#[export] Instance write_immutable_bytes_keeps st rel payload now_ns nonce :
  Moves dirs_kept (write_immutable_bytes st rel payload now_ns nonce).
Proof.
  intros f r f'. unfold write_immutable_bytes. destruct (absolute_target st rel f) as [target|]; [|by intros [= <- <-]].
  cbv zeta. destruct ((mkdir_parents_durable _ ;;; _) f) as [rb f1] eqn:Eb.
  assert (dirs_kept f f1) as Hb.
  { exact ((_ : Moves dirs_kept _) _ _ _ Eb). }
  destruct rb as [u0|e]; [|by destruct e; intros [= <- <-]].
  destruct ((create_exclusive _ payload ;;; _) f1) as [rw f2] eqn:Ew.
  assert (dirs_kept f1 f2) as Hw.
  { exact ((_ : Moves dirs_kept _) _ _ _ Ew). }
  intros H. assert (f' = unlink_pending (pending_path target now_ns nonce) f2) as ->.
  { destruct rw as [|e]; [|destruct e]; by injection H. }
  etrans; [done|]. etrans; [done|]. apply unlink_pending_keeps.
Qed.
#[export] Instance write_immutable_keeps st rel markdown now_ns nonce :
  Moves dirs_kept (write_immutable st rel markdown now_ns nonce).
Proof. unfold write_immutable. solve_moves. Qed.

(** ** Staging and reconciliation *)
#[export] Instance stage_artifact_adds ft st pepper g now_ns nonce :
  Moves (⊆) (stage_artifact ft st pepper g now_ns nonce).
Proof. unfold stage_artifact, resume_intent, resume_staged, stage_new. solve_moves. Qed.

(** ** How the tree of a deployment evolves *)
(** One operation of the store, whatever its arguments and its outcome. *)
Inductive store_step (st : VersionStore) (f : fs) : fs -> Prop :=
| step_write rel payload now_ns nonce : store_step st f (write_immutable_bytes st rel payload now_ns nonce f).2
| step_stage intent payload descriptor created nonce :
    store_step st f (stage_pair st intent payload descriptor created nonce f).2
| step_promote path canonical sha size max : store_step st f (promote_staged_artifact st path canonical sha size max f).2
| step_retire payload descriptor : store_step st f (retire_staged_artifact st payload descriptor f).2
| step_retire_incomplete path : store_step st f (retire_incomplete_staged_payload st path f).2
| step_delete_verified rel sha size max : store_step st f (delete_verified_exact st rel sha size max f).2
| step_delete rel : store_step st f (delete_exact st rel f).2
| step_remove_new rel : store_step st f (remove_new_file st rel f).2
| step_cleanup directory recursive now_ns : store_step st f (cleanup_stale_pending_files st directory recursive now_ns f).2.
Lemma store_step_keeps st f f' : store_step st f f' -> dirs_kept f f'.
Proof.
  assert (forall (A : Type) (m : act fs A), Moves dirs_kept m -> dirs_kept f (m f).2) as H.
  { intros A m Hm. exact (Hm _ _ _ (run_pair m f)). }
  by destruct 1; apply H, _.
Qed.
(** The directory of an intent, below real directories. *)
Definition intent_directory (st : VersionStore) (i : str) (f : fs) : Prop :=
  forall p, p ∈ prefixes (root st) (STAGE_ROOT ++ [i]) -> is_dir f p = true.
(** A history that starts with the tree [f0], and its intents: those whose
    directories [f0] holds and those staged since. *)
Inductive history (ft : str -> str) (st : VersionStore) (pepper : bytes) (f0 : fs) : list str -> fs -> Prop :=
| history_start l : (forall i, i ∈ l -> intent_directory st i f0) -> history ft st pepper f0 l f0
| history_staged l f g now_ns nonce d f' : history ft st pepper f0 l f ->
    stage_artifact ft st pepper g now_ns nonce f = (Ok d, f') -> history ft st pepper f0 (intent_id d :: l) f'
| history_step l f f' : history ft st pepper f0 l f -> store_step st f f' -> history ft st pepper f0 l f'.

(** ** What a promotion has verified *)
Lemma read_exact_ok st rel sha size max f b f' : read_exact st rel sha size max f = (Ok b, f') ->
  f' = f /\ read_verified_bytes st rel sha size max f = Ok b.
Proof. unfold read_exact, gets, act_bind, lift. cbn. destruct (read_verified_bytes _ _ _ _ _ f); naive_solver. Qed.
(** The bytes [b] lie at [rel] below the root, reached through real directories. *)
Definition stored (st : VersionStore) (rel : str) (b : bytes) (f : fs) : Prop :=
  f !! (root st ++ posix_parts rel) = Some (NReg b)
  /\ forall p, p ∈ prefixes (root st) (removelast (posix_parts rel)) -> is_dir f p = true.
Lemma read_stored st rel sha size max f b : read_verified_bytes st rel sha size max f = Ok b ->
  stored st rel b f /\ sha256_hex b = sha /\ len b = size.
Proof.
  intros (parts & Ht & _ & Hd & Hb & Hs & Hl & _)%read_verified_bytes_ok.
  apply verified_byte_target_ok in Ht as (-> & _). done.
Qed.
Lemma is_dir_keeps f f' p : dirs_kept f f' -> is_dir f p = true -> is_dir f' p = true.
Proof.
  unfold is_dir. destruct p as [|c p]; [done|]. cbn [lstat]. intros H.
  destruct (f !! (c :: p)) as [[]|] eqn:E; try done. by rewrite (H _ E).
Qed.
Lemma subseteq_dirs (f f' : fs) : f ⊆ f' -> dirs_kept f f'.
Proof. intros H p Hp. by eapply lookup_weaken. Qed.
Lemma stored_mono st rel b f f' : f ⊆ f' -> stored st rel b f -> stored st rel b f'.
Proof.
  intros H [Hb Hd]. split; [by eapply lookup_weaken|]. intros p Hp. eapply is_dir_keeps; [by apply subseteq_dirs|auto].
Qed.
Lemma promote_ok st path canonical sha size max f u0 f' :
  promote_staged_artifact st path canonical sha size max f = (Ok u0, f') ->
  f ⊆ f' /\ (exists target, strict_stage_target st path "bin" f = Ok target) /\
  (exists b, stored st path b f' /\ sha256_hex b = sha /\ len b = size) /\
  (exists b, stored st canonical b f' /\ sha256_hex b = sha /\ len b = size).
Proof.
  intros H. pose proof (promote_adds _ _ _ _ _ _ _ _ _ H) as Hadd. split; [done|].
  unfold promote_staged_artifact in H. apply act_bind_ok in H as (b & f1 & Hr & H).
  apply read_exact_ok in Hr as [-> Hr]. apply read_stored in Hr as (Hst & Hsha & Hlen).
  apply act_bind_ok in H as (f2 & f3 & [= <- <-] & H). apply act_bind_ok in H as (target & f2 & [= Ht <-] & H).
  apply act_bind_ok in H as (ct & f2 & [= Hct <-] & H). split; [by exists target|].
  split; [exists b; split; [by eapply stored_mono|done]|].
  apply catch_cases in H as [(u1 & H & _)|(e & f2 & _ & [=])].
  apply act_bind_ok in H as (u2 & f2 & _ & H). apply act_bind_ok in H as (b' & f3 & Hr & H).
  apply read_exact_ok in Hr as [-> Hr]. apply read_stored in Hr as (Hst' & Hsha' & Hlen').
  injection H as _ <-. by exists b'.
Qed.

(** ** What a staging leaves *)
Lemma write_pair_ok (payload_target descriptor_target : list str) (payload descriptor : bytes) (f f' : fs) : payload_target <> [] -> descriptor_target <> [] ->
  write_pair payload_target descriptor_target payload descriptor f = (Ok tt, f') ->
  f !! payload_target = None /\ f !! descriptor_target = None /\
  f' !! payload_target = Some (NReg payload) /\ f' !! descriptor_target = Some (NReg descriptor).
Proof.
  intros Hp Hd H. unfold write_pair in H. apply act_bind_ok in H as ([] & f1 & E1 & H). apply mkdir_parents_durable_adds in E1.
  apply act_bind_ok in H as ([] & f2 & E2 & H). apply create_exclusive_inv in E2 as [(_ & Hn & ->)|(_ & [?|?])]; try done.
  apply act_bind_ok in H as ([] & f3 & E3 & H). apply fsync_directory_same in H as ->.
  apply create_or_undo_cases in E3 as [[_ E3]|[? _]]; [|done..].
  apply create_exclusive_inv in E3 as [(_ & Hdn & ->)|(_ & [?|?])]; try done.
  assert (payload_target <> descriptor_target) as Hne by (intros ->; by rewrite lookup_insert_eq in Hdn).
  rewrite lookup_insert_ne in Hdn by done. rewrite lookup_insert_eq, lookup_insert_ne, lookup_insert_eq by done.
  split; [by eapply lookup_weaken_None|]. split; [by eapply lookup_weaken_None|done].
Qed.
Lemma lift_ok {S A B : Type} (m : Res A) (k : A -> act S B) s b s' : act_bind (lift m) k s = (Ok b, s') ->
  exists a, m = Ok a /\ k a s = (Ok b, s').
Proof. intros [(a & E & H)|(e & _ & ? & _)]%lift_cases; [by exists a|done]. Qed.
Lemma stage_pair_ok st intent payload descriptor created nonce f pp dp f' :
  stage_pair st intent payload descriptor created nonce f = (Ok (pp, dp), f') ->
  pp = stage_stem intent created nonce ++ u ".bin" /\ dp = stage_stem intent created nonce ++ u ".json" /\
  exists pt dt, strict_stage_target st pp "bin" f = Ok pt /\ strict_stage_target st dp "json" f = Ok dt /\
    f !! pt = None /\ f !! dt = None /\ f' !! pt = Some (NReg payload) /\ f' !! dt = Some (NReg descriptor).
Proof.
  unfold stage_pair. generalize (stage_stem intent created nonce) as stem. intros stem H. cbv zeta in H.
  destruct (_ || _); [done|]. unfold act_bind at 1 in H. unfold gets, id in H.
  apply lift_ok in H as (pt & Hpt & H). apply lift_ok in H as (dt & Hdt & H).
  apply act_bind_ok in H as ([] & f2 & H & Hr).
  assert ((pp, dp) = (stem ++ u ".bin", stem ++ u ".json")) as Epd by (unfold ret in Hr; congruence).
  assert (f' = f2) as -> by (unfold ret in Hr; congruence). clear Hr.
  apply pair_equal_spec in Epd as [-> ->]. do 2 (split; [done|]). exists pt, dt. do 2 (split; [done|]).
  apply catch_cases in H as [([] & H & _)|(e & f3 & _ & H)]; [|by unfold raise in H].
  eapply write_pair_ok; [by eapply stage_target_nonempty..|done].
Qed.

(** ** The paths of an intent *)
Lemma stage_path i x : join (u "/") (STAGE_ROOT ++ [i; x]) = intent_prefix i ++ x.
Proof.
  unfold intent_prefix, STAGE_ROOT. cbn [map app]. generalize (u ".connectmd-artifact-staging") (u "v1") (u "/").
  intros a b s. cbn [join]. by rewrite app_nil_r, <- !app_assoc.
Qed.
Lemma split_plain i : slash ∉ i -> split_on slash i = [i].
Proof. intros H. change i with (join [slash] [i]) at 1. apply split_on_join; [done|]. by constructor. Qed.
Lemma split_stage_path i x : slash ∉ i -> split_on slash (intent_prefix i ++ x) = STAGE_ROOT ++ i :: split_on slash x.
Proof.
  intros Hi. rewrite <- stage_path. unfold STAGE_ROOT.
  assert (slash ∉ u ".connectmd-artifact-staging" /\ slash ∉ u "v1") as [Ha Hb].
  { split; apply (bool_decide_unpack (_ ∉ _)); vm_compute; exact I. }
  cbn [map app]. revert Ha Hb. generalize (u ".connectmd-artifact-staging") (u "v1"). intros a b Ha Hb.
  change (u "/") with [slash]. cbn [join].
  change (split_on slash (a ++ slash :: b ++ slash :: i ++ slash :: x) = a :: b :: i :: split_on slash x).
  by rewrite !split_on_app, (split_plain a), (split_plain b), (split_plain i).
Qed.
Lemma posix_parts_no_slash rel p : p ∈ posix_parts rel -> slash ∉ p.
Proof. unfold posix_parts. intros [_ Hp]%list_elem_of_filter. by eapply split_on_no_sep. Qed.
Lemma as_posix_split rel : posix_parts rel <> [] -> as_posix (posix_parts rel) = rel -> split_on slash rel = posix_parts rel.
Proof.
  intros Hne H. rewrite <- H at 1. unfold as_posix. destruct (posix_parts rel) as [|p ps] eqn:E; [done|].
  rewrite <- E. apply split_on_join; [by rewrite E|]. apply Forall_forall. apply posix_parts_no_slash.
Qed.
Lemma stage_target_intent st rel suffix f target i : strict_stage_target st rel suffix f = Ok target ->
  starts_with (intent_prefix i) rel = true -> slash ∉ i ->
  exists name, posix_parts rel = STAGE_ROOT ++ [i; name] /\ target = root st ++ STAGE_ROOT ++ [i; name].
Proof.
  intros (i' & name & c & s & Hp & -> & Hpp & _)%strict_stage_target_ok [x ->]%starts_with_spec Hi. exists name.
  apply as_posix_split in Hpp; [|by rewrite Hp]. rewrite split_stage_path, Hp in Hpp by done.
  apply app_inv_head in Hpp. injection Hpp as -> _. done.
Qed.
Lemma uuid_text_no_slash n : slash ∉ uuid_text n.
Proof.
  assert (Forall (fun c => c <> slash) (hex (be_bytes 16 n))) as H.
  { apply Forall_forall. intros c Hc. pose proof (hex_lower _ (be_bytes_byte 16 n)) as Hl.
    rewrite forallb_forall in Hl. apply list_elem_of_In, Hl, hex_lower_range in Hc. unfold slash. lia. }
  unfold uuid_text. generalize (hex (be_bytes 16 n)) as h, H. intros h Hh Hin.
  repeat (apply elem_of_app in Hin as [Hin|Hin]); rewrite Forall_forall in Hh;
    try (apply list_elem_of_singleton in Hin; discriminate Hin).
  all: repeat (first [apply elem_of_take in Hin as (? & Hin & _); apply list_elem_of_lookup_2 in Hin
                     |apply list_elem_of_lookup in Hin as [? Hin]; rewrite lookup_drop in Hin;
                      apply list_elem_of_lookup_2 in Hin]).
  all: by apply (Hh _ Hin).
Qed.
Lemma canonical_uuid_no_slash v : canonical_uuid v = true -> slash ∉ v.
Proof. unfold canonical_uuid. intros H. bool_facts. rewrite <- H0. apply uuid_text_no_slash. Qed.

(** ** Descriptors that parse *)
Section artifacts.
Context (ft : str -> str) (st : VersionStore) (pepper : bytes).

Lemma parse_valid raw path d : parse_signed_descriptor ft raw pepper path = Ok d -> valid_descriptor d path = true.
Proof.
  unfold parse_signed_descriptor. destruct (utf8_decode raw) as [text|]; [|done].
  cbn [mbind option_bind]. destruct (loads _ _ _ text) as [v|]; [|done].
  cbn [mbind option_bind]. destruct (signed_fields pepper v) as [fields|]; [|done].
  cbn [mbind option_bind]. destruct (descriptor_of fields) as [d'|]; [|done].
  cbn [mbind option_bind]. destruct (valid_descriptor d' path) eqn:E; [|done]. by intros [= ->].
Qed.
Lemma valid_paths d path : valid_descriptor d path = true ->
  slash ∉ intent_id d /\ staged_descriptor_path d = path /\ starts_with (intent_prefix (intent_id d)) (staged_payload_path d) = true.
Proof.
  unfold valid_descriptor. fold (intent_prefix (intent_id d)). cbn [forallb].
  generalize (removesuffix (u ".json") (staged_descriptor_path d)) as stem. intros stem H. bool_facts.
  split; [by apply canonical_uuid_no_slash|]. split; [done|].
  match goal with H : staged_payload_path d = _ |- _ => rewrite H end.
  match goal with H : starts_with _ stem = true |- _ => apply starts_with_spec in H as [k ->] end.
  apply starts_with_spec. rewrite <- app_assoc. by eexists.
Qed.
Lemma read_staged_ok path f raw : read_staged_descriptor st path f = Ok raw -> stored st path raw f.
Proof.
  unfold read_staged_descriptor. intros (target & _ & H)%res_bind_ok. apply res_bind_ok in H as ([parts t] & Ht & H).
  apply verified_byte_target_ok in Ht as (-> & _). destruct (lstat f target) as [[b| |]|]; try done.
  destruct (_ || _); [done|]. apply map_exn_ok, read_posix_ok in H as (_ & Hd & Hb & _). done.
Qed.
Lemma derived_no_slash flow owner target key i : derive_artifact_intent_uuid pepper flow owner target key = Ok i -> slash ∉ i.
Proof.
  unfold derive_artifact_intent_uuid. destruct (_ || _); [done|]. intros (b & _ & [= <-])%res_bind_ok. apply uuid_text_no_slash.
Qed.
Lemma stem_prefix i now_ns nonce s : starts_with (intent_prefix i) (stage_stem i now_ns nonce ++ s) = true.
Proof. unfold stage_stem. rewrite stage_path, <- app_assoc. apply starts_with_spec. by eexists. Qed.

(** The bytes a descriptor names lie at a path. *)
Definition holds_payload (d : ArtifactDescriptor) (rel : str) (f : fs) : Prop :=
  exists b, stored st rel b f /\ sha256_hex b = payload_sha256 d /\ len b = payload_size_bytes d.
(** What a staged artifact consists of: its payload, staged and promoted, and its
    signed descriptor. *)
Definition staged (d : ArtifactDescriptor) (f : fs) : Prop :=
  holds_payload d (staged_payload_path d) f /\ holds_payload d (canonical_path d) f /\
  exists raw, stored st (staged_descriptor_path d) raw f /\
    (signed_descriptor ft d pepper = Ok raw \/ parse_signed_descriptor ft raw pepper (staged_descriptor_path d) = Ok d).
(** The descriptor of a request. *)
Definition answers (g : Staging) (d : ArtifactDescriptor) : Prop :=
  derive_artifact_intent_uuid pepper (g_flow g) (g_owner g) (g_target g) (g_key g) = Ok (intent_id d) /\
  d_flow d = g_flow g /\ resource_id d = resource_or g (intent_id d) /\ target_id d = g_target g /\
  request_hash d = g_request_hash g /\ canonical_path d = g_canonical_path g.

Lemma removelast_stage i name : removelast (STAGE_ROOT ++ [i; name]) = STAGE_ROOT ++ [i].
Proof. change (STAGE_ROOT ++ [i; name]) with ((STAGE_ROOT ++ [i]) ++ [name]). apply removelast_last. Qed.
Lemma promote_staged d f u0 f' max i :
  promote_staged_artifact st (staged_payload_path d) (canonical_path d) (payload_sha256 d) (payload_size_bytes d) max f = (Ok u0, f') ->
  slash ∉ i -> starts_with (intent_prefix i) (staged_payload_path d) = true ->
  f ⊆ f' /\ holds_payload d (staged_payload_path d) f' /\ holds_payload d (canonical_path d) f' /\ intent_directory st i f'.
Proof.
  intros (Hadd & (target & Ht) & Hp & Hc)%promote_ok Hi Hpre. split; [done|]. split; [done|]. split; [done|].
  destruct (stage_target_intent _ _ _ _ _ _ Ht Hpre Hi) as (name & Hparts & _).
  destruct Hp as (b & (_ & Hd) & _). by rewrite Hparts, removelast_stage in Hd.
Qed.
Lemma resume_staged_ok g i resource path f d f' : resume_staged ft st pepper g i resource path f = (Ok d, f') ->
  f ⊆ f' /\ staged d f' /\ intent_directory st (intent_id d) f' /\ intent_id d = i /\ d_flow d = g_flow g /\
  resource_id d = resource /\ target_id d = g_target g /\ request_hash d = g_request_hash g /\ canonical_path d = g_canonical_path g.
Proof.
  unfold resume_staged, gets, id. unfold act_bind at 1. intros (existing & Hex & H)%lift_ok.
  apply res_bind_ok in Hex as (raw & Hraw & Hparse). apply lift_ok in H as (owned & _ & H).
  match type of H with (if ?b then _ else _) _ = _ => destruct b eqn:Hb; [by unfold raise in H|] end. bool_facts.
  apply act_bind_ok in H as (b & f1 & Hr & H). apply read_exact_ok in Hr as [-> _].
  apply act_bind_ok in H as (u0 & f1 & Hp & H). assert (existing = d /\ f1 = f') as [-> ->] by (unfold ret in H; split; congruence).
  pose proof (parse_valid _ _ _ Hparse) as (Hi & Hpath & Hpre)%valid_paths.
  destruct (promote_staged _ _ _ _ _ _ Hp Hi Hpre) as (Hadd & Hpa & Hca & Hin).
  split; [done|]. split; [|done]. split; [done|]. split; [done|]. exists raw. rewrite Hpath.
  split; [|by right]. eapply stored_mono, read_staged_ok; done.
Qed.
Lemma stage_new_ok g i resource now_ns nonce d f u0 f' : new_descriptor pepper g i resource now_ns nonce = Ok d ->
  slash ∉ i -> stage_new ft st pepper g i nonce d f = (Ok u0, f') ->
  f ⊆ f' /\ staged d f' /\ intent_directory st (intent_id d) f' /\ intent_id d = i /\ d_flow d = g_flow g /\
  resource_id d = resource /\ target_id d = g_target g /\ request_hash d = g_request_hash g /\ canonical_path d = g_canonical_path g.
Proof.
  unfold new_descriptor. pose proof (stem_prefix i now_ns nonce) as Hstem. revert Hstem.
  generalize (stage_stem i now_ns nonce) as stem. intros stem Hstem (owner & _ & Hd)%res_bind_ok Hi H.
  assert (intent_id d = i /\ canonical_path d = g_canonical_path g /\ staged_payload_path d = stem ++ u ".bin" /\
    staged_descriptor_path d = stem ++ u ".json") as (Ei & Ec & Ep & Es).
  { injection Hd as <-. done. }
  assert (d_flow d = g_flow g /\ resource_id d = resource /\ target_id d = g_target g /\ request_hash d = g_request_hash g) as Hf.
  { injection Hd as <-. done. }
  clear Hd. unfold stage_new in H. apply lift_ok in H as (signed & Hsigned & H).
  apply act_bind_ok in H as ([pp dp] & f1 & Hpair & H). pose proof (stage_pair_adds _ _ _ _ _ _ _ _ _ Hpair) as Hadd1.
  apply stage_pair_ok in Hpair as (_ & _ & pt & dt & _ & Hdt & _ & _ & _ & Hraw).
  destruct (_ || _) eqn:Hb; [by unfold raise in H|]. bool_facts. subst pp dp. rewrite <- Ec in H.
  destruct (promote_staged _ _ _ _ _ _ H Hi) as (Hadd2 & Hpa & Hca & Hin); [by rewrite Ep|].
  destruct (stage_target_intent _ _ _ _ _ i Hdt) as (name & Hparts & ->); [by rewrite Es|done|].
  split; [by etrans|]. rewrite Ei. split; [|tauto]. split; [done|]. split; [done|]. exists signed. split; [|by left].
  unfold stored. rewrite Hparts, removelast_stage. split; [by eapply lookup_weaken|done].
Qed.
Lemma ret_result {S A : Type} (a b : A) (s s' : S) : ret a s = (Ok b, s') -> a = b /\ s = s'.
Proof. by intros [= -> ->]. Qed.
Lemma gets_ok {S A : Type} (g : S -> A) s a s' : gets g s = (Ok a, s') -> a = g s /\ s' = s.
Proof. by intros [= <- <-]. Qed.
Lemma resume_intent_ok g i resource f d f' : resume_intent ft st pepper g i resource f = (Ok (Some d), f') ->
  f ⊆ f' /\ staged d f' /\ intent_directory st (intent_id d) f' /\ intent_id d = i /\ d_flow d = g_flow g /\
  resource_id d = resource /\ target_id d = g_target g /\ request_hash d = g_request_hash g /\ canonical_path d = g_canonical_path g.
Proof.
  unfold resume_intent. intros H. apply act_bind_ok in H as (f0 & f1 & Hg & H). apply gets_ok in Hg as [-> ->]. apply lift_ok in H as (scan & _ & H).
  destruct (_ || _); [by unfold raise in H|]. cbv zeta in H.
  destruct (List.filter _ (incomplete_payloads scan)); [|by unfold raise in H].
  destruct (List.filter _ (descriptors scan)) as [|path []]; [by apply ret_result in H as [[=] _]| |by unfold raise in H].
  apply act_bind_ok in H as (d1 & f2 & Hr & H). apply ret_result in H as [[= ->] ->].
  by eapply resume_staged_ok.
Qed.
Lemma stage_artifact_ok g now_ns nonce f d f' : stage_artifact ft st pepper g now_ns nonce f = (Ok d, f') ->
  staged d f' /\ intent_directory st (intent_id d) f' /\ answers g d.
Proof.
  unfold stage_artifact. intros H.
  match type of H with (if ?b then _ else _) _ = _ => destruct b; [by unfold raise in H|] end.
  apply lift_ok in H as (i & Hder & H). pose proof (derived_no_slash _ _ _ _ _ Hder) as Hi.
  cbv zeta in H. match type of H with (if ?b then _ else _) _ = _ => destruct b; [by unfold raise in H|] end.
  apply act_bind_ok in H as (existing & f1 & Hr & H).
  apply catch_cases in Hr as [(x & Hr & [= <-])|(e & f2 & _ & Hr)]; [|by unfold raise in Hr].
  destruct existing as [d'|].
  - apply ret_result in H as [-> ->]. apply resume_intent_ok in Hr as (_ & Hs & Hin & <- & Hf). unfold answers. tauto.
  - apply lift_ok in H as (d' & Hnew & H). apply act_bind_ok in H as (u0 & f2 & Hc & H). apply ret_result in H as [-> ->].
    apply catch_cases in Hc as [(x & Hc & _)|(e & f3 & _ & Hc)]; [|by unfold raise in Hc].
    destruct (stage_new_ok _ _ _ _ _ _ _ _ _ Hnew Hi Hc) as (_ & Hs & Hin & <- & Hf). unfold answers. tauto.
Qed.
End artifacts.

(** ** A concrete store: the first version of a profile, staged *)
Module StagingDemo.
Definition store : VersionStore := MkVersionStore [u "data"].
Definition pepper : bytes := u "pepper".
Definition resource : str := u "0b0e7a64-0000-4000-8000-00000000000f".
Definition request : Staging :=
  MkStaging (u "canonical_document_version") (u "owner") resource (u "key") (sha256_hex (u "request"))
    (u "profiles/" ++ resource ++ u "/versions/000001.md") (u "# Title") 131072 (Some resource).
Definition nonce : str := u "0b0e7a64-0000-4000-8000-000000000000".
Definition with_dirs (ps : list (list str)) : fs := list_to_map (map (fun p => (p, NDir)) ps).
Definition empty_files : fs := with_dirs [[u "data"]].
Definition no_descriptor : ArtifactDescriptor := MkDescriptor 0 [] [] [] [] [] [] [] [] 0 [] [] 0.
(** The descriptor and the tree the staging of [request] in an empty store leaves, evaluated once. *)
Definition descriptor : ArtifactDescriptor := Eval vm_compute in
  match (stage_artifact id store pepper request 5 nonce empty_files).1 with Ok d => d | Raise _ => no_descriptor end.
Definition entries : list (list str * node) := Eval vm_compute in
  map_to_list (stage_artifact id store pepper request 5 nonce empty_files).2.
Definition after : fs := list_to_map entries.
Definition canonical_target : list str := root store ++ posix_parts (g_canonical_path request).
(** That a computation ends well in a given tree, as one test. *)
Definition ends {A : Type} `{!EqDecision A} (m : Res A * fs) (a : A) (f : fs) : bool :=
  match m with (Ok a', f') => bool_decide (a' = a) && bool_decide (f' = f) | (Raise _, _) => false end.
Lemma ends_ok {A : Type} `{!EqDecision A} (m : Res A * fs) (a : A) (f : fs) : ends m a f = true -> m = (Ok a, f).
Proof. destruct m as [[a'|e] f']; cbn; [|done]. intros [->%bool_decide_eq_true ->%bool_decide_eq_true]%andb_true_iff. done. Qed.
Lemma staged_empty : stage_artifact id store pepper request 5 nonce empty_files = (Ok descriptor, after).
Proof. apply ends_ok. vm_compute. reflexivity. Qed.
End StagingDemo.
