(* ===== verification/ArtifactDescriptors.v ===== *)
(** * Staged artifacts: descriptors and their signed text *)
From S2P Require Import Prelude PyTime Json Sha256 JsonText JsonBytes FlatRecords DeletionJournalProgress Storage ProtocolArguments ProtocolArgumentsFacts BackupArchiveFacts ArtifactStaging ArtifactDurability ArtifactFacts.
Local Open Scope Z_scope.
(** ** Descriptors and their signed text *)
Lemma printable_check s : forallb (fun c => (32 <=? c) && (c <=? 126)) s = true -> printable s.
Proof. rewrite forallb_forall. intros H. apply Forall_forall. intros c Hc%list_elem_of_In%H. lia. Qed.
Lemma short_app m n s t : short m s -> short n t -> short (m + n) (s ++ t).
Proof. intros [Hs Ls] [Ht Lt]. split; [by apply printable_app|]. rewrite length_app. lia. Qed.
Lemma short_weaken m n s : (m <= n)%nat -> short m s -> short n s.
Proof. intros H [Hs Ls]. split; [done|lia]. Qed.
Lemma short_u n s : forallb (fun c => (32 <=? c) && (c <=? 126)) (u s) && (length (u s) <=? n)%nat = true -> short n (u s).
Proof. intros [H1 H2]%andb_prop. split; [by apply printable_u|by apply Nat.leb_le]. Qed.
Ltac short_literal := apply short_u; vm_compute; reflexivity.
Lemma hex_printable s : forallb is_hex_lower s = true -> printable s.
Proof.
  rewrite forallb_forall. intros H. apply Forall_forall. intros c Hc%list_elem_of_In%H%hex_lower_range. lia.
Qed.
Lemma hexes_short n s : hexes n s = true -> short n s.
Proof. unfold hexes. intros [Hl Hh]%andb_prop. apply Nat.eqb_eq in Hl. split; [by apply hex_printable|lia]. Qed.
Lemma short_take n m s : short m s -> short n (take n s).
Proof. intros [Hs _]. split; [by apply Forall_take|]. rewrite length_take. lia. Qed.
Lemma short_drop n m s : short m s -> short (m - n) (drop n s).
Proof. intros [Hs Hl]. split; [by apply Forall_drop|]. rewrite length_drop. lia. Qed.
Lemma uuid_text_short n : short 36 (uuid_text n).
Proof.
  assert (short 32 (hex (be_bytes 16 n))) as H.
  { split; [apply hex_printable, hex_lower, be_bytes_byte|]. rewrite length_hex. unfold be_bytes.
    by rewrite length_map, length_rev, length_seq. }
  unfold uuid_text. generalize (hex (be_bytes 16 n)) as h, H. intros h Hh.
  assert (short 1 [45]) as Hd by (split; [by repeat constructor|done]).
  apply (short_app 8 28); [by eapply short_take|]. apply (short_app 1 27); [done|].
  apply (short_app 4 23); [by eapply short_take, short_drop|]. apply (short_app 1 22); [done|].
  apply (short_app 4 18); [by eapply short_take, short_drop|]. apply (short_app 1 17); [done|].
  apply (short_app 4 13); [by eapply short_take, short_drop|]. apply (short_app 1 12); [done|].
  by apply (short_drop 20 32).
Qed.
Lemma canonical_uuid_short v : canonical_uuid v = true -> short 36 v.
Proof. unfold canonical_uuid. intros H. bool_facts. match goal with H : uuid_text _ = v |- _ => rewrite <- H end. apply uuid_text_short. Qed.
Lemma version_name_short name : version_name name = true -> short 9 name.
Proof.
  unfold version_name. intros H. bool_facts. rewrite <- (take_drop 6 name).
  match goal with H : drop 6 name = _ |- _ => rewrite H end. apply (short_app 6 3); [|short_literal].
  match goal with H : forallb is_digit _ = true |- _ => rewrite forallb_forall in H; rename H into Hd end.
  split; [|rewrite length_take; lia]. apply Forall_forall. intros c Hc%list_elem_of_In%Hd.
  unfold is_digit in Hc. lia.
Qed.
Lemma one_of_short n s words : Forall (fun w => short n (u w)) words -> one_of s words = true -> short n s.
Proof. rewrite one_of_true. intros Hf (w & Hw & ->)%Exists_exists. rewrite Forall_forall in Hf. auto. Qed.
Lemma canonical_short d : canonical_uuid (resource_id d) = true -> canonical_uuid (target_id d) = true ->
  hexes 64 (payload_sha256 d) = true -> expected_canonical d = Some (canonical_path d) -> short 400 (canonical_path d).
Proof.
  intros Hr%canonical_uuid_short Ht%canonical_uuid_short Hh%hexes_short H. unfold expected_canonical in H.
  destruct (eqs (d_flow d) "application_snapshot"); [apply (inj Some) in H; rewrite <- H|destruct (eqs (d_flow d) "organization_verification_evidence"); [apply (inj Some) in H; rewrite <- H|]].
  - apply (short_app 13 387); [short_literal|]. apply (short_app 36 351); [done|]. short_literal.
  - apply (short_app 22 378); [short_literal|]. apply (short_app 36 342); [done|]. apply (short_app 1 341); [short_literal|].
    apply (short_app 36 305); [done|]. apply (short_app 1 304); [short_literal|]. apply (short_app 64 240); [done|]. short_literal.
  - assert (exists a b c e, split_on slash (canonical_path d) = [a; b; c; e] /\ short 8 a /\ b = resource_id d /\
      short 8 c /\ short 9 e) as (a & b & c & e & Es & Ha & -> & Hc & He).
    { destruct (eqs _ _); destruct (split_on slash (canonical_path d)) as [|a [|b [|c [|e []]]]]; try done; exists a, b, c, e;
        (match type of H with (if ?x then _ else _) = _ => destruct x eqn:E; [|done] end); bool_facts; subst;
        (split; [done|]; split; [|split; [done|split; [short_literal|]]]); try short_literal.
      - eapply one_of_short; [|done]. repeat (constructor; [short_literal|]). constructor.
      - by apply version_name_short. }
    rewrite <- (join_split slash (canonical_path d)), Es.
    change (join [slash] [a; resource_id d; c; e]) with (a ++ u "/" ++ resource_id d ++ u "/" ++ c ++ u "/" ++ e).
    apply (short_weaken 64); [lia|]. apply (short_app 8 56); [done|]. apply (short_app 1 55); [short_literal|].
    apply (short_app 36 19); [done|]. apply (short_app 1 18); [short_literal|]. apply (short_app 8 10); [done|].
    by apply (short_app 1 9); [short_literal|].
Qed.
Lemma removesuffix_short n suffix s : short n s -> short n (removesuffix suffix s).
Proof.
  intros [Hs Hl]. unfold removesuffix. destruct (ends_with _ _); [|done].
  split; [by apply Forall_take|]. rewrite length_take. lia.
Qed.
(** The members of a valid descriptor are short printable strings and small numbers. *)
Lemma asdict_flat d path : valid_descriptor d path = true -> short 396 path -> created_ns d < 10 ^ 20 -> flat (asdict d).
Proof.
  intros H Hp Hc. unfold valid_descriptor in H. cbn [forallb] in H.
  bool_facts. subst path. pose proof (removesuffix_short _ (u ".json") _ Hp) as Hstem.
  assert (short 400 (staged_payload_path d)) as Hpay.
  { match goal with H : staged_payload_path d = _ |- _ => rewrite H end. apply (short_app 396 4); [done|short_literal]. }
  assert (artifact_max_size (d_flow d) <= 262144) as Hmax.
  { unfold artifact_max_size. destruct (one_of _ _); [lia|]. destruct (eqs _ _); lia. }
  assert (short 400 (canonical_path d)) as Hcan by by apply canonical_short.
  assert (short 400 (d_flow d)) as Hflow.
  { unfold one_flow in *. eapply one_of_short; [|done]. repeat (constructor; [short_literal|]). constructor. }
  assert (forall v, canonical_uuid v = true -> short 400 v) as Huuid.
  { intros v Hv. eapply short_weaken; [|by apply canonical_uuid_short]. lia. }
  assert (forall v, hexes 64 v = true -> short 400 v) as Hhex.
  { intros v Hv. eapply short_weaken; [|by apply hexes_short]. lia. }
  assert (short 400 (staged_descriptor_path d)) as Hdesc by (eapply short_weaken; [|done]; lia).
  unfold flat, asdict. repeat (apply Forall_cons_2; [split; [short_literal|cbn [snd flat_value]]|]); auto; try apply Forall_nil_2.
  - unfold ARTIFACT_DESCRIPTOR_VERSION in *. lia.
  - lia.
  - lia.
Qed.
Lemma asdict_keys d : NoDup (asdict d).*1.
Proof. apply (bool_decide_unpack _). vm_compute. exact I. Qed.
Lemma asdict_back d : descriptor_version d = 1 -> descriptor_of (sort_keys (asdict d)) = Some d.
Proof.
  intros Hv. unfold descriptor_of, str_member, int_member. rewrite !dict_get_sorted by apply asdict_keys.
  destruct d. cbn in Hv. subst. reflexivity.
Qed.
Lemma frame_printable s : printable s -> len s < 4294967296 -> frame s = Ok (be_bytes 4 (len s) ++ s).
Proof. intros Hs Hl. unfold frame. rewrite encode_printable by done. cbn [res_bind]. by rewrite (proj2 (Z.leb_gt _ _)). Qed.
Lemma signature_printable pepper text : printable text -> len text < 4294967296 ->
  exists s, descriptor_signature pepper text = Ok s /\ printable s.
Proof.
  intros Ht Hl. unfold descriptor_signature, frames.
  rewrite (frame_printable (u _)); [|by apply printable_u; vm_compute|vm_compute; reflexivity].
  rewrite frame_printable by done. cbn [res_bind]. eexists. split; [reflexivity|].
  apply hex_printable, hex_lower, sha256_byte.
Qed.
Lemma utf8_decode_printable s : printable s -> utf8_decode s = Some s.
Proof.
  intros H. apply (utf8_roundtrip s); [by apply printable_text|].
  pose proof (encode_printable s H) as E. unfold encode in E. destruct (utf8_encode s); congruence.
Qed.
(** The envelope of a descriptor. *)
Definition envelope (fields : list (str * pyval)) (signature : str) : list (str * pyval) :=
  [(u "descriptor", PDict fields); (u "signature", PStr signature)].
Lemma sort_two {A : Type} (v w : A) : sort_keys [(u "descriptor", v); (u "signature", w)] = [(u "descriptor", v); (u "signature", w)].
Proof. reflexivity. Qed.
Lemma dumps_envelope e fields s : dumps e (PDict (envelope fields s)) =
  u "{" ++ (quote e (u "descriptor") ++ u ":" ++ dumps e (PDict fields)) ++ u "," ++
  (quote e (u "signature") ++ u ":" ++ quote e s) ++ u "}".
Proof.
  unfold envelope. change (dumps e (PDict [(u "descriptor", PDict fields); (u "signature", PStr s)])) with
    (u "{" ++ join (u ",") (map (fun kv => quote e kv.1 ++ u ":" ++ kv.2)
      (sort_keys [(u "descriptor", dumps e (PDict fields)); (u "signature", quote e s)])) ++ u "}").
  rewrite sort_two. cbn [map join fst snd]. by rewrite <- !app_assoc.
Qed.
Lemma envelope_text fields s : flat fields -> printable s ->
  dumps true (PDict (envelope fields s)) = dumps false (PDict (envelope fields s)) /\ printable (dumps false (PDict (envelope fields s))).
Proof.
  intros Hf Hs. rewrite !dumps_envelope. destruct (dumps_flat fields Hf) as (-> & Hp & _).
  destruct (quote_printable true s Hs) as (-> & Hq & _). split; [done|].
  assert (forall t, forallb (fun c => (32 <=? c) && (c <=? 126)) (u t) = true -> printable (u t)) as Hu by apply printable_u.
  rewrite !printable_app. split_and!; try done; try by apply Hu.
  all: by apply (quote_printable false), Hu.
Qed.
Lemma envelope_plain fields s : flat fields -> NoDup fields.*1 -> printable s -> plain (PDict (envelope fields s)).
Proof.
  intros Hf Hnd Hs. apply plain_dict. split; [apply (bool_decide_unpack _); vm_compute; exact I|].
  assert (forall t, forallb (fun c => (32 <=? c) && (c <=? 126)) (u t) = true -> text (u t)) as Hu by (intros; by apply printable_text, printable_u).
  apply Forall_cons_2; [split; [by apply Hu|by apply flat_plain]|].
  apply Forall_cons_2; [split; [by apply Hu|by apply printable_text]|apply Forall_nil_2].
Qed.
Lemma envelope_canon fields s : flat fields -> NoDup fields.*1 ->
  canon (PDict (envelope (sort_keys fields) s)) = PDict (envelope (sort_keys fields) s).
Proof.
  intros Hf Hnd. unfold envelope. rewrite canon_dict, sort_two. cbn [map fst snd].
  assert (canon (PDict (sort_keys fields)) = PDict (sort_keys fields)) as ->; [|done].
  rewrite canon_dict. rewrite (sort_keys_perm_eq (sort_keys fields) fields) by (apply sort_keys_perm || by apply keys_of_sorted).
  f_equal. change (canon_members (sort_keys fields) = sort_keys fields). apply flat_canon.
  eapply flat_perm; [|done]. symmetry. apply sort_keys_perm.
Qed.

Lemma signed_fields_envelope pepper fields s : printable s -> keys_are descriptor_fields fields = true ->
  descriptor_signature pepper (dumps true (PDict fields)) = Ok s ->
  signed_fields pepper (PDict (envelope fields s)) = Some fields.
Proof.
  intros Hs Hk Hsig. unfold signed_fields.
  change (dict_get (u "descriptor") (envelope fields s)) with (Some (PDict fields)).
  change (dict_get (u "signature") (envelope fields s)) with (Some (PStr s)).
  change (keys_are ["descriptor"; "signature"]%string (envelope fields s)) with true.
  cbv beta iota. rewrite Hk, Hsig. cbn [andb]. by rewrite same_digest_refl.
Qed.

Lemma valid_version d path : valid_descriptor d path = true -> descriptor_version d = 1.
Proof. unfold valid_descriptor. intros H. by bool_facts. Qed.

Section roundtrip.
Context (ft : str -> str) (pepper : bytes).

Lemma loads_printable v : plain v -> loads ft json_constant last_wins (dumps false v) = Some (canon v).
Proof. apply loads_dumps, last_wins_distinct. Qed.
Lemma loads_fields fields : flat fields -> NoDup fields.*1 ->
  loads ft json_constant last_wins (dumps false (PDict fields)) = Some (PDict (sort_keys fields)).
Proof.
  intros Hf Hnd. rewrite loads_printable by by apply flat_plain. do 2 f_equal.
  change (PDict (sort_keys (canon_members fields)) = PDict (sort_keys fields)). by rewrite flat_canon.
Qed.
Lemma loads_envelope fields s : flat fields -> NoDup fields.*1 -> printable s ->
  loads ft json_constant last_wins (dumps false (PDict (envelope (sort_keys fields) s))) = Some (PDict (envelope (sort_keys fields) s)).
Proof.
  intros Hf Hnd Hs. rewrite loads_printable; [by rewrite envelope_canon|].
  apply envelope_plain; [|by apply keys_of_sorted|done]. eapply flat_perm; [symmetry; apply sort_keys_perm|done].
Qed.
(** A flat record signed and read back. *)
Lemma flat_signature fields : flat fields -> NoDup fields.*1 -> (length fields <= 1000)%nat ->
  exists s, descriptor_signature pepper (dumps true (PDict fields)) = Ok s /\ printable s /\
    descriptor_signature pepper (dumps true (PDict (sort_keys fields))) = Ok s.
Proof.
  intros Hf Hnd Hl. destruct (dumps_flat _ Hf) as (Ht & Hp & Hlen). pose proof (weight_bound _ Hf) as Hw.
  destruct (signature_printable pepper (dumps false (PDict fields)) Hp) as (s & Hs & Hps); [unfold len; lia|].
  exists s. rewrite (dumps_flat_perm (sort_keys fields) fields); [by rewrite Ht|apply sort_keys_perm| |by apply keys_of_sorted].
  eapply flat_perm; [symmetry; apply sort_keys_perm|done].
Qed.
Lemma signed_descriptor_text d s : flat (asdict d) -> descriptor_signature pepper (dumps true (PDict (asdict d))) = Ok s -> printable s ->
  signed_descriptor ft d pepper = Ok (dumps false (PDict (envelope (sort_keys (asdict d)) s))).
Proof.
  intros Hf. pose proof (asdict_keys d) as Hnd. unfold signed_descriptor, descriptor_payload.
  revert Hf Hnd. generalize (asdict d) as fields. intros fields Hf Hnd Hsig Hs.
  destruct (dumps_flat _ Hf) as (Ht & Hp & _). rewrite Ht in *.
  assert (flat (sort_keys fields)) as Hfs by (eapply flat_perm; [symmetry; apply sort_keys_perm|done]).
  rewrite encode_printable by done. cbn [res_bind]. rewrite utf8_decode_printable, loads_fields by done.
  rewrite Hsig. cbn [res_bind]. fold (envelope (sort_keys fields) s).
  destruct (envelope_text _ s Hfs Hs) as [-> Hep]. by apply encode_printable.
Qed.
Lemma parse_steps raw text env fields d path : utf8_decode raw = Some text ->
  loads ft json_constant last_wins text = Some env -> signed_fields pepper env = Some fields ->
  descriptor_of fields = Some d -> valid_descriptor d path = true -> parse_signed_descriptor ft raw pepper path = Ok d.
Proof.
  intros H1 H2 H3 H4 H5. unfold parse_signed_descriptor. rewrite H1. cbn [mbind option_bind]. rewrite H2.
  cbn [mbind option_bind]. rewrite H3. cbn [mbind option_bind]. rewrite H4. cbn [mbind option_bind]. by rewrite H5.
Qed.
Lemma parse_fields fields s path d : flat fields -> NoDup fields.*1 -> printable s -> keys_are descriptor_fields fields = true ->
  descriptor_signature pepper (dumps true (PDict (sort_keys fields))) = Ok s ->
  descriptor_of (sort_keys fields) = Some d -> valid_descriptor d path = true ->
  parse_signed_descriptor ft (dumps false (PDict (envelope (sort_keys fields) s))) pepper path = Ok d.
Proof.
  intros Hf Hnd Hs Hk Hsig Hd Hv.
  assert (flat (sort_keys fields)) as Hfs by (eapply flat_perm; [symmetry; apply sort_keys_perm|done]).
  destruct (envelope_text _ s Hfs Hs) as [_ Hep].
  refine (parse_steps _ _ _ _ _ _ (utf8_decode_printable _ Hep) (loads_envelope _ _ Hf Hnd Hs) _ Hd Hv).
  apply signed_fields_envelope; [done|by rewrite keys_are_sorted|done].
Qed.
(** C15: A valid descriptor is read back from its signed text: signing it under a key
    succeeds, and parsing the bytes under the same key and path gives it again (the
    path is printable and of at most 396 characters, the time below 10^20 nanoseconds). *)
Theorem descriptor_roundtrip d path : valid_descriptor d path = true -> printable path -> (length path <= 396)%nat ->
  created_ns d < 10 ^ 20 ->
  exists raw, signed_descriptor ft d pepper = Ok raw /\ parse_signed_descriptor ft raw pepper path = Ok d.
Proof.
  intros Hv Hp Hl Hc. pose proof (asdict_flat d path Hv (conj Hp Hl) Hc) as Hf. pose proof (asdict_keys d) as Hnd.
  destruct (flat_signature (asdict d) Hf Hnd) as (s & Hsig & Hs & Hsig'); [change (length (asdict d)) with 13%nat; lia|].
  eexists. split; [by apply signed_descriptor_text|]. apply parse_fields; try done. by apply asdict_back, (valid_version d path).
Qed.
End roundtrip.

Lemma descriptor_roundtrip_witness :
  exists raw, parse_signed_descriptor id raw StagingDemo.pepper
    (staged_descriptor_path StagingDemo.descriptor) = Ok StagingDemo.descriptor.
Proof.
  destruct (descriptor_roundtrip id StagingDemo.pepper StagingDemo.descriptor
    (staged_descriptor_path StagingDemo.descriptor)) as (raw & _ & H).
  - vm_compute. reflexivity.
  - apply printable_check. vm_compute. reflexivity.
  - apply Nat.leb_le. vm_compute. reflexivity.
  - vm_compute. reflexivity.
  - exists raw. exact H.
Defined.
