(* ===== verification/ArtifactSafety.v ===== *)
(** * Staged artifacts: safety of staging and reconciliation *)
From S2P Require Import Prelude PyTime Json Sha256 JsonText JsonBytes Storage ProtocolArguments ArtifactStaging ArtifactDurability ArtifactFacts.
Local Open Scope Z_scope.

(** ** The scan of a tree with many intents *)
Lemma elem_of_entries (f : fs) dir name n : f !! (dir ++ [name]) = Some n -> name ∈ entries f dir.
Proof.
  intros H. unfold entries. apply list_elem_of_omap. exists (dir ++ [name], n).
  split; [by apply elem_of_map_to_list|]. cbn [fst]. destruct (dir ++ [name]) as [|x l] eqn:E; [by destruct dir|].
  rewrite <- E, removelast_last, bool_decide_true, last_snoc by done. done.
Qed.
Lemma entries_length (f : fs) dir names : NoDup names -> (forall n, n ∈ names -> is_dir f (dir ++ [n]) = true) ->
  (length names <= length (entries f dir))%nat.
Proof.
  intros Hnd H. apply submseteq_length, NoDup_submseteq; [done|]. intros n Hn%H.
  unfold is_dir in Hn. rewrite lstat_nonempty in Hn by by destruct dir.
  destruct (f !! (dir ++ [n])) as [[]|] eqn:E; try done. by eapply elem_of_entries.
Qed.
Lemma scan_entries_count st limit f intent names s seen s1 seen1 :
  scan_entries st limit f intent names s seen = (s1, Some seen1) -> sc_count s <= limit ->
  sc_count s <= sc_count s1 <= limit.
Proof.
  revert s seen. induction names as [|name names IH]; intros s seen; cbn [scan_entries]; [intros [= <- <-]; lia|]. cbv zeta.
  cbn [sc_count]. destruct (limit <? _) eqn:E; [done|]. bool_facts. intros H Hs.
  assert (forall s' seen', scan_entries st limit f intent names s' seen' = (s1, Some seen1) ->
    sc_count s' = sc_count s + 1 -> sc_count s <= sc_count s1 <= limit) as Hn.
  { intros s' seen' H' Hc. apply IH in H'; lia. }
  destruct (stage_file name) as [[[created stem] suffix]|]; [destruct (f !! _) as [[]|]|]; by apply Hn in H.
Qed.
Lemma judge_count intent seen s stems : sc_count (fold_left (judge_stem intent seen) stems s) = sc_count s.
Proof.
  revert s. induction stems as [|stem stems IH]; intros s; [done|]. cbn [fold_left]. rewrite IH.
  unfold judge_stem. cbv zeta. destruct (_ && _); [done|]. by destruct (negb _).
Qed.
(** More intents than the limit are over the bound, whatever they hold. *)
Lemma scan_intents_over st limit f intents s : limit < sc_count s + len intents ->
  sc_count s <= limit -> (scan_intents st limit f intents s).2 = true.
Proof.
  revert s. induction intents as [|intent intents IH]; intros s Hl Hs; cbn [scan_intents]; [unfold len in Hl; cbn in Hl; lia|].
  cbv zeta. cbn [sc_count]. assert (len (intent :: intents) = 1 + len intents) as El by (unfold len; cbn; lia). destruct (limit <? sc_count s + 1) eqn:E; [done|]. bool_facts.
  destruct (_ || _); [apply IH; cbn; lia|].
  match goal with |- context [scan_entries ?a ?b ?c ?d ?e ?s0 ?g] =>
    destruct (scan_entries a b c d e s0 g) as [s1 [seen|]] eqn:Es end; [|done].
  apply scan_entries_count in Es; cbn [sc_count] in *; [|lia]. apply IH; rewrite judge_count; lia.
Qed.

(** ** Real directories *)
Lemma prefixes_app base a b : prefixes base (a ++ b) = prefixes base a ++ prefixes (base ++ a) b.
Proof.
  revert base. induction a as [|c a IH]; intros base; cbn [prefixes app]; [by rewrite app_nil_r|].
  rewrite IH, <- app_assoc. done.
Qed.
Lemma resolve_plain f fuel base rest : (forall p t, p ∈ prefixes base rest -> f !! p <> Some (NLnk t)) ->
  u ".." ∉ rest -> (length rest <= fuel)%nat -> resolve_from fuel f base rest = Some (base ++ rest).
Proof.
  revert base fuel. induction rest as [|c rest IH]; intros base fuel Hd Hdots Hl.
  { rewrite app_nil_r. by destruct fuel. }
  destruct fuel as [|fuel]; [cbn in Hl; lia|]. cbn [resolve_from]. apply not_elem_of_cons in Hdots as [Hc Hdots].
  destruct (eqs c "..") eqn:E; [bool_facts; congruence|]. assert (forall t, f !! (base ++ [c]) <> Some (NLnk t)) as Hn
    by (intros t; apply Hd; by left).
  assert (resolve_from fuel f (base ++ [c]) rest = Some (base ++ c :: rest)) as Hr.
  { rewrite IH, <- app_assoc; [done|intros p t Hp; apply Hd; by right|done|cbn in Hl; lia]. }
  destruct (f !! (base ++ [c])) as [[| |t]|]; try done. by destruct (Hn t).
Qed.
Lemma resolve_real f fuel base rest : (forall p, p ∈ prefixes base rest -> f !! p = Some NDir) ->
  u ".." ∉ rest -> (length rest <= fuel)%nat -> resolve_from fuel f base rest = Some (base ++ rest).
Proof. intros H. apply resolve_plain. intros p t Hp. by rewrite (H _ Hp). Qed.
(** The root of the store is reached through real directories. *)
Definition real_root (st : VersionStore) (f : fs) : Prop :=
  (forall p, p ∈ prefixes [] (root st) -> f !! p = Some NDir) /\ u ".." ∉ root st /\ (length (root st) <= 4000)%nat.
Lemma real_root_keeps st f f' : dirs_kept f f' -> real_root st f -> real_root st f'.
Proof. intros H (Hd & Hdots & Hl). split; [|done]. auto. Qed.
Lemma is_dir_some f p : p <> [] -> is_dir f p = true -> f !! p = Some NDir.
Proof. unfold is_dir. intros Hne. rewrite lstat_nonempty by done. by destruct (f !! p) as [[]|]. Qed.
Lemma prefixes_nonempty base rest p : p ∈ prefixes base rest -> p <> [].
Proof.
  revert base. induction rest as [|c rest IH]; intros base; cbn [prefixes]; [by intros ?%elem_of_nil|].
  intros [->|H]%elem_of_cons; [by destruct base|by eapply IH].
Qed.
Lemma prefix_shape base rest p : p ∈ prefixes base rest -> exists k, p = base ++ take k rest.
Proof.
  revert base. induction rest as [|c rest IH]; intros base; cbn [prefixes]; [by intros ?%elem_of_nil|].
  intros [->|[k ->]%IH]%elem_of_cons; [by exists 1%nat|]. exists (S k). by rewrite <- app_assoc.
Qed.
Lemma real_exists st f rest p : real_root st f -> (forall q, q ∈ prefixes (root st) rest -> is_dir f q = true) ->
  u ".." ∉ rest -> (length rest <= 90)%nat -> p ∈ prefixes (root st) rest -> exists_ f p = true.
Proof.
  intros (Hroot & Hdots & Hlen) Hd Hdr Hlr Hp.
  assert (forall q, q ∈ prefixes [] (root st ++ rest) -> f !! q = Some NDir) as Hall.
  { intros q. rewrite prefixes_app, elem_of_app. intros [Hq|Hq]; [auto|].
    apply is_dir_some; [by eapply prefixes_nonempty|by apply Hd]. }
  destruct (prefix_shape _ _ _ Hp) as [k ->]. rewrite <- (take_drop k rest), app_assoc, prefixes_app in Hall.
  unfold exists_, resolve. rewrite (resolve_real f resolve_fuel []).
  - rewrite app_nil_l, lstat_nonempty by by eapply prefixes_nonempty.
    rewrite (is_dir_some f); [done|by eapply prefixes_nonempty|by apply Hd].
  - intros q Hq. apply Hall, elem_of_app. by left.
  - rewrite elem_of_app. intros [?|(j & Hj & _)%elem_of_take]; [done|]. by apply list_elem_of_lookup_2 in Hj.
  - rewrite length_app, length_take. change resolve_fuel with (Z.to_nat 4096). lia.
Qed.

(** A file stored below a real root is found there. *)
Lemma stored_exists st f rel b : real_root st f -> stored st rel b f -> posix_parts rel <> [] -> u ".." ∉ posix_parts rel ->
  (length (root st) + length (posix_parts rel) <= resolve_fuel)%nat -> exists_ f (root st ++ posix_parts rel) = true.
Proof.
  intros (Hroot & Hdots & _) [Hb Hd] Hne Hdr Hl. unfold exists_, resolve.
  destruct (exists_last Hne) as (init & name & E). rewrite E, ?removelast_last in *.
  rewrite (resolve_plain f resolve_fuel []).
  - rewrite app_nil_l, lstat_nonempty by by destruct (root st), init. by rewrite Hb.
  - intros p t. rewrite prefixes_app, prefixes_app, !elem_of_app. cbn [prefixes app].
    intros [Hp|[Hp|Hp]]; [by rewrite (Hroot _ Hp)| |].
    + rewrite (is_dir_some f p); [done|by eapply prefixes_nonempty|by apply Hd].
    + apply list_elem_of_singleton in Hp as ->. rewrite <- app_assoc, Hb. done.
  - rewrite elem_of_app. by intros [?|?].
  - rewrite length_app. lia.
Qed.

(** ** A saturated staging area *)
Section saturation.
Context (ft : str -> str) (st : VersionStore) (pepper : bytes).

Lemma stage_prefix_dirs i f p : intent_directory st i f -> p ∈ prefixes (root st) STAGE_ROOT -> is_dir f p = true.
Proof. intros H Hp. apply H. rewrite prefixes_app, elem_of_app. by left. Qed.
Lemma intent_dir_last i f : intent_directory st i f -> is_dir f ((root st ++ STAGE_ROOT) ++ [i]) = true.
Proof. intros H. apply H. rewrite prefixes_app, elem_of_app. right. by left. Qed.
Lemma scan_saturated f intents : real_root st f -> NoDup intents -> ARTIFACT_SCAN_LIMIT < len intents ->
  (forall i, i ∈ intents -> intent_directory st i f) ->
  exists scan, scan_staged_artifacts st ARTIFACT_SCAN_LIMIT f = Ok scan /\ overbound scan = true.
Proof.
  intros Hroot Hnd Hl Hd. destruct intents as [|i intents]; [done|].
  assert (forall p, p ∈ prefixes (root st) STAGE_ROOT -> is_dir f p = true) as Hdirs.
  { intros p Hp. eapply stage_prefix_dirs; [apply Hd; by left|done]. }
  assert (forall p, p ∈ prefixes (root st) STAGE_ROOT -> exists_ f p = true) as Hex.
  { intros p Hp. eapply real_exists; [done|exact Hdirs| |cbn; lia|done].
    apply (bool_decide_unpack (_ ∉ _)). vm_compute. exact I. }
  unfold scan_staged_artifacts. change ((ARTIFACT_SCAN_LIMIT <? 1) || (ARTIFACT_STAGE_SCAN_MAX <? ARTIFACT_SCAN_LIMIT)) with false.
  cbv iota beta. revert Hdirs Hex. generalize (prefixes (root st) STAGE_ROOT) as l.
  induction l as [|p l IH]; intros Hdirs Hex.
  - pose proof (scan_intents_over st ARTIFACT_SCAN_LIMIT f (entries f (root st ++ STAGE_ROOT)) (MkScanState [] [] false 0)) as Ho.
    destruct (scan_intents _ _ _ _ _) as [s over]. cbn [snd sc_count] in Ho. rewrite Ho.
    + eexists. split; [done|]. done.
    + pose proof (entries_length f (root st ++ STAGE_ROOT) (i :: intents) Hnd) as He.
      unfold len in *. enough (length (i :: intents) <= length (entries f (root st ++ STAGE_ROOT)))%nat by lia.
      apply He. intros n Hn. by apply intent_dir_last, Hd.
    + done.
  - rewrite (Hex p), (Hdirs p) by by left. apply IH; intros q Hq; [apply Hdirs|apply Hex]; by right.
Qed.
Lemma intent_directory_keeps i f f' : dirs_kept f f' -> intent_directory st i f -> intent_directory st i f'.
Proof. intros Hk H p Hp. eapply is_dir_keeps; [done|by apply H]. Qed.
Lemma history_dirs f0 intents f : real_root st f0 -> history ft st pepper f0 intents f ->
  real_root st f /\ forall i, i ∈ intents -> intent_directory st i f.
Proof.
  intros Hroot H. induction H as [l Hl|l f g now_ns nonce d f' _ IH Hs|l f f' _ IH Hs].
  - done.
  - destruct IH as [Hr Hd].
    assert (dirs_kept f f') as Hk by exact (subseteq_dirs _ _ (stage_artifact_adds _ _ _ _ _ _ _ _ _ Hs)).
    apply stage_artifact_ok in Hs as (_ & Hin & _). split; [by eapply real_root_keeps|].
    intros i [->|Hi]%elem_of_cons; [done|]. exact (intent_directory_keeps _ _ _ Hk (Hd i Hi)).
  - destruct IH as [Hr Hd]. apply store_step_keeps in Hs. split; [by eapply real_root_keeps|].
    intros i Hi. exact (intent_directory_keeps _ _ _ Hs (Hd i Hi)).
Qed.
Lemma stage_refused g now_ns nonce f scan : scan_staged_artifacts st ARTIFACT_SCAN_LIMIT f = Ok scan -> overbound scan = true ->
  exists e, stage_artifact ft st pepper g now_ns nonce f = (Raise e, f).
Proof.
  intros Hs Ho. unfold stage_artifact. destruct (_ || _); [by eexists|].
  destruct (derive_artifact_intent_uuid _ _ _ _ _) as [i|e]; [|by eexists]. unfold lift at 1. unfold act_bind at 1. cbv zeta.
  destruct (negb _); [by eexists|]. exists staging_error. apply act_bind_fail.
  assert (resume_intent ft st pepper g i (resource_or g i) f
    = (Raise (StorageIntegrityError (u "artifact staging inventory is unavailable")), f)) as Hr.
  { unfold resume_intent. unfold act_bind at 1. unfold gets, id. rewrite Hs. unfold lift, act_bind at 1. by rewrite Ho, orb_true_r. }
  rewrite (catch_fail _ _ _ _ _ Hr). done.
Qed.
(** C11: The directory of an intent is never removed, and the scan counts it for ever:
    once a hundred and one intents have been staged, whatever the store did in
    between (every one of them may be settled long since), every staging is refused
    and every run of the reconciler reports the store unavailable, changing nothing. *)
Theorem staging_saturates f0 intents f : real_root st f0 -> history ft st pepper f0 intents f ->
  ARTIFACT_SCAN_LIMIT < len (remove_dups intents) ->
  (forall g now_ns nonce, exists e, stage_artifact ft st pepper g now_ns nonce f = (Raise e, f)) /\
  (forall clock classify classify_incomplete s n,
     run_once ft st pepper true clock classify classify_incomplete (MkRecon f s n) = (Ok tt, MkRecon f Unavailable n)).
Proof.
  intros Hroot Hh Hl. destruct (history_dirs _ _ _ Hroot Hh) as [Hr Hd].
  destruct (scan_saturated f (remove_dups intents)) as (scan & Hs & Ho); [done|apply NoDup_remove_dups|done| |].
  { intros i Hi. by apply Hd, elem_of_remove_dups. }
  split; [intros g now_ns nonce; by eapply stage_refused|]. intros clock classify classify_incomplete s n.
  unfold run_once, run_body. cbn [negb]. unfold gets, act_bind, lift. cbn [tree]. by rewrite Hs, Ho, orb_true_r.
Qed.
End saturation.


(** ** What a staging promises *)
(** C14: A staging never removes or replaces a file, however it ends; one that returns
    leaves the payload its descriptor names, under its digest and size, both staged
    and at the canonical path, next to the signed descriptor, and the descriptor is
    the one of the request. *)
Theorem stage_artifact_durable ft st pepper g now_ns nonce f r f' :
  stage_artifact ft st pepper g now_ns nonce f = (r, f') ->
  f ⊆ f' /\ match r with Ok d => staged ft st pepper d f' /\ answers pepper g d | Raise _ => True end.
Proof.
  intros H. split; [exact (stage_artifact_adds _ _ _ _ _ _ _ _ _ H)|]. destruct r as [d|e]; [|done].
  apply stage_artifact_ok in H as (Hs & _ & Ha). done.
Qed.

Module SafetyDemo.
Import StagingDemo.
(** A hundred and one intents staged long ago; the payload of the first is retired once more. *)
Definition settled : list str :=
  map (fun k => u "00000000-0000-4000-8000-" ++ zfill 12 (dec (Z.of_nat k))) (seq 0 101).
Definition used_files : fs :=
  with_dirs ([u "data"] :: prefixes [u "data"] STAGE_ROOT ++ map (fun i => [u "data"] ++ STAGE_ROOT ++ [i]) settled).
Lemma real_data : real_root store used_files.
Proof.
  split; [|split; [apply (bool_decide_unpack (_ ∉ _)); vm_compute; exact I|vm_compute; lia]].
  intros p Hp. change (p ∈ [[u "data"]]) in Hp. apply list_elem_of_singleton in Hp as ->. vm_compute. reflexivity.
Qed.
Lemma settled_dirs i : i ∈ settled -> intent_directory store i used_files.
Proof.
  intros Hi p Hp.
  assert (forallb (fun i => forallb (is_dir used_files) (prefixes (root store) (STAGE_ROOT ++ [i]))) settled = true) as H
    by (vm_compute; reflexivity).
  rewrite forallb_forall in H. apply list_elem_of_In, H in Hi. rewrite forallb_forall in Hi. by apply Hi, list_elem_of_In.
Qed.
Definition retired_files : fs :=
  (retire_staged_artifact store (staged_payload_path descriptor) (staged_descriptor_path descriptor) used_files).2.
Lemma retired_history : history id store pepper used_files settled retired_files.
Proof. eapply history_step; [exact (history_start _ _ _ _ _ settled_dirs)|apply step_retire]. Qed.
Lemma many_intents : ARTIFACT_SCAN_LIMIT < len (remove_dups settled).
Proof. vm_compute. reflexivity. Qed.
End SafetyDemo.

Lemma staging_saturates_witness :
  exists e, stage_artifact id StagingDemo.store StagingDemo.pepper StagingDemo.request 7 StagingDemo.nonce SafetyDemo.retired_files
    = (Raise e, SafetyDemo.retired_files).
Proof.
  exact (proj1 (staging_saturates _ _ _ _ _ _ SafetyDemo.real_data SafetyDemo.retired_history SafetyDemo.many_intents) _ _ _).
Defined.
Lemma stage_artifact_durable_witness :
  staged id StagingDemo.store StagingDemo.pepper StagingDemo.descriptor StagingDemo.after.
Proof. exact (proj1 (proj2 (stage_artifact_durable _ _ _ _ _ _ _ _ _ StagingDemo.staged_empty))). Defined.
