(* ===== verification/ArtifactReconcile.v ===== *)
(** * Staged artifacts: what a run of the reconciler removes and what its status means *)
From S2P Require Import Prelude PyTime Json Sha256 JsonText JsonBytes Storage ProtocolArguments ArtifactStaging ArtifactDurability ArtifactFacts ArtifactSafety FlatRecords ArtifactDescriptors.
Local Open Scope Z_scope.

(** ** Trees that only lose certain nodes *)
Definition removed_only (P : list str -> node -> Prop) (f f' : fs) : Prop :=
  f' ⊆ f /\ forall p n, f !! p = Some n -> f' !! p = None -> P p n.
#[export] Instance removed_only_preorder (P : list str -> node -> Prop) : PreOrder (removed_only P).
Proof.
  split; [split; [done|]; congruence|]. intros f g h [H1 P1] [H2 P2]. split; [by etrans|].
  intros p n Hf Hh. destruct (g !! p) as [m|] eqn:E; [|by eapply P1].
  assert (f !! p = Some m) as Em by by eapply lookup_weaken. rewrite Hf in Em. injection Em as ->. by eapply P2.
Qed.
Lemma removed_delete (P : list str -> node -> Prop) (p : list str) (f : fs) : (forall n, f !! p = Some n -> P p n) -> removed_only P f (delete p f).
Proof.
  intros H. split; [apply delete_subseteq|]. intros q n Hf Hd. rewrite lookup_delete in Hd. case_decide; subst; [auto|congruence].
Qed.
Lemma unlink_removes (P : list str -> node -> Prop) (p : list str) : (forall n, P p n) -> Moves (removed_only P) (unlink_missing_ok p).
Proof.
  intros H f r f'. unfold unlink_missing_ok, unlink, modify. destruct (lstat f p) as [[]|]; intros [= <- <-]; try done;
    apply removed_delete; auto.
Qed.
Lemma fsync_removes (P : list str -> node -> Prop) (p : list str) : Moves (removed_only P) (fsync_directory p).
Proof. by intros f r f' ->%fsync_directory_same. Qed.
Lemma delete_verified_removes (P : list str -> node -> Prop) st rel sha size max :
  (forall b, sha256_hex b = sha -> len b = size -> P (root st ++ posix_parts rel) (NReg b)) ->
  Moves (removed_only P) (delete_verified_exact st rel sha size max).
Proof.
  intros H f r f'. unfold delete_verified_exact. destruct (verified_byte_target st rel) as [[parts target]|] eqn:Ht; [|by intros [= <- <-]].
  destruct (verified_byte_target_ok _ _ _ _ Ht) as (-> & -> & _). destruct (negb _); [by intros [= <- <-]|].
  destruct (map_exn _ _) as [b|] eqn:Hr; intros [= <- <-]; [|done].
  apply map_exn_ok, read_stored in Hr as ((Hb & _) & Hs & Hl). apply removed_delete. intros n Hn.
  rewrite Hb in Hn. injection Hn as <-. auto.
Qed.
Lemma stage_target_path st rel suffix f target : strict_stage_target st rel suffix f = Ok target -> target = root st ++ posix_parts rel.
Proof. by intros (i & name & c & s & -> & -> & _)%strict_stage_target_ok. Qed.
Lemma retire_removes (P : list str -> node -> Prop) st payload descriptor :
  (forall n, P (root st ++ posix_parts payload) n) -> (forall n, P (root st ++ posix_parts descriptor) n) ->
  Moves (removed_only P) (retire_staged_artifact st payload descriptor).
Proof.
  intros Hp Hd. unfold retire_staged_artifact. apply moves_bind; [apply _..|]. intros f f1 r f' H.
  apply lift_cases in H as [(pt & ->%stage_target_path & H)|(e & _ & _ & ->)]; [|done].
  apply lift_cases in H as [(dt & ->%stage_target_path & H)|(e & _ & _ & ->)]; [|done].
  revert H. generalize f1 r f'. apply (moves_catch (removed_only P)); [|solve_moves].
  apply (moves_bind (removed_only P)); [by apply unlink_removes|]. intros [].
  apply (moves_bind (removed_only P)); [by apply unlink_removes|]. intros []. apply fsync_removes.
Qed.
Lemma retire_incomplete_removes (P : list str -> node -> Prop) st path : (forall n, P (root st ++ posix_parts path) n) ->
  Moves (removed_only P) (retire_incomplete_staged_payload st path).
Proof.
  intros H. unfold retire_incomplete_staged_payload. apply moves_bind; [apply _..|]. intros f0.
  apply moves_bind; [apply _..|]. intros target. destruct (lstat f0 target) as [[b| |]|]; try apply _.
  destruct (_ || _); [apply _|]. apply moves_bind; [apply _..|]. intros [parts t]. apply moves_bind; [apply _..|]. intros payload.
  by apply delete_verified_removes.
Qed.
(** After a retirement that returns neither file is there. *)
Lemma unlink_ok p f f' : p <> [] -> unlink_missing_ok p f = (Ok tt, f') -> f' = delete p f.
Proof.
  intros Hp. unfold unlink_missing_ok. rewrite lstat_nonempty by done.
  destruct (f !! p) as [[]|] eqn:E; unfold unlink, modify; intros [= <-]; try done. symmetry. by apply delete_id.
Qed.
Lemma retire_ok st payload descriptor f u0 f' : retire_staged_artifact st payload descriptor f = (Ok u0, f') ->
  f' !! (root st ++ posix_parts payload) = None /\ f' !! (root st ++ posix_parts descriptor) = None.
Proof.
  unfold retire_staged_artifact. intros H. apply act_bind_ok in H as (f0 & f1 & Hg & H). apply gets_ok in Hg as [-> ->].
  apply lift_ok in H as (pt & Hp & H). apply lift_ok in H as (dt & Hd & H).
  pose proof (stage_target_nonempty _ _ _ _ _ Hp) as Hpn. pose proof (stage_target_nonempty _ _ _ _ _ Hd) as Hdn.
  apply stage_target_path in Hp as <-. apply stage_target_path in Hd as <-.
  apply catch_cases in H as [(x & H & _)|(e & f1 & _ & H)]; [|by unfold raise in H].
  apply act_bind_ok in H as ([] & f1 & H1 & H). apply act_bind_ok in H as ([] & f2 & H2 & H).
  apply fsync_directory_same in H as ->. apply unlink_ok in H1 as ->; [|done]. apply unlink_ok in H2 as ->; [|done].
  split; [apply lookup_delete_eq|]. rewrite lookup_delete. case_decide; [done|apply lookup_delete_eq].
Qed.

(** ** Computations of the reconciler *)
Class Traces (R : relation recon) {A : Type} (m : act recon A) : Prop :=
  traces : forall s r s', m s = (r, s') -> R s s'.
Definition trees (R : relation fs) : relation recon := fun s s' => R (tree s) (tree s').
(** The clock is only read further. *)
Definition later : relation recon := fun s s' => (reads s <= reads s')%nat.
#[export] Instance trees_preorder R : PreOrder R -> PreOrder (trees R).
Proof. intros [H1 H2]. split; [by intros s; apply H1|]. intros a b c Ha Hb. by eapply H2. Qed.
#[export] Instance later_preorder : PreOrder later.
Proof. unfold later. split; [by intros s|]. intros a b c. lia. Qed.
Section traces.
Context (R : relation recon) `{!PreOrder R}.
#[export] Instance traces_ret {A : Type} (a : A) : Traces R (ret a).
Proof. by intros s r s' [= <- <-]. Qed.
#[export] Instance traces_raise {A : Type} e : Traces R (raise e : act recon A).
Proof. by intros s r s' [= <- <-]. Qed.
#[export] Instance traces_lift {A : Type} (m : Res A) : Traces R (lift m).
Proof. by intros s r s' [= <- <-]. Qed.
#[export] Instance traces_gets {A : Type} (g : recon -> A) : Traces R (gets g).
Proof. by intros s r s' [= <- <-]. Qed.
#[export] Instance traces_gate i : Traces R (enter_gate i).
Proof. unfold enter_gate. destruct (uuid_parses i); apply _. Qed.
#[export] Instance traces_bind {A B : Type} (m : act recon A) (k : A -> act recon B) :
  Traces R m -> (forall a, Traces R (k a)) -> Traces R (act_bind m k).
Proof.
  intros Hm Hk s r s' [(a & s1 & E & H)|(e & E & _)]%act_bind_cases; [|exact (Hm _ _ _ E)].
  etrans; [exact (Hm _ _ _ E)|exact (Hk a _ _ _ H)].
Qed.
#[export] Instance traces_catch {A : Type} (m : act recon A) h :
  Traces R m -> (forall e, Traces R (h e)) -> Traces R (catch m h).
Proof.
  intros Hm Hh s r s' [(a & E & _)|(e & s1 & E & H)]%catch_cases; [exact (Hm _ _ _ E)|].
  etrans; [exact (Hm _ _ _ E)|exact (Hh e _ _ _ H)].
Qed.
End traces.
Section trees.
Context (R : relation fs) `{!PreOrder R}.
#[export] Instance trees_now clock : Traces (trees R) (now clock).
Proof. intros s r s' [= <- <-]. unfold trees. done. Qed.
#[export] Instance trees_mark enabled : Traces (trees R) (mark_unavailable enabled).
Proof. intros s r s'. unfold mark_unavailable, modify. by destruct enabled; intros [= <- <-]; unfold trees. Qed.
#[export] Instance trees_on_tree {A : Type} (m : act fs A) : Moves R m -> Traces (trees R) (on_tree m).
Proof. intros H s r s'. unfold on_tree. destruct (m (tree s)) as [x f] eqn:E. intros [= <- <-]. exact (H _ _ _ E). Qed.
End trees.
#[export] Instance later_now clock : Traces later (now clock).
Proof. intros s r s' [= <- <-]. unfold later. cbn. lia. Qed.
#[export] Instance later_mark enabled : Traces later (mark_unavailable enabled).
Proof. intros s r s'. unfold mark_unavailable, modify. by destruct enabled; intros [= <- <-]; unfold later. Qed.
#[export] Instance later_on_tree {A : Type} (m : act fs A) : Traces later (on_tree m).
Proof. intros s r s'. unfold on_tree. destruct (m (tree s)) as [x f]. intros [= <- <-]. by unfold later. Qed.

Lemma on_tree_reads {A : Type} (m : act fs A) s r s' : on_tree m s = (r, s') -> reads s' = reads s.
Proof. unfold on_tree. destruct (m (tree s)) as [x f]. by intros [= _ <-]. Qed.

Section reconciler.
Context (ft : str -> str) (st : VersionStore) (pepper : bytes) (enabled : bool) (clock : nat -> Z)
  (classify : ArtifactDescriptor -> Res ArtifactAuthority)
  (classify_incomplete : option (str -> str -> Res ArtifactAuthority)).

(** One of the readings of the clock from the [lo]th up to the [hi]th shows that
    [created] is an hour past, or is not yet. *)
Definition old (lo hi : nat) (created : Z) : Prop :=
  exists k, (lo <= k < hi)%nat /\ ARTIFACT_STAGE_GRACE_NS <= clock k - created.
Definition fresh (lo hi : nat) (created : Z) : Prop :=
  exists k, (lo <= k < hi)%nat /\ clock k - created < ARTIFACT_STAGE_GRACE_NS.
(** [d] is the signed descriptor at its own path of the tree. *)
Definition signed_in (f : fs) (d : ArtifactDescriptor) : Prop :=
  exists raw, stored st (staged_descriptor_path d) raw f /\
    parse_signed_descriptor ft raw pepper (staged_descriptor_path d) = Ok d.
(** A payload without a descriptor that a scan of the tree lists. *)
Definition incomplete_in (f : fs) (path : str) : Prop :=
  exists scan, scan_staged_artifacts st ARTIFACT_SCAN_LIMIT f = Ok scan /\ path ∈ incomplete_payloads scan.
(** What a run that reads the clock from [lo] up to [hi] may remove from the tree [f]. *)
Inductive removable (lo hi : nat) (f : fs) : list str -> node -> Prop :=
| removable_staged d authority path n : signed_in f d -> classify d = Ok authority -> authority <> Uncertain ->
    old lo hi (created_ns d) -> path ∈ [staged_payload_path d; staged_descriptor_path d] ->
    removable lo hi f (root st ++ posix_parts path) n
| removable_canonical d b : signed_in f d -> classify d = Ok Absent -> old lo hi (created_ns d) ->
    sha256_hex b = payload_sha256 d -> len b = payload_size_bytes d ->
    removable lo hi f (root st ++ posix_parts (canonical_path d)) (NReg b)
| removable_incomplete path intent created ask n : incomplete_in f path ->
    incomplete_entry path = Some (path, intent, created) -> classify_incomplete = Some ask ->
    ask intent path = Ok Absent -> old lo hi created -> removable lo hi f (root st ++ posix_parts path) n.

Notation recon_step := (reconcile_descriptor st enabled clock classify).

(** *** How often the clock is read *)
#[local] Instance settle_later grace d authority : Traces later (settle st enabled grace d authority).
Proof. destruct authority; cbn [settle]; [| |destruct grace]; apply _. Qed.
#[local] Instance reconcile_later d grace held : Traces later (reconcile_descriptor st enabled clock classify d grace held).
Proof.
  unfold reconcile_descriptor. apply traces_bind; [apply _|destruct grace; apply _|]. intros [|]; [apply _|].
  apply traces_catch; [apply _| |intros e; destruct (expected_failure e); [|apply _]; destruct grace; apply _].
  apply traces_bind; [apply _|destruct held; apply _|apply _].
Qed.
Lemma reconcile_all_later ds un : Traces later (reconcile_all st enabled clock classify ds un).
Proof.
  revert un. induction ds as [|d ds IH]; intros un; cbn [reconcile_all]; [apply _|].
  apply traces_bind; [apply _..|]. intros outcome. apply traces_bind; [apply _|destruct (bool_decide _); apply _|done].
Qed.
Lemma retire_incomplete_later l un : Traces later (retire_incomplete st clock classify_incomplete l un).
Proof.
  revert un. induction l as [|[[path intent] created] l IH]; intros un; cbn [retire_incomplete]; [apply _|].
  apply traces_bind; [apply _..|]. intros t. destruct (_ <? _); [done|]. destruct classify_incomplete as [ask|]; [|done].
  apply traces_bind; [apply _..|]. intros _. apply traces_bind; [apply _..|]. intros outcome.
  destruct (bool_decide _); [|done]. apply traces_bind; [apply _..|done].
Qed.

(** One pass through the loop over the payloads without descriptor. *)
Definition ticked (s : recon) : recon := MkRecon (tree s) (status s) (S (reads s)).
Lemma retire_incomplete_cases path intent created l un s r s' :
  retire_incomplete st clock classify_incomplete ((path, intent, created) :: l) un s = (r, s') ->
  (exists un', retire_incomplete st clock classify_incomplete l un' (ticked s) = (r, s') /\
     (un' = un /\ clock (reads s) - created < ARTIFACT_STAGE_GRACE_NS \/ un' = true)) \/
  (s' = ticked s /\ forall b, r <> Ok b) \/
  exists ask x s2, ARTIFACT_STAGE_GRACE_NS <= clock (reads s) - created /\ classify_incomplete = Some ask /\
    ask intent path = Ok Absent /\ on_tree (retire_incomplete_staged_payload st path) (ticked s) = (x, s2) /\
    ((exists e, x = Raise e /\ r = Raise e /\ s' = s2) \/
     x = Ok tt /\ retire_incomplete st clock classify_incomplete l un s2 = (r, s')).
Proof.
  cbn [retire_incomplete]. unfold act_bind at 1, now. change (MkRecon (tree s) (status s) (S (reads s))) with (ticked s).
  destruct (clock (reads s) - created <? ARTIFACT_STAGE_GRACE_NS) eqn:E; bool_facts; [left; exists un; auto|].
  destruct classify_incomplete as [ask|]; [|left; exists true; auto]. intros H.
  apply act_bind_cases in H as [([] & s2 & Hg & H)|(e & Hg & ->)]; unfold enter_gate in Hg; destruct (uuid_parses intent); try done.
  2: { right. left. split; [by injection Hg as _ <-|done]. }
  apply ret_result in Hg as [_ ->].
  apply lift_cases in H as [(outcome & Hc & H)|(e & _ & -> & ->)]; [|right; by left].
  destruct (bool_decide (outcome = Absent)) eqn:Eo; [|left; exists true; auto]. bool_facts. subst outcome.
  right. right. exists ask. apply act_bind_cases in H as [([] & s3 & Hx & H)|(e & Hx & ->)].
  - exists (Ok tt), s3. do 4 (split; [done|]). right. by split.
  - exists (Raise e), s'. do 4 (split; [done|]). left. by exists e.
Qed.

(** *** What it removes *)
Section removing.
Context (f : fs) (lo hi : nat).
Notation losing := (trees (removed_only (removable lo hi f))).
Lemma grace_check d s fresh s1 :
  (let! t := now clock in ret (t - created_ns d <? ARTIFACT_STAGE_GRACE_NS)) s = (Ok fresh, s1) ->
  s1 = MkRecon (tree s) (status s) (S (reads s)) /\ fresh = (clock (reads s) - created_ns d <? ARTIFACT_STAGE_GRACE_NS).
Proof. unfold now, act_bind, ret. by intros [= <- <-]. Qed.
Lemma settle_traces d authority grace : signed_in f d -> classify d = Ok authority -> old lo hi (created_ns d) ->
  Traces losing (settle st enabled grace d authority).
Proof.
  intros Hd Hc Ho. assert (authority <> Uncertain -> Moves (removed_only (removable lo hi f)) (retire_pair st d)) as Hr.
  { intros Ha. apply retire_removes; intros n; (eapply removable_staged; [done..|]); [by left|right; by left]. }
  destruct authority; cbn [settle].
  - apply trees_on_tree. by apply Hr.
  - apply traces_bind; [apply _| |intros []; apply trees_on_tree; by apply Hr]. apply trees_on_tree.
    apply delete_verified_removes. intros b Hs Hl. by eapply removable_canonical.
  - destruct grace; apply _.
Qed.
Lemma reconcile_traces d s r s' : signed_in f d -> (lo <= reads s)%nat -> (reads s' <= hi)%nat ->
  recon_step d true false s = (r, s') -> losing s s'.
Proof.
  intros Hd Hlo Hhi H. pose proof (reconcile_later d true false _ _ _ H) as Hl. unfold reconcile_descriptor in H.
  apply act_bind_cases in H as [(fresh & s1 & E & H)|(e & E & _)];
    [|by unfold now, act_bind, ret in E].
  apply grace_check in E as [-> ->]. destruct (clock (reads s) - created_ns d <? _) eqn:E.
  { exact (traces_ret losing _ _ _ _ H). }
  assert (later (MkRecon (tree s) (status s) (S (reads s))) s') as Hl'.
  { revert H. apply traces_catch; [apply _..|]. intros e. destruct (expected_failure e); apply _. }
  unfold later in Hl'. cbn in Hl'. bool_facts.
  assert (old lo hi (created_ns d)) as Ho by (exists (reads s); split; [lia|done]). clear E Hl Hl' Hhi Hlo.
  change (losing (MkRecon (tree s) (status s) (S (reads s))) s').
  revert H. generalize (MkRecon (tree s) (status s) (S (reads s))) r s'. apply traces_catch; [apply _| |].
  - apply traces_bind; [apply _..|]. intros []. apply traces_bind; [apply _| |].
    { apply trees_on_tree. unfold read_payload, read_exact. solve_moves. }
    intros b s2 r2 s3 [(authority & Hc & H)|(e & _ & _ & ->)]%lift_cases; [|reflexivity].
    revert H. generalize s2 r2 s3. apply traces_bind; [apply _|by apply settle_traces|apply _].
  - intros e. destruct (expected_failure e); [|apply _]. apply traces_bind; apply _.
Qed.
Lemma reconcile_all_traces ds un s r s' : Forall (signed_in f) ds -> (lo <= reads s)%nat -> (reads s' <= hi)%nat ->
  reconcile_all st enabled clock classify ds un s = (r, s') -> losing s s'.
Proof.
  intros Hds. revert un s. induction Hds as [|d ds Hd _ IH]; intros un s Hlo Hhi; cbn [reconcile_all].
  { apply traces_ret, _. }
  intros [(outcome & s1 & Hr & H)|(e & Hr & ->)]%act_bind_cases; [|by eapply reconcile_traces].
  apply act_bind_cases in H as [(stale & s2 & Hst & H)|(e & Hst & _)];
    [|destruct (bool_decide _); [by unfold now, act_bind, ret in Hst|by unfold ret in Hst]].
  pose proof (reconcile_later _ _ _ _ _ _ Hr) as L1. pose proof (reconcile_all_later _ _ _ _ _ H) as L3.
  assert (later s1 s2 /\ losing s1 s2) as [L2 Hl].
  { destruct (bool_decide _) in Hst; [|apply ret_result in Hst as [_ <-]; by split].
    unfold now, act_bind, ret in Hst. injection Hst as _ <-. split; [unfold later; cbn; lia|by unfold trees]. }
  unfold later in *. transitivity s1; [eapply reconcile_traces; [done..|lia|done]|]. transitivity s2; [done|].
  eapply IH; [lia|done|exact H].
Qed.
Lemma retire_incomplete_traces l un s r s' :
  Forall (fun e => incomplete_in f e.1.1 /\ incomplete_entry e.1.1 = Some e) l ->
  (lo <= reads s)%nat -> (reads s' <= hi)%nat ->
  retire_incomplete st clock classify_incomplete l un s = (r, s') -> losing s s'.
Proof.
  intros Hl. revert un s. induction Hl as [|[[path intent] created] l [Hi He] _ IH]; intros un s Hlo Hhi H.
  { revert H. apply traces_ret, _. }
  apply retire_incomplete_cases in H as [(un' & H & _)|[[-> _]|(ask & x & s2 & Hold & Ha & Hc & Hx & H)]].
  - change (losing (ticked s) s'). eapply IH; [cbn; lia|done|exact H].
  - by unfold trees.
  - pose proof (on_tree_reads _ _ _ _ Hx) as Er. cbn [ticked reads] in Er.
    assert ((reads s < hi)%nat -> losing (ticked s) s2) as Hrem.
    { intros Hr. revert Hx. apply trees_on_tree. apply retire_incomplete_removes. intros n.
      eapply removable_incomplete; [done..|]. exists (reads s). split; [lia|done]. }
    destruct H as [(e & _ & _ & ->)|(-> & H)]; [apply Hrem; lia|].
    pose proof (retire_incomplete_later _ _ _ _ _ H) as L. unfold later in L.
    transitivity s2; [apply Hrem; lia|]. eapply IH; [lia|done|exact H].
Qed.
End removing.
(** ** A whole run *)
Lemma parse_staged_spec paths s r s' : parse_staged ft st pepper paths s = (r, s') ->
  s' = s /\ forall ds, r = Ok (Some ds) -> Forall (signed_in (tree s)) ds /\ map staged_descriptor_path ds = paths.
Proof.
  revert r s'. induction paths as [|path paths IH]; intros r s'; cbn [parse_staged].
  { intros [= <- <-]. split; [done|]. intros ds [= <-]. split; [constructor|done]. }
  destruct (res_bind _ _) as [d|e] eqn:E; [|intros H; assert (s' = s /\ forall ds, r <> Ok (Some ds)) as [-> Hr];
    [destruct e; injection H as <- <-; done|split; [done|by intros ds ?%Hr]]].
  intros [(rest & s1 & Er & H)|(e & Er & ->)]%act_bind_cases; apply IH in Er as [-> Hrest]; [|done].
  injection H as <- <-. split; [done|]. intros ds [= Hds]. destruct rest as [l|]; [|done]. injection Hds as <-.
  destruct (Hrest l eq_refl) as [Hl <-]. apply res_bind_ok in E as (raw & Hraw & Hp).
  pose proof (parse_valid _ _ _ _ _ Hp) as (_ & <- & _)%valid_paths. split; [|done]. constructor; [|done].
  exists raw. split; [by apply read_staged_ok in Hraw|done].
Qed.
Lemma incomplete_entries_spec paths l : incomplete_entries paths = Some l ->
  map (fun e => e.1.1) l = paths /\ Forall (fun e => incomplete_entry e.1.1 = Some e) l.
Proof.
  revert l. induction paths as [|path paths IH]; intros l; cbn [incomplete_entries]; [by intros [= <-]|].
  intros (e & He & (rest & Hr & [= <-])%bind_Some)%bind_Some. apply IH in Hr as [Hmap Hall].
  assert (e.1.1 = path) as Ep.
  { unfold incomplete_entry in He. by repeat (case_match; try done); simplify_eq. }
  cbn [map]. rewrite Ep, Hmap. split; [done|]. constructor; [by rewrite Ep|done].
Qed.
(** The scan and the descriptors a run works on, or the run changed nothing. *)
Lemma run_body_cases s r s' : run_body ft st pepper enabled clock classify classify_incomplete s = (r, s') ->
  (s' = s /\ r <> Ok false) \/
  exists scan ds l s1, (scan_staged_artifacts st ARTIFACT_SCAN_LIMIT (tree s) = Ok scan /\
      invalid_entry scan = false /\ overbound scan = false) /\
    Forall (signed_in (tree s)) ds /\ map staged_descriptor_path ds = descriptors scan /\
    map (fun e => e.1.1) l = incomplete_payloads scan /\
    Forall (fun e => incomplete_in (tree s) e.1.1 /\ incomplete_entry e.1.1 = Some e) l /\
    ((retire_incomplete st clock classify_incomplete l false s = (r, s1) /\ s' = s1 /\ r <> Ok false /\ forall b, r <> Ok b) \/
     exists un, retire_incomplete st clock classify_incomplete l false s = (Ok un, s1) /\
       reconcile_all st enabled clock classify ds un s1 = (r, s')).
Proof.
  unfold run_body. intros H. apply act_bind_cases in H as [(f & s1 & Hg & H)|(e & Hg & _)]; [|by unfold gets in Hg].
  apply gets_ok in Hg as [-> ->]. apply lift_cases in H as [(scan & Hs & H)|(e & _ & -> & ->)]; [|by left].
  destruct (_ || _) eqn:Eb; [injection H as <- <-; by left|]. apply orb_false_iff in Eb.
  apply act_bind_cases in H as [(parsed & s1 & Hp & H)|(e & Hp & ->)]; apply parse_staged_spec in Hp as [-> Hds]; [|by left].
  destruct parsed as [ds|]; [|injection H as <- <-; by left].
  destruct (Hds ds eq_refl) as [Hd1 Hd2].
  destruct (incomplete_entries _) as [l|] eqn:Hl; [|injection H as <- <-; by left].
  right. apply incomplete_entries_spec in Hl as [Hmap Hl].
  assert (Forall (fun e => incomplete_in (tree s) e.1.1 /\ incomplete_entry e.1.1 = Some e) l) as Hl'.
  { rewrite Forall_forall in *. intros e Hin. split; [|by apply Hl]. exists scan. split; [done|]. rewrite <- Hmap.
    apply list_elem_of_In, in_map_iff. exists e. split; [done|by apply list_elem_of_In]. }
  apply act_bind_cases in H as [(un & s1 & Hr & H)|(e & Hr & ->)].
  - exists scan, ds, l, s1. do 5 (split; [done|]). right. by exists un.
  - exists scan, ds, l, s'. do 5 (split; [done|]). by left.
Qed.
Lemma run_once_tree s r s' : run_once ft st pepper enabled clock classify classify_incomplete s = (r, s') ->
  (enabled = false /\ s' = s) \/ exists r0 s0, run_body ft st pepper enabled clock classify classify_incomplete s = (r0, s0) /\
    tree s' = tree s0 /\ reads s' = reads s0 /\ (status s' = Ready -> r0 = Ok false).
Proof.
  unfold run_once. destruct (negb enabled) eqn:E; [intros [= <- <-]; left; by bool_facts|]. cbv zeta. intros H. right.
  destruct (run_body _ _ _ _ _ _ _ s) as [[un|e] s0]; [exists (Ok un), s0|exists (Raise e), s0]; (split; [done|]).
  - injection H as <- <-. by destruct un.
  - by destruct e; injection H as <- <-.
Qed.
(** C12: A run of the reconciler, however it ends, adds nothing to the store, and a file
    it removes was settled: it is the staged pair of a descriptor signed with the
    store's key whose write the database calls committed or absent, the canonical
    file of a write it calls absent (and then exactly the bytes the descriptor
    names), or a payload without descriptor of an intent it calls absent, each at
    least an hour old at one of the run's own readings of the clock.  In particular no canonical file of a committed or uncertain
    write is ever removed. *)
Theorem run_removes_only_settled s r s' :
  run_once ft st pepper enabled clock classify classify_incomplete s = (r, s') ->
  tree s' ⊆ tree s /\
  forall p n, tree s !! p = Some n -> tree s' !! p = None -> removable (reads s) (reads s') (tree s) p n.
Proof.
  intros [(_ & ->)|(r0 & s0 & H & -> & -> & _)]%run_once_tree; [split; [done|]; congruence|].
  change (trees (removed_only (removable (reads s) (reads s0) (tree s))) s s0).
  apply run_body_cases in H as [[-> _]|(scan & ds & l & s1 & _ & Hds & _ & _ & Hl & [(H & -> & _)|(un & H1 & H2)])]; [done| |].
  - by eapply retire_incomplete_traces; [exact Hl|..|exact H].
  - pose proof (retire_incomplete_later _ _ _ _ _ H1) as L1. pose proof (reconcile_all_later _ _ _ _ _ H2) as L2.
    unfold later in *. transitivity s1; [by eapply retire_incomplete_traces; [exact Hl|..|exact H1]|].
    by eapply reconcile_all_traces; [exact Hds|..|exact H2].
Qed.
(** ** What readiness means *)
Definition pair_retired (d : ArtifactDescriptor) (f : fs) : Prop :=
  f !! (root st ++ posix_parts (staged_payload_path d)) = None /\ f !! (root st ++ posix_parts (staged_descriptor_path d)) = None.
(** The database settled the write of [d], and the files agree with its verdict. *)
Definition settled_in (d : ArtifactDescriptor) (f : fs) : Prop :=
  pair_retired d f /\
  (classify d = Ok Committed \/ classify d = Ok Absent /\ forall b, ~ stored st (canonical_path d) b f).
(** A payload of an intent the database calls absent, removed. *)
Definition dropped_from (intent path : str) (f : fs) : Prop :=
  (exists ask, classify_incomplete = Some ask /\ ask intent path = Ok Absent) /\ f !! (root st ++ posix_parts path) = None.
Lemma settled_in_mono d f f' : f' ⊆ f -> settled_in d f -> settled_in d f'.
Proof.
  intros H [[H1 H2] Hc]. split; [split; by eapply lookup_weaken_None|]. destruct Hc as [Hc|[Hc Hn]]; [by left|right].
  split; [done|]. intros b Hb. by eapply Hn, stored_mono.
Qed.
Lemma dropped_from_mono intent path f f' : f' ⊆ f -> dropped_from intent path f -> dropped_from intent path f'.
Proof. intros H [Ha Hn]. split; [done|]. by eapply lookup_weaken_None. Qed.
Lemma on_tree_ok {A : Type} (m : act fs A) s a s' : on_tree m s = (Ok a, s') -> m (tree s) = (Ok a, tree s').
Proof. unfold on_tree. destruct (m (tree s)) as [x f]. by intros [= -> <-]. Qed.
(** The root is short enough for the paths below it to be resolved. *)
Definition reachable_root (f : fs) : Prop := real_root st f /\ (length (root st) <= 3600)%nat.
Lemma reachable_keeps f f' : dirs_kept f f' -> reachable_root f -> reachable_root f'.
Proof. intros H [Hr Hl]. split; [by eapply real_root_keeps|done]. Qed.
Lemma posix_parts_length rel : (length (posix_parts rel) <= S (length rel))%nat.
Proof.
  unfold posix_parts. etrans; [apply length_filter|]. induction rel as [|c rel IH]; cbn [split_on]; [done|].
  destruct (c =? slash); [cbn; lia|]. destruct (split_on slash rel); cbn in *; lia.
Qed.
(** A deletion that returns leaves no file, wherever the paths are short. *)
Lemma delete_verified_ok rel sha size max f u0 f' : reachable_root f -> (length rel <= 400)%nat ->
  delete_verified_exact st rel sha size max f = (Ok u0, f') -> forall b, ~ stored st rel b f'.
Proof.
  intros [Hr Hl] Hrel. unfold delete_verified_exact. destruct (verified_byte_target st rel) as [[parts target]|] eqn:Ht; [|done].
  destruct (verified_byte_target_ok _ _ _ _ Ht) as (-> & -> & _ & Hparts). destruct (exists_ f _) eqn:Hex; cbn [negb].
  - destruct (map_exn _ _); [|done]. unfold unlink, modify. intros [= _ <-] b [Hb _]. by rewrite lookup_delete_eq in Hb.
  - intros [= _ <-] b Hb. destruct (decide (posix_parts rel = [])) as [E|Hne].
    + destruct Hb as [Hb _]. rewrite E, app_nil_r in Hb, Hex. destruct Hr as (Hd & Hdots & _).
      destruct (exists_last (l := root st)) as (init & c & Ec); [intros Er; rewrite Er in Hex; by vm_compute in Hex|].
      rewrite (Hd (root st)) in Hb; [done|]. rewrite Ec, prefixes_app, elem_of_app. right. cbn. by left.
    + rewrite (stored_exists _ _ _ _ Hr Hb Hne) in Hex; [done| |].
      * intros H%Hparts. naive_solver.
      * pose proof (posix_parts_length rel). change resolve_fuel with (Z.to_nat 4096). lia.
Qed.
Lemma incomplete_dropped_ok path f u0 f' : reachable_root f ->
  retire_incomplete_staged_payload st path f = (Ok u0, f') -> f' !! (root st ++ posix_parts path) = None.
Proof.
  intros [Hr Hl]. unfold retire_incomplete_staged_payload. intros H. apply act_bind_ok in H as (f0 & f1 & Hg & H).
  apply gets_ok in Hg as [-> ->]. apply lift_ok in H as (target & Ht & H).
  apply strict_stage_target_ok in Ht as (i & name & cr & stem & Hp & _).
  change (id f) with f in H. destruct (lstat f target) as [[b| |]|]; try by unfold raise in H.
  destruct ((len b <? 1) || (INCOMPLETE_MAX <? len b)); [by unfold raise in H|].
  apply lift_ok in H as ([parts t] & Hv & H). apply lift_ok in H as (payload & Hpay & H).
  destruct (verified_byte_target_ok _ _ _ _ Hv) as (-> & -> & _ & Hparts).
  apply map_exn_ok, read_posix_ok in Hpay as (_ & Hd & Hb & _).
  assert (exists_ f (root st ++ posix_parts path) = true) as Hex.
  { eapply stored_exists; [done|by split|by rewrite Hp|intros Hin%Hparts; naive_solver|].
    rewrite Hp. change (length (STAGE_ROOT ++ [i; name])) with 4%nat. change resolve_fuel with (Z.to_nat 4096). lia. }
  unfold delete_verified_exact in H. rewrite Hv, Hex in H. cbn [negb] in H. destruct (map_exn _ _); [|done].
  unfold unlink, modify in H. injection H as _ <-. apply lookup_delete_eq.
Qed.
Lemma settle_ok d authority s u0 s' : reachable_root (tree s) -> (length (canonical_path d) <= 400)%nat ->
  classify d = Ok authority -> authority <> Uncertain ->
  settle st enabled true d authority s = (Ok u0, s') -> settled_in d (tree s').
Proof.
  intros Hr Hl Hc Ha H. destruct authority; cbn [settle] in H; [| |done].
  - apply on_tree_ok in H. apply retire_ok in H. split; [done|by left].
  - apply act_bind_ok in H as (x & s1 & H1 & H). apply on_tree_ok in H1, H.
    pose proof (delete_verified_ok _ _ _ _ _ _ _ Hr Hl H1) as Hn.
    assert (tree s' ⊆ tree s1) as Hsub.
    { apply (proj1 (retire_removes (fun _ _ => True) st _ _ (fun _ => I) (fun _ => I) _ _ _ H)). }
    apply retire_ok in H. split; [done|]. right. split; [done|]. intros b Hb. by eapply Hn, stored_mono.
Qed.
#[local] Instance reconcile_keeps d : Traces (trees dirs_kept) (recon_step d true false).
Proof.
  unfold reconcile_descriptor. apply traces_bind; [apply _..|]. intros [|]; [apply _|]. apply traces_catch; [apply _| |].
  - apply traces_bind; [apply _..|]. intros _. apply traces_bind; [apply _| |].
    { apply trees_on_tree. unfold read_payload, read_exact. solve_moves. }
    intros _. apply traces_bind; [apply _..|]. intros a. apply traces_bind; [apply _| |intros; apply _].
    unfold settle, delete_canonical, retire_pair. destruct a; [| |apply _]; repeat (apply traces_bind || apply trees_on_tree || intros); apply _.
  - intros e. destruct (expected_failure e); [|apply _]. apply traces_bind; apply _.
Qed.
Lemma retire_incomplete_dirs path s x s' : on_tree (retire_incomplete_staged_payload st path) s = (x, s') -> dirs_kept (tree s) (tree s').
Proof. apply (trees_on_tree dirs_kept), _. Qed.
Lemma signed_short f d : signed_in f d -> (length (canonical_path d) <= 400)%nat.
Proof.
  intros (raw & _ & H%parse_valid). unfold valid_descriptor in H. cbn [forallb] in H. bool_facts.
  apply canonical_short; done.
Qed.
Lemma reconcile_ok f d s a s' : reachable_root (tree s) -> signed_in f d ->
  recon_step d true false s = (Ok a, s') -> a = Uncertain \/ settled_in d (tree s').
Proof.
  intros Hroot Hd. apply signed_short in Hd. unfold reconcile_descriptor. intros H. apply act_bind_ok in H as (fr & s1 & Hfr & H).
  apply grace_check in Hfr as [-> _].
  destruct fr; [apply ret_result in H as [<- _]; by left|].
  apply catch_cases in H as [(a' & H & [= <-])|(e & s2 & _ & H)].
  - apply act_bind_ok in H as (x & s2 & Hg & H). apply act_bind_ok in H as (b & s3 & Hp & H).
    apply lift_ok in H as (authority & Hc & H). apply act_bind_ok in H as (y & s4 & H & Hr). apply ret_result in Hr as [<- <-].
    destruct (decide (authority = Uncertain)) as [->|Ha]; [by left|right]. eapply settle_ok; [|done..].
    eapply reachable_keeps; [|exact Hroot]. transitivity (tree s2).
    + exact (traces_gate (trees dirs_kept) _ _ _ _ Hg).
    + revert Hp. apply (trees_on_tree dirs_kept). unfold read_payload, read_exact. solve_moves.
  - left. destruct (expected_failure e); [|by unfold raise in H].
    apply act_bind_ok in H as (x & s3 & _ & H). by apply ret_result in H as [<- _].
Qed.
Lemma reconcile_all_keeps ds un : Traces (trees dirs_kept) (reconcile_all st enabled clock classify ds un).
Proof.
  revert un. induction ds as [|d ds IH]; intros un; cbn [reconcile_all]; [apply _|].
  apply traces_bind; [apply _..|]. intros outcome. apply traces_bind; [apply _| |done].
  destruct (bool_decide _); [|apply _]. apply traces_bind; apply _.
Qed.
Lemma fresh_weaken lo hi lo' hi' created : (lo' <= lo)%nat -> (hi <= hi')%nat -> fresh lo hi created -> fresh lo' hi' created.
Proof. intros ?? (k & ? & ?). exists k. split; [lia|done]. Qed.
Lemma reconcile_all_ready f ds un s s' : Forall (signed_in f) ds -> reachable_root (tree s) ->
  reconcile_all st enabled clock classify ds un s = (Ok false, s') ->
  un = false /\ forall d, d ∈ ds -> settled_in d (tree s') \/ fresh (reads s) (reads s') (created_ns d).
Proof.
  intros H. revert un s. induction H as [|d ds Hd Hds IH]; intros un s Hroot; cbn [reconcile_all].
  { intros [<- _]%ret_result. split; [done|]. by intros d ?%elem_of_nil. }
  intros H. apply act_bind_ok in H as (a & s1 & Ha & H). apply act_bind_ok in H as (stale & s2 & Hst & H).
  assert (tree s2 = tree s1 /\ later s1 s2) as [Et L2].
  { destruct (bool_decide _) in Hst; [|apply ret_result in Hst as [_ <-]; by split].
    unfold now, act_bind, ret in Hst. injection Hst as _ <-. split; [done|unfold later; cbn; lia]. }
  pose proof (reconcile_later _ _ _ _ _ _ Ha) as L1. pose proof (reconcile_all_later _ _ _ _ _ H) as L3.
  pose proof (reconcile_keeps _ _ _ _ Ha) as K1. unfold trees in K1.
  destruct (reconcile_all_traces f (reads s2) (reads s') ds _ s2 _ s' Hds (le_n _) (le_n _) H) as [Hsub _].
  apply IH in H as [Hun Hds']; [|rewrite Et; by eapply reachable_keeps]. unfold later in *.
  apply orb_false_iff in Hun as [-> ->]. split; [done|]. intros d' [->|Hin]%elem_of_cons.
  2: { destruct (Hds' d' Hin) as [Hs|Hf]; [by left|right]. eapply fresh_weaken; [| |exact Hf]; lia. }
  apply (reconcile_ok f) in Ha as [->|Hr]; [| |done..].
  - right. rewrite bool_decide_true in Hst by done. unfold now, act_bind, ret in Hst. injection Hst as Hst <-.
    cbn [reads] in *. bool_facts. exists (reads s1). split; [lia|done].
  - left. eapply settled_in_mono; [exact Hsub|]. by rewrite Et.
Qed.
Lemma retire_incomplete_keeps_dirs l un : Traces (trees dirs_kept) (retire_incomplete st clock classify_incomplete l un).
Proof.
  revert un. induction l as [|[[path intent] created] l IH]; intros un; cbn [retire_incomplete]; [apply _|].
  apply traces_bind; [apply _..|]. intros t. destruct (_ <? _); [done|]. destruct classify_incomplete as [ask|]; [|done].
  apply traces_bind; [apply _..|]. intros _. apply traces_bind; [apply _..|]. intros outcome.
  destruct (bool_decide _); [|done]. apply traces_bind; [apply _..|done].
Qed.
Lemma retire_incomplete_ready l un s s' : reachable_root (tree s) ->
  retire_incomplete st clock classify_incomplete l un s = (Ok false, s') ->
  un = false /\ dirs_kept (tree s) (tree s') /\ tree s' ⊆ tree s /\ forall e, e ∈ l ->
    dropped_from e.1.2 e.1.1 (tree s') \/ fresh (reads s) (reads s') e.2.
Proof.
  revert un s. induction l as [|[[path intent] created] l IH]; intros un s Hroot.
  { cbn [retire_incomplete]. intros [<- <-]%ret_result. split; [done|]. split; [done|]. split; [done|]. by intros e ?%elem_of_nil. }
  intros H. pose proof (retire_incomplete_later _ _ _ _ _ H) as L.
  apply retire_incomplete_cases in H as [(un' & H & Hun)|[[_ Hr]|(ask & x & s2 & _ & Ha & Hc & Hx & [(e & _ & ? & _)|(-> & H)])]];
    [|by destruct (Hr false)|done|].
  - pose proof (retire_incomplete_later _ _ _ _ _ H) as L'. apply IH in H as (-> & Hk & Hsub & H); [|done].
    destruct Hun as [[<- Hf]|]; [|done]. split; [done|]. split; [done|]. split; [done|]. unfold later in *. cbn [ticked reads] in *.
    intros e [->|Hin]%elem_of_cons; [right; exists (reads s); split; [lia|done]|].
    destruct (H e Hin) as [?|Hfr]; [by left|right]. eapply fresh_weaken; [| |exact Hfr]; lia.
  - pose proof (retire_incomplete_dirs _ _ _ _ Hx) as K1. pose proof (on_tree_reads _ _ _ _ Hx) as Er.
    assert (tree s2 ⊆ tree (ticked s)) as Hsub1.
    { apply (proj1 (trees_on_tree _ _ (retire_incomplete_removes (fun _ _ => True) st path (fun _ => I)) _ _ _ Hx)). }
    apply on_tree_ok, incomplete_dropped_ok in Hx; [|done].
    apply IH in H as (-> & Hk & Hsub & H); [|by eapply reachable_keeps]. split; [done|].
    split; [by etrans|]. split; [by etrans|]. intros e [->|Hin]%elem_of_cons.
    + left. eapply dropped_from_mono; [exact Hsub|]. split; [by exists ask|done].
    + destruct (H e Hin) as [?|Hfr]; [by left|right]. cbn [ticked reads] in Er. rewrite Er in Hfr.
      eapply fresh_weaken; [| |exact Hfr]; lia.
Qed.
(** C13: When a run reports the store ready, its scan was complete, and every entry the
    scan listed is dealt with or was seen, at a reading of the clock the run itself
    made, less than an hour after it was made.  A descriptor that is dealt with has
    lost its staged pair, and either its write is committed or it is absent and no
    file is left at its canonical path; a payload without descriptor that is dealt
    with belongs to an absent intent and is gone.  So no stale stage and no promoted
    file of an absent write is left behind a green status.  (The store's root is a
    directory reached through real directories, at most 3,600 levels deep.) *)
Theorem ready_means_settled s r s' : enabled = true -> reachable_root (tree s) ->
  run_once ft st pepper enabled clock classify classify_incomplete s = (r, s') -> status s' = Ready ->
  exists scan, (scan_staged_artifacts st ARTIFACT_SCAN_LIMIT (tree s) = Ok scan /\
      invalid_entry scan = false /\ overbound scan = false) /\
    (forall path, path ∈ descriptors scan -> exists d, signed_in (tree s) d /\ staged_descriptor_path d = path /\
       (settled_in d (tree s') \/ fresh (reads s) (reads s') (created_ns d))) /\
    (forall path, path ∈ incomplete_payloads scan -> exists intent created, incomplete_entry path = Some (path, intent, created) /\
       (dropped_from intent path (tree s') \/ fresh (reads s) (reads s') created)).
Proof.
  intros He Hroot [(He' & _)|(r0 & s0 & H & Et & Er & Hr)]%run_once_tree Hst; [congruence|]. rewrite (Hr Hst) in H. rewrite Et, Er.
  apply run_body_cases in H as [[_ ?]|(scan & ds & l & s1 & Hscan & Hds & Hp & Hmap & Hl & [(_ & _ & ? & _)|(un & H1 & H2)])]; [done..|].
  pose proof (retire_incomplete_later _ _ _ _ _ H1) as L1. pose proof (reconcile_all_later _ _ _ _ _ H2) as L2. unfold later in *.
  destruct (reconcile_all_traces (tree s) (reads s1) (reads s0) ds _ s1 _ s0 Hds (le_n _) (le_n _) H2) as [Hsub _].
  assert (dirs_kept (tree s) (tree s1)) as Hk by exact (retire_incomplete_keeps_dirs _ _ _ _ _ H1).
  apply (reconcile_all_ready _ _ _ _ _ Hds) in H2 as [-> H2]; [|by eapply reachable_keeps].
  apply retire_incomplete_ready in H1 as (_ & _ & _ & H1); [|done].
  exists scan. split; [done|]. split.
  - intros path Hin. rewrite <- Hp in Hin. apply list_elem_of_fmap in Hin as (d & -> & Hin). exists d.
    rewrite Forall_forall in Hds. split; [auto|]. split; [done|].
    destruct (H2 d Hin) as [?|Hf]; [by left|right]. by eapply fresh_weaken; [| |exact Hf].
  - intros path Hin. rewrite <- Hmap in Hin. apply list_elem_of_fmap in Hin as (e & -> & Hin).
    rewrite Forall_forall in Hl. destruct (Hl e Hin) as [_ He2]. destruct (H1 e Hin) as [Hd|Hf], e as [[path intent] created];
      exists intent, created; (split; [exact He2|]); [left; by eapply dropped_from_mono|right; by eapply fresh_weaken; [| |exact Hf]].
Qed.
End reconciler.

Module ReconcileDemo.
Import StagingDemo.
Definition clock (_ : nat) : Z := 10 ^ 18.
Definition verdict (a : ArtifactAuthority) (_ : ArtifactDescriptor) : Res ArtifactAuthority := Ok a.
Definition before : recon := MkRecon after NotAttempted 0.
(** The tree the run leaves, evaluated once. *)
Definition absent_entries : list (list str * node) := Eval vm_compute in
  map_to_list (tree (run_once id store pepper true clock (verdict Absent) None before).2).
Definition settled_as (entries : list (list str * node)) : recon := MkRecon (list_to_map entries) Ready 1.
#[local] Instance Readiness_eq_dec : EqDecision Readiness.
Proof. solve_decision. Defined.
Definition leaves (m : Res unit * recon) (s : recon) : bool :=
  match m with
  | (Ok _, s') => bool_decide (tree s' = tree s) && bool_decide (status s' = status s) && (reads s' =? reads s)%nat
  | (Raise _, _) => false
  end.
Lemma leaves_ok m s : leaves m s = true -> m = (Ok tt, s).
Proof.
  destruct m as [[[]|e] [t0 s0 n0]], s as [t1 s1 n1]; cbn; [|done].
  by intros [[->%bool_decide_eq_true ->%bool_decide_eq_true]%andb_true_iff ->%Nat.eqb_eq]%andb_true_iff.
Qed.
Lemma absent_run : run_once id store pepper true clock (verdict Absent) None before = (Ok tt, settled_as absent_entries).
Proof. apply leaves_ok. vm_compute. reflexivity. Qed.
Lemma promoted : tree before !! canonical_target = Some (NReg (u "# Title")).
Proof. vm_compute. reflexivity. Qed.
Lemma canonical_removed : tree (settled_as absent_entries) !! canonical_target = None.
Proof. vm_compute. reflexivity. Qed.
Lemma reachable_before : reachable_root store (tree before).
Proof.
  split; [split; [|split; [apply (bool_decide_unpack (_ ∉ _)); vm_compute; exact I|vm_compute; lia]]|vm_compute; lia].
  intros p Hp. change (p ∈ [[u "data"]]) in Hp. apply list_elem_of_singleton in Hp as ->. vm_compute. reflexivity.
Qed.
(** The one descriptor the demonstration stages. *)
Definition signed_bytes : bytes := Eval vm_compute in
  match after !! (root store ++ posix_parts (staged_descriptor_path descriptor)) with Some (NReg b) => b | _ => [] end.
Lemma signed_file : after !! (root store ++ posix_parts (staged_descriptor_path descriptor)) = Some (NReg signed_bytes).
Proof. vm_compute. reflexivity. Qed.
Lemma signed_parses : parse_signed_descriptor id signed_bytes pepper (staged_descriptor_path descriptor) = Ok descriptor.
Proof. vm_compute. reflexivity. Qed.
Lemma only_descriptor d : signed_in id store pepper after d -> staged_descriptor_path d = staged_descriptor_path descriptor ->
  d = descriptor.
Proof.
  intros (raw & [Hb _] & Hp) E. rewrite E in Hb, Hp. rewrite signed_file in Hb. injection Hb as <-.
  rewrite signed_parses in Hp. by injection Hp as <-.
Qed.
Definition listed_paths : list str := [staged_descriptor_path descriptor].
Lemma scan_listed : (let? scan := scan_staged_artifacts store ARTIFACT_SCAN_LIMIT after in Ok (descriptors scan)) = Ok listed_paths.
Proof. vm_compute. reflexivity. Qed.
Lemma descriptor_old : ~ fresh clock 0 1 (created_ns descriptor).
Proof. intros (k & _ & H). vm_compute in H. done. Qed.
End ReconcileDemo.

Lemma run_removes_only_settled_witness :
  removable id StagingDemo.store StagingDemo.pepper ReconcileDemo.clock (ReconcileDemo.verdict Absent) None 0 1
    (tree ReconcileDemo.before) StagingDemo.canonical_target (NReg (u "# Title")).
Proof.
  exact (proj2 (run_removes_only_settled _ _ _ _ _ _ _ _ _ _ ReconcileDemo.absent_run) _ _ ReconcileDemo.promoted ReconcileDemo.canonical_removed).
Defined.
Lemma ready_means_settled_witness :
  pair_retired StagingDemo.store StagingDemo.descriptor (tree (ReconcileDemo.settled_as ReconcileDemo.absent_entries)) /\
  forall b, ~ stored StagingDemo.store (canonical_path StagingDemo.descriptor) b
    (tree (ReconcileDemo.settled_as ReconcileDemo.absent_entries)).
Proof.
  destruct (ready_means_settled _ _ _ _ _ _ _ _ _ _ eq_refl ReconcileDemo.reachable_before ReconcileDemo.absent_run eq_refl)
    as (scan & (H & _) & Hd & _).
  destruct (Hd (staged_descriptor_path StagingDemo.descriptor)) as (d & Hs & Hp & Hc).
  { pose proof ReconcileDemo.scan_listed as Hl. change (tree ReconcileDemo.before) with StagingDemo.after in H. rewrite H in Hl.
    injection Hl as ->. by left. }
  apply (ReconcileDemo.only_descriptor d Hs) in Hp as ->.
  destruct Hc as [[Hpair [Hc|[_ Hn]]]|Hf]; [discriminate Hc|exact (conj Hpair Hn)|destruct (ReconcileDemo.descriptor_old Hf)].
Defined.
