(* ===== verification/IntentGates.v ===== *)
(** * The gates of artifact intents (src/apps/api/app/services/artifact_durability.py)

    [ArtifactReconciler._gate_locks] maps an intent to its lock and the number of tasks
    that use it.  Tasks of one event loop interleave at their awaits; the bodies
    under [_gate_guard] contain none, so each is one step.  A task can be cancelled at
    any await, the ones for the guard included. *)
From S2P Require Import Prelude.
Local Open Scope Z_scope.

(** Where a task stands: waiting in [lock.acquire()], in its critical section, after
    [lock.release()] or a cancelled wait and before it gives its reference back, done. *)
Inductive phase : Type := Waiting | Holding | Released | Cancelled | Gone.
Global Instance phase_eq_dec : EqDecision phase.
Proof. solve_decision. Defined.
Record task : Type := MkTask { t_intent : str; t_lock : nat; t_phase : phase }.
Record gates : Type := MkGates
  { registry : gmap str (nat * Z); locked : gset nat; tasks : gmap nat task; next_lock : nat }.
Definition no_gates : gates := MkGates ∅ ∅ ∅ 0.
Definition set_phase (t : nat) (p : phase) (g : gates) : gates :=
  MkGates (registry g) (locked g) (alter (fun k => MkTask (t_intent k) (t_lock k) p) t (tasks g)) (next_lock g).

(** [acquire_intent_gate] up to [lock.acquire()]: a new lock unless the intent has one. *)
Definition enter (t : nat) (i : str) (g : gates) : gates :=
  let '(lock, references) := default (next_lock g, 0) (registry g !! i) in
  MkGates (<[i := (lock, references + 1)]> (registry g)) (locked g) (<[t := MkTask i lock Waiting]> (tasks g)) (S (next_lock g)).
(** [lock.acquire()] returns. *)
Definition acquired (t lock : nat) (g : gates) : gates :=
  let g := set_phase t Holding g in MkGates (registry g) ({[lock]} ∪ locked g) (tasks g) (next_lock g).
(** One reference less; the last one removes the entry. *)
Definition put_back (i : str) (lock : nat) (references : Z) (g : gates) : gates :=
  MkGates (if references =? 1 then delete i (registry g) else <[i := (lock, references - 1)]> (registry g))
    (locked g) (tasks g) (next_lock g).
(** The handler of a cancelled [lock.acquire()]. *)
Definition drop_cancelled (t : nat) (i : str) (g : gates) : Res gates :=
  match registry g !! i with
  | None => Raise KeyError
  | Some (lock, references) => Ok (set_phase t Gone (put_back i lock references g))
  end.
(** [ArtifactIntentGateLease.release]: [lock.release()], then the body under the guard. *)
Definition release_lock (t lock : nat) (g : gates) : Res gates :=
  if bool_decide (lock ∈ locked g)
  then Ok (let g := set_phase t Released g in MkGates (registry g) (locked g ∖ {[lock]}) (tasks g) (next_lock g))
  else Raise RuntimeError.
Definition drop_released (t : nat) (i : str) (own : nat) (g : gates) : Res gates :=
  match registry g !! i with
  | None => Ok (set_phase t Gone g)
  | Some (lock, references) =>
      if negb (bool_decide (lock = own)) || (references <? 1) then Raise RuntimeError
      else Ok (set_phase t Gone (put_back i lock references g))
  end.

(** One step of one task. *)
Inductive gate_step (g : gates) : Res gates -> Prop :=
| gate_enter t i : tasks g !! t = None -> gate_step g (Ok (enter t i g))
| gate_acquired t k : tasks g !! t = Some k -> t_phase k = Waiting -> t_lock k ∉ locked g ->
    gate_step g (Ok (acquired t (t_lock k) g))
| gate_cancelled t k : tasks g !! t = Some k -> t_phase k = Waiting -> gate_step g (Ok (set_phase t Cancelled g))
| gate_drop_cancelled t k : tasks g !! t = Some k -> t_phase k = Cancelled -> gate_step g (drop_cancelled t (t_intent k) g)
| gate_release t k : tasks g !! t = Some k -> t_phase k = Holding -> gate_step g (release_lock t (t_lock k) g)
| gate_drop_released t k : tasks g !! t = Some k -> t_phase k = Released ->
    gate_step g (drop_released t (t_intent k) (t_lock k) g)
| gate_abandoned t k : tasks g !! t = Some k -> t_phase k ∈ [Cancelled; Released] -> gate_step g (Ok (set_phase t Gone g)).
Inductive reachable : gates -> Prop :=
| reachable_start : reachable no_gates
| reachable_step g g' : reachable g -> gate_step g (Ok g') -> reachable g'.

(** ** The invariant *)
(** A task that has a reference on the gate of [i]. *)
Definition uses (g : gates) (i : str) (t : nat) : Prop :=
  exists k, tasks g !! t = Some k /\ t_intent k = i /\ t_phase k <> Gone.
Definition references_ok (g : gates) : Prop := forall i lock references, registry g !! i = Some (lock, references) ->
  forall l, NoDup l -> (forall t, t ∈ l -> uses g i t) -> len l <= references.
Record gates_ok (g : gates) : Prop := MkGatesOk
  { registered : forall t k, tasks g !! t = Some k -> t_phase k <> Gone -> exists references, registry g !! t_intent k = Some (t_lock k, references);
    counted : references_ok g;
    held : forall t k, tasks g !! t = Some k -> t_phase k = Holding -> t_lock k ∈ locked g;
    alone : forall t t' k k', tasks g !! t = Some k -> tasks g !! t' = Some k' -> t_phase k = Holding -> t_phase k' = Holding ->
      t_lock k = t_lock k' -> t = t' }.

Lemma set_phase_lookup t p g k t' k' : tasks g !! t = Some k -> tasks (set_phase t p g) !! t' = Some k' ->
  (t' = t /\ k' = MkTask (t_intent k) (t_lock k) p) \/ (t' <> t /\ tasks g !! t' = Some k').
Proof.
  intros Hk. cbn. destruct (decide (t' = t)) as [->|Hne].
  - rewrite lookup_alter_eq, Hk. intros [= <-]. by left.
  - rewrite lookup_alter_ne by done. by right.
Qed.
Lemma uses_set_phase t p g k i t' : tasks g !! t = Some k -> uses (set_phase t p g) i t' ->
  (t' = t /\ t_intent k = i /\ p <> Gone) \/ (t' <> t /\ uses g i t').
Proof.
  intros Hk (k' & H & Hi & Hp). destruct (set_phase_lookup _ _ _ _ _ _ Hk H) as [[-> ->]|[Hne H']]; [by left|].
  right. split; [done|]. by exists k'.
Qed.
Lemma len_cons (t : nat) l : len (t :: l) = 1 + len l.
Proof. unfold len. cbn [length]. lia. Qed.
Lemma gates_ok_start : gates_ok no_gates.
Proof. split; intros; cbn in *; rewrite ?lookup_empty in *; done. Qed.
(** A change of phase that keeps the reference and the lock set. *)
Lemma set_phase_ok g t k p : gates_ok g -> tasks g !! t = Some k -> t_phase k <> Gone -> p <> Holding ->
  gates_ok (set_phase t p g).
Proof.
  intros [Hr Hc Hh Ha] Hk Hp Hn. split.
  - intros t' k' H Hp'. destruct (set_phase_lookup _ _ _ _ _ _ Hk H) as [[-> ->]|[_ H']]; [by apply (Hr t k)|by apply (Hr t' k')].
  - intros i lock references Hi l Hnd Hl. apply (Hc i lock references Hi l Hnd). intros t' Ht'.
    destruct (uses_set_phase _ _ _ _ _ _ Hk (Hl t' Ht')) as [(-> & Hik & _)|[_ H]]; [by exists k|done].
  - intros t' k' H Hp'. destruct (set_phase_lookup _ _ _ _ _ _ Hk H) as [[-> ->]|[_ H']]; [done|by apply (Hh t' k')].
  - intros t1 t2 k1 k2 H1 H2 Hp1 Hp2. destruct (set_phase_lookup _ _ _ _ _ _ Hk H1) as [[-> ->]|[_ H1']]; [done|].
    destruct (set_phase_lookup _ _ _ _ _ _ Hk H2) as [[-> ->]|[_ H2']]; [done|by apply (Ha t1 t2 k1 k2)].
Qed.
Lemma enter_ok g t i : gates_ok g -> tasks g !! t = None -> gates_ok (enter t i g).
Proof.
  intros [Hr Hc Hh Ha] Ht. unfold enter.
  destruct (default (next_lock g, 0) (registry g !! i)) as [lock references] eqn:Ed.
  assert (forall t' k, tasks g !! t' = Some k -> t_phase k <> Gone -> t_intent k = i -> t_lock k = lock) as Hlock.
  { intros t' k Hk Hp <-. destruct (Hr t' k Hk Hp) as [r Hreg]. rewrite Hreg in Ed. cbn in Ed. by injection Ed. }
  split; cbn [registry locked tasks next_lock].
  - intros t' k H Hp. rewrite lookup_insert in H. case_decide as Htt; [injection H as <-; exists (references + 1); apply lookup_insert_eq|].
    destruct (decide (t_intent k = i)) as [Hi|Hi].
    + exists (references + 1). rewrite Hi, lookup_insert_eq. do 2 f_equal. symmetry. by apply (Hlock t' k).
    + rewrite lookup_insert_ne by done. by apply (Hr t' k).
  - intros j lock' refs' Hj l Hnd Hl. cbn [registry] in Hj.
    assert (forall t', t' <> t -> uses (MkGates (<[i := (lock, references + 1)]> (registry g)) (locked g)
      (<[t := MkTask i lock Waiting]> (tasks g)) (S (next_lock g))) j t' -> uses g j t') as Hold.
    { intros t' Hne (k & Hk & Hi & Hp). cbn in Hk. rewrite lookup_insert_ne in Hk by done. by exists k. }
    rewrite lookup_insert in Hj. case_decide as Hij.
    + injection Hj as <- <-. subst j.
      assert (forall l', NoDup l' -> (forall t', t' ∈ l' -> uses g i t') -> len l' <= references) as Hg.
      { intros l' Hnd' Hl'. destruct (registry g !! i) as [[lk r]|] eqn:E.
        - cbn in Ed. injection Ed as -> ->. by apply (Hc i lock references E).
        - destruct l' as [|t0 l']; [cbn in Ed; injection Ed as _ <-; done|].
          destruct (Hl' t0) as (k & Hk & Hi & Hp); [by left|]. destruct (Hr t0 k Hk Hp) as [r Hreg]. congruence. }
      destruct (decide (t ∈ l)) as [Hin|Hin].
      * apply list_elem_of_split in Hin as (l1 & l2 & ->).
        assert (Permutation (l1 ++ t :: l2) (t :: (l1 ++ l2))) as Hp by by rewrite Permutation_middle.
        assert (len (l1 ++ t :: l2) = 1 + len (l1 ++ l2)) as -> by (unfold len; rewrite Hp; cbn [length]; lia).
        rewrite Hp in Hnd. apply NoDup_cons in Hnd as [Hnin Hnd]. specialize (Hg (l1 ++ l2) Hnd).
        assert (len (l1 ++ l2) <= references); [|lia]. apply Hg. intros t' Ht'.
        apply Hold; [by intros ->|]. apply Hl. rewrite Hp. by right.
      * assert (len l <= references); [|lia]. apply Hg; [done|]. intros t' Ht'. apply Hold; [by intros ->|by apply Hl].
    + apply (Hc j lock' refs' Hj l Hnd). intros t' Ht'. destruct (decide (t' = t)) as [->|Hne]; [|by apply Hold, Hl].
      destruct (Hl t Ht') as (k & Hk & Hi & _). cbn in Hk. rewrite lookup_insert_eq in Hk. injection Hk as <-. done.
  - intros t' k H Hp. rewrite lookup_insert in H. case_decide; [by simplify_eq|]. by apply (Hh t' k).
  - intros t1 t2 k1 k2 H1 H2 Hp1 Hp2. rewrite lookup_insert in H1. rewrite lookup_insert in H2.
    case_decide; [by simplify_eq|]. case_decide; [by simplify_eq|]. by apply (Ha t1 t2 k1 k2).
Qed.
Lemma acquired_ok g t k : gates_ok g -> tasks g !! t = Some k -> t_phase k = Waiting -> t_lock k ∉ locked g ->
  gates_ok (acquired t (t_lock k) g).
Proof.
  intros [Hr Hc Hh Ha] Hk Hw Hfree. split; cbn [registry locked next_lock acquired]; fold (tasks (set_phase t Holding g)).
  - intros t' k' H Hp. destruct (set_phase_lookup _ _ _ _ _ _ Hk H) as [[-> ->]|[_ H']]; [apply (Hr t k Hk); congruence|by apply (Hr t' k')].
  - intros i lock references Hi l Hnd Hl. apply (Hc i lock references Hi l Hnd). intros t' Ht'.
    destruct (uses_set_phase _ _ _ _ _ _ Hk (Hl t' Ht')) as [(-> & Hik & _)|[_ H]]; [exists k; split_and!; congruence|done].
  - intros t' k' H Hp. destruct (set_phase_lookup _ _ _ _ _ _ Hk H) as [[-> ->]|[_ H']]; cbn; [set_solver|].
    pose proof (Hh t' k' H' Hp). set_solver.
  - intros t1 t2 k1 k2 H1 H2 Hp1 Hp2 Hl.
    destruct (set_phase_lookup _ _ _ _ _ _ Hk H1) as [[-> ->]|[_ H1']], (set_phase_lookup _ _ _ _ _ _ Hk H2) as [[-> ->]|[_ H2']]; cbn in *.
    + done.
    + exfalso. apply Hfree. rewrite Hl. by apply (Hh t2 k2).
    + exfalso. apply Hfree. rewrite <- Hl. by apply (Hh t1 k1).
    + by apply (Ha t1 t2 k1 k2).
Qed.
Lemma release_ok g t k : gates_ok g -> tasks g !! t = Some k -> t_phase k = Holding ->
  exists g', release_lock t (t_lock k) g = Ok g' /\ gates_ok g'.
Proof.
  intros Hg Hk Hp. pose proof (held g Hg t k Hk Hp) as Hl. unfold release_lock. rewrite bool_decide_true by done.
  eexists. split; [done|]. destruct (set_phase_ok g t k Released Hg Hk) as [Hr Hc Hh Ha]; [congruence|done|].
  split; [exact Hr|exact Hc| |exact Ha]. cbn [locked tasks]. intros t' k' H Hp'. apply elem_of_difference.
  split; [by apply (Hh t' k')|]. intros Heq%elem_of_singleton.
  destruct (set_phase_lookup _ _ _ _ _ _ Hk H) as [[-> ->]|[Hne H']]; [done|]. apply Hne. by eapply (alone g Hg t' t k' k).
Qed.
(** Giving a reference back removes the entry only if no other task has one. *)
Lemma put_back_ok g t k references : gates_ok g -> tasks g !! t = Some k -> t_phase k <> Gone -> t_phase k <> Holding ->
  registry g !! t_intent k = Some (t_lock k, references) ->
  1 <= references /\ gates_ok (set_phase t Gone (put_back (t_intent k) (t_lock k) references g)).
Proof.
  intros Hg Hk Hp Hnh Hreg. pose proof Hg as [Hr Hc Hh Ha].
  assert (forall l, NoDup l -> t ∉ l -> (forall t', t' ∈ l -> uses g (t_intent k) t') -> 1 + len l <= references) as Hcount.
  { intros l Hnd Hin Hl. rewrite <- (len_cons t). apply (Hc _ _ _ Hreg); [by constructor|].
    intros t' [->|Ht']%elem_of_cons; [by exists k|by apply Hl]. }
  split; [specialize (Hcount [] ltac:(constructor) ltac:(apply not_elem_of_nil)); unfold len in Hcount; cbn in Hcount;
    apply Hcount; by intros t' ?%elem_of_nil|].
  pose proof (set_phase_ok g t k Gone Hg Hk Hp ltac:(done)) as [Hr' Hc' Hh' Ha'].
  split; [| |exact Hh'|exact Ha'].
  - intros t' k' H Hp'. destruct (set_phase_lookup _ _ _ _ _ _ Hk H) as [[-> ->]|[Hne H']]; [done|].
    destruct (Hr t' k' H' Hp') as [r Hr1]. cbn [registry put_back set_phase]. destruct (Z.eqb_spec references 1) as [->|Hn1].
    + exists r. rewrite lookup_delete_ne; [done|]. intros Hi.
      specialize (Hcount [t']). unfold len in Hcount. cbn in Hcount. enough (1 + 1 <= 1) by lia. apply Hcount.
      * apply NoDup_singleton.
      * intros ->%list_elem_of_singleton. done.
      * intros t'' ->%list_elem_of_singleton. by exists k'.
    + destruct (decide (t_intent k' = t_intent k)) as [Hi|Hi].
      * exists (references - 1). rewrite Hi, lookup_insert_eq. rewrite Hi, Hreg in Hr1. by injection Hr1 as ->.
      * exists r. by rewrite lookup_insert_ne.
  - intros i lock r Hi l Hnd Hl.
    assert (forall t', t' ∈ l -> t' <> t /\ uses g i t') as Hl'.
    { intros t' Ht'. destruct (uses_set_phase t Gone g k i t' Hk (Hl t' Ht')) as [(_ & _ & ?)|H]; done. }
    cbn [registry put_back set_phase] in Hi. destruct (Z.eqb_spec references 1) as [->|Hn1].
    + apply lookup_delete_Some in Hi as [_ Hi]. apply (Hc i lock r Hi l Hnd). intros t' Ht'. by apply Hl'.
    + rewrite lookup_insert in Hi. case_decide as Hk'; [|apply (Hc i lock r Hi l Hnd); intros t' Ht'; by apply Hl'].
      injection Hi as <- <-. subst i. enough (1 + len l <= references) by lia. apply Hcount; [done| |].
      * intros Hin. by apply Hl' in Hin as [? _].
      * intros t' Ht'. by apply Hl'.
Qed.
Lemma gate_step_ok g r : gates_ok g -> gate_step g r -> exists g', r = Ok g' /\ gates_ok g'.
Proof.
  intros Hg [t i Ht|t k Hk Hp Hl|t k Hk Hp|t k Hk Hp|t k Hk Hp|t k Hk Hp|t k Hk Hp].
  - eexists. split; [done|]. by apply enter_ok.
  - eexists. split; [done|]. by apply acquired_ok.
  - eexists. split; [done|]. by apply (set_phase_ok g t k); [..|congruence|].
  - unfold drop_cancelled. destruct (registered g Hg t k Hk) as [n Hr]; [congruence|]. rewrite Hr.
    eexists. split; [done|]. by apply put_back_ok; [..|congruence|congruence|].
  - by apply release_ok.
  - unfold drop_released. destruct (registered g Hg t k Hk) as [n Hr]; [congruence|]. rewrite Hr.
    destruct (put_back_ok g t k n) as [H1 H2]; [done..|congruence|congruence|done|].
    rewrite bool_decide_true, (proj2 (Z.ltb_ge n 1)) by (done || lia). eexists. split; [done|done].
  - eexists. split; [done|]. apply (set_phase_ok g t k); [done|done| |done].
    apply elem_of_cons in Hp as [->|Hp]; [done|]. apply list_elem_of_singleton in Hp. congruence.
Qed.
(** C16: Whatever the order in which tasks enter, are cancelled, release and give their
    references back (or are cancelled before they do), at most one task at a time is
    in the critical section of an intent, and no step fails: the registry always has
    the task's own lock with a reference left. *)
Theorem gate_is_exclusive g : reachable g ->
  (forall t t' k k', tasks g !! t = Some k -> tasks g !! t' = Some k' -> t_phase k = Holding -> t_phase k' = Holding ->
     t_intent k = t_intent k' -> t = t') /\
  (forall r, gate_step g r -> exists g', r = Ok g').
Proof.
  intros H. assert (gates_ok g) as Hg.
  { induction H as [|g g' _ IH Hs]; [apply gates_ok_start|]. apply (gate_step_ok _ _ IH) in Hs as (g1 & [= <-] & ?). done. }
  split.
  - intros t t' k k' Hk Hk' Hp Hp' Hi. apply (alone g Hg t t' k k'); try done.
    destruct (registered g Hg t k Hk) as [r Hr]; [congruence|]. destruct (registered g Hg t' k' Hk') as [r' Hr']; [congruence|].
    rewrite Hi, Hr' in Hr. by injection Hr.
  - intros r Hs. destruct (gate_step_ok _ _ Hg Hs) as (g' & -> & _). by exists g'.
Qed.

Module GateDemo.
(** Two tasks on one intent: the first holds the gate, the second waits. *)
Definition contended : gates := acquired 0 0 (enter 1 (u "intent") (enter 0 (u "intent") no_gates)).
Lemma contended_reachable : reachable contended.
Proof.
  eapply reachable_step; [eapply reachable_step; [eapply reachable_step; [apply reachable_start|]|]|].
  - by apply (gate_enter _ 0 (u "intent")).
  - apply (gate_enter _ 1 (u "intent")). vm_compute. reflexivity.
  - apply (gate_acquired _ 0 (MkTask (u "intent") 0 Waiting)); [vm_compute; reflexivity|done|].
    apply (bool_decide_unpack (_ ∉ _)). vm_compute. exact I.
Qed.
Lemma no_free_lock : gate_step contended (release_lock 0 0 contended).
Proof. apply (gate_release contended 0 (MkTask (u "intent") 0 Holding)); [vm_compute; reflexivity|done]. Qed.
End GateDemo.
Lemma gate_is_exclusive_witness : exists g, release_lock 0 0 GateDemo.contended = Ok g.
Proof. exact (proj2 (gate_is_exclusive _ GateDemo.contended_reachable) _ GateDemo.no_free_lock). Defined.
